(* ===== verification/_CoqProject ===== *)
-Q . S2P
Prelude.v
Text.v
Double.v
StdHeap.v
Bytes.v
Config.v
ConfigLoad.v
ConfigProps.v
Types.v
BlockQueue.v
SlidingWindow.v
QueueTest.v
Messages.v
DeclBook.v
StockExchange.v
MatchSpec.v
Matching.v
MatchProps.v
OrderedCommit.v
EngineSafety.v
EngineProps.v
RunBounds.v
Exchange.v
ExchangeProps.v
Trader.v
TraderProps.v
TradeReceiver.v
TradeReceiverProps.v
Protocol.v
ProtocolProps.v
StockFlow.v
Rules.v
System.v
SystemInv.v
SystemProps.v
World.v
WorldView.v
WorldInv.v
WorldProps.v
WorldLive.v
Processes.v
ProcessesSim.v
ProcessesLive.v
ProcessesProps.v
Loader.v
LoaderProps.v
WorldStart.v
WorldRounds.v
OrderGen.v
OrderGenProps.v
CacheProps.v
RunModes.v
Socket.v
SocketServer.v
SocketProps.v
Logger.v
Monitor.v
Util.v
Assertion.v
Channel.v
ChannelProps.v
Console.v
Node.v
ConsoleProps.v
OutputDiff.v
