(* ===== verification/Prelude.v ===== *)
(** * A verification library for PPIW-Trading

    ** The program

    Traders and exchanges are separate processes, joined by ZeroMQ sockets.
    A trader ([src/trader.cpp]) loads its share of the orders
    ([src/common/loader.hpp]), sends every order once its id has come into the
    stock's window and its hook and price limits allow it
    ([src/trader/trader_controller.cpp]), and writes the trades it is told of
    to one file per stock ([src/trader/trade_receiver.cpp]).  An exchange
    ([src/exchange.cpp]) owns some of the stocks.  Its order receiver stores
    orders in one sliding window per stock; the thread of a stock empties the
    window in the order of ids, acknowledges the last order taken, and matches
    the orders against the declaration book; acknowledgements and trades go
    to every trader.  Acknowledgements move the traders' windows; volumes of
    trades feed the hooks.

    ** Conventions

    A function of the program is a function of the model on an explicit
    state; its result is an [outcome] (this file): a value, or the first fault.
    An [int] is a [Z] in range with [SignedOverflow] where C++ has undefined
    behaviour, a [size_t] is a [Z] modulo 2^64, a [double] is a [spec_float]
    ([Double]).  Vectors are lists, maps and arrays of maps are [gmap]s, the
    memory image of a value is given by a [Pod] ([Bytes]).  A method that
    waits for a condition returns an [attempt] ([Blocked] or [Ran]).  A
    method that holds a mutex from begin to end is one step.

    ** The files

    Shared: [Prelude] (outcomes, machine integers, arrays, loops, tactics),
    [Text] (getline, istringstream, atoi), [Double], [StdHeap]
    (push_heap and pop_heap: the contract [HeapLib] and the GNU
    implementation), [Bytes].

    The data ([src/common/]): [Config], [ConfigLoad] and [ConfigProps]
    (config.h, config.cpp), [Types] (type.hpp), [BlockQueue]
    (block_queue.hpp, with the interface [Fifo]), [SlidingWindow]
    (sliding_window.hpp), [Messages] (what the senders build and the receivers
    parse).

    The exchange ([src/exchange/]): [DeclBook] (record.hpp,
    stock_decl_book.hpp), [StockExchange] (stock_exchange.cpp),
    [Exchange] (exchange.cpp, order_receiver.cpp).  [MatchSpec] states what
    matching means on two sorted lists; [Matching], [MatchProps],
    [OrderedCommit], [EngineSafety], [EngineProps] and [RunBounds] show the
    engine implements it; [ExchangeProps] is about the process.

    The trader ([src/trader/], loader.hpp): [Trader] and [TraderProps]
    (SharedTradeInfo, the order test, run_all_in_memory), [TradeReceiver] and
    [TradeReceiverProps] (trade_receiver.cpp, the reading of trade files),
    [Loader] and [LoaderProps] (the matrices, hooks, price limits),
    [OrderGen], [OrderGenProps], [CacheProps] and [RunModes] (the order cache,
    run).

    Between them: [Protocol] and [ProtocolProps] are the flow of the orders of
    one stock, with channels as queues; [StockFlow] joins it with the engine;
    [Rules] has what the traders decide about their orders as a machine of
    its own, whose runs all come to the same end.
    [System], [SystemInv] and [SystemProps] add the messages as bytes, the
    trades and the files of one stock.  [World] has all traders, exchanges and
    stocks with every thread and queue between them; [WorldView] is the view
    of one stock in it and the invariant, [WorldInv] shows every step keeps
    it, [WorldProps] and [WorldLive] are about its runs, [WorldStart] shows
    that the constructors and [load_data] give its initial states, and
    [WorldRounds] that the steps of the trader's controller make up one pass
    of its loop, which sends what is due.  A step of [World] is a whole round of a thread;
    [Processes] has the threads one queue operation at a time, the spin locks
    of the senders and of the receiver and the consoles that take them;
    [ProcessesSim] simulates it by [World], [ProcessesLive] brings every
    thread back to the start of its loop, and [ProcessesProps] has the
    theorems.  [Channel] and [ChannelProps] are the socket channels
    (msg_sender.h, msg_receiver.h and their set-up, pause and reset).

    Around them: [Socket], [SocketServer] and [SocketProps] (the RPC layer of
    [src/network/]), [Logger] (logger2.hpp), [Monitor] (monitor.hpp,
    timer.hpp, global.hpp), [Util] (threads, errors, helpers, signals),
    [Assertion] (assertion.hpp), [QueueTest] (the test programs of the queue
    and of the window), [Console], [Node] and [ConsoleProps] (console.hpp, the
    main functions, the query tool), [OutputDiff] (output_diff.cpp, debug.hpp).

    ** What is shown

    - The whole program: in every interleaving of the single operations of
      all threads of all processes, with pause and restart commands at any
      time, no thread reaches a fault, the engine of every stock has done what
      its specification says of the orders by id, and every trader's file of
      the stock is a prefix of the specified trades with the rest on its way
      ([ProcessesProps.processes_safe]).  Hooks let the orders of a stock wait
      for the trades of another; all the same the result does not depend on
      the interleaving: the orders delivered are the first of
      [WorldProps.final_orders], which [Rules.settled] computes from the
      input, and if the queues have room for a message, every run can be
      continued until every file has exactly the trades for them
      ([ProcessesProps.processes_complete]).  These theorems rest on
      [WorldProps.world_safe] and [WorldLive.world_completes], which say it of
      runs of [World].  A trader as it is constructed
      and loaded can start ([WorldStart]).  [SystemProps] and [ProtocolProps]
      show the same on coarser levels, where runs are shorter to reason about.
    - The engine: it refines [spec_commit] for every order type; arrival order
      does not matter; the book is never crossed; volume is conserved; prices
      and priorities of trades; all-or-nothing, five-level and assertion
      behaviour; its loops end ([EngineProps]).
    - Queues and windows behave as their abstract queue and window
      ([BlockQueue], [SlidingWindow]); the protocol of windows and
      acknowledgements is safe and does not deadlock ([ProtocolProps]).
    - Files: trades, orders, messages, configuration and order cache come
      back as they were written ([TradeReceiverProps], [ExchangeProps],
      [ConfigProps], [CacheProps]); orders are split and sorted without loss
      ([LoaderProps]); with ten stocks, a multiple of ten orders for each and
      no order of type -1 in the input, the thread of the controller sends the
      same orders in all three loading modes, from the cache and from the
      matrices in memory ([RunModes.run_modes_agree]); the cache drops what is
      left over of the ten tenths, and an order of type -1 ends the orders of
      its stock ([CacheProps]); the comparison tool reports exactly the first
      trade in which two files differ ([OutputDiff.output_diff_finds]).
    - Network and console: a message is transferred completely or an error
      is reported ([SocketProps]); both sides of a channel compute the same
      addresses ([ChannelProps]); pausing and restarting ([ConsoleProps]).
    - Where the code does not do what it means to, a lemma states what it
      does (a stale order blocks its stock, a reset before the first send
      throws, the server deadlocks when it closes a connection, and others).

    ** Interfaces

    Code outside of the repository is a class: [HeapLib] (with an instance that
    is proved to meet it), [FileIO] (open, write, fdatasync), [HDF5], [Posix],
    [Zmq], [ProgramOptions]; [HDF5Laws], [PosixLaws], [ZmqLaws] and
    [reliable_io] are what is relied on, each with an instance in the concrete
    examples.  [Fifo] is what the senders rely on of a queue, [Node] what
    the console relies on of a process; both are implemented here.

    ** Fuel

    Loops whose end is not structural take fuel and give [OutOfFuel] without
    it.  The matching loops have one iteration more than the side they consume
    has declarations, since each one removes a declaration or empties the
    order ([EngineSafety], [EngineProps.receive_all_terminates]; the loop of
    the counterparty's best price needs one more).  [commit_ready] has one more
    than orders wait, [poll_all] one more than the window has slots
    ([Exchange.poll_all_law]), [batch_loop] 101 for its limit of 100,
    [read_trades] one more than the file has bytes, [stream2items] one more
    than the text has characters ([ConfigProps.stream2items_total]).  The
    socket loops need the length of the data and the bound on transient errors
    ([PosixLaws]); [feed] takes two iterations for a message and one at its
    end.  Only the polling [recv] is left with fuel of its caller, since nothing
    bounds how long a peer stays silent.

    ** Not modelled

    The vendored ZeroMQ headers, HDF5 and Boost are third-party code, the
    directories io_example and test stand-alone demonstrations.  The timed
    [offer] and [poll] of the queues do not compile when instantiated.  Reading
    the cycle counter and the system memory and the affinity call are system
    calls; the frames of a stack trace and the names behind mangled names are
    parameters ([Backtrace] in [Util]), and the signals come from outside
    ([handle_signal]).  Threads interleave at the level of
    the steps of [Processes] (a critical section, a queue operation or a pass
    of a matching round is one step); weaker memory behaviour is not
    considered.  [Processes] and [World] run the traders with their orders in
    memory ([run_all_in_memory]; the other modes of [run] are equivalent by
    [RunModes]), have the pause and restart commands but not the reset of
    the network ([Console], [ChannelProps]), and take a connected channel as a
    queue that loses nothing, as ZeroMQ documents it.
    Log output is modelled in [Logger] and left out elsewhere. *)

From Stdlib Require Export ZArith Lia.
From stdpp Require Export base tactics option sorting numbers sets.
From stdpp Require Export list.

#[global] Open Scope Z_scope.

(** ** Outcomes of C++ code

    A computation either finishes or stops at the first fault: a failing
    [assert], a signed overflow or a division by zero (undefined
    behaviour), an access out
    of bounds or through a null pointer, the use of a variable that was not
    initialised, or a thrown exception.  [OutOfFuel]
    is not a C++ outcome; it is what a loop of the model returns when its
    iteration budget is used up, and the development proves it away. *)
Inductive fault :=
  | AssertFailed
  | SignedOverflow
  | DivByZero
  | OutOfBounds
  | NullDeref
  | Thrown
  | Uninitialized
  | OutOfFuel.

#[export] Instance fault_eq_dec : EqDecision fault.
Proof. solve_decision. Defined.

Inductive outcome (A : Type) :=
  | Done (a : A)
  | Fault (f : fault).
Arguments Done {A} a.
Arguments Fault {A} f.

#[export] Instance outcome_ret : MRet outcome := fun A a => Done a.
#[export] Instance outcome_bind : MBind outcome := fun A B k m =>
  match m with Done a => k a | Fault f => Fault f end.
#[export] Instance outcome_fmap : FMap outcome := fun A B g m =>
  match m with Done a => Done (g a) | Fault f => Fault f end.

Definition is_done {A} (m : outcome A) : bool :=
  match m with Done _ => true | Fault _ => false end.

(** [assert(b)]: the build defines no [NDEBUG]. *)
Definition cassert (b : bool) : outcome unit :=
  if b then Done tt else Fault AssertFailed.

(** [ASSERT(b)] of [utils/assertion.hpp] throws a [UbiquantException]
    ([UBIQUANT_LOGGER_THROW_ON_FAILURE] is defined). *)
Definition ASSERT (b : bool) : outcome unit :=
  if b then Done tt else Fault Thrown.

(** [try { m } catch (...) { handler }]: exceptions are caught, an abort or
    undefined behaviour is not. *)
Definition catch_all {A} (m handler : outcome A) : outcome A :=
  match m with Fault Thrown => handler | _ => m end.

(** ** Code that may end the process

    [exit(code)] ends it in the middle of a computation; everything else is
    an outcome. *)
Inductive proc (A : Type) :=
  | Running (m : outcome A)
  | Exited (code : Z).
Arguments Running {A} m.
Arguments Exited {A} code.

#[export] Instance proc_ret : MRet proc := fun A a => Running (Done a).
#[export] Instance proc_bind : MBind proc := fun A B k m =>
  match m with
  | Running (Done a) => k a
  | Running (Fault f) => Running (Fault f)
  | Exited code => Exited code
  end.

(** A critical section that waits on a condition variable: it either cannot
    run in the current state, or runs to its end. *)
Inductive attempt (A : Type) :=
  | Blocked
  | Ran (m : outcome A).
Arguments Blocked {A}.
Arguments Ran {A} m.

(** [lock; cond.wait(lock, ready); body]. *)
Definition wait_until {A} (ready : bool) (body : outcome A) : attempt A :=
  if ready then Ran body else Blocked.

Definition attempt_map {A B} (f : A -> B) (m : attempt A) : attempt B :=
  match m with Blocked => Blocked | Ran m => Ran (a ← m; Done (f a)) end.

(** ** 32-bit signed integers

    An [int] is a [Z]; arithmetic that leaves the range is undefined
    behaviour, which the model reports as [SignedOverflow]. *)
Definition INT_MIN : Z := -2147483648.
Definition INT_MAX : Z := 2147483647.

Definition is_int (z : Z) : bool := (INT_MIN <=? z) && (z <=? INT_MAX).
Definition chk_int (z : Z) : outcome Z :=
  if is_int z then Done z else Fault SignedOverflow.
Definition int_add (a b : Z) : outcome Z := chk_int (a + b).
Definition int_sub (a b : Z) : outcome Z := chk_int (a - b).
(** [%] truncates towards zero; it is undefined where the quotient is not an
    [int]. *)
Definition int_mod (a b : Z) : outcome Z :=
  if b =? 0 then Fault DivByZero
  else if (a =? INT_MIN) && (b =? -1) then Fault SignedOverflow
  else Done (Z.rem a b).
Definition int_mul (a b : Z) : outcome Z := chk_int (a * b).
Definition int_div (a b : Z) : outcome Z :=
  if b =? 0 then Fault DivByZero else chk_int (Z.quot a b).

(** ** [size_t]

    Unsigned 64-bit numbers wrap around; an [int] operand is converted. *)
Definition to_size (z : Z) : Z := z mod 2 ^ 64.
Definition size_add (a b : Z) : Z := to_size (a + b).
Definition size_mod (a b : Z) : outcome Z :=
  if b =? 0 then Fault DivByZero else Done (a mod b).

(** ** Automation *)
Create HintDb cxx discriminated.

Ltac simpl_outcome :=
  unfold mbind, mret, fmap, outcome_bind, outcome_ret, outcome_fmap in *;
  simpl in *.

Ltac case_if :=
  match goal with
  | |- context [if ?b then _ else _] => destruct b eqn:?
  | H : context [if ?b then _ else _] |- _ => destruct b eqn:?
  end.

(** Turn boolean tests of the code into the propositions they decide. *)
Ltac to_prop :=
  repeat match goal with
  | H : (_ || _) = false |- _ => apply orb_false_iff in H as [? ?]
  | H : negb _ = true |- _ => apply negb_true_iff in H
  | H : (_ && _) = true |- _ => apply andb_true_iff in H as [? ?]
  | H : negb _ = false |- _ => apply negb_false_iff in H
  | H : (_ && _) = false |- _ => apply andb_false_iff in H
  | H : (_ || _) = true |- _ => apply orb_true_iff in H
  | H : (_ <? _)%Z = true |- _ => apply Z.ltb_lt in H
  | H : (_ <=? _)%Z = true |- _ => apply Z.leb_le in H
  | H : (_ <? _)%Z = false |- _ => apply Z.ltb_ge in H
  | H : (_ =? _)%Z = true |- _ => apply Z.eqb_eq in H
  | H : (_ <=? _)%Z = false |- _ => apply Z.leb_gt in H
  | H : (_ =? _)%Z = false |- _ => apply Z.eqb_neq in H
  end.

(** ** Lemmas on outcomes and integers *)
Lemma is_int_spec z : is_int z = true <-> INT_MIN <= z <= INT_MAX.
Proof. unfold is_int. rewrite andb_true_iff, !Z.leb_le. done. Qed.

Lemma chk_int_ok z : INT_MIN <= z <= INT_MAX -> chk_int z = Done z.
Proof. intros H. unfold chk_int. by rewrite (proj2 (is_int_spec z) H). Qed.

Lemma chk_int_inv z r : chk_int z = Done r -> r = z /\ INT_MIN <= z <= INT_MAX.
Proof.
  unfold chk_int. destruct (is_int z) eqn:E; [|done].
  intros [= <-]. split; [done|]. by apply is_int_spec.
Qed.

Lemma int_add_ok a b : INT_MIN <= a + b <= INT_MAX -> int_add a b = Done (a + b).
Proof. apply chk_int_ok. Qed.

Lemma int_sub_ok a b : INT_MIN <= a - b <= INT_MAX -> int_sub a b = Done (a - b).
Proof. apply chk_int_ok. Qed.

Lemma bind_Done {A B} (k : A -> outcome B) a : (Done a ≫= k) = k a.
Proof. done. Qed.

Lemma bind_done {A B} (k : A -> outcome B) m b :
  (m ≫= k) = Done b -> exists a, m = Done a /\ k a = Done b.
Proof. destruct m; simpl; [eauto|done]. Qed.

Lemma int_mul_ok a b : INT_MIN <= a * b <= INT_MAX -> int_mul a b = Done (a * b).
Proof. apply chk_int_ok. Qed.

Lemma int_mod_ok a b : 0 <= a -> 0 < b -> int_mod a b = Done (a mod b).
Proof.
  intros Ha Hb. unfold int_mod. destruct (Z.eqb_spec b 0); [lia|].
  replace (a =? INT_MIN) with false by (unfold INT_MIN; lia). cbn [andb].
  by rewrite Z.rem_mod_nonneg by lia.
Qed.

Lemma to_size_small z : 0 <= z < 2 ^ 64 -> to_size z = z.
Proof. intros Hz. unfold to_size. by rewrite Z.mod_small. Qed.

(** Advancing an index of a ring of [cap] slots, [cap] an [int]. *)
Lemma ring_next i cap :
  0 <= i < cap -> cap <= INT_MAX -> size_mod (size_add i 1) (to_size cap) = Done ((i + 1) mod cap).
Proof.
  intros Hi Hc. unfold INT_MAX in Hc. unfold size_add. rewrite !to_size_small by lia.
  unfold size_mod. destruct (Z.eqb_spec cap 0); [lia|done].
Qed.

#[export] Hint Resolve chk_int_ok int_add_ok int_sub_ok : cxx.

(** Invert every successful bind of a hypothesis. *)
Ltac inv_bind :=
  repeat match goal with
  | H : (_ ≫= _) = Done _ |- _ => apply bind_done in H as (? & ? & ?)
  | H : mret _ = Done _ |- _ => injection H as ?; subst
  | H : Done _ = Done _ |- _ => injection H as ?; subst
  | H : Fault _ = Done _ |- _ => discriminate H
  end.

(** [m] finishes with a result in [P] or stops at a fault of the program; it
    is never out of fuel. *)
Definition safe {A} (P : A -> Prop) (m : outcome A) : Prop :=
  match m with Done a => P a | Fault f => f <> OutOfFuel end.

Lemma safe_bind {A B} (P : A -> Prop) (Q : B -> Prop) (m : outcome A) (k : A -> outcome B) :
  safe P m -> (forall a, P a -> safe Q (k a)) -> safe Q (m ≫= k).
Proof. destruct m; simpl; auto. Qed.

Lemma safe_mono {A} (P Q : A -> Prop) (m : outcome A) :
  safe P m -> (forall a, P a -> Q a) -> safe Q m.
Proof. destruct m; simpl; auto. Qed.

Lemma safe_chk_int z : safe (fun r => r = z /\ INT_MIN <= z <= INT_MAX) (chk_int z).
Proof. unfold chk_int. destruct (is_int z) eqn:E; simpl; [|done]. by apply is_int_spec in E. Qed.

Lemma safe_cassert b : safe (fun _ => b = true) (cassert b).
Proof. by destruct b. Qed.

Lemma safe_fuel {A} (P : A -> Prop) m : safe P m -> m <> Fault OutOfFuel.
Proof. destruct m; simpl; congruence. Qed.

(** ** Arrays

    Reading or writing a [std::vector] or an array of the heap by index; out
    of range is undefined behaviour. *)
Definition array_get {A} (m : list A) (i : Z) : outcome A :=
  if i <? 0 then Fault OutOfBounds
  else match m !! Z.to_nat i with Some a => Done a | None => Fault OutOfBounds end.

Definition array_set {A} (m : list A) (i : Z) (a : A) : outcome (list A) :=
  if (0 <=? i) && (i <? Z.of_nat (length m)) then Done (<[Z.to_nat i := a]> m)
  else Fault OutOfBounds.

Lemma array_get_ok {A} (m : list A) i a : 0 <= i -> m !! Z.to_nat i = Some a -> array_get m i = Done a.
Proof. intros Hi E. unfold array_get. destruct (Z.ltb_spec i 0); [lia|]. by rewrite E. Qed.

Lemma array_get_inv {A} (m : list A) i a :
  array_get m i = Done a -> 0 <= i /\ m !! Z.to_nat i = Some a.
Proof.
  unfold array_get. destruct (Z.ltb_spec i 0); [done|].
  destruct (m !! Z.to_nat i) eqn:E; [|done]. intros [= ->]. done.
Qed.

Lemma array_get_total {A} (m : list A) i :
  0 <= i < Z.of_nat (length m) -> exists a, m !! Z.to_nat i = Some a /\ array_get m i = Done a.
Proof.
  intros Hi. destruct (lookup_lt_is_Some_2 m (Z.to_nat i)) as [a Ha]; [lia|].
  exists a. split; [done|]. by apply array_get_ok; [lia|].
Qed.

Lemma array_set_ok {A} (m : list A) i a :
  0 <= i < Z.of_nat (length m) -> array_set m i a = Done (<[Z.to_nat i := a]> m).
Proof.
  intros Hi. unfold array_set. rewrite (proj2 (Z.leb_le 0 i)) by lia.
  by rewrite (proj2 (Z.ltb_lt _ _)) by lia.
Qed.

(** [std::vector<T>(n, a)]; a negative [int] becomes a huge [size_t], and the
    constructor throws. *)
Definition vec_new {A} (n : Z) (a : A) : outcome (list A) :=
  if n <? 0 then Fault Thrown else Done (replicate (Z.to_nat n) a).

(** [f] applied to the element at [i] in place. *)
Definition array_update {A} (m : list A) (i : Z) (f : A -> outcome A) : outcome (list A) :=
  a ← array_get m i;
  b ← f a;
  array_set m i b.

Lemma array_update_ok {A} (m : list A) i f a b :
  0 <= i -> m !! Z.to_nat i = Some a -> f a = Done b ->
  array_update m i f = Done (<[Z.to_nat i := b]> m).
Proof.
  intros Hi Ha Hf. unfold array_update. rewrite (array_get_ok _ _ a), bind_Done, Hf, bind_Done by done.
  apply array_set_ok. apply lookup_lt_Some in Ha. lia.
Qed.

(** ** Counting loops

    [for (int j = i; j < i + n; j++) body]. *)
Fixpoint for_loop {S} (n : nat) (i : Z) (body : Z -> S -> outcome S) (s : S) : outcome S :=
  match n with
  | O => Done s
  | Datatypes.S n => s ← body i s; for_loop n (i + 1) body s
  end.

(** [for (int j = 0; j < hi; j++) body]. *)
Definition for_lt {S} (hi : Z) (body : Z -> S -> outcome S) (s : S) : outcome S :=
  for_loop (Z.to_nat hi) 0 body s.

Lemma for_loop_inv {S} (P : Z -> S -> Prop) n i body s :
  P i s ->
  (forall j s, i <= j < i + Z.of_nat n -> P j s -> exists s', body j s = Done s' /\ P (j + 1) s') ->
  exists s', for_loop n i body s = Done s' /\ P (i + Z.of_nat n) s'.
Proof.
  revert i s. induction n as [|n IH]; intros i s Hi Hb; cbn [for_loop].
  - exists s. by rewrite Z.add_0_r.
  - destruct (Hb i s) as (s' & -> & Hs'); [lia|done|]. rewrite bind_Done.
    destruct (IH (i + 1) s' Hs') as (s'' & E & Hs''); [intros j s1 Hj; apply Hb; lia|].
    exists s''. split; [done|]. by replace (i + Z.of_nat (Datatypes.S n)) with (i + 1 + Z.of_nat n) by lia.
Qed.

(** The rule of [for_lt]: an invariant that holds at 0 and that every
    iteration carries one further holds at the bound, and the loop ends. *)
Lemma for_lt_inv {S} (P : Z -> S -> Prop) hi body s :
  0 <= hi -> P 0 s ->
  (forall j s, 0 <= j < hi -> P j s -> exists s', body j s = Done s' /\ P (j + 1) s') ->
  exists s', for_lt hi body s = Done s' /\ P hi s'.
Proof.
  intros Hhi H0 Hb. destruct (for_loop_inv P (Z.to_nat hi) 0 body s H0) as (s' & E & Hs').
  - intros j s' Hj. apply Hb. lia.
  - exists s'. split; [done|]. by replace hi with (0 + Z.of_nat (Z.to_nat hi)) by lia.
Qed.

(** A loop stops at a fault of its body. *)
Lemma for_lt_fault {S} (P : fault -> Prop) hi body (s : S) f :
  (forall j s f, body j s = Fault f -> P f) -> for_lt hi body s = Fault f -> P f.
Proof.
  intros Hb. unfold for_lt. generalize (Z.to_nat hi) as n, 0. intros n. revert s.
  induction n as [|n IH]; intros s i; cbn [for_loop]; [done|].
  destruct (body i s) as [s'|f'] eqn:E; [apply IH|]. intros [= <-]. by eapply Hb.
Qed.

(** What every iteration that finishes preserves holds when the loop does. *)
Lemma for_lt_done {S} (P : Z -> S -> Prop) hi body s s' :
  0 <= hi -> P 0 s -> for_lt hi body s = Done s' ->
  (forall j s s1, 0 <= j < hi -> P j s -> body j s = Done s1 -> P (j + 1) s1) ->
  P hi s'.
Proof.
  intros Hhi H0 E Hb. unfold for_lt in E.
  assert (Hgen : forall n i s, 0 <= i -> i + Z.of_nat n = hi -> P i s -> for_loop n i body s = Done s' -> P hi s').
  { induction n as [|n IH]; intros i s0 Hi Hn Hs; cbn [for_loop].
    - intros [= <-]. by replace hi with i by lia.
    - intros (s1 & E1 & E2)%bind_done. apply (IH (i + 1) s1); [lia|lia| |done]. by apply (Hb i s0); [lia| |]. }
  apply (Hgen (Z.to_nat hi) 0 s); [lia|lia|done|done].
Qed.

Lemma array_update_inv {A} (m : list A) i f m' :
  array_update m i f = Done m' ->
  exists a b, 0 <= i /\ m !! Z.to_nat i = Some a /\ f a = Done b /\ m' = <[Z.to_nat i := b]> m.
Proof.
  unfold array_update. intros (a & Ha & Hk)%bind_done. apply bind_done in Hk as (b & Hb & Hs).
  apply array_get_inv in Ha as [Hi Ha]. exists a, b. do 3 (split; [done|]).
  rewrite array_set_ok in Hs by (apply lookup_lt_Some in Ha; lia). by injection Hs.
Qed.

Lemma int_div_ok a b : 0 <= a <= INT_MAX -> 0 < b -> int_div a b = Done (a / b).
Proof.
  intros Ha Hb. unfold int_div. destruct (Z.eqb_spec b 0); [lia|].
  rewrite Z.quot_div_nonneg by lia. apply chk_int_ok.
  assert (0 <= a / b <= a) by (split; [by apply Z.div_pos; lia|apply Z.div_le_upper_bound; nia]).
  unfold INT_MIN, INT_MAX in *. lia.
Qed.

(** ** Lemmas on lists *)
Section lists.
Context {A : Type}.
Implicit Types (l : list A).

Lemma insert_cons_delete l j v :
  (j < length l)%nat -> <[j:=v]> l ≡ₚ v :: delete j l.
Proof.
  intros Hj. rewrite (delete_Permutation (<[j:=v]> l) j v)
    by (by apply list_lookup_insert_eq).
  f_equiv. clear -l. revert j. induction l as [|y l IH]; intros [|j]; simpl; [done..|].
  by rewrite IH.
Qed.

(** Moving the element at [i] into the slot [j] and writing [v] at [i]
    permutes the list that has [v] at [j]. *)
Lemma insert_move_perm l i j x v :
  l !! i = Some x -> (j < length l)%nat -> i <> j ->
  <[i:=v]> (<[j:=x]> l) ≡ₚ <[j:=v]> l.
Proof.
  intros Hi Hj Hne. assert (Hi' : <[j:=x]> l !! i = Some x) by (by rewrite list_lookup_insert_ne).
  pose proof (lookup_lt_Some _ _ _ Hi').
  rewrite (insert_cons_delete (<[j:=x]> l) i v) by done.
  rewrite (insert_cons_delete l j v) by done. f_equiv.
  apply (Permutation_cons_inv (a := x)).
  rewrite <- (delete_Permutation _ _ _ Hi'). by apply insert_cons_delete.
Qed.
End lists.

Lemma sum_list_same {A} (f g : A -> nat) xs :
  (forall x, x ∈ xs -> f x = g x) -> sum_list_with f xs = sum_list_with g xs.
Proof.
  induction xs as [|x xs IH]; intros Hfg; [done|]. simpl. rewrite Hfg by left. f_equal. apply IH.
  intros y Hy. apply Hfg. by right.
Qed.

(** An element without duplicates is in one of the lists. *)
Lemma nodup_concat {A} (ls : list (list A)) i j l l' x :
  NoDup (concat ls) -> ls !! i = Some l -> ls !! j = Some l' -> x ∈ l -> x ∈ l' -> i = j.
Proof.
  intros Hnd Hi Hj Hx Hx'. revert i j Hi Hj. induction ls as [|l0 ls IH]; intros i j Hi Hj; [done|].
  simpl in Hnd. apply NoDup_app in Hnd as (_ & Hdis & Hnd).
  assert (Hin : forall k m, ls !! k = Some m -> x ∈ m -> x ∈ concat ls).
  { intros k m Hk Hm. apply list_elem_of_In, in_concat. exists m. rewrite <- !list_elem_of_In.
    split; [by eapply list_elem_of_lookup_2|done]. }
  destruct i as [|i], j as [|j]; simpl in *; simplify_eq; [done| | |].
  - destruct (Hdis x Hx). by eapply Hin.
  - destruct (Hdis x Hx'). by eapply Hin.
  - f_equal. by apply IH.
Qed.

(** Two functions that differ at one element. *)
Lemma sum_list_change {A} (f g : A -> nat) xs i :
  NoDup xs -> i ∈ xs -> (forall j, j <> i -> f j = g j) ->
  (sum_list_with f xs + g i = sum_list_with g xs + f i)%nat.
Proof.
  intros Hnd Hi Hfg. induction Hnd as [|x xs Hx Hnd IH]; [by apply not_elem_of_nil in Hi|]. simpl.
  apply elem_of_cons in Hi as [->|Hi].
  - rewrite (sum_list_same f g xs); [lia|]. intros y Hy. apply Hfg. intros ->. done.
  - rewrite (Hfg x) by (intros ->; done). specialize (IH Hi). lia.
Qed.

Lemma sum_list_insert {A} (f : A -> nat) xs t x y :
  xs !! t = Some x -> (sum_list_with f (<[t := y]> xs) + f x = sum_list_with f xs + f y)%nat.
Proof.
  revert t. induction xs as [|z xs IH]; intros [|t] Hx; simpl in *; simplify_eq; [lia|].
  specialize (IH t Hx). lia.
Qed.
