(* ===== verification/Text.v ===== *)
(** * Text input

    What the program uses of the C++ standard library to read text: character
    classes, [std::getline], [std::istringstream] with [>>], and [atoi]. *)

From stdpp Require Import pretty.
From S2P Require Import Prelude.
From stdpp Require Export strings.
From Stdlib Require Import Ascii.
#[local] Open Scope Z_scope.

(** [std::isspace] in the C locale. *)
Definition is_space (c : ascii) : bool :=
  let n := nat_of_ascii c in
  (n =? 32)%nat || ((9 <=? n) && (n <=? 13))%nat.

Fixpoint skip_space (s : string) : string :=
  match s with
  | EmptyString => EmptyString
  | String c s' => if is_space c then skip_space s' else s
  end.

(** The longest prefix of non-space characters, and the rest. *)
Fixpoint split_word (s : string) : string * string :=
  match s with
  | EmptyString => (EmptyString, EmptyString)
  | String c s' =>
      if is_space c then (EmptyString, s)
      else let '(w, r) := split_word s' in (String c w, r)
  end.

Definition newline : ascii := "010"%char.

(** The lines that [while (std::getline(file, line))] yields: a newline ends a
    line, and characters behind the last newline are a line of their own. *)
Fixpoint getlines (s : string) : list string :=
  match s with
  | EmptyString => []
  | String c s' =>
      if Ascii.eqb c newline then EmptyString :: getlines s'
      else match getlines s' with
           | [] => [String c EmptyString]
           | l :: ls =>
               match s' with
               | String c' _ => if Ascii.eqb c' newline then String c EmptyString :: ls
                                else String c l :: ls
               | EmptyString => [String c EmptyString]
               end
           end
  end.

(** ** [std::istringstream] *)
Record istream := mkIstream {
  is_ok : bool;
  is_rest : string;
}.

Definition istringstream (s : string) : istream := mkIstream true s.

(** [s >> word]: a stream that has failed, or that has only spaces left,
    leaves the variable as it is. *)
Definition read_word (s : istream) (word : string) : string * istream :=
  if negb (is_ok s) then (word, s)
  else match skip_space (is_rest s) with
       | EmptyString => (word, mkIstream false EmptyString)
       | r => let '(w, r') := split_word r in (w, mkIstream true r')
       end.

Definition digit_of (c : ascii) : option Z :=
  let n := Z.of_nat (nat_of_ascii c) - 48 in
  if (0 <=? n) && (n <=? 9) then Some n else None.

(** The digits at the front, as a number added to [acc]; the number of digits
    and the rest. *)
Fixpoint read_digits (acc : Z) (s : string) : Z * nat * string :=
  match s with
  | EmptyString => (acc, 0%nat, s)
  | String c s' =>
      match digit_of c with
      | Some d => let '(v, n, r) := read_digits (acc * 10 + d) s' in (v, S n, r)
      | None => (acc, 0%nat, s)
      end
  end.

(** An optional sign. *)
Definition read_sign (s : string) : Z * string :=
  match s with
  | String c s' =>
      if Ascii.eqb c "-" then (-1, s') else if Ascii.eqb c "+" then (1, s') else (1, s)
  | EmptyString => (1, s)
  end.

(** [s >> n] for an [int n]: the value stored, [None] if the variable is left
    alone.  Without digits 0 is stored, out of range the nearest [int]; both
    fail the stream. *)
Definition read_int (s : istream) : option Z * istream :=
  if negb (is_ok s) then (None, s)
  else match skip_space (is_rest s) with
       | EmptyString => (None, mkIstream false EmptyString)
       | r =>
           let '(sign, r) := read_sign r in
           let '(v, n, r) := read_digits 0 r in
           if (n =? 0)%nat then (Some 0, mkIstream false r)
           else if is_int (sign * v) then (Some (sign * v), mkIstream true r)
           else (Some (if sign * v <? 0 then INT_MIN else INT_MAX), mkIstream false r)
       end.

(** [atoi]: 0 without digits, undefined when the value is not an [int]. *)
Definition atoi (s : string) : outcome Z :=
  let '(sign, r) := read_sign (skip_space s) in
  let '(v, _, _) := read_digits 0 r in
  chk_int (sign * v).

(** ** Lemmas *)

(** A word: at least one character, none of them a space. *)
Fixpoint no_space (s : string) : bool :=
  match s with
  | EmptyString => true
  | String c s' => negb (is_space c) && no_space s'
  end.

Definition is_word (s : string) : bool := negb (String.eqb s EmptyString) && no_space s.

Fixpoint no_newline (s : string) : bool :=
  match s with
  | EmptyString => true
  | String c s' => negb (Ascii.eqb c newline) && no_newline s'
  end.

Lemma string_app_assoc (a b c : string) : (a +:+ b) +:+ c = a +:+ (b +:+ c).
Proof. induction a as [|ch a IH]; [done|]. exact (f_equal (String ch) IH). Qed.

Lemma string_app_nil_r (a : string) : a +:+ "" = a.
Proof. induction a as [|ch a IH]; [done|]. exact (f_equal (String ch) IH). Qed.

Lemma string_app_cons c (a b : string) : String c a +:+ b = String c (a +:+ b).
Proof. done. Qed.

Lemma is_space_newline c : is_space c = false -> Ascii.eqb c newline = false.
Proof.
  intros H. destruct (Ascii.eqb_spec c newline) as [->|]; [done|done].
Qed.

Lemma no_space_no_newline s : no_space s = true -> no_newline s = true.
Proof.
  induction s as [|c s IH]; [done|]. cbn [no_space no_newline]. intros H. to_prop.
  by rewrite IH, is_space_newline.
Qed.

Lemma no_newline_app a b : no_newline (a +:+ b) = no_newline a && no_newline b.
Proof.
  induction a as [|c a IH]; [done|]. rewrite string_app_cons. cbn [no_newline].
  by rewrite IH, andb_assoc.
Qed.

(** Reading a word that is followed by a space or by the end. *)
Definition word_end (s : string) : bool :=
  match s with EmptyString => true | String c _ => is_space c end.

Lemma split_word_app w rest :
  no_space w = true -> word_end rest = true -> split_word (w +:+ rest) = (w, rest).
Proof.
  intros Hw Hrest. induction w as [|c w IH].
  - change ("" +:+ rest) with rest. destruct rest as [|c r]; [done|].
    cbn [word_end] in Hrest. cbn [split_word]. by rewrite Hrest.
  - rewrite string_app_cons. cbn [no_space] in Hw. to_prop. cbn [split_word].
    rewrite IH by done. by match goal with H : is_space c = false |- _ => rewrite H end.
Qed.

Lemma skip_space_word w rest : is_word w = true -> skip_space (w +:+ rest) = w +:+ rest.
Proof.
  unfold is_word. destruct w as [|c w]; [done|]. rewrite string_app_cons. cbn [String.eqb negb andb no_space skip_space].
  intros H. to_prop. by match goal with H : is_space c = false |- _ => rewrite H end.
Qed.

Lemma word_taken w rest old :
  is_word w = true -> word_end rest = true ->
  match w +:+ rest with
  | EmptyString => (old, mkIstream false EmptyString)
  | String c s => let '(v, r) := split_word (String c s) in (v, mkIstream true r)
  end = (w, mkIstream true rest).
Proof.
  unfold is_word. intros Hw Hr. to_prop. destruct w as [|c w]; [done|].
  rewrite string_app_cons, <- (string_app_cons c w rest). by rewrite split_word_app.
Qed.

Lemma read_word_app w rest old :
  is_word w = true -> word_end rest = true ->
  read_word (istringstream (w +:+ rest)) old = (w, mkIstream true rest).
Proof.
  intros Hw Hr. unfold read_word. cbn [is_ok istringstream negb is_rest].
  rewrite skip_space_word by done. by apply word_taken.
Qed.

(** Behind a space. *)
Lemma read_word_space w rest old :
  is_word w = true -> word_end rest = true ->
  read_word (mkIstream true (" " +:+ (w +:+ rest))) old = (w, mkIstream true rest).
Proof.
  intros Hw Hr. unfold read_word. cbn [is_ok negb is_rest].
  change (skip_space (" " +:+ (w +:+ rest))) with (skip_space (w +:+ rest)).
  rewrite skip_space_word by done. by apply word_taken.
Qed.

(** ** Lines *)
Lemma getlines_cons l rest :
  no_newline l = true -> getlines (l +:+ String newline rest) = l :: getlines rest.
Proof.
  induction l as [|c l IH]; intros Hl; [done|]. cbn [no_newline] in Hl. to_prop.
  rewrite string_app_cons. cbn [getlines].
  match goal with H : Ascii.eqb c newline = false |- _ => rewrite H end.
  rewrite IH by done. destruct l as [|c' l]; [done|]. rewrite string_app_cons.
  match goal with H : no_newline (String _ _) = true |- _ => cbn [no_newline] in H end. to_prop.
  by match goal with H : Ascii.eqb c' newline = false |- _ => rewrite H end.
Qed.

(** Text made of ended lines. *)
Definition unlines (ls : list string) : string :=
  foldr (fun l s => l +:+ String newline s) EmptyString ls.

Lemma getlines_unlines ls : Forall (fun l => no_newline l = true) ls -> getlines (unlines ls) = ls.
Proof.
  induction 1 as [|l ls Hl _ IH]; [done|]. unfold unlines. cbn [foldr].
  rewrite getlines_cons by done. by f_equal.
Qed.

(** ** Numbers *)
Lemma digit_of_pretty n : (n < 10)%N -> digit_of (pretty_N_char n) = Some (Z.of_N n).
Proof.
  intros Hn. destruct n as [|p]; [done|].
  do 4 (destruct p as [p|p|]; [| |done]; try (exfalso; lia)).
Qed.

Lemma pretty_N_go_app x s rest : pretty_N_go x s +:+ rest = pretty_N_go x (s +:+ rest).
Proof.
  revert s. induction (N.lt_wf_0 x) as [x _ IH]; intros s.
  destruct (decide (x = 0%N)) as [->|Hx]; [by rewrite !pretty_N_go_0|].
  rewrite !(pretty_N_go_step x) by lia. rewrite IH by (apply N.div_lt; lia). done.
Qed.

(** The digits of a printed number read back as the number. *)
Lemma read_digits_go x s :
  exists n, read_digits 0 (pretty_N_go x s) =
    (let '(v, m, r) := read_digits (Z.of_N x) s in (v, (n + m)%nat, r)) /\ (x <> 0%N -> (0 < n)%nat).
Proof.
  revert s. induction (N.lt_wf_0 x) as [x _ IH]; intros s.
  destruct (decide (x = 0%N)) as [->|Hx].
  - exists 0%nat. rewrite pretty_N_go_0. split; [|done]. by destruct (read_digits _ s) as [[v m] r].
  - rewrite pretty_N_go_step by lia.
    destruct (IH (x `div` 10)%N) with (s := String (pretty_N_char (x `mod` 10)) s) as (n & E & _).
    { apply N.div_lt; lia. }
    exists (n + 1)%nat. split; [|lia]. rewrite E. cbn [read_digits].
    rewrite digit_of_pretty by (apply N.mod_lt; lia).
    replace (Z.of_N (x `div` 10) * 10 + Z.of_N (x `mod` 10)) with (Z.of_N x).
    2:{ rewrite N2Z.inj_div, N2Z.inj_mod. pose proof (Z.div_mod (Z.of_N x) 10). lia. }
    destruct (read_digits (Z.of_N x) s) as [[v m] r]. by rewrite <- Nat.add_assoc.
Qed.

Lemma word_end_digit rest v : word_end rest = true -> read_digits v rest = (v, 0%nat, rest).
Proof.
  destruct rest as [|c r]; [done|]. cbn [word_end read_digits]. intros Hc.
  assert (digit_of c = None) as ->; [|done].
  unfold is_space in Hc. unfold digit_of.
  destruct (Z.leb_spec 0 (Z.of_nat (nat_of_ascii c) - 48)); [|done].
  apply orb_true_iff in Hc as [Hc|Hc]; [apply Nat.eqb_eq in Hc; lia|].
  apply andb_true_iff in Hc as [_ Hc]. apply Nat.leb_le in Hc. lia.
Qed.

Lemma read_digits_pretty (x : N) rest :
  word_end rest = true -> exists n, (0 < n)%nat /\ read_digits 0 (pretty x +:+ rest) = (Z.of_N x, n, rest).
Proof.
  intros Hr. unfold pretty, pretty_N. case_decide as Hx.
  - subst. exists 1%nat. split; [lia|]. 
    change (read_digits 0 ("0" +:+ rest)) with (let '(v, n, r) := read_digits 0 rest in (v, S n, r)).
    by rewrite word_end_digit.
  - rewrite pretty_N_go_app. change ("" +:+ rest) with rest.
    destruct (read_digits_go x rest) as (n & E & Hn). exists n. split; [by apply Hn|].
    rewrite E, word_end_digit by done. by rewrite Nat.add_0_r.
Qed.

(** A string that starts with a digit has no space or sign in front. *)
Lemma digit_first acc s v n r :
  read_digits acc s = (v, n, r) -> (0 < n)%nat -> skip_space s = s /\ read_sign s = (1, s).
Proof.
  destruct s as [|c s]; cbn [read_digits]; [intros [= _ <- _]; lia|].
  destruct (digit_of c) as [d|] eqn:Ed; [intros _ _|intros [= _ <- _]; lia].
  assert (Hc : (48 <= nat_of_ascii c <= 57)%nat).
  { unfold digit_of in Ed. case_if; [|done]. to_prop. lia. }
  assert (Hs : is_space c = false).
  { unfold is_space. apply orb_false_iff. split; [apply Nat.eqb_neq; lia|].
    apply andb_false_iff. right. apply Nat.leb_gt. lia. }
  cbn [skip_space read_sign]. rewrite Hs. split; [done|].
  destruct (Ascii.eqb_spec c "-") as [->|]; [vm_compute in Hc; lia|].
  destruct (Ascii.eqb_spec c "+") as [->|]; [vm_compute in Hc; lia|done].
Qed.

(** Reading a printed [int]. *)
Lemma read_sign_pretty (z : Z) rest : word_end rest = true ->
  skip_space (pretty z +:+ rest) = pretty z +:+ rest /\
  exists sign r v n, read_sign (pretty z +:+ rest) = (sign, r) /\ read_digits 0 r = (v, n, rest) /\
    (0 < n)%nat /\ sign * v = z.
Proof.
  intros Hr. destruct z as [|p|p].
  - destruct (read_digits_pretty 0 rest Hr) as (n & Hn & E).
    change (pretty 0) with (pretty 0%N). destruct (digit_first _ _ _ _ _ E Hn) as [-> ->].
    split; [done|]. eexists _, _, _, _. split; [done|]. split; [exact E|]. done.
  - destruct (read_digits_pretty (N.pos p) rest Hr) as (n & Hn & E).
    change (pretty (Z.pos p)) with (pretty (N.pos p)). destruct (digit_first _ _ _ _ _ E Hn) as [-> ->].
    split; [done|]. eexists _, _, _, _. split; [done|]. split; [exact E|]. done.
  - destruct (read_digits_pretty (N.pos p) rest Hr) as (n & Hn & E).
    change (pretty (Z.neg p)) with ("-" +:+ pretty (N.pos p)). rewrite string_app_assoc.
    split; [done|]. eexists (-1), (pretty (N.pos p) +:+ rest), _, _. split; [done|]. split; [exact E|].
    split; [done|]. lia.
Qed.

Lemma atoi_pretty (z : Z) : is_int z = true -> atoi (pretty z) = Done z.
Proof.
  intros Hz. unfold atoi. rewrite <- (string_app_nil_r (pretty z)).
  destruct (read_sign_pretty z "" eq_refl) as (-> & sign & r & v & n & -> & -> & _ & ->).
  unfold chk_int. by rewrite Hz.
Qed.

Lemma read_int_pretty (z : Z) rest :
  is_int z = true -> word_end rest = true ->
  read_int (mkIstream true (" " +:+ (pretty z +:+ rest))) = (Some z, mkIstream true rest).
Proof.
  intros Hz Hr. unfold read_int. cbn [is_ok negb is_rest].
  change (skip_space (" " +:+ (pretty z +:+ rest))) with (skip_space (pretty z +:+ rest)).
  destruct (read_sign_pretty z rest Hr) as (-> & sign & r & v & n & Es & Ed & Hn & Ev).
  destruct (pretty z +:+ rest) as [|c s] eqn:Ep.
  { cbn in Es. injection Es as <- <-. cbn in Ed. injection Ed as <- <- <-. lia. }
  rewrite Es, Ed. destruct (Nat.eqb_spec n 0); [lia|]. by rewrite Ev, Hz.
Qed.

(** The printed digits are a word. *)
Lemma no_space_pretty_go x s : no_space s = true -> no_space (pretty_N_go x s) = true.
Proof.
  revert s. induction (N.lt_wf_0 x) as [x _ IH]; intros s Hs.
  destruct (decide (x = 0%N)) as [->|Hx]; [by rewrite pretty_N_go_0|].
  rewrite pretty_N_go_step by lia. apply IH; [apply N.div_lt; lia|]. cbn [no_space].
  rewrite Hs, andb_true_r. assert (Hd : (x `mod` 10 < 10)%N) by (apply N.mod_lt; lia).
  apply digit_of_pretty in Hd. unfold digit_of in Hd. case_if; [|done]. to_prop.
  apply negb_true_iff. unfold is_space. apply orb_false_iff. split; [apply Nat.eqb_neq; lia|].
  apply andb_false_iff. right. apply Nat.leb_gt. lia.
Qed.

Lemma no_space_pretty (z : Z) : no_space (pretty z) = true.
Proof.
  assert (HN : forall x : N, no_space (pretty x) = true).
  { intros x. unfold pretty, pretty_N. case_decide; [done|]. by apply no_space_pretty_go. }
  destruct z as [|p|p]; [done|exact (HN (N.pos p))|]. change (pretty (Z.neg p)) with (String "-" (pretty (N.pos p))).
  cbn [no_space]. by rewrite HN.
Qed.

Lemma is_word_pretty (z : Z) : is_word (pretty z) = true.
Proof.
  unfold is_word. rewrite no_space_pretty, andb_true_r. apply negb_true_iff.
  destruct (String.eqb_spec (pretty z) ""); [|done].
  destruct (read_sign_pretty z "" eq_refl) as (_ & sign & r & v & n & Es & Ed & Hn & _).
  rewrite string_app_nil_r, e in Es. injection Es as <- <-. injection Ed as <- <-. lia.
Qed.
