(* ===== verification/Double.v ===== *)
(** * IEEE-754 binary64 ([double])

    Prices are C++ [double]s.  The model takes the Standard Library's
    [spec_float], with the comparisons [<], [==] of the language as [dlt] and
    [deq] (false on NaN), the arithmetic used by [src/common/loader.hpp]
    rounded to 53 bits, and the 64-bit memory image used when records are
    copied to and from message buffers. *)

From S2P Require Import Prelude.
From Stdlib Require Export Floats.SpecFloat.

Abbreviation double := spec_float.

Definition is_nan (x : double) : bool :=
  match x with S754_nan => true | _ => false end.

Definition dlt (x y : double) : bool := SFltb x y.
Definition deq (x y : double) : bool := SFeqb x y.
Definition dle (x y : double) : bool := SFleb x y.
Definition dgt (x y : double) : bool := SFltb y x.
Definition dne (x y : double) : bool := negb (SFeqb x y).

Definition dadd : double -> double -> double := SFadd 53 1024.
Definition dsub : double -> double -> double := SFsub 53 1024.
Definition dmul : double -> double -> double := SFmul 53 1024.

Definition dzero : double := S754_zero false.

(** The double nearest to a non-negative integer. *)
Definition double_of_Z (z : Z) : double := binary_normalize 53 1024 z 0 false.

#[export] Instance double_eq_dec : EqDecision double.
Proof. solve_decision. Defined.

(** ** The order of the non-NaN doubles

    Every non-NaN double has a key, a triple of integers compared
    lexicographically, and the comparisons are the comparisons of keys. *)
Definition dkey (x : double) : Z * Z * Z :=
  match x with
  | S754_infinity true => (-2, 0, 0)
  | S754_finite true m e => (-1, -e, - Z.pos m)
  | S754_zero _ | S754_nan => (0, 0, 0)
  | S754_finite false m e => (1, e, Z.pos m)
  | S754_infinity false => (2, 0, 0)
  end.

Definition key_lt (a b : Z * Z * Z) : Prop :=
  a.1.1 < b.1.1 \/ a.1.1 = b.1.1 /\ (a.1.2 < b.1.2 \/ a.1.2 = b.1.2 /\ a.2 < b.2).

(** Prices the matching engine can order. *)
Definition ordered (x : double) : Prop := is_nan x = false.

#[export] Instance ordered_dec x : Decision (ordered x) := decide (is_nan x = false).

Lemma dlt_key x y : ordered x -> ordered y -> dlt x y = true <-> key_lt (dkey x) (dkey y).
Proof.
  unfold ordered, dlt, SFltb, key_lt.
  destruct x as [|[]| |[] mx ex], y as [|[]| |[] my ey]; simpl; try done; intros _ _;
    try (split; [done || lia | done || lia]).
  all: destruct (Z.compare_spec ex ey); try (split; [done || lia | done || lia]).
  all: change (Pos.compare_cont Eq mx my) with (Pos.compare mx my);
    destruct (Pos.compare_spec mx my); simpl; split; (done || lia).
Qed.

Lemma deq_key x y : ordered x -> ordered y -> deq x y = true <-> dkey x = dkey y.
Proof.
  unfold ordered, deq, SFeqb.
  destruct x as [|[]| |[] mx ex], y as [|[]| |[] my ey]; simpl; try done; intros _ _;
    try (split; [done || (intros [=]; lia) | done || (intros [=]; lia)]).
  all: destruct (Z.compare_spec ex ey); try (split; [done | intros [=]; lia]).
  all: change (Pos.compare_cont Eq mx my) with (Pos.compare mx my);
    destruct (Pos.compare_spec mx my); simpl; split; try done;
    try (intros [=]; lia); intros _; by subst.
Qed.

Lemma dle_key x y : ordered x -> ordered y -> dle x y = true <-> ~ key_lt (dkey y) (dkey x).
Proof.
  intros Hx Hy. rewrite <- dlt_key by done.
  unfold dle, dlt, SFleb, SFltb, ordered in *.
  destruct x as [|[]| |[] mx ex], y as [|[]| |[] my ey]; simpl in *; try done;
    try (split; done).
  all: rewrite (Z.compare_antisym ex ey); destruct (ex ?= ey)%Z; simpl; try (split; done).
  all: change (Pos.compare_cont Eq) with Pos.compare;
    rewrite (Pos.compare_antisym mx my); destruct (mx ?= my)%positive; simpl; split; done.
Qed.

Lemma dlt_false_key x y :
  ordered x -> ordered y -> dlt x y = false <-> ~ key_lt (dkey x) (dkey y).
Proof. intros. rewrite <- dlt_key by done. destruct (dlt x y); naive_solver. Qed.

Lemma deq_false_key x y :
  ordered x -> ordered y -> deq x y = false <-> dkey x <> dkey y.
Proof. intros. rewrite <- deq_key by done. destruct (deq x y); naive_solver. Qed.

(** Solve a goal about comparisons of ordered doubles by passing to keys. *)
Ltac double_order :=
  unfold dgt, dne in *;
  repeat match goal with
  | |- context [SFltb ?x ?y] => change (SFltb x y) with (dlt x y)
  | H : context [SFltb ?x ?y] |- _ => change (SFltb x y) with (dlt x y) in H
  | |- context [SFeqb ?x ?y] => change (SFeqb x y) with (deq x y)
  | H : context [SFeqb ?x ?y] |- _ => change (SFeqb x y) with (deq x y) in H
  | H : negb _ = true |- _ => apply negb_true_iff in H
  | H : negb _ = false |- _ => apply negb_false_iff in H
  | |- negb _ = true => apply negb_true_iff
  | |- negb _ = false => apply negb_false_iff
  | H : dlt _ _ = true |- _ => apply dlt_key in H; [|assumption..]
  | H : dlt _ _ = false |- _ => apply dlt_false_key in H; [|assumption..]
  | H : dle _ _ = true |- _ => apply dle_key in H; [|assumption..]
  | H : deq _ _ = true |- _ => apply deq_key in H; [|assumption..]
  | H : deq _ _ = false |- _ => apply deq_false_key in H; [|assumption..]
  | |- dlt _ _ = true => apply dlt_key; [assumption..|]
  | |- dlt _ _ = false => apply dlt_false_key; [assumption..|]
  | |- dle _ _ = true => apply dle_key; [assumption..|]
  | |- deq _ _ = true => apply deq_key; [assumption..|]
  | |- deq _ _ = false => apply deq_false_key; [assumption..|]
  end;
  repeat match goal with
  | |- context [dkey ?x] => destruct (dkey x) as [[? ?] ?]
  | H : context [dkey ?x] |- _ => destruct (dkey x) as [[? ?] ?]
  end;
  unfold key_lt in *; simpl in *; simplify_eq; try (intros ?; simplify_eq); try done; try lia;
  try (exfalso; match goal with
       | H : (_, _, _) <> (_, _, _) |- _ => apply H; f_equal; [f_equal|]; lia end).

Lemma dlt_irrefl x : ordered x -> dlt x x = false.
Proof. intros. double_order. Qed.

Lemma dlt_trans x y z :
  ordered x -> ordered y -> ordered z -> dlt x y = true -> dlt y z = true -> dlt x z = true.
Proof. intros. double_order. Qed.

Lemma deq_refl x : ordered x -> deq x x = true.
Proof. intros. double_order. Qed.

Lemma deq_sym x y : ordered x -> ordered y -> deq x y = deq y x.
Proof.
  intros. destruct (deq y x) eqn:E; double_order.
Qed.

Lemma dlt_trichotomy x y :
  ordered x -> ordered y -> dlt x y = true \/ deq x y = true \/ dlt y x = true.
Proof.
  intros Hx Hy. destruct (dlt x y) eqn:E1; [by left|].
  destruct (dlt y x) eqn:E2; [by right; right|]. right; left. double_order.
  f_equal; [f_equal|]; lia.
Qed.

(** A comparison that succeeds has ordered operands. *)
Lemma dlt_ordered x y : dlt x y = true -> ordered x /\ ordered y.
Proof. by destruct x as [|[]| |[] ??], y as [|[]| |[] ??]. Qed.

Lemma deq_ordered x y : deq x y = true -> ordered x /\ ordered y.
Proof. by destruct x as [|[]| |[] ??], y as [|[]| |[] ??]. Qed.

(** ** The memory image of a double *)
Definition encode_double (x : double) : Z :=
  match x with
  | S754_zero s => Z.b2z s * 2 ^ 63
  | S754_infinity s => Z.b2z s * 2 ^ 63 + 2047 * 2 ^ 52
  | S754_nan => 2047 * 2 ^ 52 + 2 ^ 51
  | S754_finite s m e =>
      if Z.pos m <? 2 ^ 52 then Z.b2z s * 2 ^ 63 + Z.pos m
      else Z.b2z s * 2 ^ 63 + (e + 1075) * 2 ^ 52 + (Z.pos m - 2 ^ 52)
  end.

Definition decode_double (b : Z) : double :=
  let s := Z.odd (b / 2 ^ 63) in
  let ex := (b / 2 ^ 52) mod 2048 in
  let fr := b mod 2 ^ 52 in
  if ex =? 2047 then (if fr =? 0 then S754_infinity s else S754_nan)
  else if ex =? 0 then
    match fr with Z.pos m => S754_finite s m (-1074) | _ => S754_zero s end
  else match 2 ^ 52 + fr with
       | Z.pos m => S754_finite s m (ex - 1075)
       | _ => S754_zero s
       end.

(** A binary64 number in canonical form. *)
Definition valid_double (x : double) : bool := valid_binary 53 1024 x.

Lemma digits2_pos_bounds m :
  2 ^ (Z.pos (digits2_pos m) - 1) <= Z.pos m < 2 ^ Z.pos (digits2_pos m).
Proof.
  assert (Hsucc : forall d : positive, 2 ^ Z.pos (Pos.succ d) = 2 * 2 ^ Z.pos d).
  { intros d. rewrite Pos2Z.inj_succ, Z.pow_succ_r by lia. done. }
  assert (Hpred : forall d : positive, 2 ^ (Z.pos (Pos.succ d) - 1) = 2 * 2 ^ (Z.pos d - 1)).
  { intros d. replace (Z.pos (Pos.succ d) - 1) with (Z.succ (Z.pos d - 1)) by lia.
    rewrite Z.pow_succ_r by lia. done. }
  induction m as [m IH|m IH|]; simpl digits2_pos; [| |by vm_compute].
  all: rewrite Hsucc, Hpred; lia.
Qed.

Lemma valid_finite_cases s m e :
  valid_double (S754_finite s m e) = true ->
  (Z.pos m < 2 ^ 52 /\ e = -1074) \/
  (2 ^ 52 <= Z.pos m < 2 ^ 53 /\ -1074 <= e <= 971).
Proof.
  unfold valid_double. simpl. unfold bounded, canonical_mantissa, fexp, emin.
  rewrite andb_true_iff. intros [Hc He].
  apply Z.eqb_eq in Hc. apply Z.leb_le in He.
  pose proof (digits2_pos_bounds m) as [Hl Hu].
  destruct (decide (Z.pos (digits2_pos m) = 53)) as [H53|Hn].
  - rewrite H53 in *. right. lia.
  - left. split; [|lia]. assert (Z.pos (digits2_pos m) <= 52) by lia.
    eapply Z.lt_le_trans; [exact Hu|]. by apply Z.pow_le_mono_r.
Qed.

(** Splitting the image of a number with sign [s], exponent field [x] and
    fraction [f]. *)
Lemma image_fields s x f :
  0 <= x < 2048 -> 0 <= f < 2 ^ 52 ->
  let b := Z.b2z s * 2 ^ 63 + x * 2 ^ 52 + f in
  Z.odd (b / 2 ^ 63) = s /\ (b / 2 ^ 52) mod 2048 = x /\ b mod 2 ^ 52 = f.
Proof.
  intros Hx Hf b.
  assert (Eb : b = f + (Z.b2z s * 2048 + x) * 2 ^ 52) by (subst b; lia).
  assert (E52 : b / 2 ^ 52 = Z.b2z s * 2048 + x).
  { rewrite Eb, Z.div_add, (Z.div_small f) by lia. lia. }
  assert (E63 : b / 2 ^ 63 = Z.b2z s).
  { replace (2 ^ 63) with (2 ^ 52 * 2048) by lia.
    rewrite <- Z.div_div, E52, Z.add_comm, Z.div_add, (Z.div_small x) by lia. lia. }
  rewrite E63, E52, Eb. split_and!.
  - by destruct s.
  - rewrite Z.add_comm, Z.mod_add by lia. by apply Z.mod_small.
  - rewrite Z.mod_add by lia. by apply Z.mod_small.
Qed.

Lemma encode_double_range x :
  valid_double x = true -> 0 <= encode_double x < 2 ^ 64.
Proof.
  destruct x as [[]|[]| |s m e]; intros Hv; [simpl; lia..|].
  apply valid_finite_cases in Hv. unfold encode_double.
  destruct (Z.ltb_spec (Z.pos m) (2 ^ 52)); destruct s; simpl Z.b2z; lia.
Qed.

(** Copying a double through its 8-byte image gives the double back. *)
Lemma decode_encode_double x :
  valid_double x = true -> decode_double (encode_double x) = x.
Proof.
  destruct x as [[]|[]| |s m e]; intros Hv; [by vm_compute..|].
  apply valid_finite_cases in Hv. unfold encode_double, decode_double.
  destruct (Z.ltb_spec (Z.pos m) (2 ^ 52)) as [Hs|Hs].
  - destruct (image_fields s 0 (Z.pos m)) as (E1 & E2 & E3); [lia..|].
    replace (Z.b2z s * 2 ^ 63 + 0 * 2 ^ 52 + Z.pos m)
      with (Z.b2z s * 2 ^ 63 + Z.pos m) in * by lia.
    rewrite E1, E2, E3. simpl. f_equal. lia.
  - destruct (image_fields s (e + 1075) (Z.pos m - 2 ^ 52)) as (E1 & E2 & E3); [lia..|].
    rewrite E1, E2, E3.
    destruct (Z.eqb_spec (e + 1075) 2047); [lia|].
    destruct (Z.eqb_spec (e + 1075) 0); [lia|].
    replace (2 ^ 52 + (Z.pos m - 2 ^ 52)) with (Z.pos m) by lia. f_equal. lia.
Qed.
