(* ===== verification/StdHeap.v ===== *)
(** * [std::push_heap] and [std::pop_heap]

    The declaration books and the queue of early orders are [std::vector]s
    kept as binary heaps.  This file gives

    - [HeapLib], the interface the components are written against: the two
      library operations on the vector and the contract the C++ standard
      gives them (a permutation of the input, a heap again, a maximal element
      in front);
    - [libstdcxx], the implementation of the GNU library (sift-up
      [__push_heap] and the hole-to-leaf [__adjust_heap]), with the proof that
      it meets the contract.

    A comparison is a boolean "less than" as passed to the library; the
    contract asks that it is a strict weak order on the elements at hand. *)

From S2P Require Import Prelude.

(** [lt] is a strict weak order on the elements that satisfy [P]; [ge] is the
    negation of "less than". *)
Class StrictWeak {A} (P : A -> Prop) (lt : A -> A -> bool) := {
  sw_irrefl x : P x -> lt x x = false;
  sw_asym x y : P x -> P y -> lt x y = true -> lt y x = false;
  sw_ge_trans x y z : P x -> P y -> P z ->
    lt x y = false -> lt y z = false -> lt x z = false;
}.

(** Index of the parent of node [i]. *)
Definition parent (i : nat) : nat := (i - 1) / 2.

(** The heap property on the first [n] elements. *)
Definition heap_upto {A} (lt : A -> A -> bool) (n : nat) (l : list A) : Prop :=
  forall i p x, (0 < i < n)%nat -> l !! parent i = Some p -> l !! i = Some x -> lt p x = false.

Definition is_heap {A} (lt : A -> A -> bool) (l : list A) : Prop :=
  heap_upto lt (length l) l.

(** The operations and their contract.  [push_heap lt l] expects the new
    element at the end of [l]; [pop_heap lt l] leaves the top at the end. *)
Class HeapLib := {
  push_heap {A} : (A -> A -> bool) -> list A -> list A;
  pop_heap {A} : (A -> A -> bool) -> list A -> list A;
  push_heap_perm {A} (lt : A -> A -> bool) l : push_heap lt l ≡ₚ l;
  push_heap_heap {A} (P : A -> Prop) (lt : A -> A -> bool) l x :
    StrictWeak P lt -> Forall P (l ++ [x]) -> is_heap lt l -> is_heap lt (push_heap lt (l ++ [x]));
  pop_heap_shape {A} (lt : A -> A -> bool) x l :
    exists l', pop_heap lt (x :: l) = l' ++ [x] /\ l' ≡ₚ l;
  pop_heap_heap {A} (P : A -> Prop) (lt : A -> A -> bool) x l l' :
    StrictWeak P lt -> Forall P (x :: l) -> is_heap lt (x :: l) ->
    pop_heap lt (x :: l) = l' ++ [x] -> is_heap lt l';
}.

(** [vector::pop_back]. *)
Definition pop_back {A} (l : list A) : list A := removelast l.

(** ** The GNU implementation *)
Module Gnu.
Section gnu.
Context {A : Type} (lt : A -> A -> bool).

(** [std::__push_heap] with [topIndex = 0]: move the hole up while the
    parent is less than [value], then write [value].  The hole index
    decreases, so [hole] itself is enough fuel. *)
Fixpoint sift_up (fuel : nat) (l : list A) (hole : nat) (value : A) : list A :=
  match fuel with
  | O => <[hole:=value]> l
  | S fuel =>
      if decide (0 < hole)%nat then
        match l !! parent hole with
        | Some p => if lt p value then sift_up fuel (<[hole:=p]> l) (parent hole) value
                    else <[hole:=value]> l
        | None => <[hole:=value]> l
        end
      else <[hole:=value]> l
  end.

Definition gnu_push_heap (l : list A) : list A :=
  match last l with
  | Some value => sift_up (length l - 1) l (length l - 1) value
  | None => l
  end.

(** The child that [std::__adjust_heap] moves into the hole: the right one
    unless it is less than the left one, or the only one there is. *)
Definition next_child (l : list A) (len hole : nat) : option (nat * A) :=
  let right := (2 * (hole + 1))%nat in
  if decide (right < len)%nat then
    match l !! right, l !! (right - 1)%nat with
    | Some r, Some m => if lt r m then Some ((right - 1)%nat, m) else Some (right, r)
    | _, _ => None
    end
  else if decide (right = len)%nat then
    match l !! (right - 1)%nat with Some m => Some ((right - 1)%nat, m) | None => None end
  else None.

(** [std::__adjust_heap] with [topIndex = 0]: move the hole down to a leaf,
    then sift [value] up from there.  The hole index increases and stays
    below [len], so [len] is enough fuel. *)
Fixpoint adjust_heap (fuel : nat) (l : list A) (hole len : nat) (value : A) : list A :=
  match fuel with
  | O => sift_up hole l hole value
  | S fuel =>
      match next_child l len hole with
      | Some (c, x) => adjust_heap fuel (<[hole:=x]> l) c len value
      | None => sift_up hole l hole value
      end
  end.

(** [std::pop_heap]: the last element is re-inserted from the root of the
    shortened heap, and the old top takes its place at the end. *)
Definition gnu_pop_heap (l : list A) : list A :=
  match l, last l with
  | top :: _ :: _, Some value =>
      let n := (length l - 1)%nat in
      adjust_heap n (removelast l) 0 n value ++ [top]
  | _, _ => l
  end.
End gnu.
End Gnu.

(** ** The GNU implementation meets the contract *)
Lemma parent_lt i : (0 < i)%nat -> (parent i < i)%nat.
Proof. unfold parent. intros. apply Nat.Div0.div_lt_upper_bound; lia. Qed.

Lemma parent_eq i p : (0 < i)%nat -> parent i = p <-> (i = 2 * p + 1 \/ i = 2 * p + 2)%nat.
Proof. unfold parent. intros. pose proof (Nat.div_mod_eq (i - 1) 2).
  pose proof (Nat.mod_upper_bound (i - 1) 2). lia. Qed.

Section gnu_proofs.
Context {A : Type} (P : A -> Prop) (lt : A -> A -> bool) `{!StrictWeak P lt}.

(** Every node but the hole respects its parent, and the children of the
    hole respect the hole's parent ([v] being the content of the hole). *)
Record hole_heap (n : nat) (l : list A) (h : nat) : Prop := {
  hh_len : length l = n;
  hh_hole : (h < n)%nat;
  hh_other i p x : (0 < i < n)%nat -> i <> h ->
    l !! parent i = Some p -> l !! i = Some x -> lt p x = false;
  hh_skip i p x : (0 < h)%nat -> (0 < i < n)%nat -> parent i = h ->
    l !! parent h = Some p -> l !! i = Some x -> lt p x = false;
}.

(** The same for a hole with stale content that is moving down. *)
Record gap_heap (n : nat) (l : list A) (h : nat) : Prop := {
  gh_len : length l = n;
  gh_hole : (h < n)%nat;
  gh_other i p x : (0 < i < n)%nat -> i <> h -> parent i <> h ->
    l !! parent i = Some p -> l !! i = Some x -> lt p x = false;
  gh_skip i p x : (0 < h)%nat -> (0 < i < n)%nat -> parent i = h ->
    l !! parent h = Some p -> l !! i = Some x -> lt p x = false;
}.

Lemma sift_up_perm fuel l h v :
  (h < length l)%nat -> Gnu.sift_up lt fuel l h v ≡ₚ <[h:=v]> l.
Proof.
  revert l h. induction fuel as [|fuel IH]; intros l h Hh; simpl; [done|].
  case_decide as H0; [|done]. destruct (l !! parent h) as [p|] eqn:Hp; [|done].
  destruct (lt p v); [|done]. pose proof (parent_lt h H0).
  rewrite IH by (rewrite length_insert; lia).
  apply insert_move_perm; [done|lia|lia].
Qed.

(** A swapped list at an index that is neither of the two swapped ones. *)
Definition swapped (m : list A) (h : nat) (p v : A) : list A :=
  <[parent h:=v]> (<[h:=p]> m).

Lemma swapped_other m h p v j :
  j <> h -> j <> parent h -> swapped m h p v !! j = m !! j.
Proof. intros. unfold swapped. by rewrite !list_lookup_insert_ne by done. Qed.

Lemma swapped_parent m h p v :
  (0 < h < length m)%nat -> swapped m h p v !! parent h = Some v.
Proof.
  intros [H0 Hh]. pose proof (parent_lt h H0).
  apply list_lookup_insert_eq. rewrite length_insert. lia.
Qed.

Lemma swapped_hole m h p v :
  (0 < h < length m)%nat -> swapped m h p v !! h = Some p.
Proof.
  intros [H0 Hh]. pose proof (parent_lt h H0). unfold swapped.
  rewrite list_lookup_insert_ne by lia. by apply list_lookup_insert_eq.
Qed.

Lemma hole_heap_step n m h p v :
  Forall P m -> hole_heap n m h -> (0 < h)%nat ->
  m !! parent h = Some p -> m !! h = Some v -> lt p v = true ->
  hole_heap n (swapped m h p v) (parent h).
Proof.
  intros HP [Hlen Hh Hoth Hskip] H0 Hp Hv Hpv. pose proof (parent_lt h H0).
  assert (HPm : forall j y, m !! j = Some y -> P y) by (by apply Forall_lookup).
  assert (Hvp : lt v p = false) by (apply (sw_asym (P := P)); eauto).
  split; [by unfold swapped; rewrite !length_insert|lia| |].
  - intros i q x Hi Hne Hq Hx.
    destruct (decide (i = h)) as [->|Hih].
    { rewrite swapped_parent in Hq by lia. rewrite swapped_hole in Hx by lia. congruence. }
    rewrite swapped_other in Hx by done.
    destruct (decide (parent i = parent h)) as [E|Hpp].
    { rewrite E, swapped_parent in Hq by lia. injection Hq as <-.
      assert (lt p x = false) by (eapply (Hoth i); eauto; by rewrite E).
      eapply (sw_ge_trans (P := P) v p); eauto. }
    destruct (decide (parent i = h)) as [E|Hph].
    { rewrite E, swapped_hole in Hq by lia. injection Hq as <-. eapply (Hskip i); eauto. }
    rewrite swapped_other in Hq by done. eapply (Hoth i); eauto.
  - intros i q x Hp0 Hi Hpi Hq Hx. pose proof (parent_lt (parent h) Hp0).
    rewrite swapped_other in Hq by lia.
    assert (Hqp : lt q p = false) by (eapply (Hoth (parent h)); eauto; lia).
    destruct (decide (i = h)) as [->|Hih].
    { rewrite swapped_hole in Hx by lia. congruence. }
    pose proof (parent_lt i (proj1 Hi)). rewrite swapped_other in Hx by lia.
    assert (lt p x = false) by (eapply (Hoth i); eauto; by rewrite Hpi).
    eapply (sw_ge_trans (P := P) q p); eauto.
Qed.

Lemma hole_heap_done m h v :
  hole_heap (length m) m h -> m !! h = Some v ->
  (forall p, (0 < h)%nat -> m !! parent h = Some p -> lt p v = false) -> is_heap lt m.
Proof.
  intros [Hlen Hh Hoth Hskip] Hv Hge i q x Hi Hq Hx.
  destruct (decide (i = h)) as [->|]; [|eauto].
  simplify_eq. apply Hge; [lia|done].
Qed.

Lemma sift_up_heap fuel l h v :
  (h <= fuel)%nat -> Forall P (<[h:=v]> l) -> hole_heap (length l) (<[h:=v]> l) h ->
  is_heap lt (Gnu.sift_up lt fuel l h v).
Proof.
  revert l h. induction fuel as [|fuel IH]; intros l h Hf HP Hhh; simpl.
  all: pose proof (hh_hole _ _ _ Hhh) as Hh.
  all: pose proof (list_lookup_insert_eq l h v Hh) as Hv.
  all: assert (Hd : (forall p, (0 < h)%nat -> l !! parent h = Some p -> lt p v = false) ->
         is_heap lt (<[h:=v]> l)) by (intros Hge; eapply hole_heap_done;
           [by rewrite length_insert|exact Hv|];
           intros p H0; pose proof (parent_lt h H0);
           rewrite list_lookup_insert_ne by lia; by apply Hge).
  { apply Hd. lia. }
  case_decide as H0; [|by apply Hd].
  pose proof (parent_lt h H0) as Hlt.
  destruct (l !! parent h) as [p|] eqn:Hp; [|apply lookup_ge_None in Hp; lia].
  destruct (lt p v) eqn:Hpv; [|apply Hd; congruence].
  assert (Hs : <[parent h:=v]> (<[h:=p]> l) = swapped (<[h:=v]> l) h p v)
    by (unfold swapped; by rewrite list_insert_insert_eq).
  apply IH; [lia| |]; rewrite Hs.
  - unfold swapped. rewrite insert_move_perm; rewrite ?length_insert; try lia.
    + by rewrite list_insert_id.
    + by rewrite list_lookup_insert_ne by lia.
  - rewrite length_insert. eapply hole_heap_step; eauto.
    by rewrite list_lookup_insert_ne by lia.
Qed.

Lemma next_child_some l h c x :
  Forall P l -> Gnu.next_child lt l (length l) h = Some (c, x) ->
  parent c = h /\ (0 < c < length l)%nat /\ l !! c = Some x /\
  forall s y, (0 < s < length l)%nat -> parent s = h -> l !! s = Some y -> lt x y = false.
Proof.
  intros HP. assert (HPm : forall j y, l !! j = Some y -> P y) by (by apply Forall_lookup).
  unfold Gnu.next_child. case_decide as Hr; [|case_decide as Hr']; [..|done].
  - destruct (l !! (2 * (h + 1))%nat) as [r|] eqn:Er; [|done].
    destruct (l !! (2 * (h + 1) - 1)%nat) as [m|] eqn:Em; [|done].
    destruct (lt r m) eqn:Erm; intros [= <- <-].
    all: split_and!; [apply parent_eq; lia|lia|lia|done|].
    all: intros s y Hs Hps Hy; apply parent_eq in Hps; [|lia].
    + assert (s = 2 * (h + 1) - 1 \/ s = 2 * (h + 1))%nat as [->| ->] by lia; simplify_eq;
        [apply (sw_irrefl (P := P)); eauto|apply (sw_asym (P := P)); eauto].
    + assert (s = 2 * (h + 1) - 1 \/ s = 2 * (h + 1))%nat as [->| ->] by lia; simplify_eq;
        [done|apply (sw_irrefl (P := P)); eauto].
  - destruct (l !! (2 * (h + 1) - 1)%nat) as [m|] eqn:Em; [|done]. intros [= <- <-].
    split_and!; [apply parent_eq; lia|lia|lia|done|].
    intros s y Hs Hps Hy. apply parent_eq in Hps; [|lia].
    assert (s = 2 * (h + 1) - 1)%nat as -> by lia. simplify_eq.
    apply (sw_irrefl (P := P)); eauto.
Qed.

Lemma next_child_none l h s :
  Gnu.next_child lt l (length l) h = None -> (0 < s < length l)%nat -> parent s <> h.
Proof.
  unfold Gnu.next_child. intros Hn Hs Hp. apply parent_eq in Hp; [|lia].
  assert (H1 : (2 * (h + 1) - 1 < length l)%nat) by lia.
  apply lookup_lt_is_Some_2 in H1 as [m Hm]. rewrite Hm in Hn.
  repeat case_decide; try lia; [|done].
  destruct (lookup_lt_is_Some_2 l (2 * (h + 1))) as [r Hr]; [lia|].
  rewrite Hr in Hn. by destruct (lt r m).
Qed.

Lemma gap_heap_step l h c x :
  Forall P l -> gap_heap (length l) l h ->
  Gnu.next_child lt l (length l) h = Some (c, x) ->
  gap_heap (length l) (<[h:=x]> l) c.
Proof.
  intros HP [_ Hh Hoth Hskip] Hc.
  destruct (next_child_some _ _ _ _ HP Hc) as (Hpc & Hcb & Hx & Hmax).
  pose proof (parent_lt c (proj1 Hcb)).
  split; [by rewrite length_insert|lia| |].
  - intros i q y Hi Hic Hpic Hq Hy.
    destruct (decide (i = h)) as [->|Hih].
    { pose proof (parent_lt h (proj1 Hi)). rewrite list_lookup_insert_ne in Hq by lia.
      rewrite list_lookup_insert_eq in Hy by done. simplify_eq. eapply (Hskip c); eauto. lia. }
    rewrite list_lookup_insert_ne in Hy by done.
    destruct (decide (parent i = h)) as [E|Hph].
    { rewrite E, list_lookup_insert_eq in Hq by done. simplify_eq. eauto. }
    rewrite list_lookup_insert_ne in Hq by done. eauto.
  - intros i q y _ Hi Hpi Hq Hy. pose proof (parent_lt i (proj1 Hi)).
    rewrite Hpc, list_lookup_insert_eq in Hq by done. simplify_eq.
    rewrite list_lookup_insert_ne in Hy by lia.
    eapply (Hoth i); eauto; lia.
Qed.

Lemma gap_heap_leaf l h v :
  gap_heap (length l) l h -> Gnu.next_child lt l (length l) h = None ->
  hole_heap (length l) (<[h:=v]> l) h.
Proof.
  intros [_ Hh Hoth Hskip] Hn.
  split; [by rewrite length_insert|done| |].
  - intros i q y Hi Hne Hq Hy. pose proof (next_child_none l h i Hn Hi).
    rewrite list_lookup_insert_ne in Hq, Hy by done. eauto.
  - intros i q y _ Hi Hpi. by pose proof (next_child_none l h i Hn Hi).
Qed.

Lemma gap_heap_root l : (0 < length l)%nat -> is_heap lt l -> gap_heap (length l) l 0.
Proof.
  intros Hl Hheap. split; [done|done| |lia].
  intros i p x Hi _ _. by apply Hheap.
Qed.
End gnu_proofs.

(** The permutation part of the contract needs nothing of the comparison. *)
Section gnu_perm.
Context {A : Type} (lt : A -> A -> bool).

Lemma next_child_lookup l len h c x :
  Gnu.next_child lt l len h = Some (c, x) -> l !! c = Some x /\ (h < c)%nat.
Proof.
  unfold Gnu.next_child. repeat case_decide; repeat case_match; intros; simplify_eq; split; (done || lia).
Qed.

Lemma adjust_heap_perm fuel l h len v :
  (h < length l)%nat -> Gnu.adjust_heap lt fuel l h len v ≡ₚ <[h:=v]> l.
Proof.
  revert l h. induction fuel as [|fuel IH]; intros l h Hh; simpl; [by apply sift_up_perm|].
  destruct (Gnu.next_child lt l len h) as [[c x]|] eqn:Hc; [|by apply sift_up_perm].
  apply next_child_lookup in Hc as [Hx Hlt]. pose proof (lookup_lt_Some _ _ _ Hx).
  rewrite IH by (by rewrite length_insert). apply insert_move_perm; [done|done|lia].
Qed.

Lemma gnu_push_heap_perm l : Gnu.gnu_push_heap lt l ≡ₚ l.
Proof.
  unfold Gnu.gnu_push_heap. destruct (last l) as [v|] eqn:E; [|done].
  rewrite last_lookup in E. pose proof (lookup_lt_Some _ _ _ E).
  rewrite sift_up_perm by lia. by rewrite list_insert_id by (by rewrite Nat.sub_1_r).
Qed.

Lemma insert_root_perm (x v : A) (l : list A) : <[0%nat:=v]> (x :: l) = v :: l.
Proof. done. Qed.

Lemma gnu_pop_heap_eq x l v :
  Gnu.gnu_pop_heap lt (x :: l ++ [v]) =
    Gnu.adjust_heap lt (S (length l)) (x :: l) 0 (S (length l)) v ++ [x].
Proof.
  unfold Gnu.gnu_pop_heap. destruct (l ++ [v]) as [|y l'] eqn:El; [by destruct l|].
  rewrite <- El, app_comm_cons, last_snoc, removelast_last.
  by replace (length ((x :: l) ++ [v]) - 1)%nat with (S (length l))
    by (rewrite length_app; simpl; lia).
Qed.

Lemma gnu_pop_heap_shape x l :
  exists l', Gnu.gnu_pop_heap lt (x :: l) = l' ++ [x] /\ l' ≡ₚ l.
Proof.
  destruct l as [|v l _] using rev_ind; [by exists []|].
  rewrite gnu_pop_heap_eq. eexists. split; [done|].
  rewrite adjust_heap_perm by (simpl; lia). rewrite insert_root_perm. apply Permutation_cons_append.
Qed.
End gnu_perm.

Section gnu_heap.
Context {A : Type} (P : A -> Prop) (lt : A -> A -> bool) `{!StrictWeak P lt}.

Lemma adjust_heap_heap fuel l h v :
  (length l <= h + fuel)%nat -> Forall P l -> P v -> gap_heap lt (length l) l h ->
  is_heap lt (Gnu.adjust_heap lt fuel l h (length l) v).
Proof.
  assert (Hleaf : forall l h, Forall P l -> P v -> gap_heap lt (length l) l h ->
    Gnu.next_child lt l (length l) h = None -> is_heap lt (Gnu.sift_up lt h l h v)).
  { intros l' h' HP Hv Hg Hc. apply (sift_up_heap P lt); [done|by apply Forall_insert|].
    by apply gap_heap_leaf. }
  revert l h. induction fuel as [|fuel IH]; intros l h Hf HP Hv Hg; simpl.
  { destruct Hg; lia. }
  destruct (Gnu.next_child lt l (length l) h) as [[c x]|] eqn:Hc; [|by apply Hleaf].
  destruct (next_child_lookup _ _ _ _ _ _ Hc) as [Hx Hlt].
  specialize (IH (<[h:=x]> l) c). rewrite length_insert in IH. apply IH; [lia| |done|].
  - apply Forall_insert; [done|]. by eapply Forall_lookup_1.
  - by eapply gap_heap_step.
Qed.

Lemma is_heap_app_inv l1 l2 : is_heap lt (l1 ++ l2) -> is_heap lt l1.
Proof.
  intros H i p x Hi Hp Hx. pose proof (parent_lt i (proj1 Hi)).
  eapply (H i); [rewrite length_app; lia|by rewrite lookup_app_l by lia..].
Qed.

Lemma gnu_push_heap_heap l x :
  Forall P (l ++ [x]) -> is_heap lt l -> is_heap lt (Gnu.gnu_push_heap lt (l ++ [x])).
Proof.
  intros HP Hl. unfold Gnu.gnu_push_heap. rewrite last_snoc, length_app, Nat.add_sub.
  assert (E : <[length l:=x]> (l ++ [x]) = l ++ [x])
    by (apply list_insert_id; by apply list_lookup_middle).
  apply (sift_up_heap P lt); rewrite ?E; [done|done|].
  rewrite length_app. split; rewrite ?length_app; simpl; [done|lia| |].
  - intros i p y Hi Hne Hp Hy. pose proof (parent_lt i (proj1 Hi)).
    rewrite lookup_app_l in Hp, Hy by lia. eapply (Hl i); eauto. lia.
  - intros i p y _ Hi Hpi. pose proof (parent_lt i (proj1 Hi)). lia.
Qed.

Lemma gnu_pop_heap_heap x l l' :
  Forall P (x :: l) -> is_heap lt (x :: l) ->
  Gnu.gnu_pop_heap lt (x :: l) = l' ++ [x] -> is_heap lt l'.
Proof.
  destruct l as [|v l _] using rev_ind; intros HP Hl.
  { intros E. apply (f_equal length) in E as El. rewrite length_app in El. simpl in El.
    assert (l' = []) as -> by (destruct l'; simpl in *; [done|lia]). intros i; simpl; lia. }
  rewrite gnu_pop_heap_eq. intros [E _]%app_inj_tail. subst l'.
  rewrite app_comm_cons in HP, Hl. apply Forall_app in HP as [HP Hv].
  apply (adjust_heap_heap (S (length l)) (x :: l) 0); [simpl; lia|done|by inversion Hv|].
  apply gap_heap_root; [simpl; lia|]. by eapply is_heap_app_inv.
Qed.
End gnu_heap.

#[export] Instance libstdcxx : HeapLib := {|
  push_heap := @Gnu.gnu_push_heap;
  pop_heap := @Gnu.gnu_pop_heap;
  push_heap_perm := @gnu_push_heap_perm;
  push_heap_heap := fun A P lt l x H => gnu_push_heap_heap P lt l x;
  pop_heap_shape := @gnu_pop_heap_shape;
  pop_heap_heap := fun A P lt x l l' H => gnu_pop_heap_heap P lt x l l';
|}.

(** ** What the components use of the contract *)
Section heap_lemmas.
Context `{HeapLib} {A : Type} (P : A -> Prop) (lt : A -> A -> bool) `{!StrictWeak P lt}.

(** [vector::push_back] followed by [std::push_heap]. *)
Definition heap_insert (l : list A) (x : A) : list A := push_heap lt (l ++ [x]).

(** [std::pop_heap] followed by [vector::pop_back]. *)
Definition heap_remove (l : list A) : list A := pop_back (pop_heap lt l).

Lemma heap_insert_perm l x : heap_insert l x ≡ₚ x :: l.
Proof. unfold heap_insert. rewrite push_heap_perm. by rewrite Permutation_app_comm. Qed.

Lemma heap_insert_heap l x :
  Forall P l -> P x -> is_heap lt l -> is_heap lt (heap_insert l x).
Proof. intros. apply (push_heap_heap P); [done| |done]. apply Forall_app. auto. Qed.

Lemma heap_remove_perm x l : heap_remove (x :: l) ≡ₚ l.
Proof.
  unfold heap_remove, pop_back. destruct (pop_heap_shape lt x l) as (l' & -> & Hp).
  by rewrite removelast_last.
Qed.

Lemma heap_remove_heap x l :
  Forall P (x :: l) -> is_heap lt (x :: l) -> is_heap lt (heap_remove (x :: l)).
Proof.
  intros HP Hl. unfold heap_remove, pop_back.
  destruct (pop_heap_shape lt x l) as (l' & E & _). rewrite E, removelast_last.
  by eapply (pop_heap_heap P).
Qed.

(** The front of a heap is not less than any element. *)
Lemma heap_top x l y :
  Forall P (x :: l) -> is_heap lt (x :: l) -> y ∈ x :: l -> lt x y = false.
Proof.
  intros HP Hl [i Hi]%list_elem_of_lookup. revert y Hi.
  induction (lt_wf i) as [i _ IH]. intros y Hi.
  assert (HPm : forall j z, (x :: l) !! j = Some z -> P z) by (by apply Forall_lookup).
  destruct (decide (i = 0%nat)) as [->|H0].
  { simpl in Hi. simplify_eq. apply (sw_irrefl (P := P)). by apply (HPm 0%nat). }
  assert (Hlt : (parent i < i)%nat) by (apply parent_lt; lia).
  pose proof (lookup_lt_Some _ _ _ Hi).
  destruct (lookup_lt_is_Some_2 (x :: l) (parent i)) as [p Hp]; [lia|].
  apply (sw_ge_trans (P := P) x p y); [by apply (HPm 0%nat)|eauto..|].
  eapply (Hl i); eauto. lia.
Qed.

(** Writing a new value over the root that compares like the old one. *)
Lemma heap_update_root x x' l :
  (forall y, lt x' y = lt x y) -> is_heap lt (x :: l) -> is_heap lt (x' :: l).
Proof.
  intros Hx Hl i p y Hi Hp Hy.
  assert (Hy' : (x :: l) !! i = Some y) by (destruct i; [lia|done]).
  destruct (parent i) as [|j] eqn:Ej; simpl in Hp.
  - injection Hp as <-. rewrite Hx. eapply (Hl i); [done|by rewrite Ej|done].
  - eapply (Hl i); [done|by rewrite Ej|done].
Qed.

Lemma is_heap_nil : is_heap lt [].
Proof. intros i; simpl; lia. Qed.
End heap_lemmas.
