(* ===== verification/Bytes.v ===== *)
(** * Memory images

    Messages between the processes are built by appending the memory images of
    integers and structs to a [std::string], and parsed by reading them back
    at an offset ([get_elem_from_buf], [src/common/type.hpp]).  [Pod] is the
    interface of a trivially copyable type: its size, its little-endian image
    (with the bytes of its padding, which C++ leaves unspecified, passed in)
    and the law that loading an image gives the value back. *)

From S2P Require Import Prelude Double.
From coqutil Require Import Byte Word.LittleEndianList.
#[local] Open Scope Z_scope.

Abbreviation byte := Init.Byte.byte.

(** A [std::string] as its characters. *)
Abbreviation bytes := (list byte).

Record Pod (T : Type) := {
  pod_size : nat;
  pod_pad : nat;
  pod_valid : T -> Prop;
  store : bytes -> T -> bytes;
  load : bytes -> T;
  store_length pad x : length pad = pod_pad -> length (store pad x) = pod_size;
  load_store pad x rest :
    length pad = pod_pad -> pod_valid x -> load (store pad x ++ rest) = x;
}.
Arguments pod_size {T} p.
Arguments pod_pad {T} p.
Arguments pod_valid {T} p x.
Arguments store {T} p pad x.
Arguments load {T} p bs.
Arguments store_length {T} p pad x.
Arguments load_store {T} p pad x rest.

(** The memory behind [c_str()]: the characters and the terminating NUL. *)
Definition c_str (s : bytes) : bytes := s ++ [Init.Byte.x00].

(** [get_elem_from_buf(buf, offset, elem)]: read a [T] at [offset] and advance
    the offset.  Reading beyond the buffer is undefined. *)
Definition get_elem_from_buf {T} (pod : Pod T) (buf : bytes) (offset : nat) : outcome (T * nat) :=
  if decide (offset + pod_size pod <= length buf)%nat
  then Done (load pod (drop offset buf), (offset + pod_size pod)%nat)
  else Fault OutOfBounds.

(** The loop [for (auto& x : xs) get_elem_from_buf(buf, offset, x)]. *)
Fixpoint get_elems {T} (pod : Pod T) (n : nat) (buf : bytes) (offset : nat)
    : outcome (list T * nat) :=
  match n with
  | O => Done ([], offset)
  | S n =>
      '(x, offset) ← get_elem_from_buf pod buf offset;
      '(xs, offset) ← get_elems pod n buf offset;
      Done (x :: xs, offset)
  end.

(** ** Scalars *)

(** The value of a 32-bit pattern as an [int]. *)
Definition to_signed32 (u : Z) : Z := if u <? 2 ^ 31 then u else u - 2 ^ 32.

Definition store_int (z : Z) : bytes := le_split 4 z.
Definition load_int (bs : bytes) : Z := to_signed32 (le_combine (take 4 bs)).
Definition load_uint32 (bs : bytes) : Z := le_combine (take 4 bs).
Definition store_double (x : double) : bytes := le_split 8 (encode_double x).
Definition load_double (bs : bytes) : double := decode_double (le_combine (take 8 bs)).

#[global] Arguments store_int : simpl never.
#[global] Arguments load_int : simpl never.
#[global] Arguments load_uint32 : simpl never.
#[global] Arguments store_double : simpl never.
#[global] Arguments load_double : simpl never.

Lemma store_int_length z : length (store_int z) = 4%nat.
Proof. apply length_le_split. Qed.

Lemma store_double_length x : length (store_double x) = 8%nat.
Proof. apply length_le_split. Qed.

Lemma take_le_split n z rest : take n (le_split n z ++ rest) = le_split n z.
Proof. by rewrite take_app_length' by (by rewrite length_le_split). Qed.

Lemma load_uint32_store z rest :
  0 <= z < 2 ^ 32 -> load_uint32 (store_int z ++ rest) = z.
Proof.
  intros Hz. unfold load_uint32, store_int. rewrite take_le_split, le_combine_split.
  by apply Z.mod_small.
Qed.

Lemma load_int_store z rest :
  is_int z = true -> load_int (store_int z ++ rest) = z.
Proof.
  rewrite is_int_spec. unfold INT_MIN, INT_MAX. intros Hz.
  unfold load_int, store_int, to_signed32. rewrite take_le_split, le_combine_split.
  change (2 ^ (Z.of_nat 4 * 8)) with (2 ^ 32).
  destruct (decide (0 <= z)).
  - rewrite Z.mod_small by lia. destruct (Z.ltb_spec z (2 ^ 31)); lia.
  - replace (z mod 2 ^ 32) with (z + 2 ^ 32)
      by (rewrite <- (Z.mod_add z 1) by lia; by rewrite Z.mod_small by lia).
    destruct (Z.ltb_spec (z + 2 ^ 32) (2 ^ 31)); lia.
Qed.

Lemma load_double_store x rest :
  valid_double x = true -> load_double (store_double x ++ rest) = x.
Proof.
  intros Hx. unfold load_double, store_double. rewrite take_le_split, le_combine_split.
  pose proof (encode_double_range x Hx).
  change (2 ^ (Z.of_nat 8 * 8)) with (2 ^ 64). rewrite Z.mod_small by lia.
  by apply decode_encode_double.
Qed.

(** Skipping a field of known size. *)
Lemma drop_store_int z rest : drop 4 (store_int z ++ rest) = rest.
Proof. apply drop_app_length'. by rewrite store_int_length. Qed.

Lemma drop_store_double x rest : drop 8 (store_double x ++ rest) = rest.
Proof. apply drop_app_length'. by rewrite store_double_length. Qed.

Lemma drop4_more (n : nat) (bs : bytes) : drop (4 + n) bs = drop n (drop 4 bs).
Proof. by rewrite drop_drop. Qed.

Lemma drop8_more (n : nat) (bs : bytes) : drop (8 + n) bs = drop n (drop 8 bs).
Proof. by rewrite drop_drop. Qed.

Create Rewrite HintDb layout.
#[export] Hint Rewrite store_int_length store_double_length @length_app : layout.
#[export] Hint Rewrite drop_store_int drop_store_double : layout.
#[export] Hint Rewrite load_int_store load_uint32_store load_double_store using assumption : layout.

Program Definition pod_uint32 : Pod Z := {|
  pod_size := 4; pod_pad := 0; pod_valid z := 0 <= z < 2 ^ 32;
  store _ z := store_int z; load := load_uint32 |}.
Next Obligation. intros. apply store_int_length. Qed.
Next Obligation. intros. by apply load_uint32_store. Qed.

Program Definition pod_int : Pod Z := {|
  pod_size := 4; pod_pad := 0; pod_valid z := is_int z = true;
  store _ z := store_int z; load := load_int |}.
Next Obligation. intros. apply store_int_length. Qed.
Next Obligation. intros. by apply load_int_store. Qed.

Program Definition pod_double : Pod double := {|
  pod_size := 8; pod_pad := 0; pod_valid x := valid_double x = true;
  store _ x := store_double x; load := load_double |}.
Next Obligation. intros. apply store_double_length. Qed.
Next Obligation. intros. by apply load_double_store. Qed.

(** ** Reading back what was appended *)
Section read_back.
Context {T : Type} (pod : Pod T).

Lemma get_elem_app pre pad x rest :
  length pad = pod_pad pod -> pod_valid pod x ->
  get_elem_from_buf pod (pre ++ store pod pad x ++ rest) (length pre)
    = Done (x, (length pre + pod_size pod)%nat).
Proof.
  intros Hpad Hx. unfold get_elem_from_buf.
  rewrite decide_True by (rewrite !length_app, (store_length pod pad x Hpad); lia).
  rewrite drop_app_length. by rewrite load_store.
Qed.

(** The images of a list, each element with its own padding bytes. *)
Definition store_list (xs : list (bytes * T)) : bytes :=
  concat (map (fun '(pad, x) => store pod pad x) xs).

Lemma get_elems_app pre xs rest :
  Forall (fun '(pad, x) => length pad = pod_pad pod /\ pod_valid pod x) xs ->
  exists off, get_elems pod (length xs) (pre ++ store_list xs ++ rest) (length pre)
                = Done (map snd xs, off).
Proof.
  revert pre. induction xs as [|[pad x] xs IH]; intros pre Hxs; simpl; [eauto|].
  inversion_clear Hxs as [|? ? Hh Hxs']. destruct Hh as [Hpad Hx].
  unfold store_list. simpl. rewrite <- app_assoc. rewrite get_elem_app by done. simpl.
  destruct (IH (pre ++ store pod pad x) Hxs') as [off Hoff].
  rewrite <- app_assoc, length_app, (store_length pod pad x Hpad) in Hoff.
  fold (store_list xs). rewrite Hoff. simpl. eauto.
Qed.
End read_back.
