(* ===== verification/Config.v ===== *)
(** * Configuration ([src/common/config.h], [src/common/config.cpp])

    The static members of [class Config], with the defaults of [config.cpp]. *)

From S2P Require Import Prelude.
From stdpp Require Export strings.
#[local] Open Scope Z_scope.

(** [static std::vector<std::vector<std::vector<std::pair<int, int>>>>
    trader_port2exchange_port]: trader, exchange, channel to
    (trader port, exchange port). *)
Abbreviation port_table := (list (list (list (Z * Z)))).

Record Config := mkConfig {
  data_folder : string;
  trade_output_folder : string;
  network_config_file : string;
  partition_idx : Z;
  sliding_window_size : Z;
  stock_num : Z;
  trader_num : Z;
  exchange_num : Z;
  loader_nx_matrix : Z;
  loader_ny_matrix : Z;
  loader_nz_matrix : Z;
  load_mode : Z;
  traders_addr : list string;
  exchanges_addr : list string;
  trader_port2exchange_port : port_table;
}.

Definition config_init : Config := {|
  data_folder := "";
  trade_output_folder := "";
  network_config_file := "/home/team-7/yzh/awsome-10w/network.host";
  partition_idx := -1;
  sliding_window_size := 100;
  stock_num := 10;
  trader_num := 2;
  exchange_num := 2;
  loader_nx_matrix := 500;
  loader_ny_matrix := 1000;
  loader_nz_matrix := 1000;
  load_mode := 0;
  traders_addr := [];
  exchanges_addr := [];
  trader_port2exchange_port := [];
|}.

(** The members that are set from the command line. *)
Definition set_partition_idx (p : Z) (c : Config) : Config :=
  mkConfig (data_folder c) (trade_output_folder c) (network_config_file c) p (sliding_window_size c)
    (stock_num c) (trader_num c) (exchange_num c) (loader_nx_matrix c) (loader_ny_matrix c)
    (loader_nz_matrix c) (load_mode c) (traders_addr c) (exchanges_addr c) (trader_port2exchange_port c).

Definition set_load_mode (m : Z) (c : Config) : Config :=
  mkConfig (data_folder c) (trade_output_folder c) (network_config_file c) (partition_idx c) (sliding_window_size c)
    (stock_num c) (trader_num c) (exchange_num c) (loader_nx_matrix c) (loader_ny_matrix c)
    (loader_nz_matrix c) m (traders_addr c) (exchanges_addr c) (trader_port2exchange_port c).
