(* ===== verification/ConfigLoad.v ===== *)
(** * Loading the configuration ([src/common/config.h])

    The configuration file has a key and a value per line, the network
    configuration file one entry per line: an address, or a pair of ports of a
    trader and an exchange. *)

From stdpp Require Import gmap pretty.
From S2P Require Import Prelude Text Bytes Config.
From Stdlib Require Import Ascii.
#[local] Open Scope Z_scope.

(** ** Assignments to the static members *)
Definition set_data_folder (v : string) (c : Config) : Config :=
  mkConfig v (trade_output_folder c) (network_config_file c) (partition_idx c)
    (sliding_window_size c) (stock_num c) (trader_num c) (exchange_num c)
    (loader_nx_matrix c) (loader_ny_matrix c) (loader_nz_matrix c) (load_mode c)
    (traders_addr c) (exchanges_addr c) (trader_port2exchange_port c).
Definition set_trade_output_folder (v : string) (c : Config) : Config :=
  mkConfig (data_folder c) v (network_config_file c) (partition_idx c) (sliding_window_size c)
    (stock_num c) (trader_num c) (exchange_num c) (loader_nx_matrix c)
    (loader_ny_matrix c) (loader_nz_matrix c) (load_mode c) (traders_addr c)
    (exchanges_addr c) (trader_port2exchange_port c).
Definition set_network_config_file (v : string) (c : Config) : Config :=
  mkConfig (data_folder c) (trade_output_folder c) v (partition_idx c) (sliding_window_size c)
    (stock_num c) (trader_num c) (exchange_num c) (loader_nx_matrix c)
    (loader_ny_matrix c) (loader_nz_matrix c) (load_mode c) (traders_addr c)
    (exchanges_addr c) (trader_port2exchange_port c).
Definition set_sliding_window_size (v : Z) (c : Config) : Config :=
  mkConfig (data_folder c) (trade_output_folder c) (network_config_file c) (partition_idx c) v
    (stock_num c) (trader_num c) (exchange_num c) (loader_nx_matrix c)
    (loader_ny_matrix c) (loader_nz_matrix c) (load_mode c) (traders_addr c)
    (exchanges_addr c) (trader_port2exchange_port c).
Definition set_stock_num (v : Z) (c : Config) : Config :=
  mkConfig (data_folder c) (trade_output_folder c) (network_config_file c) (partition_idx c)
    (sliding_window_size c) v (trader_num c) (exchange_num c) (loader_nx_matrix c)
    (loader_ny_matrix c) (loader_nz_matrix c) (load_mode c) (traders_addr c)
    (exchanges_addr c) (trader_port2exchange_port c).
Definition set_trader_num (v : Z) (c : Config) : Config :=
  mkConfig (data_folder c) (trade_output_folder c) (network_config_file c) (partition_idx c)
    (sliding_window_size c) (stock_num c) v (exchange_num c) (loader_nx_matrix c)
    (loader_ny_matrix c) (loader_nz_matrix c) (load_mode c) (traders_addr c)
    (exchanges_addr c) (trader_port2exchange_port c).
Definition set_exchange_num (v : Z) (c : Config) : Config :=
  mkConfig (data_folder c) (trade_output_folder c) (network_config_file c) (partition_idx c)
    (sliding_window_size c) (stock_num c) (trader_num c) v (loader_nx_matrix c)
    (loader_ny_matrix c) (loader_nz_matrix c) (load_mode c) (traders_addr c)
    (exchanges_addr c) (trader_port2exchange_port c).
Definition set_loader_nx_matrix (v : Z) (c : Config) : Config :=
  mkConfig (data_folder c) (trade_output_folder c) (network_config_file c) (partition_idx c)
    (sliding_window_size c) (stock_num c) (trader_num c) (exchange_num c) v
    (loader_ny_matrix c) (loader_nz_matrix c) (load_mode c) (traders_addr c)
    (exchanges_addr c) (trader_port2exchange_port c).
Definition set_loader_ny_matrix (v : Z) (c : Config) : Config :=
  mkConfig (data_folder c) (trade_output_folder c) (network_config_file c) (partition_idx c)
    (sliding_window_size c) (stock_num c) (trader_num c) (exchange_num c)
    (loader_nx_matrix c) v (loader_nz_matrix c) (load_mode c) (traders_addr c)
    (exchanges_addr c) (trader_port2exchange_port c).
Definition set_loader_nz_matrix (v : Z) (c : Config) : Config :=
  mkConfig (data_folder c) (trade_output_folder c) (network_config_file c) (partition_idx c)
    (sliding_window_size c) (stock_num c) (trader_num c) (exchange_num c)
    (loader_nx_matrix c) (loader_ny_matrix c) v (load_mode c) (traders_addr c)
    (exchanges_addr c) (trader_port2exchange_port c).
Definition set_traders_addr (v : list string) (c : Config) : Config :=
  mkConfig (data_folder c) (trade_output_folder c) (network_config_file c) (partition_idx c)
    (sliding_window_size c) (stock_num c) (trader_num c) (exchange_num c)
    (loader_nx_matrix c) (loader_ny_matrix c) (loader_nz_matrix c) (load_mode c) v
    (exchanges_addr c) (trader_port2exchange_port c).
Definition set_exchanges_addr (v : list string) (c : Config) : Config :=
  mkConfig (data_folder c) (trade_output_folder c) (network_config_file c) (partition_idx c)
    (sliding_window_size c) (stock_num c) (trader_num c) (exchange_num c)
    (loader_nx_matrix c) (loader_ny_matrix c) (loader_nz_matrix c) (load_mode c)
    (traders_addr c) v (trader_port2exchange_port c).
Definition set_trader_port2exchange_port (v : port_table) (c : Config) : Config :=
  mkConfig (data_folder c) (trade_output_folder c) (network_config_file c) (partition_idx c)
    (sliding_window_size c) (stock_num c) (trader_num c) (exchange_num c)
    (loader_nx_matrix c) (loader_ny_matrix c) (loader_nz_matrix c) (load_mode c)
    (traders_addr c) (exchanges_addr c) v.

(** ** The files

    [text_file fs name] is the contents of a text file, [None] if it does not
    exist. *)
Definition text_file (fs : gmap string bytes) (name : string) : option string :=
  String.string_of_list_byte <$> fs !! name.

(** [boost::starts_with(line, "#") || line.empty()]. *)
Definition skip_line (line : string) : bool :=
  match line with
  | EmptyString => true
  | String c _ => Ascii.eqb c "#"
  end.

(** ** [std::map<std::string, std::string>]: pairs in ascending order of keys *)
Abbreviation items := (list (string * string)).

(** [items[k] = v]. *)
Fixpoint items_set (k v : string) (l : items) : items :=
  match l with
  | (first, old) :: rest =>
      match String.compare k first with
      | Lt => (k, v) :: l
      | Eq => (k, v) :: rest
      | Gt => (first, old) :: items_set k v rest
      end
  | [] => [(k, v)]
  end.

(** The value of a key. *)
Fixpoint items_get (k : string) (l : items) : option string :=
  match l with
  | (first, v) :: rest => if String.eqb k first then Some v else items_get k rest
  | [] => None
  end.

(** [file2items] on the lines; [row] and [val] live across the iterations. *)
Fixpoint lines2items (lines : list string) (row val : string) (l : items) : items :=
  match lines with
  | [] => l
  | line :: lines =>
      if skip_line line then lines2items lines row val l
      else
        let '(row, iss) := read_word (istringstream line) row in
        let '(val, iss) := read_word iss val in
        lines2items lines row val (items_set row val l)
  end.

Definition file2items (fs : gmap string bytes) (fname : string) : proc items :=
  match text_file fs fname with
  | None => Exited 0
  | Some text => Running (Done (lines2items (getlines text) "" "" []))
  end.

(** [str2items]: [while (iss >> row >> val)]; every iteration that goes on
    takes characters from the stream. *)
Fixpoint stream2items (fuel : nat) (iss : istream) (row val : string) (l : items) : outcome items :=
  match fuel with
  | O => Fault OutOfFuel
  | S fuel =>
      let '(row, iss) := read_word iss row in
      let '(val, iss) := read_word iss val in
      if is_ok iss then stream2items fuel iss row val (items_set row val l) else Done l
  end.

Definition str2items (str : string) : outcome items :=
  stream2items (S (String.length str)) (istringstream str) "" "" [].

(** ** Setting the items *)

(** [s[s.length() - 1]]. *)
Fixpoint last_char (s : string) : option ascii :=
  match s with
  | EmptyString => None
  | String c EmptyString => Some c
  | String _ s => last_char s
  end.

(** The tests of [data_folder] and [trade_output_folder]: exit on an empty
    path, and force a slash at the end. *)
Definition folder_value (value : string) : proc string :=
  match last_char value with
  | None => Exited (-1)
  | Some c => Running (Done (if Ascii.eqb c "/" then value else value +:+ "/"))
  end.

Definition lift {A} (m : outcome A) : proc A := Running m.

Definition set_immutable_config (cfg_name value : string) (c : Config) : proc (bool * Config) :=
  let number (set : Z -> Config -> Config) : proc (bool * Config) :=
    n ← lift (atoi value); lift (Done (true, set n c)) in
  if String.eqb cfg_name "data_folder" then
    v ← folder_value value; lift (Done (true, set_data_folder v c))
  else if String.eqb cfg_name "trade_output_folder" then
    v ← folder_value value; lift (Done (true, set_trade_output_folder v c))
  else if String.eqb cfg_name "network_config_file" then
    if (String.length value =? 0)%nat then Exited (-1)
    else lift (Done (true, set_network_config_file value c))
  else if String.eqb cfg_name "sliding_window_size" then number set_sliding_window_size
  else if String.eqb cfg_name "stock_num" then number set_stock_num
  else if String.eqb cfg_name "trader_num" then number set_trader_num
  else if String.eqb cfg_name "exchange_num" then number set_exchange_num
  else if String.eqb cfg_name "loader_nx_matrix" then number set_loader_nx_matrix
  else if String.eqb cfg_name "loader_ny_matrix" then number set_loader_ny_matrix
  else if String.eqb cfg_name "loader_nz_matrix" then number set_loader_nz_matrix
  else lift (Done (false, c)).

(** No item can be changed later. *)
Definition set_mutable_config (cfg_name value : string) (c : Config) : bool * Config := (false, c).

(** The loop of [load_config] over the items; an item no setter knows is a
    warning. *)
Fixpoint set_items (l : items) (c : Config) : proc Config :=
  match l with
  | [] => lift (Done c)
  | (k, v) :: l =>
      '(known, c) ← set_immutable_config k v c;
      let '(_, c) := if known : bool then (true, c) else set_mutable_config k v c in
      set_items l c
  end.

(** [reload_config]. *)
Definition reload_config (str : string) (c : Config) : outcome Config :=
  l ← str2items str;
  Done (foldl (fun c '(k, v) => snd (set_mutable_config k v c)) c l).

(** ** The network configuration *)

(** [Config::trader_port2exchange_port[t][e].push_back({a, b})], where the
    ports were read into variables without an initial value. *)
Definition push_ports (t e : Z) (a b : option Z) (c : Config) : outcome Config :=
  match a, b with
  | Some a, Some b =>
      table ← array_update (trader_port2exchange_port c) t (fun row =>
                array_update row e (fun ports => Done (ports ++ [(a, b)])));
      Done (set_trader_port2exchange_port table c)
  | _, _ => Fault Uninitialized
  end.

Definition set_trader_addr (t : Z) (addr : string -> string) (c : Config) : outcome Config :=
  l ← array_update (traders_addr c) t (fun a => Done (addr a));
  Done (set_traders_addr l c).

Definition set_exchange_addr (e : Z) (addr : string -> string) (c : Config) : outcome Config :=
  l ← array_update (exchanges_addr c) e (fun a => Done (addr a));
  Done (set_exchanges_addr l c).

(** One entry, from the rest of the line behind its name. *)
Definition network_entry (row : string) (iss : istream) (c : Config) : outcome Config :=
  let word (old : string) : string := (read_word iss old).1 in
  let ports (t e : Z) :=
    let '(trader_port, iss) := read_int iss in
    let '(exchange_port, iss) := read_int iss in
    push_ports t e trader_port exchange_port c in
  if String.eqb row "trader0" then set_trader_addr 0 word c
  else if String.eqb row "trader1" then set_trader_addr 1 word c
  else if String.eqb row "exchange0" then set_exchange_addr 0 word c
  else if String.eqb row "exchange1" then set_exchange_addr 1 word c
  else if String.eqb row "trader0:exchange0" then ports 0 0
  else if String.eqb row "trader0:exchange1" then ports 0 1
  else if String.eqb row "trader1:exchange0" then ports 1 0
  else if String.eqb row "trader1:exchange1" then ports 1 1
  else Done c.

Fixpoint network_lines (lines : list string) (row : string) (c : Config) : outcome Config :=
  match lines with
  | [] => Done c
  | line :: lines =>
      if skip_line line then network_lines lines row c
      else
        let '(row, iss) := read_word (istringstream line) row in
        c ← network_entry row iss c;
        network_lines lines row c
  end.

(** Clear the previous tables and make room for two traders and two
    exchanges. *)
Definition clear_network (c : Config) : Config :=
  set_trader_port2exchange_port (replicate 2 (replicate 2 []))
    (set_exchanges_addr (replicate 2 ""%string) (set_traders_addr (replicate 2 ""%string) c)).

Definition load_network_config (fs : gmap string bytes) (fname : string) (c : Config) : proc Config :=
  match text_file fs fname with
  | None => Exited 0
  | Some text => lift (network_lines (getlines text) "" (clear_network c))
  end.

(** [load_config]. *)
Definition load_config (fs : gmap string bytes) (fname : string) (c : Config) : proc Config :=
  l ← file2items fs fname;
  c ← set_items l c;
  load_network_config fs (network_config_file c) c.

(** ** [print_config]: the lines printed, each ended by [LOG_endl] *)
Definition print_ports (c : Config) (t e : Z) : outcome (list string) :=
  row ← array_get (trader_port2exchange_port c) t;
  ports ← array_get row e;
  Done (("trader" +:+ pretty t +:+ "->exchange" +:+ pretty e +:+ " port mapping: ")
        :: map (fun '(trader_port, exchange_port) => pretty trader_port +:+ "->" +:+ pretty exchange_port) ports).

Definition print_config (c : Config) : outcome (list string) :=
  t0 ← array_get (traders_addr c) 0;
  t1 ← array_get (traders_addr c) 1;
  e0 ← array_get (exchanges_addr c) 0;
  e1 ← array_get (exchanges_addr c) 1;
  p00 ← print_ports c 0 0;
  p01 ← print_ports c 0 1;
  p10 ← print_ports c 1 0;
  p11 ← print_ports c 1 1;
  Done (["--------- CONFIG ---------";
    "partition_idx: " +:+ pretty (partition_idx c);
    "data_folder: " +:+ data_folder c;
    "network_config_file: " +:+ network_config_file c;
    "sliding_window_size: " +:+ pretty (sliding_window_size c);
    "stock_num: " +:+ pretty (stock_num c);
    "trader_num: " +:+ pretty (trader_num c);
    "exchange_num: " +:+ pretty (exchange_num c);
    "loader_nx_matrix: " +:+ pretty (loader_nx_matrix c);
    "loader_ny_matrix: " +:+ pretty (loader_ny_matrix c);
    "loader_nz_matrix: " +:+ pretty (loader_nz_matrix c);
    "load_mode: " +:+ pretty (load_mode c);
    "trader0_addr: " +:+ t0;
    "trader1_addr: " +:+ t1;
    "exchange0_addr: " +:+ e0;
    "exchange1_addr: " +:+ e1]%string
    ++ p00 ++ p01 ++ p10 ++ p11 ++ ["----------- END ------------"]%string).
