(* ===== verification/ConfigProps.v ===== *)
(** * Properties of the configuration files

    A file made of settings, comments and blank lines sets exactly these
    settings, whatever their order; the network file gives exactly the
    addresses and port pairs it lists. *)

From stdpp Require Import gmap pretty.
From S2P Require Import Prelude Text Bytes Config ConfigLoad.
From Stdlib Require Import Ascii.
#[local] Open Scope Z_scope.

(** ** Settings *)
Inductive setting :=
  | SDataFolder (path : string)
  | STradeFolder (path : string)
  | SNetworkFile (fname : string)
  | SWindow (n : Z)
  | SStocks (n : Z)
  | STraders (n : Z)
  | SExchanges (n : Z)
  | SNx (n : Z)
  | SNy (n : Z)
  | SNz (n : Z).

Definition setting_key (s : setting) : string :=
  match s with
  | SDataFolder _ => "data_folder" | STradeFolder _ => "trade_output_folder"
  | SNetworkFile _ => "network_config_file" | SWindow _ => "sliding_window_size"
  | SStocks _ => "stock_num" | STraders _ => "trader_num" | SExchanges _ => "exchange_num"
  | SNx _ => "loader_nx_matrix" | SNy _ => "loader_ny_matrix" | SNz _ => "loader_nz_matrix"
  end.

Definition setting_value (s : setting) : string :=
  match s with
  | SDataFolder p | STradeFolder p | SNetworkFile p => p
  | SWindow n | SStocks n | STraders n | SExchanges n | SNx n | SNy n | SNz n => pretty n
  end.

(** A word for a path, an [int] for a number. *)
Definition setting_ok (s : setting) : bool :=
  match s with
  | SDataFolder p | STradeFolder p | SNetworkFile p => is_word p
  | SWindow n | SStocks n | STraders n | SExchanges n | SNx n | SNy n | SNz n => is_int n
  end.

(** A path with a slash at its end. *)
Definition slashed (path : string) : string :=
  if decide (last_char path = Some "/"%char) then path else path +:+ "/".

(** What a setting means. *)
Definition apply_setting (c : Config) (s : setting) : Config :=
  match s with
  | SDataFolder p => set_data_folder (slashed p) c
  | STradeFolder p => set_trade_output_folder (slashed p) c
  | SNetworkFile f => set_network_config_file f c
  | SWindow n => set_sliding_window_size n c
  | SStocks n => set_stock_num n c
  | STraders n => set_trader_num n c
  | SExchanges n => set_exchange_num n c
  | SNx n => set_loader_nx_matrix n c
  | SNy n => set_loader_ny_matrix n c
  | SNz n => set_loader_nz_matrix n c
  end.

Lemma setting_key_word s : is_word (setting_key s) = true.
Proof. by destruct s. Qed.

Lemma setting_value_word s : setting_ok s = true -> is_word (setting_value s) = true.
Proof. destruct s; cbn [setting_ok setting_value]; intros; [done..|apply is_word_pretty|apply is_word_pretty|apply is_word_pretty|apply is_word_pretty|apply is_word_pretty|apply is_word_pretty|apply is_word_pretty]. Qed.

Lemma last_char_cons c s : exists d, last_char (String c s) = Some d.
Proof. revert c. induction s as [|c' s IH]; intros c; [by exists c|]. apply (IH c'). Qed.

Lemma folder_value_word p : is_word p = true -> folder_value p = lift (Done (slashed p)).
Proof.
  intros Hp. destruct p as [|c p]; [done|]. unfold folder_value, slashed.
  destruct (last_char_cons c p) as [d ->].
  destruct (Ascii.eqb_spec d "/"); case_decide; (done || congruence).
Qed.

(** The setter does what the setting means. *)
Lemma set_immutable_setting s c :
  setting_ok s = true ->
  set_immutable_config (setting_key s) (setting_value s) c = lift (Done (true, apply_setting c s)).
Proof.
  intros Hs. destruct s; cbn [setting_ok] in Hs; unfold set_immutable_config; cbn [setting_key setting_value apply_setting];
    cbn [String.eqb Ascii.eqb Bool.eqb]; rewrite ?folder_value_word, ?atoi_pretty by done; try done.
  destruct fname; [done|]. done.
Qed.

(** Settings of different keys commute, of the same key the later one wins. *)
Lemma apply_setting_comm c s s' :
  setting_key s <> setting_key s' ->
  apply_setting (apply_setting c s) s' = apply_setting (apply_setting c s') s.
Proof. by destruct s, s'. Qed.

Lemma apply_setting_absorb c s s' :
  setting_key s = setting_key s' -> apply_setting (apply_setting c s) s' = apply_setting c s'.
Proof. by destruct s, s'. Qed.

(** ** The order of [std::map] *)
Lemma ascii_compare_trans a b c : Ascii.compare a b = Lt -> Ascii.compare b c = Lt -> Ascii.compare a c = Lt.
Proof. unfold Ascii.compare. rewrite !N.compare_lt_iff. lia. Qed.

Lemma ascii_compare_eq a b : Ascii.compare a b = Eq -> a = b.
Proof.
  unfold Ascii.compare. rewrite N.compare_eq_iff. intros E.
  by rewrite <- (ascii_N_embedding a), <- (ascii_N_embedding b), E.
Qed.

Lemma string_compare_trans a b c :
  String.compare a b = Lt -> String.compare b c = Lt -> String.compare a c = Lt.
Proof.
  revert b c. induction a as [|x a IH]; intros [|y b] [|z c]; cbn [String.compare]; try done.
  destruct (Ascii.compare x y) eqn:Exy; [|intros _|done].
  - apply ascii_compare_eq in Exy as ->. destruct (Ascii.compare y z); [|done|done]. apply IH.
  - destruct (Ascii.compare y z) eqn:Eyz; [|intros _|done].
    + apply ascii_compare_eq in Eyz as ->. by rewrite Exy.
    + by rewrite (ascii_compare_trans x y z).
Qed.

Lemma string_compare_refl_eq a b : String.compare a b = Eq -> a = b.
Proof. apply String.compare_eq_iff. Qed.

Lemma string_compare_irrefl a : String.compare a a <> Lt.
Proof.
  intros E. pose proof (String.compare_antisym a a) as E'. rewrite E in E'. done.
Qed.

Lemma string_compare_gt a b : String.compare a b = Gt -> String.compare b a = Lt.
Proof. intros E. by rewrite String.compare_antisym, E. Qed.

(** A setting commutes with settings of other keys. *)
Lemma foldl_apply_comm l c s :
  (forall x, x ∈ l -> setting_key s <> setting_key x) ->
  foldl apply_setting (apply_setting c s) l = apply_setting (foldl apply_setting c l) s.
Proof.
  revert c. induction l as [|a l IH]; intros c Hl; [done|]. cbn [foldl].
  rewrite apply_setting_comm by (apply Hl; set_solver). apply IH. set_solver.
Qed.

Definition key_before (a b : setting) : Prop := String.compare (setting_key a) (setting_key b) = Lt.

(** Inserting a setting into the map of the settings before it. *)
Definition pair_of (s : setting) : string * string := (setting_key s, setting_value s).

Lemma items_set_setting s l :
  StronglySorted key_before l ->
  exists l', items_set (setting_key s) (setting_value s) (map pair_of l) = map pair_of l' /\
    StronglySorted key_before l' /\ (forall x, x ∈ l' -> x = s \/ x ∈ l) /\
    (forall c, foldl apply_setting c l' = apply_setting (foldl apply_setting c l) s).
Proof.
  induction l as [|a l IH]; intros Hl.
  { exists [s]. split; [done|]. split; [by repeat constructor|]. split; [set_solver|done]. }
  apply StronglySorted_inv in Hl as [Hl Ha]. rewrite Forall_forall in Ha.
  cbn [map pair_of items_set].
  destruct (String.compare (setting_key s) (setting_key a)) eqn:E.
  - apply string_compare_refl_eq in E. exists (s :: l). unfold pair_of at 2.
    split; [done|]. split.
    { constructor; [done|]. apply Forall_forall. intros x Hx. unfold key_before. rewrite E. by apply Ha. }
    split; [intros x; rewrite !elem_of_cons; tauto|]. intros c. cbn [foldl].
    rewrite <- (apply_setting_absorb c a s) by done. apply foldl_apply_comm.
    intros x Hx Ek. specialize (Ha x Hx). unfold key_before in Ha. rewrite <- E, Ek in Ha. by apply string_compare_irrefl in Ha.
  - exists (s :: a :: l). split; [done|]. split.
    { constructor; [by constructor; [|apply Forall_forall]|]. apply Forall_forall. intros x Hx.
      apply elem_of_cons in Hx as [->|Hx]; [done|]. unfold key_before. by eapply string_compare_trans; [exact E|apply Ha]. }
    split; [set_solver|]. intros c. change (foldl apply_setting c (s :: a :: l)) with (foldl apply_setting (apply_setting c s) (a :: l)).
    apply foldl_apply_comm. intros x Hx Ek.
    assert (Hlt : String.compare (setting_key s) (setting_key x) = Lt).
    { apply elem_of_cons in Hx as [->|Hx]; [done|]. by eapply string_compare_trans; [exact E|apply Ha]. }
    rewrite Ek in Hlt. by apply string_compare_irrefl in Hlt.
  - destruct (IH Hl) as (l' & El & Hs' & Hin & Hf). exists (a :: l'). unfold pair_of in El at 1. cbn [map].
    split; [unfold pair_of at 1; by rewrite El|]. split.
    { constructor; [done|]. apply Forall_forall. intros x Hx. destruct (Hin x Hx) as [->|Hx']; [by apply string_compare_gt|by apply Ha]. }
    split; [intros x; rewrite !elem_of_cons; intros [->|Hx]; [auto|destruct (Hin x Hx); auto]|]. intros c. cbn [foldl]. apply Hf.
Qed.

Lemma set_items_settings l c :
  Forall (fun s => setting_ok s = true) l ->
  set_items (map pair_of l) c = lift (Done (foldl apply_setting c l)).
Proof.
  revert c. induction l as [|s l IH]; intros c Hl; [done|]. inversion_clear Hl as [|? ? Hs Hl'].
  cbn [map pair_of set_items foldl]. rewrite set_immutable_setting by done. apply IH. done.
Qed.

(** ** The lines of a configuration file *)
Inductive config_line :=
  | Comment (text : string)
  | Blank
  | Setting (s : setting).

Definition render_line (l : config_line) : string :=
  match l with
  | Comment text => "#" +:+ text
  | Blank => ""
  | Setting s => setting_key s +:+ (" " +:+ (setting_value s +:+ ""))
  end.

Definition line_ok (l : config_line) : bool :=
  match l with
  | Comment text => no_newline text
  | Blank => true
  | Setting s => setting_ok s
  end.

Definition settings_of (ls : list config_line) : list setting :=
  omap (fun l => match l with Setting s => Some s | _ => None end) ls.

Lemma word_no_newline w : is_word w = true -> no_newline w = true.
Proof. unfold is_word. intros H. to_prop. by apply no_space_no_newline. Qed.

Lemma render_line_no_newline l : line_ok l = true -> no_newline (render_line l) = true.
Proof.
  destruct l as [text| |s]; cbn [line_ok render_line]; intros Hl; [|done|].
  - by rewrite no_newline_app, Hl.
  - rewrite !no_newline_app, (word_no_newline (setting_key s)) by apply setting_key_word.
    by rewrite (word_no_newline (setting_value s)) by by apply setting_value_word.
Qed.

Lemma setting_line_not_skipped s rest : skip_line (setting_key s +:+ rest) = false.
Proof. by destruct s. Qed.

Lemma lines2items_render ls row val l :
  forallb line_ok ls = true -> StronglySorted key_before l -> Forall (fun s => setting_ok s = true) l ->
  exists l', lines2items (map render_line ls) row val (map pair_of l) = map pair_of l' /\
    Forall (fun s => setting_ok s = true) l' /\
    forall c, foldl apply_setting c l' = foldl apply_setting (foldl apply_setting c l) (settings_of ls).
Proof.
  revert row val l. induction ls as [|a ls IH]; intros row val l Hls Hl Hok; [by exists l|].
  cbn [forallb] in Hls. to_prop. destruct a as [text| |s]; cbn [map render_line lines2items].
  - by apply IH.
  - by apply IH.
  - rewrite setting_line_not_skipped.
    rewrite read_word_app by (done || apply setting_key_word).
    rewrite read_word_space by (done || by apply setting_value_word).
    destruct (items_set_setting s l Hl) as (l1 & -> & Hs1 & Hin1 & Hf1).
    destruct (IH (setting_key s) (setting_value s) l1) as (l' & -> & Hok' & Hf'); [done|done| |].
    { apply Forall_forall. intros x Hx. rewrite Forall_forall in Hok. destruct (Hin1 x Hx) as [->|]; auto. }
    exists l'. split; [done|]. split; [done|]. intros c. rewrite Hf', Hf1. done.
Qed.

(** ** The lines of a network file *)
Inductive network_line :=
  | NComment (text : string)
  | NBlank
  | NTrader (t : bool) (addr : string)
  | NExchange (e : bool) (addr : string)
  | NPorts (t e : bool) (trader_port exchange_port : Z).

Definition index_digit (b : bool) : string := if b then "1" else "0".

Definition network_name (l : network_line) : string :=
  match l with
  | NComment _ | NBlank => ""
  | NTrader t _ => "trader" +:+ index_digit t
  | NExchange e _ => "exchange" +:+ index_digit e
  | NPorts t e _ _ => "trader" +:+ (index_digit t +:+ (":exchange" +:+ index_digit e))
  end.

Definition render_network (l : network_line) : string :=
  match l with
  | NComment text => "#" +:+ text
  | NBlank => ""
  | NTrader _ addr | NExchange _ addr => network_name l +:+ (" " +:+ (addr +:+ ""))
  | NPorts _ _ a b => network_name l +:+ (" " +:+ (pretty a +:+ (" " +:+ (pretty b +:+ ""))))
  end.

Definition network_line_ok (l : network_line) : bool :=
  match l with
  | NComment text => no_newline text
  | NBlank => true
  | NTrader _ addr | NExchange _ addr => is_word addr
  | NPorts _ _ a b => is_int a && is_int b
  end.

Definition index_of (b : bool) : nat := if b then 1 else 0.

(** What a line means. *)
Definition apply_network (c : Config) (l : network_line) : Config :=
  match l with
  | NComment _ | NBlank => c
  | NTrader t addr => set_traders_addr (<[index_of t := addr]> (traders_addr c)) c
  | NExchange e addr => set_exchanges_addr (<[index_of e := addr]> (exchanges_addr c)) c
  | NPorts t e a b =>
      set_trader_port2exchange_port
        (alter (alter (fun ports => ports ++ [(a, b)]) (index_of e)) (index_of t) (trader_port2exchange_port c)) c
  end.

(** Two traders, two exchanges, and a list of ports for every pair. *)
Definition network_shape (c : Config) : Prop :=
  (exists t0 t1, traders_addr c = [t0; t1]) /\ (exists e0 e1, exchanges_addr c = [e0; e1]) /\
  exists p00 p01 p10 p11, trader_port2exchange_port c = [[p00; p01]; [p10; p11]].

Lemma apply_network_shape c l : network_shape c -> network_shape (apply_network c l).
Proof.
  intros ((t0 & t1 & Et) & (e0 & e1 & Ee) & (p00 & p01 & p10 & p11 & Ep)).
  destruct l as [| |[] addr|[] addr|[] [] a b]; unfold network_shape, apply_network;
    cbn [traders_addr exchanges_addr trader_port2exchange_port set_traders_addr set_exchanges_addr
         set_trader_port2exchange_port]; rewrite ?Et, ?Ee, ?Ep;
    (split; [by repeat eexists|split; [by repeat eexists|by repeat eexists]]).
Qed.

Ltac compute_name :=
  match goal with
  | |- context [network_name ?l] =>
      let n := eval vm_compute in (network_name l) in change (network_name l) with n
  end.

Lemma network_entry_render l c :
  network_shape c -> network_line_ok l = true ->
  match l with
  | NComment _ | NBlank => True
  | NTrader _ addr | NExchange _ addr =>
      network_entry (network_name l) (mkIstream true (" " +:+ (addr +:+ ""))) c = Done (apply_network c l)
  | NPorts _ _ a b =>
      network_entry (network_name l) (mkIstream true (" " +:+ (pretty a +:+ (" " +:+ (pretty b +:+ ""))))) c
        = Done (apply_network c l)
  end.
Proof.
  intros ((t0 & t1 & Et) & (e0 & e1 & Ee) & (p00 & p01 & p10 & p11 & Ep)) Hl.
  destruct l as [| |t addr|e addr|t e a b]; cbn [network_line_ok] in Hl; [done|done| | |].
  - destruct t; compute_name; unfold network_entry; cbn [String.eqb Ascii.eqb Bool.eqb];
      unfold set_trader_addr; rewrite Et;
      (erewrite (array_update_ok [t0; t1] _ _ _ addr); [|lia|reflexivity|by rewrite read_word_space]);
      cbn [apply_network]; by rewrite Et.
  - destruct e; compute_name; unfold network_entry; cbn [String.eqb Ascii.eqb Bool.eqb];
      unfold set_exchange_addr; rewrite Ee;
      (erewrite (array_update_ok [e0; e1] _ _ _ addr); [|lia|reflexivity|by rewrite read_word_space]);
      cbn [apply_network]; by rewrite Ee.
  - to_prop. destruct t, e; compute_name; unfold network_entry; cbn [String.eqb Ascii.eqb Bool.eqb];
      rewrite read_int_pretty by done; rewrite read_int_pretty by done;
      unfold push_ports, array_update; rewrite Ep; cbn; by rewrite Ep.
Qed.

Lemma network_name_word l :
  match l with NComment _ | NBlank => True | _ => is_word (network_name l) = true end.
Proof. by destruct l as [| |[] ?|[] ?|[] [] ? ?]. Qed.

Lemma network_line_not_skipped l rest :
  match l with NComment _ | NBlank => True | _ => skip_line (network_name l +:+ rest) = false end.
Proof. by destruct l. Qed.

Lemma render_network_no_newline l : network_line_ok l = true -> no_newline (render_network l) = true.
Proof.
  pose proof (network_name_word l) as Hn.
  destruct l as [text| |t addr|e addr|t e a b]; cbn [network_line_ok render_network]; intros Hl.
  - by rewrite no_newline_app, Hl.
  - done.
  - rewrite !no_newline_app, (word_no_newline _ Hn). by rewrite (word_no_newline addr).
  - rewrite !no_newline_app, (word_no_newline _ Hn). by rewrite (word_no_newline addr).
  - rewrite !no_newline_app, (word_no_newline _ Hn), !(word_no_newline (pretty _)) by apply is_word_pretty. done.
Qed.

Lemma network_lines_render ls row c :
  network_shape c -> forallb network_line_ok ls = true ->
  network_lines (map render_network ls) row c = Done (foldl apply_network c ls).
Proof.
  revert row c. induction ls as [|l ls IH]; intros row c Hc Hls; [done|].
  cbn [forallb] in Hls. to_prop. rename select (network_line_ok l = true) into Hl.
  pose proof (apply_network_shape c l Hc) as Hc'. pose proof (network_entry_render l c Hc Hl) as He.
  pose proof (network_name_word l) as Hn. pose proof (network_line_not_skipped l) as Hskip.
  cbn [map foldl network_lines]. destruct l as [text| |t addr|e addr|t e a b]; cbn [render_network] in *.
  - by apply IH.
  - by apply IH.
  - rewrite Hskip, read_word_app, He, bind_Done by done. by apply IH.
  - rewrite Hskip, read_word_app, He, bind_Done by done. by apply IH.
  - rewrite Hskip, read_word_app, He, bind_Done by done. by apply IH.
Qed.

Lemma clear_network_shape c : network_shape (clear_network c).
Proof. split; [by repeat eexists|split; [by repeat eexists|by repeat eexists]]. Qed.

(** ** Example files *)
Definition demo_config_lines : list config_line :=
  [Comment "PPIW"; Setting (SStocks 10); Blank; Setting (SDataFolder "/data"); Setting (SWindow 7);
   Setting (SNetworkFile "network.host"); Setting (SStocks 20)].

Definition demo_network_lines : list network_line :=
  [NTrader false "10.0.0.1"; NExchange true "10.0.0.4"; NComment "ports"; NPorts false true 40018 40120].

Definition demo_files : gmap string bytes :=
  <["config" := String.list_byte_of_string (unlines (map render_line demo_config_lines))]>
    {["network.host" := String.list_byte_of_string (unlines (map render_network demo_network_lines))]}.

(** ** The property *)

(** C26: The configuration files round-trip.  For a file of settings, comments
    and blank lines (a setting being one of the ten keys with a word or an
    [int] as its value) and a network file of addresses, port pairs, comments
    and blank lines, [load_config] ends normally with the configuration that
    applies the settings in the order of the file, the last of a key winning,
    and then, on cleared tables, the network lines; although the items pass
    through a map that orders them by key. *)
Theorem config_files_round_trip fs fname c ls nls :
  text_file fs fname = Some (unlines (map render_line ls)) -> forallb line_ok ls = true ->
  text_file fs (network_config_file (foldl apply_setting c (settings_of ls)))
    = Some (unlines (map render_network nls)) -> forallb network_line_ok nls = true ->
  load_config fs fname c =
    Running (Done (foldl apply_network (clear_network (foldl apply_setting c (settings_of ls))) nls)).
Proof.
  intros Hf Hls Hn Hnls. unfold load_config, file2items. rewrite Hf.
  rewrite getlines_unlines.
  2:{ apply Forall_map. apply Is_true_eq_left, forallb_True in Hls. eapply Forall_impl; [exact Hls|].
      intros l Hl. apply render_line_no_newline. by apply Is_true_eq_true. }
  destruct (lines2items_render ls "" "" [] Hls) as (l & El & Hok & Hfold); [constructor|constructor|].
  cbn [map] in El. rewrite El. change (foldl apply_setting c (settings_of ls))
    with (foldl apply_setting (foldl apply_setting c []) (settings_of ls)) in *. rewrite <- Hfold in *.
  cbn [mbind proc_bind]. rewrite set_items_settings by done. cbn [mbind proc_bind lift].
  unfold load_network_config. rewrite Hn. rewrite getlines_unlines.
  2:{ apply Forall_map. apply Is_true_eq_left, forallb_True in Hnls. eapply Forall_impl; [exact Hnls|].
      intros l' Hl'. apply render_network_no_newline. by apply Is_true_eq_true. }
  unfold lift. f_equal. apply network_lines_render; [apply clear_network_shape|done].
Qed.

Lemma config_files_round_trip_witness :
  exists c, load_config demo_files "config" config_init = Running (Done c) /\
    stock_num c = 20 /\ data_folder c = "/data/"%string /\
    trader_port2exchange_port c = [[[]; [(40018, 40120)]]; [[]; []]].
Proof.
  eexists. split.
  - apply (config_files_round_trip demo_files "config" config_init demo_config_lines demo_network_lines);
      vm_compute; reflexivity.
  - split; [reflexivity|]. split; reflexivity.
Defined.

(** A key without a value takes the value of the line before it. *)
Lemma key_without_value_inherits :
  lines2items ["stock_num 10"; "trader_num"]%string "" "" [] = [("stock_num", "10"); ("trader_num", "10")]%string.
Proof. reflexivity. Qed.

(** ** Reloading *)
Lemma skip_space_length s : (String.length (skip_space s) <= String.length s)%nat.
Proof. induction s as [|c s IH]; [done|]. cbn [skip_space String.length]. case_if; cbn [String.length]; lia. Qed.

Lemma split_word_length s : (String.length (split_word s).2 <= String.length s)%nat.
Proof.
  induction s as [|c s IH]; [done|]. cbn [split_word]. case_if; [done|].
  destruct (split_word s) as [w r]. cbn [snd String.length] in *. lia.
Qed.

Lemma split_word_shorter c s :
  is_space c = false -> (String.length (split_word (String c s)).2 < String.length (String c s))%nat.
Proof.
  intros Hc. cbn [split_word]. rewrite Hc. pose proof (split_word_length s).
  destruct (split_word s) as [w r]. cbn [snd String.length] in *. lia.
Qed.

Lemma skip_space_head c s r : skip_space s = String c r -> is_space c = false.
Proof.
  induction s as [|d s IH]; [done|]. cbn [skip_space]. destruct (is_space d) eqn:E; [done|]. by intros [= <- <-].
Qed.

Lemma read_word_shorter iss w :
  let '(_, iss') := read_word iss w in
  is_ok iss' = true -> (String.length (is_rest iss') < String.length (is_rest iss))%nat.
Proof.
  unfold read_word. destruct (is_ok iss) eqn:Eok; cbn [negb]; [|by rewrite Eok].
  destruct (skip_space (is_rest iss)) as [|c r] eqn:Es; [done|].
  pose proof (split_word_shorter c r (skip_space_head _ _ _ Es)).
  pose proof (skip_space_length (is_rest iss)). rewrite Es in *.
  destruct (split_word (String c r)) as [v r']. cbn [snd is_ok is_rest] in *. lia.
Qed.

Lemma stream2items_total fuel iss row val l :
  (String.length (is_rest iss) < fuel)%nat -> exists l', stream2items fuel iss row val l = Done l'.
Proof.
  revert iss row val l. induction fuel as [|fuel IH]; intros iss row val l Hf; [lia|].
  cbn [stream2items].
  pose proof (read_word_shorter iss row) as H1. destruct (read_word iss row) as [row' iss1].
  pose proof (read_word_shorter iss1 val) as H2. destruct (read_word iss1 val) as [val' iss2] eqn:E2.
  destruct (is_ok iss2) eqn:Eok; [|eauto]. apply IH. specialize (H2 eq_refl).
  assert (is_ok iss1 = true).
  { destruct (is_ok iss1) eqn:E1; [done|]. unfold read_word in E2. rewrite E1 in E2. cbn [negb] in E2.
    injection E2 as <- <-. congruence. }
  specialize (H1 H). lia.
Qed.

(** The loop of [str2items] ends, and reloading changes nothing, whatever the
    string: no item is mutable. *)
Lemma reload_config_noop str c : reload_config str c = Done c.
Proof.
  unfold reload_config, str2items.
  destruct (stream2items_total (S (String.length str)) (istringstream str) "" "" []) as [l ->]; [cbn; lia|].
  rewrite bind_Done. f_equal. induction l as [|[k v] l IH]; [done|]. exact IH.
Qed.
