(* ===== verification/Types.v ===== *)
(** * The shared data types ([src/common/type.hpp])

    Orders, trades, acknowledgements, their memory layouts, the packed
    coordinates of an order in the input matrices and the construction of an
    order from the matrices. *)

From S2P Require Import Prelude Double Bytes Config.
#[local] Open Scope Z_scope.

(** [enum MSG_TYPE]. *)
Definition ORDER_MSG : Z := 1.
Definition TRADE_MSG : Z := 2.
Definition ORDER_ACK_MSG : Z := 3.

Record Order := mkOrder {
  o_stk_code : Z;
  o_order_id : Z;
  o_direction : Z;
  o_type : Z;
  o_price : double;
  o_volume : Z;
}.

Record Trade := mkTrade {
  t_stk_code : Z;
  t_bid_id : Z;
  t_ask_id : Z;
  t_price : double;
  t_volume : Z;
}.

Record CommTrade := mkCommTrade {
  ct_stk_code : Z;
  ct_bid_id : Z;
  ct_ask_id : Z;
  ct_dummy : Z;
  ct_price : double;
  ct_volume : Z;
}.

Record OrderAck := mkOrderAck {
  a_stk_code : Z;
  a_order_id : Z;
}.

#[export] Instance Order_eq_dec : EqDecision Order.
Proof. solve_decision. Defined.
#[export] Instance Trade_eq_dec : EqDecision Trade.
Proof. solve_decision. Defined.
#[export] Instance OrderAck_eq_dec : EqDecision OrderAck.
Proof. solve_decision. Defined.

(** [order.type = t] on a copy. *)
Definition set_o_type (o : Order) (t : Z) : Order :=
  mkOrder (o_stk_code o) (o_order_id o) (o_direction o) t (o_price o) (o_volume o).

(** ** Memory layouts

    [Order] is aligned: four [int]s, a [double] at offset 16, an [int] at 24
    and four bytes of padding.  The trades are packed. *)
Definition store_Order (pad : bytes) (o : Order) : bytes :=
  store_int (o_stk_code o) ++ store_int (o_order_id o) ++ store_int (o_direction o)
  ++ store_int (o_type o) ++ store_double (o_price o) ++ store_int (o_volume o) ++ pad.

Definition load_Order (bs : bytes) : Order :=
  mkOrder (load_int bs) (load_int (drop 4 bs)) (load_int (drop 8 bs))
    (load_int (drop 12 bs)) (load_double (drop 16 bs)) (load_int (drop 24 bs)).

Definition store_Trade (t : Trade) : bytes :=
  store_int (t_stk_code t) ++ store_int (t_bid_id t) ++ store_int (t_ask_id t)
  ++ store_double (t_price t) ++ store_int (t_volume t).

Definition load_Trade (bs : bytes) : Trade :=
  mkTrade (load_int bs) (load_int (drop 4 bs)) (load_int (drop 8 bs))
    (load_double (drop 12 bs)) (load_int (drop 20 bs)).

Definition store_CommTrade (t : CommTrade) : bytes :=
  store_int (ct_stk_code t) ++ store_int (ct_bid_id t) ++ store_int (ct_ask_id t)
  ++ store_int (ct_dummy t) ++ store_double (ct_price t) ++ store_int (ct_volume t).

Definition load_CommTrade (bs : bytes) : CommTrade :=
  mkCommTrade (load_int bs) (load_int (drop 4 bs)) (load_int (drop 8 bs))
    (load_int (drop 12 bs)) (load_double (drop 16 bs)) (load_int (drop 24 bs)).

Definition store_OrderAck (a : OrderAck) : bytes :=
  store_int (a_stk_code a) ++ store_int (a_order_id a).

Definition load_OrderAck (bs : bytes) : OrderAck :=
  mkOrderAck (load_int bs) (load_int (drop 4 bs)).

(** Values a C++ object of the type can hold (the doubles in canonical form). *)
Definition valid_Order (o : Order) : bool :=
  is_int (o_stk_code o) && is_int (o_order_id o) && is_int (o_direction o)
  && is_int (o_type o) && valid_double (o_price o) && is_int (o_volume o).
Definition valid_Trade (t : Trade) : bool :=
  is_int (t_stk_code t) && is_int (t_bid_id t) && is_int (t_ask_id t)
  && valid_double (t_price t) && is_int (t_volume t).
Definition valid_CommTrade (t : CommTrade) : bool :=
  is_int (ct_stk_code t) && is_int (ct_bid_id t) && is_int (ct_ask_id t)
  && is_int (ct_dummy t) && valid_double (ct_price t) && is_int (ct_volume t).
Definition valid_OrderAck (a : OrderAck) : bool :=
  is_int (a_stk_code a) && is_int (a_order_id a).

(** Skip the fields in front of an offset one by one. *)
Lemma drop_split (k m : nat) (bs : bytes) : drop (k + m) bs = drop m (drop k bs).
Proof. by rewrite drop_drop. Qed.

Ltac solve_layout :=
  repeat match goal with
  | |- context [drop ?n (store_int ?z ++ ?r)] =>
      replace (drop n (store_int z ++ r)) with (drop (n - 4) r)
        by (change n with (4 + (n - 4))%nat; rewrite drop_split, drop_store_int; done); simpl (_ - _)%nat
  | |- context [drop ?n (store_double ?z ++ ?r)] =>
      replace (drop n (store_double z ++ r)) with (drop (n - 8) r)
        by (change n with (8 + (n - 8))%nat; rewrite drop_split, drop_store_double; done); simpl (_ - _)%nat
  end; rewrite ?drop_0;
  rewrite ?load_int_store, ?load_double_store by assumption.

Lemma load_store_Order pad o rest :
  valid_Order o = true -> load_Order (store_Order pad o ++ rest) = o.
Proof.
  unfold valid_Order. intros Hv. to_prop.
  unfold load_Order, store_Order. rewrite <- !app_assoc.
  solve_layout. by destruct o.
Qed.

Lemma load_store_Trade t rest :
  valid_Trade t = true -> load_Trade (store_Trade t ++ rest) = t.
Proof.
  unfold valid_Trade. intros Hv. to_prop.
  unfold load_Trade, store_Trade. rewrite <- !app_assoc. solve_layout. by destruct t.
Qed.

Lemma load_store_CommTrade t rest :
  valid_CommTrade t = true -> load_CommTrade (store_CommTrade t ++ rest) = t.
Proof.
  unfold valid_CommTrade. intros Hv. to_prop.
  unfold load_CommTrade, store_CommTrade. rewrite <- !app_assoc. solve_layout. by destruct t.
Qed.

Lemma load_store_OrderAck a rest :
  valid_OrderAck a = true -> load_OrderAck (store_OrderAck a ++ rest) = a.
Proof.
  unfold valid_OrderAck. intros Hv. to_prop.
  unfold load_OrderAck, store_OrderAck. rewrite <- !app_assoc. solve_layout. by destruct a.
Qed.

(** The layouts as [Pod] instances; [sizeof] is 32, 24, 28 and 8. *)
Lemma store_Order_length pad o : length pad = 4%nat -> length (store_Order pad o) = 32%nat.
Proof.
  intros Hp. unfold store_Order.
  by rewrite !length_app, !store_int_length, store_double_length, Hp.
Qed.

Program Definition pod_Order : Pod Order := {|
  pod_size := 32; pod_pad := 4; pod_valid o := valid_Order o = true;
  store := store_Order; load := load_Order |}.
Next Obligation. intros. by apply store_Order_length. Qed.
Next Obligation. intros. by apply load_store_Order. Qed.

Program Definition pod_Trade : Pod Trade := {|
  pod_size := 24; pod_pad := 0; pod_valid t := valid_Trade t = true;
  store _ := store_Trade; load := load_Trade |}.
Next Obligation.
  intros. unfold store_Trade. by rewrite !length_app, !store_int_length, store_double_length.
Qed.
Next Obligation. intros. by apply load_store_Trade. Qed.

Program Definition pod_CommTrade : Pod CommTrade := {|
  pod_size := 28; pod_pad := 0; pod_valid t := valid_CommTrade t = true;
  store _ := store_CommTrade; load := load_CommTrade |}.
Next Obligation.
  intros. unfold store_CommTrade.
  by rewrite !length_app, !store_int_length, store_double_length.
Qed.
Next Obligation. intros. by apply load_store_CommTrade. Qed.

Program Definition pod_OrderAck : Pod OrderAck := {|
  pod_size := 8; pod_pad := 0; pod_valid a := valid_OrderAck a = true;
  store _ := store_OrderAck; load := load_OrderAck |}.
Next Obligation. intros. unfold store_OrderAck. by rewrite length_app, !store_int_length. Qed.
Next Obligation. intros. by apply load_store_OrderAck. Qed.

(** ** [append_to_str] and [from_str]

    [from_str] computes [buf = str.c_str() + offset] and then reads at
    [buf + offset]: the offset is applied twice. *)
Definition append_to_str {T} (pod : Pod T) (pad : bytes) (x : T) (str : bytes) : bytes :=
  str ++ store pod pad x.

Definition from_str {T} (pod : Pod T) (str : bytes) (offset : nat) : outcome (T * nat) :=
  let buf := drop offset (c_str str) in
  get_elem_from_buf pod buf offset.

(** ** [class Coordinates]: three 10-bit indices in a [uint32_t] *)
Definition get_x (c : Z) : Z := Z.land (Z.shiftr c 20) 0x3ff.
Definition get_y (c : Z) : Z := Z.land (Z.shiftr c 10) 0x3ff.
Definition get_z (c : Z) : Z := Z.land c 0x3ff.
Definition set_coor (x y z : Z) : Z :=
  Z.lor (Z.lor (Z.shiftl (Z.land x 0x3ff) 20) (Z.shiftl (Z.land y 0x3ff) 10)) (Z.land z 0x3ff).

(** [struct SortStruct] and its [operator<]. *)
Record SortStruct := mkSortStruct { ss_order_id : Z; ss_coor : Z }.

#[export] Instance SortStruct_eq_dec : EqDecision SortStruct.
Proof. solve_decision. Defined.

Definition SortStruct_lt (a b : SortStruct) : bool :=
  if negb (ss_order_id a =? ss_order_id b) then ss_order_id a <? ss_order_id b
  else ss_coor a <? ss_coor b.

Record HookTarget := mkHookTarget {
  target_stk_code : Z;
  target_trade_idx : Z;
  arg : Z;
}.

(** ** [class OrderInfoMatrix] *)
Record OrderInfoMatrix := mkOrderInfoMatrix {
  direction_matrix : list Z;
  type_matrix : list Z;
  price_matrix : list double;
  volume_matrix : list Z;
}.

(** [x * (ny * nz) + y * (nz) + z] in [int]s. *)
Definition matrix_index (x y z ny nz : Z) : outcome Z :=
  plane ← int_mul ny nz;
  a ← int_mul x plane;
  b ← int_mul y nz;
  ab ← int_add a b;
  int_add ab z.

Definition in_range (x n : Z) : bool := (0 <=? x) && (x <? n).

Definition generate_order (cfg_stock_num : Z) (m : OrderInfoMatrix)
    (stock_code : Z) (ss : SortStruct) (nx ny nz : Z) : outcome Order :=
  let x := get_x (ss_coor ss) in
  let y := get_y (ss_coor ss) in
  let z := get_z (ss_coor ss) in
  _ ← cassert (in_range x nx && in_range y ny && in_range z nz);
  r ← int_mod x cfg_stock_num;
  _ ← cassert (stock_code =? r + 1);
  i ← matrix_index x y z ny nz;
  d ← array_get (direction_matrix m) i;
  t ← array_get (type_matrix m) i;
  p ← array_get (price_matrix m) i;
  v ← array_get (volume_matrix m) i;
  Done (mkOrder stock_code (ss_order_id ss) d t p v).

(** ** Coordinates *)
Lemma land_1023 x : Z.land x 0x3ff = x mod 1024.
Proof. change 0x3ff with (Z.ones 10). by rewrite Z.land_ones. Qed.

(** The packed form is the sum of the fields at their weights. *)
Lemma set_coor_sum x y z :
  set_coor x y z = (x mod 1024) * 2 ^ 20 + (y mod 1024) * 2 ^ 10 + z mod 1024.
Proof.
  unfold set_coor. rewrite !land_1023, !Z.shiftl_mul_pow2 by lia.
  pose proof (Z.mod_pos_bound x 1024). pose proof (Z.mod_pos_bound y 1024).
  pose proof (Z.mod_pos_bound z 1024).
  assert (Hlor : forall a b k, 0 < k -> 0 <= b < 2 ^ k ->
    Z.lor (a * 2 ^ k) b = a * 2 ^ k + b).
  { intros a b k Hk Hb. rewrite <- Z.shiftl_mul_pow2 by lia.
    rewrite <- Z.lxor_lor, Z.add_nocarry_lxor; [done| |].
    all: apply Z.bits_inj'; intros n Hn; rewrite Z.land_spec, Z.bits_0.
    all: destruct (decide (n < k)); [by rewrite Z.shiftl_spec_low|].
    all: rewrite (Z.bits_above_log2 b); [by rewrite andb_false_r|lia|].
    all: destruct (decide (b = 0)) as [->|]; [by simpl; lia|].
    all: apply Z.log2_lt_pow2; [lia|].
    all: eapply Z.lt_le_trans; [apply Hb|apply Z.pow_le_mono_r; lia]. }
  rewrite (Hlor (x mod 1024) (y mod 1024 * 2 ^ 10) 20) by lia.
  replace (x mod 1024 * 2 ^ 20 + y mod 1024 * 2 ^ 10)
    with ((x mod 1024 * 2 ^ 10 + y mod 1024) * 2 ^ 10) by lia.
  rewrite Hlor by lia. lia.
Qed.

Lemma get_set_coor x y z :
  get_x (set_coor x y z) = x mod 1024 /\ get_y (set_coor x y z) = y mod 1024 /\
  get_z (set_coor x y z) = z mod 1024.
Proof.
  unfold get_x, get_y, get_z. rewrite !land_1023, !Z.shiftr_div_pow2, set_coor_sum by lia.
  pose proof (Z.mod_pos_bound x 1024). pose proof (Z.mod_pos_bound y 1024).
  pose proof (Z.mod_pos_bound z 1024).
  generalize dependent (x mod 1024); intros a Ha. generalize dependent (y mod 1024); intros b Hb.
  generalize dependent (z mod 1024); intros c Hc.
  Z.to_euclidean_division_equations. lia.
Qed.

Lemma set_coor_uint32 x y z : 0 <= set_coor x y z < 2 ^ 32.
Proof.
  rewrite set_coor_sum. pose proof (Z.mod_pos_bound x 1024).
  pose proof (Z.mod_pos_bound y 1024). pose proof (Z.mod_pos_bound z 1024). lia.
Qed.
