(* ===== verification/BlockQueue.v ===== *)
(** * The bounded blocking queues ([src/common/block_queue.hpp])

    [BlockQueue] is a ring buffer, [BlockQueueSTL] a deque with an optional
    bound.  Every method holds the mutex from begin to end, so a run of
    several threads is an interleaving of whole methods; a method that waits
    is an [attempt], [Blocked] while its condition does not hold.  The timed
    [offer] and [poll] of the file are not modelled: they call [wait] and
    [wait_for] with a [lock_guard], which does not compile when instantiated,
    and nothing instantiates them. *)

From S2P Require Import Prelude.
#[local] Open Scope Z_scope.

(** ** The interface

    What both queues promise to the threads that share them. *)
Class Fifo (Q A : Type) := {
  fifo_put : Q -> A -> attempt Q;
  fifo_take : Q -> attempt (A * Q);
  fifo_offer : Q -> A -> outcome (bool * Q);
  fifo_poll : Q -> outcome (option A * Q);
  (** the representation invariant, the queued elements, and the bound *)
  fifo_ok : Q -> Prop;
  fifo_contents : Q -> list A;
  fifo_full : Q -> bool;
  put_law q x : fifo_ok q ->
    if fifo_full q then fifo_put q x = Blocked
    else exists q', fifo_put q x = Ran (Done q') /\ fifo_ok q' /\ fifo_contents q' = fifo_contents q ++ [x];
  take_law q : fifo_ok q ->
    match fifo_contents q with
    | [] => fifo_take q = Blocked
    | x :: l => exists q', fifo_take q = Ran (Done (x, q')) /\ fifo_ok q' /\ fifo_contents q' = l
    end;
  offer_law q x : fifo_ok q ->
    if fifo_full q then fifo_offer q x = Done (false, q)
    else exists q', fifo_offer q x = Done (true, q') /\ fifo_ok q' /\ fifo_contents q' = fifo_contents q ++ [x];
  poll_law q : fifo_ok q ->
    match fifo_contents q with
    | [] => fifo_poll q = Done (None, q)
    | x :: l => exists q', fifo_poll q = Done (Some x, q') /\ fifo_ok q' /\ fifo_contents q' = l
    end;
}.

(** ** [BlockQueue] *)
Module Ring.

Record BlockQueue (A : Type) := mkBlockQueue {
  m_queue : list A;
  m_maxCapacity : Z;
  m_head_ : Z;
  m_tail_ : Z;
  m_sz_ : Z;
}.
Arguments mkBlockQueue {A}.
Arguments m_queue {A} b.
Arguments m_maxCapacity {A} b.
Arguments m_head_ {A} b.
Arguments m_tail_ {A} b.
Arguments m_sz_ {A} b.

Section ops.
Context {A : Type}.
Implicit Types (q : BlockQueue A) (t : A).

(** The constructor: [m_queue(cap)] holds value-initialised elements [d]; a
    negative size throws. *)
Definition new_BlockQueue (d : A) (cap : Z) : outcome (BlockQueue A) :=
  if cap <? 0 then Fault Thrown
  else Done (mkBlockQueue (replicate (Z.to_nat cap) d) cap 0 0 0).

Definition empty q : bool := m_sz_ q =? 0.
Definition full q : bool := m_sz_ q >=? m_maxCapacity q.
Definition size q : Z := m_sz_ q.

(** The body shared by [put] and [offer]. *)
Definition push_back q t : outcome (BlockQueue A) :=
  l ← array_set (m_queue q) (m_tail_ q) t;
  tail ← size_mod (size_add (m_tail_ q) 1) (to_size (m_maxCapacity q));
  sz ← int_add (m_sz_ q) 1;
  Done (mkBlockQueue l (m_maxCapacity q) (m_head_ q) tail sz).

(** The body shared by [take] and [poll]. *)
Definition pop_front q : outcome (A * BlockQueue A) :=
  res ← array_get (m_queue q) (m_head_ q);
  head ← size_mod (size_add (m_head_ q) 1) (to_size (m_maxCapacity q));
  sz ← int_sub (m_sz_ q) 1;
  Done (res, mkBlockQueue (m_queue q) (m_maxCapacity q) head (m_tail_ q) sz).

Definition put q t : attempt (BlockQueue A) :=
  wait_until (m_sz_ q <? m_maxCapacity q) (push_back q t).

Definition take q : attempt (A * BlockQueue A) :=
  wait_until (m_sz_ q >? 0) (pop_front q).

Definition offer q t : outcome (bool * BlockQueue A) :=
  if m_sz_ q >=? m_maxCapacity q then Done (false, q)
  else q ← push_back q t; Done (true, q).

Definition poll q : outcome (option A * BlockQueue A) :=
  if m_sz_ q =? 0 then Done (None, q)
  else '(t, q) ← pop_front q; Done (Some t, q).
End ops.

(** The [n] elements from slot [i] on, around the ring. *)
Fixpoint ring_slice {A} (l : list A) (i : Z) (n : nat) : list A :=
  match n with
  | O => []
  | S n =>
      match l !! Z.to_nat i with
      | Some x => x :: ring_slice l ((i + 1) mod Z.of_nat (length l)) n
      | None => []
      end
  end.

Definition contents {A} (q : BlockQueue A) : list A :=
  ring_slice (m_queue q) (m_head_ q) (Z.to_nat (m_sz_ q)).

Record ring_ok {A} (q : BlockQueue A) : Prop := {
  rk_length : Z.of_nat (length (m_queue q)) = m_maxCapacity q;
  rk_cap : m_maxCapacity q <= INT_MAX;
  rk_sz : 0 <= m_sz_ q <= m_maxCapacity q;
  rk_head : 0 < m_maxCapacity q -> 0 <= m_head_ q < m_maxCapacity q;
  rk_tail : 0 < m_maxCapacity q -> m_tail_ q = (m_head_ q + m_sz_ q) mod m_maxCapacity q;
}.

Section slices.
Context {A : Type}.
Implicit Types (l : list A) (x : A).

Lemma ring_slice_length l i n :
  0 <= i < Z.of_nat (length l) -> length (ring_slice l i n) = n.
Proof.
  revert i. induction n as [|n IH]; intros i Hi; simpl; [done|].
  destruct (lookup_lt_is_Some_2 l (Z.to_nat i)) as [x Hx]; [lia|].
  rewrite Hx. simpl. rewrite IH; [done|]. apply Z.mod_pos_bound. lia.
Qed.

(** Appending a slot at the end of a slice. *)
Lemma ring_slice_snoc l i n x :
  0 <= i < Z.of_nat (length l) ->
  l !! Z.to_nat ((i + Z.of_nat n) mod Z.of_nat (length l)) = Some x ->
  ring_slice l i (S n) = ring_slice l i n ++ [x].
Proof.
  revert i. induction n as [|n IH]; intros i Hi Hx.
  - rewrite Z.add_0_r, Z.mod_small in Hx by done. simpl. by rewrite Hx.
  - destruct (lookup_lt_is_Some_2 l (Z.to_nat i)) as [y Hy]; [lia|].
    cbn [ring_slice]. rewrite Hy. cbn [app]. f_equal. rewrite <- IH.
    + done.
    + apply Z.mod_pos_bound. lia.
    + rewrite <- Hx. do 2 f_equal. rewrite Z.add_mod_idemp_l by lia. f_equal. lia.
Qed.

(** Writing outside of a slice does not change it. *)
Lemma ring_slice_insert l i n j x :
  0 <= i < Z.of_nat (length l) -> 0 <= j < Z.of_nat (length l) ->
  (forall k, 0 <= k < Z.of_nat n -> (i + k) mod Z.of_nat (length l) <> j) ->
  ring_slice (<[Z.to_nat j := x]> l) i n = ring_slice l i n.
Proof.
  revert i. induction n as [|n IH]; intros i Hi Hj Hne; simpl; [done|].
  assert (Hij : i <> j).
  { specialize (Hne 0 ltac:(lia)). rewrite Z.add_0_r, Z.mod_small in Hne by done. done. }
  rewrite list_lookup_insert_ne by lia. destruct (l !! Z.to_nat i); [|done].
  f_equal. rewrite length_insert. apply IH; [apply Z.mod_pos_bound; lia|done|].
  intros k Hk. rewrite Z.add_mod_idemp_l by lia.
  replace (i + 1 + k) with (i + (k + 1)) by lia. apply Hne. lia.
Qed.
End slices.

(** Offsets smaller than the ring's size are different slots. *)
Lemma mod_offset_ne i a b n : 0 <= a < b -> b < n -> (i + a) mod n <> (i + b) mod n.
Proof.
  intros Hab Hb E. assert (Hd : (b - a) mod n = 0).
  { replace (b - a) with ((i + b) - (i + a)) by lia. rewrite Zminus_mod, E, Z.sub_diag.
    apply Z.mod_0_l. lia. }
  rewrite Z.mod_small in Hd by lia. lia.
Qed.

Section laws.
Context {A : Type}.
Implicit Types (q : BlockQueue A) (t : A).

Lemma push_back_law q t :
  ring_ok q -> m_sz_ q < m_maxCapacity q ->
  exists q', push_back q t = Done q' /\ ring_ok q' /\ contents q' = contents q ++ [t].
Proof.
  intros [Hl Hc Hs Hh Ht] Hlt. specialize (Hh ltac:(lia)). specialize (Ht ltac:(lia)).
  assert (Htr : 0 <= m_tail_ q < m_maxCapacity q) by (rewrite Ht; apply Z.mod_pos_bound; lia).
  unfold push_back. rewrite array_set_ok by lia. rewrite bind_Done.
  rewrite ring_next by lia. rewrite bind_Done.
  rewrite int_add_ok by (unfold INT_MIN in *; lia). rewrite bind_Done.
  eexists. split; [done|]. split.
  - split; simpl; rewrite ?length_insert; try lia.
    intros _. rewrite Ht, Z.add_mod_idemp_l by lia. f_equal. lia.
  - unfold contents. simpl. replace (Z.to_nat (m_sz_ q + 1)) with (S (Z.to_nat (m_sz_ q))) by lia.
    rewrite (ring_slice_snoc _ _ _ t).
    + f_equal. apply ring_slice_insert; [lia|lia|]. intros k Hk. rewrite Ht, Hl.
      apply mod_offset_ne; lia.
    + rewrite length_insert. lia.
    + rewrite length_insert, Hl, Z2Nat.id, <- Ht by lia.
      apply list_lookup_insert_eq. lia.
Qed.

Lemma pop_front_law q :
  ring_ok q -> 0 < m_sz_ q ->
  exists x q', pop_front q = Done (x, q') /\ ring_ok q' /\ contents q = x :: contents q'.
Proof.
  intros [Hl Hc Hs Hh Ht] Hlt. specialize (Hh ltac:(lia)). specialize (Ht ltac:(lia)).
  destruct (array_get_total (m_queue q) (m_head_ q)) as (x & Hx & Hg); [lia|].
  unfold pop_front. rewrite Hg, bind_Done.
  rewrite ring_next by lia. rewrite bind_Done.
  rewrite int_sub_ok by (unfold INT_MIN in *; lia). rewrite bind_Done.
  eexists x, _. split; [done|]. split.
  - split; simpl; try lia; intros _.
    + apply Z.mod_pos_bound. lia.
    + rewrite Ht, Z.add_mod_idemp_l by lia. f_equal. lia.
  - unfold contents. simpl. replace (Z.to_nat (m_sz_ q)) with (S (Z.to_nat (m_sz_ q - 1))) by lia.
    simpl. by rewrite Hx, Hl.
Qed.

Lemma contents_length q : ring_ok q -> Z.of_nat (length (contents q)) = m_sz_ q.
Proof.
  intros [Hl Hc Hs Hh Ht]. unfold contents. destruct (Z.eq_dec (m_sz_ q) 0) as [->|]; [done|].
  rewrite ring_slice_length by (specialize (Hh ltac:(lia)); lia). lia.
Qed.

Lemma contents_nil q : ring_ok q -> contents q = [] <-> m_sz_ q = 0.
Proof.
  intros Hq. rewrite <- (contents_length q Hq). destruct (contents q); simpl; split; [done..|done|lia].
Qed.

Lemma new_ring_ok (d : A) cap q :
  cap <= INT_MAX -> new_BlockQueue d cap = Done q -> ring_ok q /\ contents q = [] /\ m_maxCapacity q = cap.
Proof.
  intros Hc. unfold new_BlockQueue. destruct (Z.ltb_spec cap 0); [done|]. intros [= <-].
  split; [|done]. split; simpl; rewrite ?length_replicate; try lia.
  intros Hpos. by rewrite Z.mod_0_l by lia.
Qed.
End laws.
End Ring.

#[export] Program Instance BlockQueue_fifo A : Fifo (Ring.BlockQueue A) A := {|
  fifo_put := Ring.put;
  fifo_take := Ring.take;
  fifo_offer := Ring.offer;
  fifo_poll := Ring.poll;
  fifo_ok := Ring.ring_ok;
  fifo_contents := Ring.contents;
  fifo_full := Ring.full;
|}.
Next Obligation.
  intros A q x Hq. unfold Ring.full, Ring.put. rewrite Z.geb_leb; destruct (Z.leb_spec (Ring.m_maxCapacity q) (Ring.m_sz_ q)).
  - by rewrite (proj2 (Z.ltb_ge _ _)) by lia.
  - rewrite (proj2 (Z.ltb_lt _ _)) by lia.
    destruct (Ring.push_back_law q x) as (q' & -> & Hq' & Hc); [done|lia|]. by exists q'.
Qed.
Next Obligation.
  intros A q Hq. pose proof (Ring.contents_nil q Hq) as Hn. pose proof (Ring.rk_sz _ Hq).
  unfold Ring.take. destruct (Z.eq_dec (Ring.m_sz_ q) 0) as [E|E].
  - rewrite (proj2 Hn E), E. done.
  - destruct (Ring.pop_front_law q) as (x & q' & E' & Hq' & Hc); [done|lia|]. rewrite Hc.
    exists q'. by rewrite (proj2 (Z.gtb_gt _ 0)) , E' by lia.
Qed.
Next Obligation.
  intros A q x Hq. unfold Ring.full, Ring.offer. rewrite Z.geb_leb; destruct (Z.leb_spec (Ring.m_maxCapacity q) (Ring.m_sz_ q)); [done|].
  destruct (Ring.push_back_law q x) as (q' & -> & Hq' & Hc); [done|lia|]. by exists q'.
Qed.
Next Obligation.
  intros A q Hq. pose proof (Ring.contents_nil q Hq) as Hn. pose proof (Ring.rk_sz _ Hq).
  unfold Ring.poll. destruct (Z.eqb_spec (Ring.m_sz_ q) 0) as [E|E].
  - by rewrite (proj2 Hn E).
  - destruct (Ring.pop_front_law q) as (x & q' & -> & Hq' & ->); [done|lia|]. by exists q'.
Qed.

(** ** [BlockQueueSTL] *)
Module Stl.

Record BlockQueueSTL (A : Type) := mkBlockQueueSTL {
  m_queue : list A;
  m_maxCapacity : Z;
}.
Arguments mkBlockQueueSTL {A}.
Arguments m_queue {A} b.
Arguments m_maxCapacity {A} b.

Section ops.
Context {A : Type}.
Implicit Types (q : BlockQueueSTL A) (t : A).

Definition new_BlockQueueSTL (cap : Z) : BlockQueueSTL A := mkBlockQueueSTL [] cap.

Definition size q : Z := Z.of_nat (length (m_queue q)).
Definition empty q : bool := match m_queue q with [] => true | _ => false end.

(** [m_queue.size() >= m_maxCapacity] compares unsigned numbers; -1 stands for
    no bound. *)
Definition full q : bool :=
  if m_maxCapacity q =? -1 then false else size q >=? to_size (m_maxCapacity q).

Definition put q t : attempt (BlockQueueSTL A) :=
  let body := Done (mkBlockQueueSTL (m_queue q ++ [t]) (m_maxCapacity q)) in
  if negb (m_maxCapacity q =? -1)
  then wait_until (size q <? to_size (m_maxCapacity q)) body
  else Ran body.

(** [front] and [pop_front], undefined on an empty deque. *)
Definition pop_front q : outcome (A * BlockQueueSTL A) :=
  match m_queue q with
  | [] => Fault OutOfBounds
  | x :: l => Done (x, mkBlockQueueSTL l (m_maxCapacity q))
  end.

Definition take q : attempt (A * BlockQueueSTL A) :=
  wait_until (negb (empty q)) (pop_front q).

Definition offer q t : outcome (bool * BlockQueueSTL A) :=
  if negb (m_maxCapacity q =? -1) && (size q >=? to_size (m_maxCapacity q)) then Done (false, q)
  else Done (true, mkBlockQueueSTL (m_queue q ++ [t]) (m_maxCapacity q)).

Definition poll q : outcome (option A * BlockQueueSTL A) :=
  if empty q then Done (None, q)
  else '(t, q) ← pop_front q; Done (Some t, q).
End ops.
End Stl.

#[export] Program Instance BlockQueueSTL_fifo A : Fifo (Stl.BlockQueueSTL A) A := {|
  fifo_put := Stl.put;
  fifo_take := Stl.take;
  fifo_offer := Stl.offer;
  fifo_poll := Stl.poll;
  fifo_ok _ := True;
  fifo_contents := Stl.m_queue;
  fifo_full := Stl.full;
|}.
Next Obligation.
  intros A q x _. unfold Stl.full, Stl.put.
  destruct (Stl.m_maxCapacity q =? -1); simpl; [eauto|].
  rewrite Z.geb_leb, Z.leb_antisym. destruct (_ <? _); simpl; eauto.
Qed.
Next Obligation.
  intros A [l c] _. unfold Stl.take, Stl.pop_front, Stl.empty. simpl. destruct l; simpl; eauto.
Qed.
Next Obligation.
  intros A q x _. unfold Stl.full, Stl.offer.
  destruct (Stl.m_maxCapacity q =? -1); simpl; [eauto|].
  destruct (_ >=? _); simpl; eauto.
Qed.
Next Obligation.
  intros A [l c] _. unfold Stl.poll, Stl.pop_front, Stl.empty. simpl. destruct l; simpl; eauto.
Qed.

(** ** Threads

    One step is one method call of some thread; the label says what went in
    or came out. *)
Inductive label (A : Type) :=
  | In (x : A)
  | Out (x : A)
  | Nothing.
Arguments In {A} x.
Arguments Out {A} x.
Arguments Nothing {A}.

Section threads.
Context {Q A : Type} `{Fifo Q A}.

Inductive fifo_step : Q -> label A -> Q -> Prop :=
  | step_put q x q' : fifo_put q x = Ran (Done q') -> fifo_step q (In x) q'
  | step_take q x q' : fifo_take q = Ran (Done (x, q')) -> fifo_step q (Out x) q'
  | step_offer q x q' : fifo_offer q x = Done (true, q') -> fifo_step q (In x) q'
  | step_offer_full q (x : A) q' : fifo_offer q x = Done (false, q') -> fifo_step q Nothing q'
  | step_poll q x q' : fifo_poll q = Done (Some x, q') -> fifo_step q (Out x) q'
  | step_poll_empty q q' : fifo_poll q = Done (None, q') -> fifo_step q Nothing q'.

Inductive fifo_run : Q -> list (label A) -> Q -> Prop :=
  | run_nil q : fifo_run q [] q
  | run_cons q l q' tr q'' : fifo_step q l q' -> fifo_run q' tr q'' -> fifo_run q (l :: tr) q''.

Definition ins (tr : list (label A)) : list A :=
  omap (fun l => match l with In x => Some x | _ => None end) tr.
Definition outs (tr : list (label A)) : list A :=
  omap (fun l => match l with Out x => Some x | _ => None end) tr.

(** No method of the queue faults. *)
Definition never_faults (q : Q) : Prop :=
  (forall x f, fifo_put q x <> Ran (Fault f)) /\ (forall f, fifo_take q <> Ran (Fault f)) /\
  (forall x, is_done (fifo_offer q x) = true) /\ is_done (fifo_poll q) = true.

Lemma fifo_never_faults q : fifo_ok q -> never_faults q.
Proof.
  intros Hq. split_and!.
  - intros x f. pose proof (put_law q x Hq) as Hl. destruct (fifo_full q); [by rewrite Hl|].
    by destruct Hl as (q' & -> & _).
  - intros f. pose proof (take_law q Hq) as Hl. destruct (fifo_contents q); [by rewrite Hl|].
    by destruct Hl as (q' & -> & _).
  - intros x. pose proof (offer_law q x Hq) as Hl. destruct (fifo_full q); [by rewrite Hl|].
    by destruct Hl as (q' & -> & _).
  - pose proof (poll_law q Hq) as Hl. destruct (fifo_contents q); [by rewrite Hl|].
    by destruct Hl as (q' & -> & _).
Qed.

Lemma fifo_step_contents q l q' :
  fifo_ok q -> fifo_step q l q' ->
  fifo_ok q' /\ fifo_contents q ++ ins [l] = outs [l] ++ fifo_contents q' /\
  (length (fifo_contents q) < length (fifo_contents q') -> fifo_full q = false)%nat.
Proof.
  intros Hq Hs. destruct Hs as [q x q' E|q x q' E|q x q' E|q x q' E|q x q' E|q q' E]; simpl.
  - pose proof (put_law q x Hq) as Hl. destruct (fifo_full q); [congruence|].
    destruct Hl as (q2 & E2 & ? & ?). rewrite E2 in E. simplify_eq. done.
  - pose proof (take_law q Hq) as Hl. destruct (fifo_contents q) eqn:Ec; [congruence|].
    destruct Hl as (q2 & E2 & ? & ?). rewrite E2 in E. simplify_eq.
    rewrite app_nil_r. split_and!; [done|done|simpl; lia].
  - pose proof (offer_law q x Hq) as Hl. destruct (fifo_full q); [congruence|].
    destruct Hl as (q2 & E2 & ? & ?). rewrite E2 in E. simplify_eq. done.
  - pose proof (offer_law q x Hq) as Hl. destruct (fifo_full q).
    + rewrite Hl in E. simplify_eq. rewrite app_nil_r. split_and!; [done|done|lia].
    + destruct Hl as (q2 & E2 & ? & ?). congruence.
  - pose proof (poll_law q Hq) as Hl. destruct (fifo_contents q) eqn:Ec; [congruence|].
    destruct Hl as (q2 & E2 & ? & ?). rewrite E2 in E. simplify_eq.
    rewrite app_nil_r. split_and!; [done|done|simpl; lia].
  - pose proof (poll_law q Hq) as Hl. destruct (fifo_contents q) eqn:Ec.
    + rewrite Hl in E. simplify_eq. rewrite Ec. split_and!; [done|done|simpl; lia].
    + destruct Hl as (q2 & E2 & ? & ?). congruence.
Qed.

Lemma fifo_run_contents q tr q' :
  fifo_ok q -> fifo_run q tr q' ->
  fifo_ok q' /\ fifo_contents q ++ ins tr = outs tr ++ fifo_contents q'.
Proof.
  intros Hq Hr. induction Hr as [q|q l q1 tr q2 Hs Hr IH]; [split; [done|simpl; by rewrite app_nil_r]|].
  destruct (fifo_step_contents _ _ _ Hq Hs) as (Hq1 & Hc & _).
  destruct (IH Hq1) as [Hq2 Hc2]. split; [done|].
  change (l :: tr) with ([l] ++ tr). unfold ins, outs in *. rewrite !omap_app.
  by rewrite app_assoc, Hc, <- app_assoc, Hc2, app_assoc.
Qed.
End threads.

(** The ring never holds more than its capacity. *)
Lemma ring_capacity A (q q' : Ring.BlockQueue A) l :
  fifo_step q l q' -> Ring.m_maxCapacity q' = Ring.m_maxCapacity q.
Proof.
  assert (Hpush : forall (q : Ring.BlockQueue A) x q', Ring.push_back q x = Done q' ->
    Ring.m_maxCapacity q' = Ring.m_maxCapacity q).
  { unfold Ring.push_back. intros r x r' E. repeat (apply bind_done in E as (? & _ & E)). by simplify_eq. }
  assert (Hpop : forall (q : Ring.BlockQueue A) x q', Ring.pop_front q = Done (x, q') ->
    Ring.m_maxCapacity q' = Ring.m_maxCapacity q).
  { unfold Ring.pop_front. intros r x r' E. repeat (apply bind_done in E as (? & _ & E)). by simplify_eq. }
  destruct 1 as [q x q' E|q x q' E|q x q' E|q x q' E|q x q' E|q q' E]; simpl in E;
    unfold Ring.put, Ring.take, Ring.offer, Ring.poll, wait_until in E; case_if; simplify_eq; try done;
    try (by eapply Hpush); try (by eapply Hpop).
  all: apply bind_done in E as (r & Er & E); try destruct r; simplify_eq; eauto.
Qed.

Lemma ring_run_capacity A (q q' : Ring.BlockQueue A) tr :
  fifo_run q tr q' -> Ring.m_maxCapacity q' = Ring.m_maxCapacity q.
Proof.
  induction 1 as [|q l q1 tr q2 Hs Hr IH]; [done|]. rewrite IH. by eapply ring_capacity.
Qed.

(** A queue that is never full and empty at once: what a sender needs to get
    rid of what it holds. *)
Class RoomyFifo (Q A : Type) `{Fifo Q A} := {
  has_room : Q -> Prop;
  has_room_step q l q' : fifo_step q l q' -> has_room q -> has_room q';
  has_room_empty q : fifo_ok q -> has_room q -> fifo_contents q = [] -> fifo_full q = false;
}.

#[export] Program Instance BlockQueue_roomy A : RoomyFifo (Ring.BlockQueue A) A := {|
  has_room q := 0 < Ring.m_maxCapacity q;
|}.
Next Obligation. intros A q l q' Hs Hc. simpl in *. by rewrite (ring_capacity _ _ _ _ Hs). Qed.
Next Obligation.
  intros A q Hq Hc Hn. simpl in *. apply (Ring.contents_nil q Hq) in Hn. unfold Ring.full. lia.
Qed.

#[export] Program Instance BlockQueueSTL_roomy A : RoomyFifo (Stl.BlockQueueSTL A) A := {|
  has_room q := Stl.m_maxCapacity q = -1 \/ 0 < to_size (Stl.m_maxCapacity q);
|}.
Next Obligation.
  intros A q l q' Hs Hc. simpl in *. enough (Stl.m_maxCapacity q' = Stl.m_maxCapacity q) as ->; [done|].
  destruct Hs as [q x q' E|q x q' E|q x q' E|q x q' E|q x q' E|q q' E]; simpl in E; destruct q as [[|y l] c];
    unfold Stl.put, Stl.take, Stl.offer, Stl.poll, Stl.pop_front, wait_until in E; simpl in E;
    repeat case_if; by simplify_eq/=.
Qed.
Next Obligation.
  intros A q _ Hc Hn. simpl in *. unfold Stl.full, Stl.size. rewrite Hn.
  destruct Hc as [->|Hc]; [done|]. case_if; [done|]. rewrite Z.geb_leb. by apply Z.leb_gt.
Qed.

(** ** The properties *)

(** C12: A [BlockQueue] is a bounded FIFO for any number of threads.  However
    the calls of the threads interleave, what came out is what went in, in
    order and up to the elements still queued; there are never more of them
    than the capacity; no call indexes out of bounds, overflows or divides by
    zero; [put] waits exactly when the queue is full and [take] exactly when
    it is empty, so with a positive capacity one of the two can always run. *)
Theorem block_queue_linear A (d : A) cap q0 tr q :
  cap <= INT_MAX -> Ring.new_BlockQueue d cap = Done q0 -> fifo_run q0 tr q ->
  ins tr = outs tr ++ Ring.contents q /\
  Z.of_nat (length (Ring.contents q)) <= cap /\ never_faults q /\
  (forall x, Ring.put q x = Blocked <-> Z.of_nat (length (Ring.contents q)) = cap) /\
  (Ring.take q = Blocked <-> Ring.contents q = []).
Proof.
  intros Hc Hnew Hrun. destruct (Ring.new_ring_ok d cap q0 Hc Hnew) as (Hok & Hnil & Hcap).
  destruct (fifo_run_contents (H := BlockQueue_fifo A) q0 tr q Hok Hrun) as [Hq Hio].
  cbn in Hq, Hio. rewrite Hnil in Hio.
  pose proof (ring_run_capacity _ _ _ _ Hrun) as Hcq. rewrite Hcap in Hcq.
  pose proof (Ring.contents_length q Hq) as Hlen. pose proof (Ring.rk_sz q Hq) as Hsz.
  split_and!; [done|lia|by apply (fifo_never_faults (H := BlockQueue_fifo A))| |].
  - intros x. pose proof (put_law q x Hq) as Hput. simpl in Hput. unfold Ring.full in Hput.
    rewrite Hlen, <- Hcq. rewrite Z.geb_leb in Hput.
    destruct (Z.leb_spec (Ring.m_maxCapacity q) (Ring.m_sz_ q)).
    + split; [lia|done].
    + destruct Hput as (q' & -> & _). split; [done|lia].
  - pose proof (take_law q Hq) as Ht. simpl in Ht. destruct (Ring.contents q); [done|].
    destruct Ht as (q' & -> & _). done.
Qed.

(** A ring of two slots that has wrapped around. *)
Definition demo_ring_trace : list (label Z) := [In 1; In 2; Out 1; In 3; Nothing; Out 2].

Lemma block_queue_linear_witness :
  exists q, fifo_run (Ring.mkBlockQueue [0; 0] 2 0 0 0) demo_ring_trace q /\
    Ring.contents q = [3] /\ never_faults q.
Proof.
  assert (Hr : fifo_run (Ring.mkBlockQueue [0; 0] 2 0 0 0) demo_ring_trace (Ring.mkBlockQueue [3; 2] 2 0 1 1)).
  { unfold demo_ring_trace.
    eapply run_cons; [apply step_put; vm_compute; reflexivity|].
    eapply run_cons; [apply step_offer; vm_compute; reflexivity|].
    eapply run_cons; [apply step_take; vm_compute; reflexivity|].
    eapply run_cons; [apply step_put; vm_compute; reflexivity|].
    eapply run_cons; [apply (step_offer_full _ 4); vm_compute; reflexivity|].
    eapply run_cons; [apply step_poll; vm_compute; reflexivity|]. constructor. }
  destruct (block_queue_linear Z 0 2 (Ring.mkBlockQueue [0; 0] 2 0 0 0) demo_ring_trace
    (Ring.mkBlockQueue [3; 2] 2 0 1 1)) as (Hio & _ & Hf & _);
    [vm_compute; congruence|reflexivity|exact Hr|].
  eexists. split; [exact Hr|]. split; [|exact Hf].
  apply (app_inv_head (outs demo_ring_trace)). rewrite <- Hio. reflexivity.
Defined.

(** [BlockQueueSTL] keeps the same promise on a deque: any interleaving of
    the threads' calls is first in, first out, no call faults, [put] waits
    exactly when the deque has reached the bound, and never when the bound is
    the default -1. *)
Theorem block_queue_stl_linear A cap tr (q : Stl.BlockQueueSTL A) :
  fifo_run (Stl.new_BlockQueueSTL cap) tr q ->
  ins tr = outs tr ++ Stl.m_queue q /\ never_faults q /\
  (forall x, Stl.put q x = Blocked <-> Stl.full q = true) /\
  (Stl.m_maxCapacity q = -1 -> forall x, Stl.put q x <> Blocked).
Proof.
  intros Hrun. destruct (fifo_run_contents (H := BlockQueueSTL_fifo A) _ tr q I Hrun) as [_ Hio].
  assert (Hb : forall x, Stl.put q x = Blocked <-> Stl.full q = true).
  { intros x. pose proof (put_law q x I) as Hp. simpl in Hp.
    destruct (Stl.full q); [done|]. by destruct Hp as (q' & -> & _). }
  split_and!; [done|by apply (fifo_never_faults (H := BlockQueueSTL_fifo A))|done|].
  intros Hc x. rewrite Hb. unfold Stl.full. by rewrite Hc.
Qed.

Lemma block_queue_stl_linear_witness :
  fifo_run (Stl.new_BlockQueueSTL (-1)) [In 5; In 6; Out 5] (Stl.mkBlockQueueSTL [6] (-1)) /\
  forall x : Z, Stl.put (Stl.mkBlockQueueSTL [6] (-1)) x <> Blocked.
Proof.
  assert (Hr : fifo_run (Stl.new_BlockQueueSTL (-1)) [In 5; In 6; Out 5] (Stl.mkBlockQueueSTL [6] (-1))).
  { eapply run_cons; [apply step_put; vm_compute; reflexivity|].
    eapply run_cons; [apply step_put; vm_compute; reflexivity|].
    eapply run_cons; [apply step_take; vm_compute; reflexivity|]. constructor. }
  split; [exact Hr|].
  apply (block_queue_stl_linear Z (-1) [In 5; In 6; Out 5] (Stl.mkBlockQueueSTL [6] (-1)) Hr). reflexivity.
Defined.
