(* ===== verification/SlidingWindow.v ===== *)
(** * The sliding window ([src/common/sliding_window.hpp])

    A ring of slots, filled at any free slot and emptied from the head.  Its
    contract is stated with absolute positions: position [i] lives in slot
    [i mod capacity], and the window covers the [capacity] positions from
    [next], the position of the head, on.  The timed [poll] is not modelled:
    it calls [wait_for] with a [lock_guard], which does not compile when
    instantiated, and nothing instantiates it. *)

From stdpp Require Import gmap.
From S2P Require Import Prelude.
#[local] Open Scope Z_scope.

Record SlidingWindow (A : Type) := mkSlidingWindow {
  data_ : list A;
  avaliable_ : list bool;
  capacity_ : Z;
  head_ : Z;
}.
Arguments mkSlidingWindow {A}.
Arguments data_ {A} s.
Arguments avaliable_ {A} s.
Arguments capacity_ {A} s.
Arguments head_ {A} s.

Section ops.
Context {A : Type}.
Implicit Types (w : SlidingWindow A) (t : A).

(** [SlidingWindow(const int capacity)]; the elements of [data_] are
    value-initialised ([d]), a negative size throws. *)
Definition new_SlidingWindow (d : A) (capacity : Z) : outcome (SlidingWindow A) :=
  if capacity <? 0 then Fault Thrown
  else Done (mkSlidingWindow (replicate (Z.to_nat capacity) d)
               (replicate (Z.to_nat capacity) false) capacity 0).

Definition get_capacity w : Z := capacity_ w.

Definition put w t (idx : Z) : outcome (SlidingWindow A) :=
  a ← array_get (avaliable_ w) idx;
  _ ← ASSERT (negb a);
  data ← array_set (data_ w) idx t;
  avail ← array_set (avaliable_ w) idx true;
  Done (mkSlidingWindow data avail (capacity_ w) (head_ w)).

(** The body shared by [get] and [poll]: take the element of the head slot. *)
Definition take_head w : outcome (A * SlidingWindow A) :=
  res ← array_get (data_ w) (head_ w);
  avail ← array_set (avaliable_ w) (head_ w) false;
  head ← size_mod (size_add (head_ w) 1) (to_size (capacity_ w));
  Done (res, mkSlidingWindow (data_ w) avail (capacity_ w) head).

Definition get w : attempt (A * SlidingWindow A) :=
  match array_get (avaliable_ w) (head_ w) with
  | Fault f => Ran (Fault f)
  | Done a => wait_until a (take_head w)
  end.

Definition poll w : outcome (option A * SlidingWindow A) :=
  a ← array_get (avaliable_ w) (head_ w);
  if negb a then Done (None, w)
  else '(t, w) ← take_head w; Done (Some t, w).
End ops.

(** ** The contract *)
Record window_ok {A} (w : SlidingWindow A) (next : Z) (items : gmap Z A) : Prop := {
  wk_data : Z.of_nat (length (data_ w)) = capacity_ w;
  wk_avail : Z.of_nat (length (avaliable_ w)) = capacity_ w;
  wk_cap : 0 < capacity_ w <= INT_MAX;
  wk_next : 0 <= next;
  wk_head : head_ w = next mod capacity_ w;
  wk_range i x : items !! i = Some x -> next <= i < next + capacity_ w;
  wk_flag i : next <= i < next + capacity_ w ->
    avaliable_ w !! Z.to_nat (i mod capacity_ w) = Some (bool_decide (is_Some (items !! i)));
  wk_item i x : items !! i = Some x -> data_ w !! Z.to_nat (i mod capacity_ w) = Some x;
}.

(** Two positions of the window in the same slot are the same. *)
Lemma slot_inj cap next i j :
  0 < cap -> next <= i < next + cap -> next <= j < next + cap -> i mod cap = j mod cap -> i = j.
Proof.
  intros Hc Hi Hj E. assert (Hd : (i - j) mod cap = 0).
  { rewrite Zminus_mod, E, Z.sub_diag. apply Z.mod_0_l. lia. }
  apply Z.mod_divide in Hd as [k Hk]; [|lia]. assert (k = 0) by nia. lia.
Qed.

Lemma slot_bound cap i : 0 < cap -> 0 <= i mod cap < cap.
Proof. intros. apply Z.mod_pos_bound. lia. Qed.

Section laws.
Context {A : Type}.
Implicit Types (w : SlidingWindow A) (items : gmap Z A).

Lemma new_window_ok (d : A) cap w :
  0 < cap <= INT_MAX -> new_SlidingWindow d cap = Done w -> window_ok w 0 ∅.
Proof.
  intros Hc. unfold new_SlidingWindow. destruct (Z.ltb_spec cap 0); [lia|]. intros [= <-].
  split; simpl; rewrite ?length_replicate; try lia; try done.
  intros i Hi. rewrite lookup_empty. apply lookup_replicate. split; [done|].
  pose proof (slot_bound cap i). lia.
Qed.

Lemma flag_get w next items i :
  window_ok w next items -> next <= i < next + capacity_ w ->
  array_get (avaliable_ w) (i mod capacity_ w) = Done (bool_decide (is_Some (items !! i))).
Proof.
  intros Hw Hi. apply array_get_ok; [|by apply (wk_flag _ _ _ Hw)].
  apply slot_bound, Hw.
Qed.

(** A free position inside the window can be filled, a taken one throws. *)
Lemma put_law w next items i x :
  window_ok w next items -> next <= i < next + capacity_ w ->
  match items !! i with
  | Some _ => put w x (i mod capacity_ w) = Fault Thrown
  | None => exists w', put w x (i mod capacity_ w) = Done w' /\
              window_ok w' next (<[i := x]> items) /\ capacity_ w' = capacity_ w
  end.
Proof.
  intros Hw Hi. pose proof (wk_cap _ _ _ Hw) as Hc.
  pose proof (slot_bound (capacity_ w) i ltac:(lia)) as Hs.
  pose proof (wk_data _ _ _ Hw) as Hd. pose proof (wk_avail _ _ _ Hw) as Ha.
  unfold put. rewrite (flag_get _ _ _ _ Hw Hi), bind_Done.
  destruct (items !! i) as [y|] eqn:Ei; [done|]. simpl ASSERT. rewrite bind_Done.
  rewrite !array_set_ok by lia. rewrite !bind_Done.
  eexists. split; [done|]. split; [|done]. split; simpl; rewrite ?length_insert; try done; try lia.
  - apply (wk_next _ _ _ Hw).
  - apply (wk_head _ _ _ Hw).
  - intros j y. destruct (decide (j = i)) as [->|]; [done|].
    rewrite lookup_insert_ne by done. apply (wk_range _ _ _ Hw).
  - intros j Hj. destruct (decide (j = i)) as [->|Hne].
    + rewrite lookup_insert_eq, list_lookup_insert_eq by lia. done.
    + rewrite lookup_insert_ne by done. rewrite list_lookup_insert_ne.
      * by apply (wk_flag _ _ _ Hw).
      * intros E. apply Hne, (slot_inj (capacity_ w) next); [lia..|].
        pose proof (slot_bound (capacity_ w) j). lia.
  - intros j y. destruct (decide (j = i)) as [->|Hne].
    + rewrite lookup_insert_eq, list_lookup_insert_eq by lia. congruence.
    + rewrite lookup_insert_ne by done. intros Hy. pose proof (wk_range _ _ _ Hw _ _ Hy).
      rewrite list_lookup_insert_ne; [by apply (wk_item _ _ _ Hw)|].
      intros E. apply Hne, (slot_inj (capacity_ w) next); [lia..|].
      pose proof (slot_bound (capacity_ w) j). lia.
Qed.

Lemma take_head_law w next items x :
  window_ok w next items -> items !! next = Some x ->
  exists w', take_head w = Done (x, w') /\ window_ok w' (next + 1) (delete next items) /\
    capacity_ w' = capacity_ w.
Proof.
  intros Hw Hx. pose proof (wk_cap _ _ _ Hw) as Hc. pose proof (wk_next _ _ _ Hw) as Hn.
  pose proof (slot_bound (capacity_ w) next ltac:(lia)) as Hs.
  pose proof (wk_data _ _ _ Hw) as Hd. pose proof (wk_avail _ _ _ Hw) as Ha.
  unfold take_head. rewrite (wk_head _ _ _ Hw).
  rewrite (array_get_ok _ _ _ (proj1 Hs) (wk_item _ _ _ Hw _ _ Hx)), bind_Done.
  rewrite array_set_ok, bind_Done by lia. rewrite ring_next, bind_Done by lia.
  eexists. split; [done|]. split; [|done]. split; simpl; rewrite ?length_insert; try done; try lia.
  - by rewrite Z.add_mod_idemp_l by lia.
  - intros j y [Hne Hy]%lookup_delete_Some. pose proof (wk_range _ _ _ Hw _ _ Hy). lia.
  - intros j Hj. destruct (decide (j = next + capacity_ w)) as [->|Hne].
    + replace ((next + capacity_ w) mod capacity_ w) with (next mod capacity_ w)
        by (rewrite <- (Z.mul_1_l (capacity_ w)) at 2; by rewrite Z.mod_add by lia).
      rewrite list_lookup_insert_eq by lia. rewrite bool_decide_eq_false_2; [done|].
      intros [y [_ Hy]%lookup_delete_Some]. pose proof (wk_range _ _ _ Hw _ _ Hy). lia.
    + rewrite lookup_delete_ne by lia. rewrite list_lookup_insert_ne.
      * apply (wk_flag _ _ _ Hw). lia.
      * intros E. assert (next = j); [|lia]. apply (slot_inj (capacity_ w) next); [lia..|].
        pose proof (slot_bound (capacity_ w) j). lia.
  - intros j y [Hne Hy]%lookup_delete_Some. by apply (wk_item _ _ _ Hw).
Qed.

(** [poll] and [get] deliver the item at the head position, if it is there. *)
Lemma poll_law w next items :
  window_ok w next items ->
  match items !! next with
  | Some x => exists w', poll w = Done (Some x, w') /\ get w = Ran (Done (x, w')) /\
                window_ok w' (next + 1) (delete next items) /\ capacity_ w' = capacity_ w
  | None => poll w = Done (None, w) /\ get w = Blocked
  end.
Proof.
  intros Hw. pose proof (wk_cap _ _ _ Hw). unfold poll, get. rewrite (wk_head _ _ _ Hw).
  rewrite (flag_get _ _ _ next Hw) by lia. rewrite bind_Done.
  destruct (items !! next) as [x|] eqn:Ex; [|done].
  destruct (take_head_law _ _ _ _ Hw Ex) as (w' & E & Hw' & Hc'). simpl. rewrite E. simpl. by exists w'.
Qed.

(** A slot that is free before the head is taken is free afterwards, and the
    two operations commute. *)
Lemma put_after_take w x w1 o idx w' :
  array_get (avaliable_ w) (head_ w) = Done true -> take_head w = Done (x, w1) -> put w o idx = Done w' ->
  exists w1', put w1 o idx = Done w1' /\ take_head w' = Done (x, w1').
Proof.
  intros Hhead Ht Hp. unfold take_head in Ht. apply bind_done in Ht as (y & Hy & Ht).
  apply bind_done in Ht as (av & Hav & Ht). apply bind_done in Ht as (h & Hh & Ht). simplify_eq.
  unfold put in Hp. apply bind_done in Hp as (a & Ha & Hp). apply bind_done in Hp as ([] & Hfree & Hp).
  apply bind_done in Hp as (data & Hd & Hp). apply bind_done in Hp as (av' & Hav' & Hp). simplify_eq.
  destruct a; [done|]. apply array_get_inv in Hhead as [Hh0 Hhead], Ha as [Hi0 Ha], Hy as [_ Hy].
  pose proof (lookup_lt_Some _ _ _ Hhead). pose proof (lookup_lt_Some _ _ _ Ha). pose proof (lookup_lt_Some _ _ _ Hy).
  assert (Hne : Z.to_nat idx <> Z.to_nat (head_ w)) by (intros E; congruence).
  rewrite array_set_ok in Hav, Hav' by lia. simplify_eq.
  unfold array_set in Hd. case_match eqn:Hb; [|done]. simplify_eq. apply andb_true_iff in Hb as [_ Hb%Z.ltb_lt].
  unfold put, take_head. cbn [data_ avaliable_ capacity_ head_].
  rewrite (array_get_ok _ _ false), bind_Done by (rewrite ?list_lookup_insert_ne; done).
  change (ASSERT (negb false)) with (Done tt). rewrite bind_Done.
  rewrite !array_set_ok by (rewrite ?length_insert; lia). rewrite !bind_Done. eexists. split; [done|].
  rewrite (array_get_ok _ _ x), bind_Done by (rewrite ?list_lookup_insert_ne; done).
  rewrite bind_Done, Hh, bind_Done. by rewrite list_insert_insert_ne.
Qed.

Lemma put_after_poll w x w1 o idx w' :
  poll w = Done (Some x, w1) -> put w o idx = Done w' ->
  exists w1', put w1 o idx = Done w1' /\ poll w' = Done (Some x, w1').
Proof.
  unfold poll. intros Hp Hput. apply bind_done in Hp as (a & Ha & Hp). destruct a; [|done]. cbn [negb] in Hp.
  apply bind_done in Hp as ([y w2] & Ht & Hp). simplify_eq.
  destruct (put_after_take w x w1 o idx w' Ha Ht Hput) as (w1' & Hput' & Ht'). exists w1'. split; [done|].
  rewrite Ht'. assert (array_get (avaliable_ w') (head_ w') = Done true) as ->; [|done].
  unfold put in Hput. apply bind_done in Hput as (a & Hfree & Hput). apply bind_done in Hput as ([] & ? & Hput).
  apply bind_done in Hput as (data & Hd & Hput). apply bind_done in Hput as (av' & Hav' & Hput). simplify_eq. simpl.
  unfold array_set in Hav'. case_match; [|done]. simplify_eq. destruct a; [done|].
  apply array_get_inv in Ha as [Hh0 Ha], Hfree as [Hi0 Hfree]. apply array_get_ok; [done|].
  rewrite list_lookup_insert_ne; [done|]. intros E. congruence.
Qed.

(** Several successful polls one after the other. *)
Fixpoint polls w (os : list A) w' : Prop :=
  match os with
  | [] => w' = w
  | o :: os => exists w1, poll w = Done (Some o, w1) /\ polls w1 os w'
  end.

Lemma polls_snoc w os w1 o w' : polls w os w1 -> poll w1 = Done (Some o, w') -> polls w (os ++ [o]) w'.
Proof.
  revert w. induction os as [|x os IH]; intros w Hp Ho.
  - simpl in *. subst. by exists w'.
  - destruct Hp as (w2 & Hx & Hp). exists w2. split; [done|]. by apply IH.
Qed.

Lemma put_after_polls w os w1 x idx w' :
  polls w os w1 -> put w x idx = Done w' -> exists w1', put w1 x idx = Done w1' /\ polls w' os w1'.
Proof.
  revert w w'. induction os as [|o os IH]; intros w w' Hp Hput.
  - simpl in Hp. subst. by exists w'.
  - destruct Hp as (w2 & Ho & Hp). destruct (put_after_poll _ _ _ _ _ _ Ho Hput) as (w2' & Hput2 & Ho').
    destruct (IH w2 w2' Hp Hput2) as (w1' & Hput1 & Hp'). exists w1'. split; [done|]. by exists w2'.
Qed.

(** Taking items out keeps the window well-formed. *)
Lemma polls_ok w os w' next items :
  window_ok w next items -> polls w os w' -> exists next' items', window_ok w' next' items'.
Proof.
  revert w next items. induction os as [|o os IH]; intros w next items Hw Hp.
  - simpl in Hp. subst. by eexists _, _.
  - destruct Hp as (w1 & Ho & Hp). pose proof (poll_law _ _ _ Hw) as Hl.
    destruct (items !! next) as [x|]; [|destruct Hl; congruence].
    destruct Hl as (w2 & E & _ & Hw2 & _). assert (w2 = w1) as -> by congruence. by eapply IH.
Qed.

Lemma poll_none w w' : poll w = Done (None, w') -> w' = w.
Proof.
  unfold poll. intros Hp. apply bind_done in Hp as ([] & _ & Hp); cbn [negb] in Hp; [|congruence].
  by apply bind_done in Hp as ([? ?] & _ & [=]).
Qed.
End laws.

(** ** Threads

    Producers fill the position [i] of their item, one of those the window
    covers, through its slot; consumers poll or wait. *)
Inductive window_event (A : Type) :=
  | Filled (i : Z) (x : A)
  | Got (x : A)
  | Missed.
Arguments Filled {A} i x.
Arguments Got {A} x.
Arguments Missed {A}.

Section threads.
Context {A : Type}.
Implicit Types (w : SlidingWindow A).

Definition got (tr : list (window_event A)) : list A :=
  omap (fun e => match e with Got x => Some x | _ => None end) tr.

(** One call; [n] items were taken out before. *)
Inductive window_step : SlidingWindow A -> Z -> window_event A -> SlidingWindow A -> Z -> Prop :=
  | ws_put w n i x w' :
      n <= i < n + capacity_ w -> put w x (i mod capacity_ w) = Done w' ->
      window_step w n (Filled i x) w' n
  | ws_poll w n x w' : poll w = Done (Some x, w') -> window_step w n (Got x) w' (n + 1)
  | ws_poll_none w n w' : poll w = Done (None, w') -> window_step w n Missed w' n
  | ws_get w n x w' : get w = Ran (Done (x, w')) -> window_step w n (Got x) w' (n + 1).

Inductive window_run : SlidingWindow A -> Z -> list (window_event A) -> SlidingWindow A -> Z -> Prop :=
  | wr_nil w n : window_run w n [] w n
  | wr_snoc w n tr w' n' e w'' n'' :
      window_run w n tr w' n' -> window_step w' n' e w'' n'' ->
      window_run w n (tr ++ [e]) w'' n''.

(** What a run knows: the items taken are those filled, position by
    position, and the window holds those filled and not taken. *)
Record window_history w (n : Z) (tr : list (window_event A)) (items : gmap Z A) : Prop := {
  wh_ok : window_ok w n items;
  wh_count : Z.of_nat (length (got tr)) = n;
  wh_got k x : got tr !! k = Some x -> Filled (Z.of_nat k) x ∈ tr;
  wh_items i x : items !! i = Some x -> Filled i x ∈ tr;
  wh_filled i x : Filled i x ∈ tr -> items !! i = Some x \/ got tr !! Z.to_nat i = Some x /\ 0 <= i < n;
}.

Lemma window_history_take w n tr items x w' :
  window_history w n tr items -> items !! n = Some x ->
  window_ok w' (n + 1) (delete n items) ->
  window_history w' (n + 1) (tr ++ [Got x]) (delete n items).
Proof.
  intros [Hw Hc Hg Hi Hf] Hx Hw'. pose proof (wk_next _ _ _ Hw) as Hn.
  assert (Egot : got (tr ++ [Got x]) = got tr ++ [x]) by (unfold got; by rewrite omap_app).
  split; rewrite ?Egot; [done|rewrite length_app; simpl; lia|..].
  - intros k y [Hk|[? Hk]]%lookup_app_Some.
    + apply elem_of_app. left. by apply Hg.
    + apply elem_of_app. left. apply list_lookup_singleton_Some in Hk as [Hk <-].
      apply Hi. replace (Z.of_nat k) with n by lia. done.
  - intros i y [_ Hy]%lookup_delete_Some. apply elem_of_app. left. by apply Hi.
  - intros i y [Hy|Hy]%elem_of_app; [|by apply list_elem_of_singleton in Hy].
    destruct (Hf i y Hy) as [Hy'|[Hy' Hr]].
    + destruct (decide (i = n)) as [E|]; [|left; by rewrite lookup_delete_ne by lia].
      right. split; [|lia]. rewrite E in Hy'. rewrite lookup_app_r by lia.
      replace (Z.to_nat i - length (got tr))%nat with 0%nat by lia. simpl. congruence.
    + right. split; [by apply lookup_app_l_Some|lia].
Qed.

Lemma window_run_history (d : A) cap w0 tr w n :
  0 < cap <= INT_MAX -> new_SlidingWindow d cap = Done w0 -> window_run w0 0 tr w n ->
  exists items, window_history w n tr items /\ capacity_ w = cap.
Proof.
  intros Hc Hnew Hrun. remember 0 as z eqn:Ez. induction Hrun as [w0 n|w0 n tr w n1 e w' n' Hrun IH Hs]; subst.
  - exists ∅. split; [split|]; try done.
    + by eapply new_window_ok.
    + intros i x Hx. by apply not_elem_of_nil in Hx.
    + unfold new_SlidingWindow in Hnew. case_if; [done|]. by simplify_eq.
  - destruct IH as (items & Hh & Hcap); [done..|]. pose proof Hh as [Hw Hcnt Hg Hi Hf].
    pose proof (poll_law _ _ _ Hw) as Hpoll.
    destruct Hs as [wa na i x wb Hr E|wa na x wb E|wa na wb E|wa na x wb E].
    + pose proof (put_law wa na items i x Hw Hr) as Hput.
      destruct (items !! i) as [y|] eqn:Ei; [congruence|].
      destruct Hput as (w2 & E2 & Hw2 & Hc2). rewrite E2 in E. simplify_eq.
      assert (Egot : got (tr ++ [Filled i x]) = got tr) by (unfold got; rewrite omap_app; simpl; by rewrite app_nil_r).
      exists (<[i := x]> items). split; [|congruence]. split; rewrite ?Egot; [done|done|..].
      * intros k y Hk. apply elem_of_app. left. by apply Hg.
      * intros j y. destruct (decide (j = i)) as [->|].
        -- rewrite lookup_insert_eq. intros [= <-]. apply elem_of_app. right. by apply list_elem_of_singleton.
        -- rewrite lookup_insert_ne by done. intros Hy. apply elem_of_app. left. by apply Hi.
      * intros j y [Hy|Hy]%elem_of_app.
        -- destruct (Hf j y Hy) as [Hy'|?]; [left|by right].
           rewrite lookup_insert_ne; [done|]. intros ->. congruence.
        -- apply list_elem_of_singleton in Hy as [= -> ->]. left. by rewrite lookup_insert_eq.
    + destruct (items !! na) as [y|] eqn:En; [|destruct Hpoll; congruence].
      destruct Hpoll as (w2 & E2 & _ & Hw2 & Hc2). rewrite E2 in E. simplify_eq.
      eexists (delete _ items). split; [by eapply window_history_take|congruence].
    + destruct (items !! na) as [y|] eqn:En; [destruct Hpoll as (? & ? & _); congruence|].
      destruct Hpoll as [E2 _]. rewrite E2 in E. simplify_eq.
      assert (Egot : got (tr ++ [Missed]) = got tr) by (unfold got; rewrite omap_app; simpl; by rewrite app_nil_r).
      exists items. split; [|done]. split; rewrite ?Egot; [done|done|..].
      * intros k y Hk. apply elem_of_app. left. by apply Hg.
      * intros j y Hy. apply elem_of_app. left. by apply Hi.
      * intros j y [Hy|Hy]%elem_of_app; [by apply Hf|by apply list_elem_of_singleton in Hy].
    + destruct (items !! na) as [y|] eqn:En; [|destruct Hpoll; congruence].
      destruct Hpoll as (w2 & _ & E2 & Hw2 & Hc2). rewrite E2 in E. simplify_eq.
      eexists (delete _ items). split; [by eapply window_history_take|congruence].
Qed.
End threads.

(** ** The properties *)

(** C11: The window delivers in the order of positions what producers fill in
    any order.  In every interleaving of calls that fill positions the window
    covers: the [k]-th item taken out is one that was filled in at position
    [k]; filling a covered position that was not filled before succeeds, and
    filling one again throws instead of overwriting; [poll] misses, and [get]
    waits, exactly while the next position is not filled. *)
Theorem sliding_window_reorders A (d : A) cap w0 tr w n :
  0 < cap <= INT_MAX -> new_SlidingWindow d cap = Done w0 -> window_run w0 0 tr w n ->
  Z.of_nat (length (got tr)) = n /\
  (forall k x, got tr !! k = Some x -> Filled (Z.of_nat k) x ∈ tr) /\
  (forall i x, n <= i < n + cap -> (forall y, Filled i y ∉ tr) ->
     exists w', put w x (i mod cap) = Done w') /\
  (forall i x y, n <= i < n + cap -> Filled i y ∈ tr -> put w x (i mod cap) = Fault Thrown) /\
  (poll w = Done (None, w) <-> get w = Blocked) /\
  (get w = Blocked <-> forall y, Filled n y ∉ tr).
Proof.
  intros Hc Hnew Hrun.
  destruct (window_run_history d cap w0 tr w n Hc Hnew Hrun) as (items & [Hw Hn Hg Hi Hf] & Hcap).
  pose proof (poll_law _ _ _ Hw) as Hpoll. subst cap. split_and!; [done|done| | | |].
  - intros i x Hr Hno. pose proof (put_law w n items i x Hw Hr) as Hput.
    destruct (items !! i) as [y|] eqn:Ei; [by destruct (Hno y); apply Hi|].
    destruct Hput as (w' & ? & _). by exists w'.
  - intros i x y Hr Hin. pose proof (put_law w n items i x Hw Hr) as Hput.
    destruct (Hf i y Hin) as [Hy|[_ Hr']]; [by rewrite Hy in Hput|lia].
  - destruct (items !! n) as [x|].
    + destruct Hpoll as (w' & E1 & E2 & _). rewrite E1, E2. split; [intros [=]|done].
    + destruct Hpoll as [E1 E2]. by rewrite E1, E2.
  - destruct (items !! n) as [x|] eqn:Ex.
    + destruct Hpoll as (w' & _ & E2 & _). rewrite E2. split; [done|].
      intros Hno. destruct (Hno x). by apply Hi.
    + destruct Hpoll as [_ E2]. split; [intros _ y Hy|done].
      destruct (Hf n y Hy) as [Hy'|[_ Hr]]; [congruence|lia].
Qed.

Lemma sliding_window_reorders_witness :
  exists w, window_run (mkSlidingWindow [0; 0] [false; false] 2 0) 0
      [Filled 1 8; Missed; Filled 0 7; Got 7; Filled 2 9] w 1 /\
    put w 5 (2 mod 2) = Fault Thrown.
Proof.
  eexists. assert (Hr : window_run (mkSlidingWindow [0; 0] [false; false] 2 0) 0
      [Filled 1 8; Missed; Filled 0 7; Got 7; Filled 2 9] (mkSlidingWindow [9; 8] [true; true] 2 1) 1).
  { apply (wr_snoc _ _ [Filled 1 8; Missed; Filled 0 7; Got 7] (mkSlidingWindow [7; 8] [false; true] 2 1) 1).
    2: { apply ws_put; [simpl; lia|reflexivity]. }
    apply (wr_snoc _ _ [Filled 1 8; Missed; Filled 0 7] (mkSlidingWindow [7; 8] [true; true] 2 0) 0).
    2: { apply ws_poll. reflexivity. }
    apply (wr_snoc _ _ [Filled 1 8; Missed] (mkSlidingWindow [0; 8] [false; true] 2 0) 0).
    2: { apply ws_put; [simpl; lia|reflexivity]. }
    apply (wr_snoc _ _ [Filled 1 8] (mkSlidingWindow [0; 8] [false; true] 2 0) 0).
    2: { apply ws_poll_none. reflexivity. }
    apply (wr_snoc _ _ [] (mkSlidingWindow [0; 0] [false; false] 2 0) 0); [constructor|].
    apply ws_put; [simpl; lia|reflexivity]. }
  split; [exact Hr|].
  assert (Hcap : 0 < 2 <= INT_MAX) by (split; vm_compute; congruence).
  destruct (sliding_window_reorders Z 0 2 _ _ _ _ Hcap eq_refl Hr)
    as (_ & _ & _ & Hput & _).
  apply (Hput 2 5 9); [lia|]. do 4 right. left.
Defined.
