(* ===== verification/QueueTest.v ===== *)
(** * The test programs of the containers

    [testBlockQueue] of [src/common/block_queue.hpp] and [testSlidingWindow]
    of [src/common/sliding_window.hpp]: a producer puts nine numbers in a queue
    of two slots, two consumers take and print while the queue is not empty. *)

From S2P Require Import Prelude BlockQueue SlidingWindow.
From stdpp Require Import relations.
Import Ring.
#[local] Open Scope Z_scope.

(** Where a consumer stands: before [empty], between [empty] and [take], with
    a number to print, at its end. *)
Inductive consumer := Checking | Taking | Printing (tmp : Z) | Finished.

Record test_state := mkTest {
  iqueue : BlockQueue Z;
  produced : Z;
  consumers : list consumer;
  printed : list Z;
}.

Definition produce_num : Z := 9.

(** One method call of one thread. *)
Inductive test_step : test_state -> test_state -> Prop :=
| step_produce q q' i cs out :
    i < produce_num -> put q i = Ran (Done q') ->
    test_step (mkTest q i cs out) (mkTest q' (i + 1) cs out)
| step_check k q i cs out :
    cs !! k = Some Checking ->
    test_step (mkTest q i cs out) (mkTest q i (<[k := if empty q then Finished else Taking]> cs) out)
| step_take k q q' x i cs out :
    cs !! k = Some Taking -> take q = Ran (Done (x, q')) ->
    test_step (mkTest q i cs out) (mkTest q' i (<[k := Printing x]> cs) out)
| step_print k q x i cs out :
    cs !! k = Some (Printing x) ->
    test_step (mkTest q i cs out) (mkTest q i (<[k := Checking]> cs) (out ++ [x])).

(** [testBlockQueue] starts; it ends when all three threads have been joined. *)
Definition testBlockQueue : outcome test_state :=
  q ← new_BlockQueue 0 2;
  Done (mkTest q 0 [Checking; Checking] []).

Definition test_done (s : test_state) : Prop :=
  produced s = produce_num /\ Forall (fun c => c = Finished) (consumers s).

(** The threads of [testSlidingWindow] have empty bodies. *)
Definition testSlidingWindow : outcome unit :=
  _ ← new_SlidingWindow 0 2;
  Done tt.

(** ** Properties *)

Definition held (c : consumer) : list Z := match c with Printing x => [x] | _ => [] end.

Record test_inv (s : test_state) : Prop := {
  ti_ring : ring_ok (iqueue s);
  ti_range : 0 <= produced s <= produce_num;
  ti_all : printed s ++ concat (map held (consumers s)) ++ contents (iqueue s) ≡ₚ seqZ 0 (produced s);
}.

Lemma held_update k c c' cs :
  cs !! k = Some c ->
  held c ++ concat (map held (<[k := c']> cs)) ≡ₚ held c' ++ concat (map held cs).
Proof.
  intros E. pose proof (take_drop_middle cs k c E) as Hm.
  rewrite (insert_take_drop cs k c') by by eapply lookup_lt_Some.
  rewrite <- Hm at 3. rewrite !map_app, !concat_app. cbn [map concat].
  rewrite (Permutation_app_swap_app (held c)), (Permutation_app_swap_app (held c')).
  f_equiv. apply Permutation_app_swap_app.
Qed.

(** The state a step leads to when the queue is given back with its law. *)
Lemma test_step_inv s s' : test_inv s -> test_step s s' -> test_inv s'.
Proof.
  intros [Hr Hi Ha] Hs.
  destruct Hs as [q q' i cs out Hlt E|k q i cs out E|k q q' x i cs out E Et|k q x i cs out E];
    cbn [iqueue produced consumers printed] in *; unfold produce_num in *.
  - unfold put, wait_until in E. destruct (Z.ltb_spec (m_sz_ q) (m_maxCapacity q)); [|done].
    destruct (push_back_law q i Hr) as (q2 & E2 & Hr2 & C2); [done|].
    rewrite E2 in E. injection E as <-.
    split; cbn [iqueue produced consumers printed]; [done|unfold produce_num; lia|].
    replace (i + 1) with (Z.of_nat (S (Z.to_nat i))) by lia.
    rewrite seqZ_S, Z2Nat.id, C2 by lia. by rewrite <- Ha, <- !app_assoc.
  - split; cbn [iqueue produced consumers printed]; [done..|].
    pose proof (held_update k Checking (if empty q then Finished else Taking) cs E) as Hu.
    rewrite <- Ha. destruct (empty q); cbn [held app] in Hu; by rewrite Hu.
  - unfold Ring.take, wait_until in Et. destruct (Z.gtb_spec (m_sz_ q) 0); [|done].
    destruct (pop_front_law q Hr) as (x2 & q2 & E2 & Hr2 & C2); [lia|].
    rewrite E2 in Et. injection Et as <- <-.
    split; cbn [iqueue produced consumers printed]; [done..|].
    pose proof (held_update k Taking (Printing x2) cs E) as Hu. cbn [held app] in Hu.
    rewrite <- Ha, Hu, C2. cbn [app]. by rewrite Permutation_middle.
  - split; cbn [iqueue produced consumers printed]; [done..|].
    pose proof (held_update k (Printing x) Checking cs E) as Hu. cbn [held app] in Hu.
    rewrite <- Ha, <- Hu, <- app_assoc. done.
Qed.

(** No number is lost or printed twice, however the threads interleave: a run
    that ends with an empty queue has printed all nine. *)
Lemma test_prints_all s0 s :
  testBlockQueue = Done s0 -> rtc test_step s0 s -> test_done s ->
  printed s ++ contents (iqueue s) ≡ₚ seqZ 0 produce_num.
Proof.
  intros E0 Hrun [Hp Hfin].
  assert (Hinv : test_inv s).
  { assert (Hs0 : test_inv s0) by (by injection E0 as <-; split; [by apply (new_ring_ok 0 2)|..]).
    clear -Hrun Hs0. induction Hrun as [|x y z Hxy _ IH]; [done|]. eauto using test_step_inv. }
  pose proof (ti_all s Hinv) as Ha. rewrite Hp in Ha. rewrite <- Ha.
  assert (Hh : concat (map held (consumers s)) = []) by (clear Ha; induction Hfin as [|c cs -> _ IH]; [done|exact IH]).
  by rewrite Hh.
Qed.

(** One step of a run. *)
Ltac test_produce := eapply rtc_l; [apply step_produce; [done|vm_compute; reflexivity]|cbv beta].
Ltac test_check k := eapply rtc_l; [by apply (step_check k)|cbn].
Ltac test_take k := eapply rtc_l; [apply (step_take k); [done|vm_compute; reflexivity]|cbn].
Ltac test_print k := eapply rtc_l; [by eapply (step_print k)|cbn].

Definition stuck_test (s : test_state) : Prop := (forall s', ~ test_step s s') /\ ~ test_done s.

(** [empty] and [take] are two critical sections, so the test does not always
    end: consumers that are faster than the producer finish at once, and the
    producer waits for room for ever. *)
Lemma test_producer_hangs : exists s0 s, testBlockQueue = Done s0 /\ rtc test_step s0 s /\ stuck_test s.
Proof.
  do 2 eexists. split; [reflexivity|]. split.
  { test_check 0%nat. test_check 1%nat. test_produce. test_produce. apply rtc_refl. }
  split.
  - intros s' Hs. inversion Hs as [? ? ? ? ? ? E|k ? ? ? ? E|k ? ? ? ? ? ? E|k ? ? ? ? ? E]; subst; [done|..];
      destruct k as [|[|[]]]; done.
  - intros [E _]. done.
Qed.
