(* ===== verification/Messages.v ===== *)
(** * The messages between traders and exchanges

    What [src/trader/order_sender.cpp] and [src/exchange/trade_sender.cpp]
    build and [src/exchange/order_receiver.cpp] and
    [src/trader/trade_receiver.cpp] parse: a message code, a count and the
    memory images of that many structs. *)

From S2P Require Import Prelude Double Bytes Types BlockQueue.
#[local] Open Scope Z_scope.

(** [convert_trade_to_commtrade]. *)
Definition convert_trade_to_commtrade (trade : Trade) : CommTrade :=
  mkCommTrade (t_stk_code trade) (t_bid_id trade) (t_ask_id trade) 0 (t_price trade) (t_volume trade).

(** [convert_commtrade_to_trade]. *)
Definition convert_commtrade_to_trade (commTrade : CommTrade) : Trade :=
  mkTrade (ct_stk_code commTrade) (ct_bid_id commTrade) (ct_ask_id commTrade)
    (ct_price commTrade) (ct_volume commTrade).

(** The message that [ExchangeTradeSender::put_trade] queues. *)
Definition trade_msg (trade : Trade) : bytes :=
  let commTrade := convert_trade_to_commtrade trade in
  store_int TRADE_MSG ++ store_int 1 ++ store_CommTrade commTrade.

(** The message that [ExchangeTradeSender::put_order_ack] queues. *)
Definition ack_msg (ack : OrderAck) : bytes :=
  store_int ORDER_ACK_MSG ++ store_int 1 ++ store_OrderAck ack.

(** [put_trade] and [put_order_ack] on the queue of the trade sender. *)
Definition put_trade `{Fifo Q bytes} (msg_queue_ : Q) (trade : Trade) : attempt Q :=
  fifo_put msg_queue_ (trade_msg trade).
Definition put_order_ack `{Fifo Q bytes} (msg_queue_ : Q) (ack : OrderAck) : attempt Q :=
  fifo_put msg_queue_ (ack_msg ack).

(** ** The message of the order sender

    [while (!cnt)]: an empty queue makes the loop spin ([Blocked]); the first
    order leaves it, so the limit of 100 is never reached.  [pad] stands for
    the padding bytes of the local [Order]. *)
Fixpoint batch_loop `{Fifo Q Order} (fuel : nat) (pad : bytes) (order_queue_ : Q)
    (order_msg : bytes) (cnt : Z) : attempt (bytes * Z * Q) :=
  match fuel with
  | O => Ran (Fault OutOfFuel)
  | S fuel =>
      if negb (cnt =? 0) then Ran (Done (order_msg, cnt, order_queue_))
      else match fifo_poll order_queue_ with
      | Fault f => Ran (Fault f)
      | Done (None, _) => Blocked
      | Done (Some order, order_queue_) =>
          let order_msg := order_msg ++ store_Order pad order in
          let cnt := cnt + 1 in
          if cnt >=? 100 then Ran (Done (order_msg, cnt, order_queue_))
          else batch_loop fuel pad order_queue_ order_msg cnt
      end
  end.

(** [*((uint32_t * )(order_msg.data() + sizeof(uint32_t))) = cnt]. *)
Definition set_count (msg : bytes) (cnt : Z) : bytes :=
  take 4 msg ++ store_int cnt ++ drop 8 msg.

(** One round of [TraderOrderSender::run] up to the send. *)
Definition next_order_msg `{Fifo Q Order} (pad : bytes) (order_queue_ : Q) : attempt (bytes * Q) :=
  let order_msg := store_int ORDER_MSG ++ store_int 0 in
  match batch_loop 101 pad order_queue_ order_msg 0 with
  | Ran (Done (order_msg, cnt, order_queue_)) => Ran (Done (set_count order_msg cnt, order_queue_))
  | Ran (Fault f) => Ran (Fault f)
  | Blocked => Blocked
  end.

(** ** Parsing *)
Definition read_code (msg : bytes) : outcome (Z * nat) :=
  get_elem_from_buf pod_uint32 (c_str msg) 0.

(** The count after the message code, and that many elements. *)
Definition read_elems {T} (pod : Pod T) (msg : bytes) : outcome (list T) :=
  let offset := 4%nat in
  '(cnt, offset) ← get_elem_from_buf pod_uint32 (c_str msg) offset;
  '(xs, _) ← get_elems pod (Z.to_nat cnt) (c_str msg) offset;
  Done xs.

(** A message with the elements [xs], each with its padding bytes. *)
Definition message {T} (pod : Pod T) (code : Z) (xs : list (bytes * T)) : bytes :=
  store_int code ++ store_int (Z.of_nat (length xs)) ++ store_list pod xs.

Definition well_padded {T} (pod : Pod T) (xs : list (bytes * T)) : Prop :=
  Forall (fun '(pad, x) => length pad = pod_pad pod /\ pod_valid pod x) xs.

Section parse.
Context {T : Type} (pod : Pod T).

Lemma read_code_message code xs :
  0 <= code < 2 ^ 32 -> read_code (message pod code xs) = Done (code, 4%nat).
Proof.
  intros Hc. unfold read_code, message, c_str.
  rewrite <- !app_assoc. apply (get_elem_app pod_uint32 [] []); [done|exact Hc].
Qed.

Lemma read_count_message code xs :
  Z.of_nat (length xs) < 2 ^ 32 ->
  get_elem_from_buf pod_uint32 (c_str (message pod code xs)) 4 = Done (Z.of_nat (length xs), 8%nat).
Proof.
  intros Hn. unfold message, c_str.
  replace ((store_int code ++ store_int (Z.of_nat (length xs)) ++ store_list pod xs) ++ [Init.Byte.x00])
    with (store_int code ++ store_int (Z.of_nat (length xs)) ++ store_list pod xs ++ [Init.Byte.x00])
    by (by rewrite <- !app_assoc).
  pose proof (get_elem_app pod_uint32 (store_int code) [] (Z.of_nat (length xs))
    (store_list pod xs ++ [Init.Byte.x00]) eq_refl) as Hg.
  rewrite store_int_length in Hg. apply Hg. simpl. lia.
Qed.

Lemma read_list_message code xs :
  well_padded pod xs ->
  exists off, get_elems pod (length xs) (c_str (message pod code xs)) 8 = Done (map snd xs, off).
Proof.
  intros Hxs. unfold message, c_str.
  pose proof (get_elems_app pod (store_int code ++ store_int (Z.of_nat (length xs))) xs
    [Init.Byte.x00] Hxs) as [off Hoff].
  rewrite length_app, !store_int_length in Hoff. exists off. rewrite <- Hoff. f_equal.
Qed.

Lemma read_elems_message code xs :
  Z.of_nat (length xs) < 2 ^ 32 -> well_padded pod xs ->
  read_elems pod (message pod code xs) = Done (map snd xs).
Proof.
  intros Hn Hxs. unfold read_elems. rewrite read_count_message by done. rewrite bind_Done.
  rewrite Nat2Z.id. destruct (read_list_message code xs Hxs) as [off ->]. done.
Qed.
End parse.

(** The messages of the senders have this form. *)
Lemma trade_msg_message t :
  trade_msg t = message pod_CommTrade TRADE_MSG [([], convert_trade_to_commtrade t)].
Proof. unfold trade_msg, message, store_list. cbn [map concat]. by rewrite app_nil_r. Qed.

Lemma ack_msg_message a : ack_msg a = message pod_OrderAck ORDER_ACK_MSG [([], a)].
Proof. unfold ack_msg, message, store_list. cbn [map concat]. by rewrite app_nil_r. Qed.

Lemma valid_convert t : valid_Trade t = true -> valid_CommTrade (convert_trade_to_commtrade t) = true.
Proof.
  destruct t. unfold valid_Trade, valid_CommTrade, convert_trade_to_commtrade.
  cbn -[is_int valid_double]. intros Hv. to_prop.
  repeat match goal with H : _ = true |- _ => rewrite H; clear H end. done.
Qed.

Lemma convert_round_trip t : convert_commtrade_to_trade (convert_trade_to_commtrade t) = t.
Proof. by destruct t. Qed.

Lemma set_count_message pad order :
  set_count ((store_int ORDER_MSG ++ store_int 0) ++ store_Order pad order) 1 =
    message pod_Order ORDER_MSG [(pad, order)].
Proof.
  unfold set_count, message, store_list. rewrite <- app_assoc.
  rewrite take_app_length' by (by rewrite store_int_length).
  change 8%nat with (4 + 4)%nat. rewrite drop4_more, drop_store_int, drop_store_int.
  cbn [map concat]. by rewrite app_nil_r.
Qed.

(** One iteration of the batching loop, from an empty batch. *)
Lemma batch_loop_first `{Fifo Q Order} fuel pad (q : Q) msg :
  batch_loop (S (S fuel)) pad q msg 0 =
    match fifo_poll q with
    | Fault f => Ran (Fault f)
    | Done (None, _) => Blocked
    | Done (Some order, q') => Ran (Done (msg ++ store_Order pad order, 1, q'))
    end.
Proof. reflexivity. Qed.

Lemma next_order_msg_law `{Fifo Q Order} pad (q : Q) :
  fifo_ok q ->
  match fifo_contents q with
  | [] => next_order_msg pad q = Blocked
  | order :: l => exists q', next_order_msg pad q = Ran (Done (message pod_Order ORDER_MSG [(pad, order)], q'))
                    /\ fifo_ok q' /\ fifo_contents q' = l
  end.
Proof.
  intros Hq. pose proof (poll_law q Hq) as Hp. unfold next_order_msg.
  rewrite (batch_loop_first 99). destruct (fifo_contents q) as [|order l].
  - by rewrite Hp.
  - destruct Hp as (q' & -> & Hq' & Hc). exists q'. split; [|done]. by rewrite set_count_message.
Qed.
