(* ===== verification/DeclBook.v ===== *)
(** * The declaration book of a stock

    [src/exchange/record.hpp] and [src/exchange/stock_decl_book.hpp]: the
    buy and sell declarations, each in a vector kept as a heap whose front is
    the best one (highest bid, lowest ask, the earlier order on equal
    prices). *)

From S2P Require Import Prelude Double StdHeap.
#[local] Open Scope Z_scope.

(** [struct Record]; [BuyRecord] and [SellRecord] add only their order. *)
Record DeclRecord := mkRec {
  r_order_id : Z;
  r_price : double;
  r_volume : Z;
}.

#[export] Instance DeclRecord_eq_dec : EqDecision DeclRecord.
Proof. solve_decision. Defined.

(** [BuyRecord::operator<]. *)
Definition BuyRecord_lt (br1 br2 : DeclRecord) : bool :=
  if deq (r_price br1) (r_price br2) then r_order_id br1 >? r_order_id br2
  else dlt (r_price br1) (r_price br2).

(** [SellRecord::operator<]. *)
Definition SellRecord_lt (sr1 sr2 : DeclRecord) : bool :=
  if deq (r_price sr1) (r_price sr2) then r_order_id sr1 >? r_order_id sr2
  else dgt (r_price sr1) (r_price sr2).

Record StockDeclarationBook := mkBook {
  buy_decls : list DeclRecord;
  sell_decls : list DeclRecord;
}.

Definition empty_book : StockDeclarationBook := mkBook [] [].

(** [r->volume = v]. *)
Definition set_r_volume (r : DeclRecord) (v : Z) : DeclRecord :=
  mkRec (r_order_id r) (r_price r) v.

(** Assignment to the volume of the front element through the pointer that
    [queryBuyFirst]/[querySellFirst] return. *)
Definition set_front_volume (l : list DeclRecord) (v : Z) : list DeclRecord :=
  match l with [] => [] | r :: l => set_r_volume r v :: l end.

Section book.
Context `{HeapLib}.
Implicit Types (b : StockDeclarationBook).

Definition insertBuyDecl b (br : DeclRecord) : outcome StockDeclarationBook :=
  _ ← cassert (negb (r_volume br =? 0));
  Done (mkBook (push_heap BuyRecord_lt (buy_decls b ++ [br])) (sell_decls b)).

Definition insertSellDecl b (sr : DeclRecord) : outcome StockDeclarationBook :=
  _ ← cassert (negb (r_volume sr =? 0));
  Done (mkBook (buy_decls b) (push_heap SellRecord_lt (sell_decls b ++ [sr]))).

(** [nullptr] is [None]. *)
Definition queryBuyFirst b : option DeclRecord :=
  match buy_decls b with [] => None | r :: _ => Some r end.

Definition removeBuyFirst b : outcome StockDeclarationBook :=
  _ ← cassert (negb (bool_decide (buy_decls b = [])));
  Done (mkBook (pop_back (pop_heap BuyRecord_lt (buy_decls b))) (sell_decls b)).

Definition querySellFirst b : option DeclRecord :=
  match sell_decls b with [] => None | r :: _ => Some r end.

Definition removeSellFirst b : outcome StockDeclarationBook :=
  _ ← cassert (negb (bool_decide (sell_decls b = [])));
  Done (mkBook (buy_decls b) (pop_back (pop_heap SellRecord_lt (sell_decls b)))).

(** [int ret = 0; for (auto& r : decls) ret += r.volume;] *)
Fixpoint sum_volume (ret : Z) (decls : list DeclRecord) : outcome Z :=
  match decls with
  | [] => Done ret
  | r :: decls => ret ← int_add ret (r_volume r); sum_volume ret decls
  end.

Definition totalBuyVolume b : outcome Z := sum_volume 0 (buy_decls b).
Definition totalSellVolume b : outcome Z := sum_volume 0 (sell_decls b).
End book.

Definition set_buy_first_volume (b : StockDeclarationBook) (v : Z) : StockDeclarationBook :=
  mkBook (set_front_volume (buy_decls b) v) (sell_decls b).
Definition set_sell_first_volume (b : StockDeclarationBook) (v : Z) : StockDeclarationBook :=
  mkBook (buy_decls b) (set_front_volume (sell_decls b) v).

(** ** The comparisons are strict weak orders *)

(** Records with a price that is not NaN. *)
Definition rec_ok (r : DeclRecord) : Prop := ordered (r_price r).

#[export] Instance BuyRecord_sw : StrictWeak rec_ok BuyRecord_lt.
Proof.
  split; unfold rec_ok, BuyRecord_lt.
  - intros x Hx. rewrite deq_refl by done. lia.
  - intros x y Hx Hy. rewrite (deq_sym _ _ Hy Hx). destruct (deq _ _) eqn:E; [lia|].
    intros. double_order.
  - intros x y z Hx Hy Hz.
    destruct (deq (r_price x) (r_price y)) eqn:Exy, (deq (r_price y) (r_price z)) eqn:Eyz,
      (deq (r_price x) (r_price z)) eqn:Exz; try lia; intros; double_order.
Qed.

#[export] Instance SellRecord_sw : StrictWeak rec_ok SellRecord_lt.
Proof.
  split; unfold rec_ok, SellRecord_lt.
  - intros x Hx. rewrite deq_refl by done. lia.
  - intros x y Hx Hy. rewrite (deq_sym _ _ Hy Hx). destruct (deq _ _) eqn:E; [lia|].
    intros. double_order.
  - intros x y z Hx Hy Hz.
    destruct (deq (r_price x) (r_price y)) eqn:Exy, (deq (r_price y) (r_price z)) eqn:Eyz,
      (deq (r_price x) (r_price z)) eqn:Exz; try lia; intros; double_order.
Qed.
