(* ===== verification/StockExchange.v ===== *)
(** * The matching engine of one stock

    [src/exchange/stock_exchange.h] and [src/exchange/stock_exchange.cpp].
    The methods of [StockExchange] are functions on its state; trades handed
    to [produceTrade] are appended to [produced] in call order.  Each [while]
    loop has fuel: one iteration more than there are declarations on the
    side it consumes, since every iteration removes one of them or brings
    [left_volume] to 0 (see [Matching] for the proof). *)

From S2P Require Import Prelude Double StdHeap Types DeclBook.
#[local] Open Scope Z_scope.

Record StockExchange := mkSE {
  stk_code : Z;
  decl_book : StockDeclarationBook;
  not_ready_orders : list Order;
  last_commit_order_id : Z;
  produced : list Trade;
}.

(** The constructor [StockExchange(int stk_code)]. *)
Definition new_StockExchange (code : Z) : StockExchange :=
  mkSE code empty_book [] 0 [].

Definition set_book (st : StockExchange) (b : StockDeclarationBook) : StockExchange :=
  mkSE (stk_code st) b (not_ready_orders st) (last_commit_order_id st) (produced st).

(** [produceTrade]: [Exchange::produceTrade] pushes the trade to the trade
    sender. *)
Definition produceTrade (st : StockExchange) (t : Trade) : StockExchange :=
  mkSE (stk_code st) (decl_book st) (not_ready_orders st) (last_commit_order_id st)
    (produced st ++ [t]).

Definition orderGtById (o1 o2 : Order) : bool := o_order_id o1 >? o_order_id o2.

Section engine.
Context `{HeapLib}.
Implicit Types (st : StockExchange) (order : Order).

(** The block that trades [left_volume] of a buy order against the first
    sell declaration [sr] at [price]: the whole of [left_volume] if [sr] has
    more, else the whole of [sr], which is removed.  It occurs in every buy
    loop of the file. *)
Definition trade_with_sell st order (sr : DeclRecord) (price : double) (left_volume : Z)
    : outcome (Z * StockExchange) :=
  if left_volume <? r_volume sr then
    let st := produceTrade st
      (mkTrade (stk_code st) (o_order_id order) (r_order_id sr) price left_volume) in
    v ← int_sub (r_volume sr) left_volume;
    let st := set_book st (set_sell_first_volume (decl_book st) v) in
    left_volume ← int_sub left_volume left_volume;
    Done (left_volume, st)
  else
    let st := produceTrade st
      (mkTrade (stk_code st) (o_order_id order) (r_order_id sr) price (r_volume sr)) in
    left_volume ← int_sub left_volume (r_volume sr);
    b ← removeSellFirst (decl_book st);
    Done (left_volume, set_book st b).

(** The same block of the sell loops. *)
Definition trade_with_buy st order (br : DeclRecord) (price : double) (left_volume : Z)
    : outcome (Z * StockExchange) :=
  if left_volume <? r_volume br then
    let st := produceTrade st
      (mkTrade (stk_code st) (r_order_id br) (o_order_id order) price left_volume) in
    v ← int_sub (r_volume br) left_volume;
    let st := set_book st (set_buy_first_volume (decl_book st) v) in
    left_volume ← int_sub left_volume left_volume;
    Done (left_volume, st)
  else
    let st := produceTrade st
      (mkTrade (stk_code st) (r_order_id br) (o_order_id order) price (r_volume br)) in
    left_volume ← int_sub left_volume (r_volume br);
    b ← removeBuyFirst (decl_book st);
    Done (left_volume, set_book st b).

(** Enough iterations for a loop over the sell (buy) declarations. *)
Definition sell_fuel st : nat := S (length (sell_decls (decl_book st))).
Definition buy_fuel st : nat := S (length (buy_decls (decl_book st))).

(** ** Type 0: limit orders *)
Fixpoint limit_buy_loop (fuel : nat) st order (left_volume : Z) : outcome (Z * StockExchange) :=
  match fuel with
  | O => Fault OutOfFuel
  | S fuel =>
      if left_volume =? 0 then Done (left_volume, st)
      else match querySellFirst (decl_book st) with
      | None => Done (left_volume, st)
      | Some sr =>
          if dgt (r_price sr) (o_price order) then Done (left_volume, st)
          else
            '(left_volume, st) ← trade_with_sell st order sr (r_price sr) left_volume;
            limit_buy_loop fuel st order left_volume
      end
  end.

Fixpoint limit_sell_loop (fuel : nat) st order (left_volume : Z) : outcome (Z * StockExchange) :=
  match fuel with
  | O => Fault OutOfFuel
  | S fuel =>
      if left_volume =? 0 then Done (left_volume, st)
      else match queryBuyFirst (decl_book st) with
      | None => Done (left_volume, st)
      | Some br =>
          if dlt (r_price br) (o_price order) then Done (left_volume, st)
          else
            '(left_volume, st) ← trade_with_buy st order br (r_price br) left_volume;
            limit_sell_loop fuel st order left_volume
      end
  end.

Definition handleLimitOrder st order : outcome (Z * StockExchange) :=
  let left_volume := o_volume order in
  if o_direction order =? 1 then
    '(left_volume, st) ← limit_buy_loop (sell_fuel st) st order left_volume;
    if negb (left_volume =? 0) then
      let new_br := mkRec (o_order_id order) (o_price order) left_volume in
      b ← insertBuyDecl (decl_book st) new_br;
      Done (0, set_book st b)
    else Done (0, st)
  else if o_direction order =? -1 then
    '(left_volume, st) ← limit_sell_loop (buy_fuel st) st order left_volume;
    if negb (left_volume =? 0) then
      let new_sr := mkRec (o_order_id order) (o_price order) left_volume in
      b ← insertSellDecl (decl_book st) new_sr;
      Done (0, set_book st b)
    else Done (0, st)
  else Done (0, st).

(** ** Type 1: best price of the counterparty

    [sr] is the record behind the pointer at the head of the loop; after a
    removal the pointer is fetched again. *)
Fixpoint counterparty_buy_loop (fuel : nat) st order (t_price : double) (left_volume : Z)
    (sr : DeclRecord) : outcome StockExchange :=
  match fuel with
  | O => Fault OutOfFuel
  | S fuel =>
      if left_volume =? 0 then Done st
      else if left_volume <? r_volume sr then
        '(left_volume, st) ← trade_with_sell st order sr t_price left_volume;
        counterparty_buy_loop fuel st order t_price left_volume sr
      else
        '(left_volume, st) ← trade_with_sell st order sr t_price left_volume;
        if left_volume =? 0 then Done st
        else
          match querySellFirst (decl_book st) with
          | Some sr =>
              if dne (r_price sr) t_price then
                b ← insertBuyDecl (decl_book st) (mkRec (o_order_id order) t_price left_volume);
                left_volume ← int_sub left_volume left_volume;
                counterparty_buy_loop fuel (set_book st b) order t_price left_volume sr
              else counterparty_buy_loop fuel st order t_price left_volume sr
          | None =>
              b ← insertBuyDecl (decl_book st) (mkRec (o_order_id order) t_price left_volume);
              left_volume ← int_sub left_volume left_volume;
              counterparty_buy_loop fuel (set_book st b) order t_price left_volume sr
          end
  end.

Fixpoint counterparty_sell_loop (fuel : nat) st order (t_price : double) (left_volume : Z)
    (br : DeclRecord) : outcome StockExchange :=
  match fuel with
  | O => Fault OutOfFuel
  | S fuel =>
      if left_volume =? 0 then Done st
      else if left_volume <? r_volume br then
        '(left_volume, st) ← trade_with_buy st order br t_price left_volume;
        counterparty_sell_loop fuel st order t_price left_volume br
      else
        '(left_volume, st) ← trade_with_buy st order br t_price left_volume;
        if left_volume =? 0 then Done st
        else
          match queryBuyFirst (decl_book st) with
          | Some br =>
              if dne (r_price br) t_price then
                b ← insertSellDecl (decl_book st) (mkRec (o_order_id order) t_price left_volume);
                left_volume ← int_sub left_volume left_volume;
                counterparty_sell_loop fuel (set_book st b) order t_price left_volume br
              else counterparty_sell_loop fuel st order t_price left_volume br
          | None =>
              b ← insertSellDecl (decl_book st) (mkRec (o_order_id order) t_price left_volume);
              left_volume ← int_sub left_volume left_volume;
              counterparty_sell_loop fuel (set_book st b) order t_price left_volume br
          end
  end.

Definition handleCounterpartyBest st order : outcome (Z * StockExchange) :=
  if o_direction order =? 1 then
    match querySellFirst (decl_book st) with
    | None => Done (-1, st)
    | Some sr =>
        st ← counterparty_buy_loop (S (sell_fuel st)) st order (r_price sr) (o_volume order) sr;
        Done (0, st)
    end
  else if o_direction order =? -1 then
    match queryBuyFirst (decl_book st) with
    | None => Done (-1, st)
    | Some br =>
        st ← counterparty_sell_loop (S (buy_fuel st)) st order (r_price br) (o_volume order) br;
        Done (0, st)
    end
  else Done (0, st).

(** ** Type 2: best price of the own side *)
Definition handleOurBest st order : outcome (Z * StockExchange) :=
  if o_direction order =? 1 then
    match queryBuyFirst (decl_book st) with
    | None => Done (-1, st)
    | Some br =>
        let t_price := r_price br in
        b ← insertBuyDecl (decl_book st) (mkRec (o_order_id order) t_price (o_volume order));
        Done (0, set_book st b)
    end
  else if o_direction order =? -1 then
    match querySellFirst (decl_book st) with
    | None => Done (-1, st)
    | Some sr =>
        let t_price := r_price sr in
        b ← insertSellDecl (decl_book st) (mkRec (o_order_id order) t_price (o_volume order));
        Done (0, set_book st b)
    end
  else Done (0, st).

(** ** Type 3: five best price levels, the rest is cancelled *)
Fixpoint five_buy_loop (fuel : nat) st order (left_volume level_count : Z)
    (previous_price : double) : outcome (Z * StockExchange) :=
  match fuel with
  | O => Fault OutOfFuel
  | S fuel =>
      if left_volume =? 0 then Done (left_volume, st)
      else match querySellFirst (decl_book st) with
      | None => Done (left_volume, st)
      | Some sr =>
          let new_level := dne (r_price sr) previous_price in
          let level_count := if new_level then level_count + 1 else level_count in
          if new_level && (level_count >? 5) then Done (left_volume, st)
          else
            let previous_price := if new_level then r_price sr else previous_price in
            '(left_volume, st) ← trade_with_sell st order sr (r_price sr) left_volume;
            five_buy_loop fuel st order left_volume level_count previous_price
      end
  end.

Fixpoint five_sell_loop (fuel : nat) st order (left_volume level_count : Z)
    (previous_price : double) : outcome (Z * StockExchange) :=
  match fuel with
  | O => Fault OutOfFuel
  | S fuel =>
      if left_volume =? 0 then Done (left_volume, st)
      else match queryBuyFirst (decl_book st) with
      | None => Done (left_volume, st)
      | Some br =>
          let new_level := dne (r_price br) previous_price in
          let level_count := if new_level then level_count + 1 else level_count in
          if new_level && (level_count >? 5) then Done (left_volume, st)
          else
            let previous_price := if new_level then r_price br else previous_price in
            '(left_volume, st) ← trade_with_buy st order br (r_price br) left_volume;
            five_sell_loop fuel st order left_volume level_count previous_price
      end
  end.

(** The buy branch returns the cancelled volume, the sell branch 0. *)
Definition handleFiveLevelOtherCancel st order : outcome (Z * StockExchange) :=
  if o_direction order =? 1 then
    '(left_volume, st) ← five_buy_loop (sell_fuel st) st order (o_volume order) 0 dzero;
    if negb (left_volume =? 0) then Done (left_volume, st) else Done (0, st)
  else if o_direction order =? -1 then
    '(left_volume, st) ← five_sell_loop (buy_fuel st) st order (o_volume order) 0 dzero;
    Done (0, st)
  else Done (0, st).

(** ** Type 4: trade at once, the rest is cancelled *)
Fixpoint immediate_buy_loop (fuel : nat) st order (left_volume : Z) : outcome (Z * StockExchange) :=
  match fuel with
  | O => Fault OutOfFuel
  | S fuel =>
      if left_volume =? 0 then Done (left_volume, st)
      else match querySellFirst (decl_book st) with
      | None => Done (left_volume, st)
      | Some sr =>
          '(left_volume, st) ← trade_with_sell st order sr (r_price sr) left_volume;
          immediate_buy_loop fuel st order left_volume
      end
  end.

Fixpoint immediate_sell_loop (fuel : nat) st order (left_volume : Z) : outcome (Z * StockExchange) :=
  match fuel with
  | O => Fault OutOfFuel
  | S fuel =>
      if left_volume =? 0 then Done (left_volume, st)
      else match queryBuyFirst (decl_book st) with
      | None => Done (left_volume, st)
      | Some br =>
          '(left_volume, st) ← trade_with_buy st order br (r_price br) left_volume;
          immediate_sell_loop fuel st order left_volume
      end
  end.

Definition handleImmediateOtherCancel st order : outcome (Z * StockExchange) :=
  let left_volume := o_volume order in
  if o_direction order =? 1 then
    '(left_volume, st) ← immediate_buy_loop (sell_fuel st) st order left_volume;
    if negb (left_volume =? 0) then Done (left_volume, st) else Done (0, st)
  else if o_direction order =? -1 then
    '(left_volume, st) ← immediate_sell_loop (buy_fuel st) st order left_volume;
    if negb (left_volume =? 0) then Done (left_volume, st) else Done (0, st)
  else Done (0, st).

(** ** Type 5: all or nothing *)
Fixpoint whole_buy_loop (fuel : nat) st order (left_volume : Z) : outcome StockExchange :=
  match fuel with
  | O => Fault OutOfFuel
  | S fuel =>
      if left_volume =? 0 then Done st
      else match querySellFirst (decl_book st) with
      | None => Fault AssertFailed
      | Some sr =>
          '(left_volume, st) ← trade_with_sell st order sr (r_price sr) left_volume;
          whole_buy_loop fuel st order left_volume
      end
  end.

Fixpoint whole_sell_loop (fuel : nat) st order (left_volume : Z) : outcome StockExchange :=
  match fuel with
  | O => Fault OutOfFuel
  | S fuel =>
      if left_volume =? 0 then Done st
      else match queryBuyFirst (decl_book st) with
      | None => Fault AssertFailed
      | Some br =>
          '(left_volume, st) ← trade_with_buy st order br (r_price br) left_volume;
          whole_sell_loop fuel st order left_volume
      end
  end.

Definition handleWholeOrCancel st order : outcome (Z * StockExchange) :=
  let left_volume := o_volume order in
  if o_direction order =? 1 then
    total ← totalSellVolume (decl_book st);
    if left_volume >? total then Done (-1, st)
    else st ← whole_buy_loop (sell_fuel st) st order left_volume; Done (0, st)
  else if o_direction order =? -1 then
    total ← totalBuyVolume (decl_book st);
    if left_volume >? total then Done (-1, st)
    else st ← whole_sell_loop (buy_fuel st) st order left_volume; Done (0, st)
  else Done (0, st).

(** ** Dispatch on the order type

    The status of the handlers is assigned to a local variable and not
    returned; only an unknown type returns -1. *)
Definition commitOrder st order : outcome (Z * StockExchange) :=
  match o_type order with
  | -1 => Done (0, st)
  | 0 => '(_, st) ← handleLimitOrder st order; Done (0, st)
  | 1 => '(_, st) ← handleCounterpartyBest st order; Done (0, st)
  | 2 => '(_, st) ← handleOurBest st order; Done (0, st)
  | 3 => '(_, st) ← handleFiveLevelOtherCancel st order; Done (0, st)
  | 4 => '(_, st) ← handleImmediateOtherCancel st order; Done (0, st)
  | 5 => '(_, st) ← handleWholeOrCancel st order; Done (0, st)
  | _ => Done (-1, st)
  end.

(** ** Orders are committed in the order of their ids *)
Definition set_not_ready st (l : list Order) : StockExchange :=
  mkSE (stk_code st) (decl_book st) l (last_commit_order_id st) (produced st).
Definition set_last_commit st (id : Z) : StockExchange :=
  mkSE (stk_code st) (decl_book st) (not_ready_orders st) id (produced st).

Fixpoint commit_ready (fuel : nat) st (ret : Z) : outcome (Z * StockExchange) :=
  match fuel with
  | O => Fault OutOfFuel
  | S fuel =>
      match not_ready_orders st with
      | [] => Done (ret, st)
      | first :: _ =>
          next ← int_add (last_commit_order_id st) 1;
          if negb (next =? o_order_id first) then Done (ret, st)
          else
            '(ret, st) ← commitOrder st first;
            let st := set_not_ready st (pop_back (pop_heap orderGtById (not_ready_orders st))) in
            last ← int_add (last_commit_order_id st) 1;
            commit_ready fuel (set_last_commit st last) ret
      end
  end.

Definition receiveOrder st order : outcome (Z * StockExchange) :=
  _ ← cassert (o_stk_code order =? stk_code st);
  let st := set_not_ready st (push_heap orderGtById (not_ready_orders st ++ [order])) in
  commit_ready (S (length (not_ready_orders st))) st 0.

(** [for (auto& order : orders) receiveOrder(order);], one round of [run]. *)
Fixpoint receive_all st (orders : list Order) : outcome StockExchange :=
  match orders with
  | [] => Done st
  | order :: orders => '(_, st) ← receiveOrder st order; receive_all st orders
  end.
End engine.
