(* ===== verification/MatchSpec.v ===== *)
(** * What the matching engine promises

    The abstract book is two lists of declarations in price-time priority,
    best first, and matching consumes the opposite list from the front.  The
    file defines this specification ([spec_commit]), the relation between a
    heap and its list ([side_rel]), and shows the heap operations of
    [DeclBook] implement the list operations. *)

From S2P Require Import Prelude Double StdHeap Types DeclBook StockExchange.
#[local] Open Scope Z_scope.

Inductive side := BuySide | SellSide.

#[export] Instance side_eq_dec : EqDecision side.
Proof. solve_decision. Defined.

Definition other (sd : side) : side :=
  match sd with BuySide => SellSide | SellSide => BuySide end.

Definition side_lt (sd : side) : DeclRecord -> DeclRecord -> bool :=
  match sd with BuySide => BuyRecord_lt | SellSide => SellRecord_lt end.

Definition decls (sd : side) (b : StockDeclarationBook) : list DeclRecord :=
  match sd with BuySide => buy_decls b | SellSide => sell_decls b end.

(** [a] is served strictly before [b]. *)
Definition better (sd : side) (a b : DeclRecord) : Prop := side_lt sd b a = true.

(** ** The abstract book *)
Record abs_book := mkAbs { bids : list DeclRecord; asks : list DeclRecord }.

Definition abs_side (sd : side) (ab : abs_book) : list DeclRecord :=
  match sd with BuySide => bids ab | SellSide => asks ab end.
Definition set_abs_side (sd : side) (ab : abs_book) (l : list DeclRecord) : abs_book :=
  match sd with BuySide => mkAbs l (asks ab) | SellSide => mkAbs (bids ab) l end.

(** Insert by priority. *)
Fixpoint insert_decl (sd : side) (r : DeclRecord) (l : list DeclRecord) : list DeclRecord :=
  match l with
  | [] => [r]
  | x :: l' => if side_lt sd x r then r :: l else x :: insert_decl sd r l'
  end.

(** The trade of a taker with a resting declaration on side [sd]. *)
Definition trade_of (sd : side) (code : Z) (order : Order) (price : double)
    (r : DeclRecord) (v : Z) : Trade :=
  match sd with
  | SellSide => mkTrade code (o_order_id order) (r_order_id r) price v
  | BuySide => mkTrade code (r_order_id r) (o_order_id order) price v
  end.

(** Consume declarations from the front while volume is left and [accept],
    a test that carries a state of type [S], lets the next one pass.  Returns
    the trades, the volume left and the remaining declarations. *)
Fixpoint sweep {S : Type} (accept : S -> DeclRecord -> option S)
    (mk : DeclRecord -> Z -> Trade) (s : S) (left : Z) (l : list DeclRecord)
    : list Trade * Z * list DeclRecord :=
  match l with
  | [] => ([], left, [])
  | r :: l' =>
      if left =? 0 then ([], left, l)
      else match accept s r with
      | None => ([], left, l)
      | Some s' =>
          if left <? r_volume r
          then ([mk r left], 0, set_r_volume r (r_volume r - left) :: l')
          else let '(ts, left', l'') := sweep accept mk s' (left - r_volume r) l' in
               (mk r (r_volume r) :: ts, left', l'')
      end
  end.

(** The stopping rules of the order types, for a taker facing side [sd]. *)
Definition accept_all (_ : unit) (_ : DeclRecord) : option unit := Some tt.
Definition accept_limit (sd : side) (limit : double) (_ : unit) (r : DeclRecord) : option unit :=
  match sd with
  | SellSide => if dgt (r_price r) limit then None else Some tt
  | BuySide => if dlt (r_price r) limit then None else Some tt
  end.
Definition accept_price (t : double) (_ : unit) (r : DeclRecord) : option unit :=
  if dne (r_price r) t then None else Some tt.
Definition accept_levels (s : Z * double) (r : DeclRecord) : option (Z * double) :=
  let '(count, previous) := s in
  if dne (r_price r) previous then
    if count + 1 >? 5 then None else Some (count + 1, r_price r)
  else Some (count, previous).

Definition volume_sum (l : list DeclRecord) : Z := foldr (fun r a => r_volume r + a) 0 l.

(** The side an order consumes. *)
Definition taker_side (order : Order) : option side :=
  if o_direction order =? 1 then Some SellSide
  else if o_direction order =? -1 then Some BuySide else None.

(** Result of matching: the trades and the new book. *)
Definition spec_result : Type := list Trade * abs_book.

(** Match with rule [accept] and rest the remainder on the own side at
    [price]. *)
Definition match_and_rest {S} (accept : S -> DeclRecord -> option S) (s : S)
    (sd : side) (code : Z) (order : Order) (price : double)
    (trade_price : DeclRecord -> double) (ab : abs_book) : spec_result :=
  let '(ts, remaining, l) :=
    sweep accept (fun r => trade_of sd code order (trade_price r) r) s (o_volume order)
      (abs_side sd ab) in
  let ab := set_abs_side sd ab l in
  (ts, if remaining =? 0 then ab
       else set_abs_side (other sd) ab
              (insert_decl (other sd) (mkRec (o_order_id order) price remaining)
                 (abs_side (other sd) ab))).

(** Match with rule [accept] and drop the remainder. *)
Definition match_and_cancel {S} (accept : S -> DeclRecord -> option S) (s : S)
    (sd : side) (code : Z) (order : Order) (ab : abs_book) : spec_result :=
  let '(ts, _, l) :=
    sweep accept (fun r => trade_of sd code order (r_price r) r) s (o_volume order)
      (abs_side sd ab) in
  (ts, set_abs_side sd ab l).

Definition spec_commit (code : Z) (ab : abs_book) (order : Order) : spec_result :=
  match taker_side order with
  | None => ([], ab)
  | Some sd =>
      match o_type order with
      | 0 => match_and_rest (accept_limit sd (o_price order)) tt sd code order
               (o_price order) r_price ab
      | 1 => match abs_side sd ab with
             | [] => ([], ab)
             | r :: _ => match_and_rest (accept_price (r_price r)) tt sd code order
                           (r_price r) (fun _ => r_price r) ab
             end
      | 2 => match abs_side (other sd) ab with
             | [] => ([], ab)
             | r :: _ => ([], set_abs_side (other sd) ab
                 (insert_decl (other sd) (mkRec (o_order_id order) (r_price r) (o_volume order))
                    (abs_side (other sd) ab)))
             end
      | 3 => match_and_cancel accept_levels (0, dzero) sd code order ab
      | 4 => match_and_cancel accept_all tt sd code order ab
      | 5 => if o_volume order >? volume_sum (abs_side sd ab) then ([], ab)
             else match_and_cancel accept_all tt sd code order ab
      | _ => ([], ab)
      end
  end.

(** ** Heaps represent lists in priority order *)
Record side_rel (sd : side) (h l : list DeclRecord) : Prop := {
  sr_perm : h ≡ₚ l;
  sr_heap : is_heap (side_lt sd) h;
  sr_sorted : StronglySorted (better sd) l;
  sr_ok : Forall rec_ok l;
}.

Definition book_rel (b : StockDeclarationBook) (ab : abs_book) : Prop :=
  forall sd, side_rel sd (decls sd b) (abs_side sd ab).

#[export] Instance side_sw sd : StrictWeak rec_ok (side_lt sd).
Proof. destruct sd; apply _. Defined.

Lemma side_lt_volume sd r v y :
  side_lt sd (set_r_volume r v) y = side_lt sd r y /\
  side_lt sd y (set_r_volume r v) = side_lt sd y r.
Proof. by destruct sd. Qed.

(** Two declarations with different order ids are ranked. *)
Lemma better_total sd a b :
  rec_ok a -> rec_ok b -> r_order_id a <> r_order_id b -> better sd a b \/ better sd b a.
Proof.
  unfold rec_ok, better. intros Ha Hb Hid. destruct sd; simpl;
    unfold BuyRecord_lt, SellRecord_lt, dgt;
    change (SFltb (r_price a) (r_price b)) with (dlt (r_price a) (r_price b));
    change (SFltb (r_price b) (r_price a)) with (dlt (r_price b) (r_price a));
    rewrite (deq_sym _ _ Hb Ha);
    destruct (dlt_trichotomy _ _ Ha Hb) as [E|[E|E]];
    destruct (deq (r_price a) (r_price b)) eqn:Eq; try (left; done); try (right; done);
    try lia; try congruence.
Qed.

Lemma better_trans sd a b c :
  rec_ok a -> rec_ok b -> rec_ok c -> better sd a b -> better sd b c -> better sd a c.
Proof.
  unfold better. intros Ha Hb Hc Hab Hbc.
  destruct (side_lt sd c a) eqn:E; [done|].
  pose proof (sw_asym (P := rec_ok) b a Hb Ha Hab) as Hab'.
  pose proof (sw_ge_trans (P := rec_ok) c a b Hc Ha Hb E Hab'). congruence.
Qed.

Section rel.
Context `{HeapLib} (sd : side).
Implicit Types (h l : list DeclRecord).

Lemma side_rel_heap_ok h l : side_rel sd h l -> Forall rec_ok h.
Proof. intros []. by rewrite sr_perm0. Qed.

Lemma side_rel_nil : side_rel sd [] [].
Proof. split; [done|apply is_heap_nil|constructor|constructor]. Qed.

(** A list in priority order is itself a heap. *)
Lemma side_rel_refl l :
  StronglySorted (better sd) l -> Forall rec_ok l -> side_rel sd l l.
Proof.
  intros Hs Hok. split; [done| |done|done]. intros i p x Hi Hp Hx.
  pose proof (parent_lt i (proj1 Hi)) as Hlt. rewrite Forall_lookup in Hok.
  apply (sw_asym (P := rec_ok)); [by eapply Hok..|]. clear Hi Hok.
  revert Hp Hx Hlt. generalize (parent i) as j. revert i p x.
  induction Hs as [|y l Hs IH Hall]; intros i p x j Hp Hx Hlt; [done|].
  destruct i as [|i]; [lia|]. simpl in Hx. destruct j as [|j]; simpl in Hp.
  - simplify_eq. rewrite Forall_lookup in Hall. by apply (Hall i).
  - eapply IH; eauto. lia.
Qed.

(** The front of the heap is the first of the list. *)
Lemma side_rel_top h r l :
  side_rel sd h (r :: l) -> exists h', h = r :: h' /\ h' ≡ₚ l.
Proof.
  intros Hrel. destruct Hrel as [Hp Hh Hs Hok].
  destruct h as [|x h']; [by apply Permutation_nil_cons in Hp|].
  assert (x = r) as ->; [|exists h'; split; [done|by apply Permutation_cons_inv in Hp]].
  assert (Hx : x ∈ r :: l) by (rewrite <- Hp; left).
  apply elem_of_cons in Hx as [|Hx]; [done|]. exfalso.
  apply StronglySorted_inv in Hs as [_ Hall]. rewrite Forall_forall in Hall.
  assert (Hlt : side_lt sd x r = true) by (by apply Hall).
  assert (Hr : r ∈ x :: h') by (rewrite Hp; left).
  assert (Hokh : Forall rec_ok (x :: h')) by (by rewrite Hp).
  pose proof (heap_top rec_ok (side_lt sd) x h' r Hokh Hh Hr). congruence.
Qed.

Lemma side_rel_front h l :
  side_rel sd h l -> head h = head l.
Proof.
  intros Hrel. destruct l as [|r l].
  - destruct Hrel as [Hp _ _ _]. apply Permutation_nil_r in Hp. by subst.
  - destruct (side_rel_top _ _ _ Hrel) as (h' & -> & _). done.
Qed.

Lemma side_rel_set_volume h r l v :
  side_rel sd h (r :: l) ->
  side_rel sd (set_front_volume h v) (set_r_volume r v :: l).
Proof.
  intros Hrel. destruct (side_rel_top _ _ _ Hrel) as (h' & -> & Hp).
  destruct Hrel as [_ Hh Hs Hok]. simpl.
  apply StronglySorted_inv in Hs as [Hs Hall]. inversion_clear Hok as [|? ? Hr Hl].
  split.
  - by rewrite Hp.
  - eapply heap_update_root; [|exact Hh]. intros y. apply side_lt_volume.
  - constructor; [done|]. eapply Forall_impl; [exact Hall|].
    intros y. unfold better. by rewrite (proj2 (side_lt_volume sd r v y)).
  - by constructor.
Qed.

Lemma side_rel_remove h r l :
  side_rel sd h (r :: l) -> side_rel sd (heap_remove (side_lt sd) h) l.
Proof.
  intros Hrel. pose proof (side_rel_heap_ok _ _ Hrel) as Hokh.
  destruct (side_rel_top _ _ _ Hrel) as (h' & -> & Hp).
  destruct Hrel as [_ Hh Hs Hok]. split.
  - by rewrite heap_remove_perm.
  - by apply (heap_remove_heap rec_ok (side_lt sd)).
  - by apply StronglySorted_inv in Hs as [].
  - by inversion Hok.
Qed.

Lemma insert_decl_perm r l : insert_decl sd r l ≡ₚ r :: l.
Proof.
  induction l as [|x l IH]; simpl; [done|]. case_match; [done|].
  rewrite IH. constructor.
Qed.

Lemma insert_decl_sorted r l :
  rec_ok r -> Forall rec_ok l -> Forall (fun x => r_order_id x <> r_order_id r) l ->
  StronglySorted (better sd) l -> StronglySorted (better sd) (insert_decl sd r l).
Proof.
  intros Hr Hok Hid Hs. induction Hs as [|x l Hs IH Hall]; simpl; [repeat constructor|].
  inversion_clear Hok as [|? ? Hx Hl]. inversion_clear Hid as [|? ? Hxid Hlid].
  destruct (side_lt sd x r) eqn:E.
  - constructor; [by constructor|]. constructor; [done|].
    rewrite Forall_forall in Hall, Hl |- *. intros y Hy.
    by eapply (better_trans sd r x y); eauto.
  - constructor; [by apply IH|]. rewrite insert_decl_perm. constructor; [|done].
    destruct (better_total sd x r Hx Hr Hxid) as [?|Hb]; [done|].
    unfold better in Hb. congruence.
Qed.

Lemma side_rel_insert h l r :
  side_rel sd h l -> rec_ok r -> Forall (fun x => r_order_id x <> r_order_id r) l ->
  side_rel sd (heap_insert (side_lt sd) h r) (insert_decl sd r l).
Proof.
  intros Hrel Hr Hid. pose proof (side_rel_heap_ok _ _ Hrel) as Hokh.
  destruct Hrel as [Hp Hh Hs Hok]. split.
  - by rewrite heap_insert_perm, insert_decl_perm, Hp.
  - by apply (heap_insert_heap rec_ok (side_lt sd)).
  - by apply insert_decl_sorted.
  - rewrite insert_decl_perm. by constructor.
Qed.
End rel.
