(* ===== verification/Matching.v ===== *)
(** * The handlers implement the specification

    The ten matching loops of [StockExchange] are instances of one generic
    loop ([take_loop]); the generic loop on a heap computes what [sweep]
    computes on the list in priority order.  From this follows that each
    handler, and [commitOrder], implement [spec_commit]. *)

From S2P Require Import Prelude Double StdHeap Types DeclBook StockExchange MatchSpec.
#[local] Open Scope Z_scope.

(** Volumes of declarations are positive [int]s. *)
Definition vol_ok (r : DeclRecord) : Prop := 0 < r_volume r <= INT_MAX.

Section generic.
Context `{HeapLib}.
Implicit Types (st : StockExchange) (order : Order).

Definition query_first (sd : side) b : option DeclRecord :=
  match sd with BuySide => queryBuyFirst b | SellSide => querySellFirst b end.

Definition trade_with (sd : side) st order r price v : outcome (Z * StockExchange) :=
  match sd with
  | SellSide => trade_with_sell st order r price v
  | BuySide => trade_with_buy st order r price v
  end.

Definition insert_side (sd : side) b r : outcome StockDeclarationBook :=
  match sd with BuySide => insertBuyDecl b r | SellSide => insertSellDecl b r end.

Fixpoint take_loop {S} (accept : S -> DeclRecord -> option S) (price : DeclRecord -> double)
    (sd : side) (fuel : nat) st order (s : S) (v : Z) : outcome (Z * StockExchange) :=
  match fuel with
  | O => Fault OutOfFuel
  | Datatypes.S fuel =>
      if v =? 0 then Done (v, st)
      else match query_first sd (decl_book st) with
      | None => Done (v, st)
      | Some r =>
          match accept s r with
          | None => Done (v, st)
          | Some s =>
              '(v, st) ← trade_with sd st order r (price r) v;
              take_loop accept price sd fuel st order s v
          end
      end
  end.

(** ** The loops of the source are instances *)
Lemma limit_buy_loop_eq fuel st order v :
  limit_buy_loop fuel st order v =
    take_loop (accept_limit SellSide (o_price order)) r_price SellSide fuel st order tt v.
Proof.
  revert st v. induction fuel as [|fuel IH]; intros st v; simpl; [done|].
  repeat case_match; simplify_eq; try done.
  destruct (trade_with_sell _ _ _ _ _) as [[v' st']|]; simpl; [apply IH|done].
Qed.

Lemma limit_sell_loop_eq fuel st order v :
  limit_sell_loop fuel st order v =
    take_loop (accept_limit BuySide (o_price order)) r_price BuySide fuel st order tt v.
Proof.
  revert st v. induction fuel as [|fuel IH]; intros st v; simpl; [done|].
  repeat case_match; simplify_eq; try done.
  destruct (trade_with_buy _ _ _ _ _) as [[v' st']|]; simpl; [apply IH|done].
Qed.

Lemma five_buy_loop_eq fuel st order v n p :
  five_buy_loop fuel st order v n p =
    take_loop accept_levels r_price SellSide fuel st order (n, p) v.
Proof.
  revert st v n p. induction fuel as [|fuel IH]; intros st v n p; simpl; [done|].
  destruct (v =? 0); [done|]. destruct (querySellFirst _) as [sr|]; [|done].
  destruct (dne (r_price sr) p); simpl; [destruct (n + 1 >? 5); [done|]|];
    (destruct (trade_with_sell _ _ _ _ _) as [[v' st']|]; simpl; [apply IH|done]).
Qed.

Lemma five_sell_loop_eq fuel st order v n p :
  five_sell_loop fuel st order v n p =
    take_loop accept_levels r_price BuySide fuel st order (n, p) v.
Proof.
  revert st v n p. induction fuel as [|fuel IH]; intros st v n p; simpl; [done|].
  destruct (v =? 0); [done|]. destruct (queryBuyFirst _) as [sr|]; [|done].
  destruct (dne (r_price sr) p); simpl; [destruct (n + 1 >? 5); [done|]|];
    (destruct (trade_with_buy _ _ _ _ _) as [[v' st']|]; simpl; [apply IH|done]).
Qed.

Lemma immediate_buy_loop_eq fuel st order v :
  immediate_buy_loop fuel st order v =
    take_loop accept_all r_price SellSide fuel st order tt v.
Proof.
  revert st v. induction fuel as [|fuel IH]; intros st v; simpl; [done|].
  repeat case_match; simplify_eq; try done.
  destruct (trade_with_sell _ _ _ _ _) as [[v' st']|]; simpl; [apply IH|done].
Qed.

Lemma immediate_sell_loop_eq fuel st order v :
  immediate_sell_loop fuel st order v =
    take_loop accept_all r_price BuySide fuel st order tt v.
Proof.
  revert st v. induction fuel as [|fuel IH]; intros st v; simpl; [done|].
  repeat case_match; simplify_eq; try done.
  destruct (trade_with_buy _ _ _ _ _) as [[v' st']|]; simpl; [apply IH|done].
Qed.

Lemma whole_buy_loop_eq fuel st order v st' :
  take_loop accept_all r_price SellSide fuel st order tt v = Done (0, st') ->
  whole_buy_loop fuel st order v = Done st'.
Proof.
  revert st v. induction fuel as [|fuel IH]; intros st v; simpl; [done|].
  destruct (Z.eqb_spec v 0) as [->|Hv]; [congruence|].
  destruct (querySellFirst _) as [sr|]; [|congruence].
  destruct (trade_with_sell _ _ _ _ _) as [[v' st'']|]; simpl; [apply IH|done].
Qed.

Lemma whole_sell_loop_eq fuel st order v st' :
  take_loop accept_all r_price BuySide fuel st order tt v = Done (0, st') ->
  whole_sell_loop fuel st order v = Done st'.
Proof.
  revert st v. induction fuel as [|fuel IH]; intros st v; simpl; [done|].
  destruct (Z.eqb_spec v 0) as [->|Hv]; [congruence|].
  destruct (queryBuyFirst _) as [sr|]; [|congruence].
  destruct (trade_with_buy _ _ _ _ _) as [[v' st'']|]; simpl; [apply IH|done].
Qed.

(** The remainder of an order comes to rest on side [sd]. *)
Definition rest_order (sd : side) st order price v : outcome StockExchange :=
  if v =? 0 then Done st
  else b ← insert_side sd (decl_book st) (mkRec (o_order_id order) price v);
       Done (set_book st b).

(** Trading moves [left_volume] to 0 when the declaration has more. *)
Lemma trade_with_partial sd st order r price v v' st' :
  trade_with sd st order r price v = Done (v', st') -> v < r_volume r -> v' = 0.
Proof.
  intros Ht Hlt. destruct sd; simpl in Ht; unfold trade_with_buy, trade_with_sell in Ht;
    rewrite (proj2 (Z.ltb_lt _ _) Hlt) in Ht; inv_bind;
    match goal with H : int_sub v v = Done _ |- _ => apply chk_int_inv in H as [-> _] end; lia.
Qed.

Lemma counterparty_buy_loop_eq fuel st order t v sr v' st' :
  querySellFirst (decl_book st) = Some sr -> dne (r_price sr) t = false ->
  take_loop (accept_price t) (fun _ => t) SellSide fuel st order tt v = Done (v', st') ->
  counterparty_buy_loop fuel st order t v sr = rest_order BuySide st' order t v'.
Proof.
  revert st v sr. induction fuel as [|fuel IH]; intros st v sr Hq Hp; simpl; [done|].
  unfold rest_order. destruct (Z.eqb_spec v 0) as [->|Hv]; [by intros [= <- <-]|].
  rewrite Hq. unfold accept_price at 1. rewrite Hp.
  destruct (trade_with_sell st order sr t v) as [[v1 st1]|] eqn:Ht; simpl;
    [|by destruct (v <? r_volume sr)].
  destruct fuel as [|fuel]; [done|]. destruct (Z.ltb_spec v (r_volume sr)) as [Hlt|Hge].
  { rewrite (trade_with_partial SellSide _ _ _ _ _ _ _ Ht Hlt). simpl. by intros [= <- <-]. }
  intros Hl. destruct (Z.eqb_spec v1 0) as [->|Hv1]; [simpl in Hl; by simplify_eq|].
  destruct (querySellFirst (decl_book st1)) as [sr1|] eqn:Hq1.
  - destruct (dne (r_price sr1) t) eqn:Hp1; [|by apply IH].
    simpl in Hl. rewrite (proj2 (Z.eqb_neq v1 0) Hv1), Hq1 in Hl.
    unfold accept_price in Hl. rewrite Hp1 in Hl. injection Hl as <- <-.
    rewrite (proj2 (Z.eqb_neq v1 0) Hv1). simpl.
    destruct (insertBuyDecl _ _); simpl; [|done]. unfold int_sub. rewrite Z.sub_diag. done.
  - simpl in Hl. rewrite (proj2 (Z.eqb_neq v1 0) Hv1), Hq1 in Hl. injection Hl as <- <-.
    rewrite (proj2 (Z.eqb_neq v1 0) Hv1). simpl.
    destruct (insertBuyDecl _ _); simpl; [|done]. unfold int_sub. rewrite Z.sub_diag. done.
Qed.

Lemma counterparty_sell_loop_eq fuel st order t v br v' st' :
  queryBuyFirst (decl_book st) = Some br -> dne (r_price br) t = false ->
  take_loop (accept_price t) (fun _ => t) BuySide fuel st order tt v = Done (v', st') ->
  counterparty_sell_loop fuel st order t v br = rest_order SellSide st' order t v'.
Proof.
  revert st v br. induction fuel as [|fuel IH]; intros st v br Hq Hp; simpl; [done|].
  unfold rest_order. destruct (Z.eqb_spec v 0) as [->|Hv]; [by intros [= <- <-]|].
  rewrite Hq. unfold accept_price at 1. rewrite Hp.
  destruct (trade_with_buy st order br t v) as [[v1 st1]|] eqn:Ht; simpl;
    [|by destruct (v <? r_volume br)].
  destruct fuel as [|fuel]; [done|]. destruct (Z.ltb_spec v (r_volume br)) as [Hlt|Hge].
  { rewrite (trade_with_partial BuySide _ _ _ _ _ _ _ Ht Hlt). simpl. by intros [= <- <-]. }
  intros Hl. destruct (Z.eqb_spec v1 0) as [->|Hv1]; [simpl in Hl; by simplify_eq|].
  destruct (queryBuyFirst (decl_book st1)) as [br1|] eqn:Hq1.
  - destruct (dne (r_price br1) t) eqn:Hp1; [|by apply IH].
    simpl in Hl. rewrite (proj2 (Z.eqb_neq v1 0) Hv1), Hq1 in Hl.
    unfold accept_price in Hl. rewrite Hp1 in Hl. injection Hl as <- <-.
    rewrite (proj2 (Z.eqb_neq v1 0) Hv1). simpl.
    destruct (insertSellDecl _ _); simpl; [|done]. unfold int_sub. rewrite Z.sub_diag. done.
  - simpl in Hl. rewrite (proj2 (Z.eqb_neq v1 0) Hv1), Hq1 in Hl. injection Hl as <- <-.
    rewrite (proj2 (Z.eqb_neq v1 0) Hv1). simpl.
    destruct (insertSellDecl _ _); simpl; [|done]. unfold int_sub. rewrite Z.sub_diag. done.
Qed.
End generic.

(** [st] after handing out the trades [ts] and moving the book to [b]. *)
Definition advance (st : StockExchange) (ts : list Trade) (b : StockDeclarationBook) : StockExchange :=
  mkSE (stk_code st) b (not_ready_orders st) (last_commit_order_id st) (produced st ++ ts).

Lemma advance_advance st ts ts' b b' :
  advance (advance st ts b) ts' b' = advance st (ts ++ ts') b'.
Proof. unfold advance. simpl. by rewrite app_assoc. Qed.

Lemma advance_nil st : advance st [] (decl_book st) = st.
Proof. destruct st. unfold advance. simpl. by rewrite app_nil_r. Qed.

Lemma set_book_advance st b : set_book st b = advance st [] b.
Proof. unfold advance. by rewrite app_nil_r. Qed.

Section refinement.
Context `{HeapLib}.
Implicit Types (st : StockExchange) (order : Order) (b : StockDeclarationBook) (ab : abs_book).

Definition set_decls (sd : side) b l : StockDeclarationBook :=
  match sd with BuySide => mkBook l (sell_decls b) | SellSide => mkBook (buy_decls b) l end.

Lemma book_rel_set sd b ab h l :
  book_rel b ab -> side_rel sd h l -> book_rel (set_decls sd b h) (set_abs_side sd ab l).
Proof.
  intros Hb Hs sd'. destruct (decide (sd' = sd)) as [->|Hne]; [by destruct sd|].
  pose proof (Hb sd'). by destruct sd, sd'.
Qed.

Lemma abs_side_set sd ab l : abs_side sd (set_abs_side sd ab l) = l.
Proof. by destruct sd. Qed.

Lemma abs_side_set_other sd ab l :
  abs_side (other sd) (set_abs_side sd ab l) = abs_side (other sd) ab.
Proof. by destruct sd. Qed.

Lemma set_abs_side_twice sd ab l l' :
  set_abs_side sd (set_abs_side sd ab l) l' = set_abs_side sd ab l'.
Proof. by destruct sd. Qed.

Lemma query_first_rel sd b ab :
  book_rel b ab -> query_first sd b = head (abs_side sd ab).
Proof.
  intros Hb. rewrite <- (side_rel_front _ _ _ (Hb sd)).
  destruct sd; simpl; unfold queryBuyFirst, querySellFirst; by case_match.
Qed.

Lemma remove_first_rel sd b ab r l :
  book_rel b ab -> abs_side sd ab = r :: l ->
  exists b', match sd with BuySide => removeBuyFirst b | SellSide => removeSellFirst b end = Done b'
    /\ book_rel b' (set_abs_side sd ab l).
Proof.
  intros Hb Hl. pose proof (Hb sd) as Hs. rewrite Hl in Hs.
  exists (set_decls sd b (heap_remove (side_lt sd) (decls sd b))). split.
  - destruct (side_rel_top _ _ _ _ Hs) as (h' & E & _).
    destruct sd; simpl in *; unfold removeBuyFirst, removeSellFirst; by rewrite E.
  - apply book_rel_set; [done|]. by eapply side_rel_remove.
Qed.

Lemma trade_with_rel sd st order price ab r l v :
  book_rel (decl_book st) ab -> abs_side sd ab = r :: l -> vol_ok r -> 0 < v <= INT_MAX ->
  exists b',
    trade_with sd st order r price v =
      Done (if v <? r_volume r then 0 else v - r_volume r,
            advance st [trade_of sd (stk_code st) order price r (Z.min v (r_volume r))] b')
    /\ book_rel b' (set_abs_side sd ab
         (if v <? r_volume r then set_r_volume r (r_volume r - v) :: l else l)).
Proof.
  intros Hb Hl [Hr0 Hr1] Hv. unfold INT_MAX in *. pose proof (Hb sd) as Hs. rewrite Hl in Hs.
  destruct (Z.ltb_spec v (r_volume r)) as [Hlt|Hge].
  - exists (set_decls sd (decl_book st) (set_front_volume (decls sd (decl_book st)) (r_volume r - v))).
    split; [|apply book_rel_set; [done|by apply side_rel_set_volume]].
    rewrite Z.min_l by lia.
    destruct sd; simpl; unfold trade_with_buy, trade_with_sell, int_sub;
      rewrite (proj2 (Z.ltb_lt _ _) Hlt), !chk_int_ok by (unfold INT_MIN, INT_MAX; lia);
      simpl; by rewrite Z.sub_diag.
  - destruct (remove_first_rel sd _ _ r l Hb Hl) as (b' & Eb & Hb').
    exists b'. split; [|done]. rewrite Z.min_r by lia.
    destruct sd; simpl in *; unfold trade_with_buy, trade_with_sell, int_sub;
      rewrite (proj2 (Z.ltb_ge _ _) Hge), !chk_int_ok by (unfold INT_MIN, INT_MAX; lia);
      simpl; by rewrite Eb.
Qed.

(** The generic loop on a heap computes [sweep] on the list. *)
Lemma take_loop_sweep {S} (accept : S -> DeclRecord -> option S) price sd order s ab l :
  forall st fuel v,
  book_rel (decl_book st) ab -> abs_side sd ab = l -> Forall vol_ok l ->
  0 <= v <= INT_MAX -> (length l < fuel)%nat ->
  let '(ts, v', l') :=
    sweep accept (fun r => trade_of sd (stk_code st) order (price r) r) s v l in
  exists b', take_loop accept price sd fuel st order s v = Done (v', advance st ts b')
    /\ book_rel b' (set_abs_side sd ab l').
Proof.
  revert s ab. induction l as [|r l IH]; intros s ab st [|fuel] v Hb Hl Hok Hv Hf;
    simpl in Hf; try lia.
  all: assert (Hstop : exists b', Done (v, st) = Done (v, advance st [] b') /\
         book_rel b' (set_abs_side sd ab (abs_side sd ab))) by
       (exists (decl_book st); rewrite advance_nil; split; [done|]; by destruct sd, ab).
  all: rewrite Hl in Hstop; simpl; rewrite (query_first_rel sd _ _ Hb), Hl; simpl.
  - by destruct (v =? 0).
  - destruct (Z.eqb_spec v 0) as [->|Hv0]; [done|].
    destruct (accept s r) as [s'|]; [|done].
    inversion_clear Hok as [|? ? Hr Hoks].
    destruct (trade_with_rel sd st order (price r) ab r l v) as (b1 & E1 & Hb1); [done..|lia|].
    rewrite E1. simpl. destruct (Z.ltb_spec v (r_volume r)) as [Hlt|Hge].
    + rewrite Z.min_l by lia. destruct fuel; [lia|]. exists b1. done.
    + rewrite Z.min_r by lia. destruct Hr as [Hr0 Hr1].
      specialize (IH s' (set_abs_side sd ab l)
        (advance st [trade_of sd (stk_code st) order (price r) r (r_volume r)] b1)
        fuel (v - r_volume r) Hb1 (abs_side_set _ _ _) Hoks).
      destruct (sweep _ _ _ _ _) as [[ts v'] l'].
      destruct IH as (b' & E & Hb'); [lia|lia|].
      exists b'. split; [by rewrite E, advance_advance|].
      by rewrite set_abs_side_twice in Hb'.
Qed.

Lemma insert_side_rel sd b ab r :
  book_rel b ab -> rec_ok r -> r_volume r <> 0 ->
  Forall (fun x => r_order_id x <> r_order_id r) (abs_side sd ab) ->
  exists b', insert_side sd b r = Done b' /\
    book_rel b' (set_abs_side sd ab (insert_decl sd r (abs_side sd ab))).
Proof.
  intros Hb Hr Hv Hid.
  exists (set_decls sd b (heap_insert (side_lt sd) (decls sd b) r)). split.
  - destruct sd; simpl; unfold insertBuyDecl, insertSellDecl;
      by rewrite (proj2 (Z.eqb_neq _ _) Hv).
  - apply book_rel_set; [done|]. by apply side_rel_insert.
Qed.
End refinement.

(** ** Volumes *)
#[export] Instance volume_sum_perm : Proper ((≡ₚ) ==> eq) volume_sum.
Proof. intros l1 l2 Hp. unfold volume_sum. apply foldr_permutation; try apply _; [lia|done]. Qed.

Lemma volume_sum_nonneg l : Forall vol_ok l -> 0 <= volume_sum l.
Proof. induction 1 as [|r l [? ?] _ IH]; simpl; lia. Qed.

(** Summing volumes in [int] overflows only if the total does. *)
Lemma sum_volume_done ret l :
  Forall vol_ok l -> 0 <= ret -> ret + volume_sum l <= INT_MAX ->
  sum_volume ret l = Done (ret + volume_sum l).
Proof.
  intros Hl. revert ret. induction Hl as [|r l [Hr0 Hr1] Hl IH]; intros ret H0 Hm; simpl in *.
  - f_equal. lia.
  - pose proof (volume_sum_nonneg l Hl). unfold INT_MAX in *.
    unfold int_add. rewrite chk_int_ok by (unfold INT_MIN, INT_MAX; lia). simpl.
    rewrite IH by lia. f_equal. lia.
Qed.

Lemma sweep_all_exhausts (mk : DeclRecord -> Z -> Trade) v l :
  Forall vol_ok l -> 0 <= v <= volume_sum l -> (sweep accept_all mk tt v l).1.2 = 0.
Proof.
  intros Hl. revert v. induction Hl as [|r l [Hr0 Hr1] Hl IH]; intros v Hv; simpl in *; [lia|].
  destruct (Z.eqb_spec v 0); [done|]. destruct (Z.ltb_spec v (r_volume r)); [done|].
  specialize (IH (v - r_volume r)). destruct (sweep _ _ _ _ _) as [[ts v'] l']. simpl in *.
  apply IH. lia.
Qed.

(** ** The commit *)
Definition fresh (order : Order) (ab : abs_book) : Prop :=
  forall sd, Forall (fun x => r_order_id x <> o_order_id order) (abs_side sd ab).
Definition book_vols (ab : abs_book) : Prop := forall sd, Forall vol_ok (abs_side sd ab).

(** Orders the engine can take: a limit price that is a number, and a
    positive volume. *)
Definition order_ok (order : Order) : Prop :=
  ordered (o_price order) /\ 0 < o_volume order <= INT_MAX.

(** The whole-or-cancel test sums the opposite side in an [int]. *)
Definition sums_fit (order : Order) (ab : abs_book) : Prop :=
  o_type order = 5 ->
  forall sd, taker_side order = Some sd -> volume_sum (abs_side sd ab) <= INT_MAX.

Definition known_type (order : Order) : bool := (-1 <=? o_type order) && (o_type order <=? 5).

Lemma taker_side_cases order :
  (o_direction order = 1 /\ taker_side order = Some SellSide) \/
  (o_direction order = -1 /\ taker_side order = Some BuySide) \/
  (o_direction order <> 1 /\ o_direction order <> -1 /\ taker_side order = None).
Proof.
  unfold taker_side. destruct (Z.eqb_spec (o_direction order) 1); [tauto|].
  destruct (Z.eqb_spec (o_direction order) (-1)); tauto.
Qed.

Section commit.
Context `{HeapLib} (st : StockExchange) (order : Order) (ab : abs_book).
Context (Hbook : book_rel (decl_book st) ab) (Hvols : book_vols ab).
Context (Hfresh : fresh order ab) (Hok : order_ok order) (Hsum : sums_fit order ab).

(** [res] is what the code returns for the specified result [spec]. *)
Definition implements (res : outcome (Z * StockExchange)) (spec : spec_result) : Prop :=
  exists ret b', res = Done (ret, advance st (spec.1) b') /\ book_rel b' (spec.2).

Lemma implements_none ret : implements (Done (ret, st)) ([], ab).
Proof. exists ret, (decl_book st). simpl. by rewrite advance_nil. Qed.

Definition side_fuel (sd : side) : nat := S (length (decls sd (decl_book st))).

Lemma take_loop_here {S} (accept : S -> DeclRecord -> option S) price sd s fuel :
  (side_fuel sd <= fuel)%nat ->
  let '(ts, v', l') := sweep accept (fun r => trade_of sd (stk_code st) order (price r) r) s
                         (o_volume order) (abs_side sd ab) in
  exists b', take_loop accept price sd fuel st order s (o_volume order)
               = Done (v', advance st ts b')
    /\ book_rel b' (set_abs_side sd ab l').
Proof.
  intros Hf. apply (take_loop_sweep accept price sd order s ab (abs_side sd ab)); auto.
  - destruct Hok as [_ ?]. lia.
  - unfold side_fuel in Hf. by rewrite (Permutation_length (sr_perm _ _ _ (Hbook sd))) in Hf.
Qed.

(** Resting the remainder on the own side. *)
Lemma match_and_rest_implements {S} (accept : S -> DeclRecord -> option S) s sd tprice price fuel res :
  (side_fuel sd <= fuel)%nat -> ordered price ->
  (forall v' st', take_loop accept tprice sd fuel st order s (o_volume order) = Done (v', st') ->
     exists ret, res = (st'' ← rest_order (other sd) st' order price v'; Done (ret, st''))) ->
  implements res (match_and_rest accept s sd (stk_code st) order price tprice ab).
Proof.
  intros Hf Hp Hres. pose proof (take_loop_here accept tprice sd s fuel Hf) as Ht.
  unfold match_and_rest. destruct (sweep _ _ _ _ _) as [[ts v'] l'] eqn:Esw.
  destruct Ht as (b' & Et & Hb'). destruct (Hres _ _ Et) as [ret ->].
  unfold rest_order. destruct (Z.eqb_spec v' 0) as [->|Hv'].
  { exists ret, b'. done. }
  destruct (insert_side_rel (other sd) b' (set_abs_side sd ab l') (mkRec (o_order_id order) price v'))
    as (b'' & Ei & Hb''); [done..| |].
  { rewrite abs_side_set_other. apply Hfresh. }
  exists ret, b''. simpl. rewrite Ei. simpl. by rewrite set_book_advance, advance_advance, app_nil_r.
Qed.

Lemma match_and_cancel_implements {S} (accept : S -> DeclRecord -> option S) s sd fuel res :
  (side_fuel sd <= fuel)%nat ->
  (forall v' st', take_loop accept r_price sd fuel st order s (o_volume order) = Done (v', st') ->
     v' = (sweep accept (fun r => trade_of sd (stk_code st) order (r_price r) r) s
             (o_volume order) (abs_side sd ab)).1.2 ->
     exists ret, res = Done (ret, st')) ->
  implements res (match_and_cancel accept s sd (stk_code st) order ab).
Proof.
  intros Hf Hres. pose proof (take_loop_here accept r_price sd s fuel Hf) as Ht.
  unfold match_and_cancel. destruct (sweep _ _ _ _ _) as [[ts v'] l'] eqn:Esw.
  destruct Ht as (b' & Et & Hb'). destruct (Hres _ _ Et eq_refl) as [ret ->].
  by exists ret, b'.
Qed.

(** Split on the direction of the order; the third case is a direction the
    handlers ignore. *)
Ltac by_direction :=
  destruct (taker_side_cases order) as [[Hd Hs]|[[Hd Hs]|(Hd1 & Hd2 & Hs)]];
  [rewrite Hd, Hs; change (1 =? 1) with true; cbv iota
  |rewrite Hd, Hs; change (-1 =? 1) with false; change (-1 =? -1) with true; cbv iota
  |rewrite (proj2 (Z.eqb_neq _ _) Hd1), (proj2 (Z.eqb_neq _ _) Hd2), Hs; apply implements_none].

Lemma limit_implements :
  implements (handleLimitOrder st order)
    match taker_side order with
    | Some sd => match_and_rest (accept_limit sd (o_price order)) tt sd (stk_code st) order
                   (o_price order) r_price ab
    | None => ([], ab) end.
Proof.
  unfold handleLimitOrder. by_direction.
  - apply match_and_rest_implements with (fuel := sell_fuel st); [done|apply Hok|].
    intros v' st' E. exists 0. rewrite limit_buy_loop_eq, E. unfold rest_order. simpl.
    destruct (v' =? 0); simpl; [done|]. by destruct (insertBuyDecl _ _).
  - apply match_and_rest_implements with (fuel := buy_fuel st); [done|apply Hok|].
    intros v' st' E. exists 0. rewrite limit_sell_loop_eq, E. unfold rest_order. simpl.
    destruct (v' =? 0); simpl; [done|]. by destruct (insertSellDecl _ _).
Qed.

(** The first declaration of a side is the one the query returns, and its
    price is a number. *)
Lemma query_first_here sd :
  match abs_side sd ab with
  | [] => query_first sd (decl_book st) = None
  | r :: _ => query_first sd (decl_book st) = Some r /\ ordered (r_price r)
  end.
Proof.
  rewrite (query_first_rel sd _ _ Hbook). pose proof (sr_ok _ _ _ (Hbook sd)) as Hr.
  destruct (abs_side sd ab); [done|]. by inversion Hr.
Qed.

Lemma dne_refl x : ordered x -> dne x x = false.
Proof. intros Hx. unfold dne. change (SFeqb x x) with (deq x x). by rewrite deq_refl. Qed.

Lemma counterparty_implements :
  implements (handleCounterpartyBest st order)
    match taker_side order with
    | Some sd => match abs_side sd ab with
           | [] => ([], ab)
           | r :: _ => match_and_rest (accept_price (r_price r)) tt sd (stk_code st) order
                         (r_price r) (fun _ => r_price r) ab
           end
    | None => ([], ab) end.
Proof.
  unfold handleCounterpartyBest. by_direction.
  - pose proof (query_first_here SellSide) as Hq. simpl in Hq. simpl abs_side. destruct (asks ab) as [|r l].
    { rewrite Hq. apply implements_none. }
    destruct Hq as [Hq Hr]. rewrite Hq.
    apply match_and_rest_implements with (fuel := S (sell_fuel st));
      [unfold side_fuel, sell_fuel; simpl; lia|done|].
    intros v' st' E. exists 0.
    by rewrite (counterparty_buy_loop_eq _ _ _ _ _ _ _ _ Hq (dne_refl _ Hr) E).
  - pose proof (query_first_here BuySide) as Hq. simpl in Hq. simpl abs_side. destruct (bids ab) as [|r l].
    { rewrite Hq. apply implements_none. }
    destruct Hq as [Hq Hr]. rewrite Hq.
    apply match_and_rest_implements with (fuel := S (buy_fuel st));
      [unfold side_fuel, buy_fuel; simpl; lia|done|].
    intros v' st' E. exists 0.
    by rewrite (counterparty_sell_loop_eq _ _ _ _ _ _ _ _ Hq (dne_refl _ Hr) E).
Qed.

Lemma our_best_implements :
  implements (handleOurBest st order)
    match taker_side order with
    | Some sd => match abs_side (other sd) ab with
           | [] => ([], ab)
           | r :: _ => ([], set_abs_side (other sd) ab
               (insert_decl (other sd) (mkRec (o_order_id order) (r_price r) (o_volume order))
                  (abs_side (other sd) ab)))
           end
    | None => ([], ab) end.
Proof.
  destruct Hok as [_ Hv]. unfold handleOurBest.
  assert (Hins : forall sd r l, abs_side sd ab = r :: l ->
    exists b', insert_side sd (decl_book st) (mkRec (o_order_id order) (r_price r) (o_volume order)) = Done b' /\
      book_rel b' (set_abs_side sd ab (insert_decl sd
        (mkRec (o_order_id order) (r_price r) (o_volume order)) (abs_side sd ab)))).
  { intros sd r l E. apply insert_side_rel; [done| |simpl; lia|apply Hfresh].
    pose proof (query_first_here sd) as Hq. rewrite E in Hq. apply Hq. }
  by_direction.
  - pose proof (query_first_here BuySide) as Hq. specialize (Hins BuySide). simpl in *.
    destruct (bids ab) as [|r l]; [rewrite Hq; apply implements_none|].
    destruct Hq as [-> Hr]. destruct (Hins _ _ eq_refl) as (b' & Ei & Hb').
    exists 0, b'. rewrite Ei. simpl. by rewrite set_book_advance.
  - pose proof (query_first_here SellSide) as Hq. specialize (Hins SellSide). simpl in *.
    destruct (asks ab) as [|r l]; [rewrite Hq; apply implements_none|].
    destruct Hq as [-> Hr]. destruct (Hins _ _ eq_refl) as (b' & Ei & Hb').
    exists 0, b'. rewrite Ei. simpl. by rewrite set_book_advance.
Qed.

Lemma five_implements :
  implements (handleFiveLevelOtherCancel st order)
    match taker_side order with
    | Some sd => match_and_cancel accept_levels (0, dzero) sd (stk_code st) order ab
    | None => ([], ab) end.
Proof.
  unfold handleFiveLevelOtherCancel. by_direction.
  - apply match_and_cancel_implements with (fuel := sell_fuel st); [done|].
    intros v' st' E _. rewrite five_buy_loop_eq, E. simpl. destruct (v' =? 0); eauto.
  - apply match_and_cancel_implements with (fuel := buy_fuel st); [done|].
    intros v' st' E _. rewrite five_sell_loop_eq, E. eauto.
Qed.

Lemma immediate_implements :
  implements (handleImmediateOtherCancel st order)
    match taker_side order with
    | Some sd => match_and_cancel accept_all tt sd (stk_code st) order ab
    | None => ([], ab) end.
Proof.
  unfold handleImmediateOtherCancel. by_direction.
  - apply match_and_cancel_implements with (fuel := sell_fuel st); [done|].
    intros v' st' E _. rewrite immediate_buy_loop_eq, E. simpl. destruct (v' =? 0); eauto.
  - apply match_and_cancel_implements with (fuel := buy_fuel st); [done|].
    intros v' st' E _. rewrite immediate_sell_loop_eq, E. simpl. destruct (v' =? 0); eauto.
Qed.

Lemma total_here sd :
  volume_sum (abs_side sd ab) <= INT_MAX ->
  sum_volume 0 (decls sd (decl_book st)) = Done (volume_sum (abs_side sd ab)).
Proof.
  intros Hm. rewrite <- (sr_perm _ _ _ (Hbook sd)) in Hm |- *.
  apply sum_volume_done; [|lia|done]. rewrite (sr_perm _ _ _ (Hbook sd)). apply Hvols.
Qed.

Lemma whole_implements :
  o_type order = 5 ->
  implements (handleWholeOrCancel st order)
    match taker_side order with
    | Some sd => if o_volume order >? volume_sum (abs_side sd ab) then ([], ab)
           else match_and_cancel accept_all tt sd (stk_code st) order ab
    | None => ([], ab) end.
Proof.
  intros H5. destruct Hok as [_ Hv]. unfold handleWholeOrCancel, totalSellVolume, totalBuyVolume.
  specialize (Hsum H5). by_direction.
  - change (sell_decls (decl_book st)) with (decls SellSide (decl_book st)).
    rewrite (total_here SellSide) by (by apply Hsum). rewrite bind_Done.
    destruct (o_volume order >? volume_sum _) eqn:Et; [apply implements_none|].
    apply match_and_cancel_implements with (fuel := sell_fuel st); [done|]. intros v' st' E Ev.
    rewrite sweep_all_exhausts in Ev by (apply (Hvols SellSide) || lia). subst v'.
    exists 0. by rewrite (whole_buy_loop_eq _ _ _ _ _ E).
  - change (buy_decls (decl_book st)) with (decls BuySide (decl_book st)).
    rewrite (total_here BuySide) by (by apply Hsum). rewrite bind_Done.
    destruct (o_volume order >? volume_sum _) eqn:Et; [apply implements_none|].
    apply match_and_cancel_implements with (fuel := buy_fuel st); [done|]. intros v' st' E Ev.
    rewrite sweep_all_exhausts in Ev by (apply (Hvols BuySide) || lia). subst v'.
    exists 0. by rewrite (whole_sell_loop_eq _ _ _ _ _ E).
Qed.

(** [commitOrder] hands out the trades of the specification, keeps the
    book related to the specified book, and returns 0 unless the type is
    unknown. *)
Lemma commitOrder_implements :
  exists b', commitOrder st order =
      Done (if known_type order then 0 else -1,
            advance st ((spec_commit (stk_code st) ab order).1) b')
    /\ book_rel b' ((spec_commit (stk_code st) ab order).2).
Proof.
  unfold commitOrder, spec_commit, known_type.
  assert (Hres : forall res spec, implements res spec ->
    exists b', ('(_, st') ← res; Done (0, st')) = Done (0, advance st (spec.1) b') /\ book_rel b' (spec.2)).
  { intros res spec (ret & b' & -> & Hb'). by exists b'. }
  assert (Hskip : forall (ret : Z), exists b', Done (ret, st) = Done (ret, advance st [] b') /\ book_rel b' ab)
    by (intros; exists (decl_book st); by rewrite advance_nil).
  pose proof (Hres _ _ limit_implements) as H0. pose proof (Hres _ _ counterparty_implements) as H1.
  pose proof (Hres _ _ our_best_implements) as H2. pose proof (Hres _ _ five_implements) as H3.
  pose proof (Hres _ _ immediate_implements) as H4.
  pose proof (fun E => Hres _ _ (whole_implements E)) as H5.
  destruct (o_type order) as [|[[[]|[]|]|[[]|[]|]|]|[]] eqn:Et; simpl;
    destruct (taker_side order); simpl in *; eauto.
Qed.
End commit.
