(* ===== verification/MatchProps.v ===== *)
(** * Properties of matching

    Facts about [sweep] and [spec_commit]: conservation of volume, prices and
    priority of the trades, and the invariant of the book ([book_inv]), which
    includes that the book is never crossed: every bid is strictly below
    every ask, as [stock_decl_book.hpp] documents. *)

From S2P Require Import Prelude Double StdHeap Types DeclBook StockExchange MatchSpec Matching.
#[local] Open Scope Z_scope.

Definition traded (ts : list Trade) : Z := foldr (fun t a => t_volume t + a) 0 ts.

Lemma traded_app ts ts' : traded (ts ++ ts') = traded ts + traded ts'.
Proof. induction ts as [|t ts IH]; simpl; lia. Qed.

(** ** What a sweep does *)
Section sweep.
Context {S : Type} (accept : S -> DeclRecord -> option S) (mk : DeclRecord -> Z -> Trade).
Hypothesis mk_volume : forall r v, t_volume (mk r v) = v.

(** Volume is neither lost nor made: the taker's volume is what is traded
    and what is left, and the same amount leaves the declarations. *)
Lemma sweep_conserves s v l :
  let '(ts, v', l') := sweep accept mk s v l in
  v = traded ts + v' /\ volume_sum l = traded ts + volume_sum l'.
Proof.
  revert s v. induction l as [|r l IH]; intros s v; simpl; [lia|].
  destruct (v =? 0); [simpl; lia|]. destruct (accept s r) as [s'|]; [|simpl; lia].
  destruct (v <? r_volume r).
  - simpl. rewrite mk_volume. lia.
  - specialize (IH s' (v - r_volume r)). destruct (sweep _ _ _ _ _) as [[ts v'] l'].
    simpl. rewrite mk_volume. lia.
Qed.

(** The declarations that remain: a final segment of the list, the first
    one possibly with less volume, all still valid. *)
Lemma sweep_remaining (Q : DeclRecord -> Prop) s v l :
  0 <= v -> Forall vol_ok l -> Forall Q l -> (forall r w, Q r -> Q (set_r_volume r w)) ->
  let '(_, v', l') := sweep accept mk s v l in
  0 <= v' <= v /\ Forall vol_ok l' /\ Forall Q l'.
Proof.
  intros Hv Hok HQ Hset. revert s v Hv. induction Hok as [|r l [Hr0 Hr1] Hok IH]; intros s v Hv; simpl.
  { split_and!; [lia..|done|done]. }
  inversion_clear HQ as [|? ? Hq HQ'].
  assert (Forall vol_ok (r :: l)) by by constructor.
  assert (Forall Q (r :: l)) by by constructor.
  destruct (Z.eqb_spec v 0); [split_and!; [lia..|done|done]|].
  destruct (accept s r) as [s'|]; [|split_and!; [lia..|done|done]].
  destruct (Z.ltb_spec v (r_volume r)).
  - split_and!; [lia..| |]; constructor; auto. unfold vol_ok. simpl. unfold INT_MAX in *. lia.
  - specialize (IH HQ' s' (v - r_volume r)). destruct (sweep _ _ _ _ _) as [[ts v'] l'].
    destruct IH as (? & ? & ?); [lia|]. split_and!; [lia..|done|done].
Qed.

(** Why a sweep stops. *)
Lemma sweep_stop s v l :
  0 <= v -> Forall vol_ok l ->
  let '(_, v', l') := sweep accept mk s v l in
  v' = 0 \/ l' = [] \/ exists s' r l'', l' = r :: l'' /\ accept s' r = None.
Proof.
  intros Hv Hok. revert s v Hv. induction Hok as [|r l [Hr0 Hr1] Hok IH]; intros s v Hv; simpl; [by auto|].
  destruct (Z.eqb_spec v 0); [by left|].
  destruct (accept s r) as [s'|] eqn:E; [|right; right; eauto].
  destruct (Z.ltb_spec v (r_volume r)); [by left|].
  specialize (IH s' (v - r_volume r)). destruct (sweep _ _ _ _ _) as [[ts v'] l'].
  apply IH. lia.
Qed.

(** Every trade is with a declaration of the list that was accepted, for a
    positive volume that is at most the declaration's. *)
Lemma sweep_trades s v l :
  0 <= v -> Forall vol_ok l ->
  Forall (fun t => exists s' r, r ∈ l /\ accept s' r <> None /\
            t = mk r (t_volume t) /\ 0 < t_volume t <= r_volume r)
    (sweep accept mk s v l).1.1.
Proof.
  intros Hv Hok. revert s v Hv. induction Hok as [|r l [Hr0 Hr1] Hok IH]; intros s v Hv; simpl; [done|].
  destruct (Z.eqb_spec v 0); [done|].
  destruct (accept s r) as [s'|] eqn:E; [|done].
  destruct (Z.ltb_spec v (r_volume r)).
  - constructor; [|done]. exists s, r. rewrite mk_volume. split_and!; [left|congruence|done|lia..].
  - specialize (IH s' (v - r_volume r)). destruct (sweep _ _ _ _ _) as [[ts v'] l']. simpl.
    constructor.
    + exists s, r. rewrite mk_volume. split_and!; [left|congruence|done|lia..].
    + eapply Forall_impl; [apply IH; lia|]. intros t (s1 & r1 & ? & ?).
      exists s1, r1. split; [by right|done].
Qed.

(** Remaining declarations keep their priority order. *)
Lemma sweep_sorted sd s v l :
  StronglySorted (better sd) l -> StronglySorted (better sd) (sweep accept mk s v l).2.
Proof.
  intros Hs. revert s v. induction Hs as [|r l Hs IH Hall]; intros s v; simpl; [constructor|].
  assert (StronglySorted (better sd) (r :: l)) by by constructor.
  destruct (v =? 0); [done|]. destruct (accept s r) as [s'|]; [|done].
  destruct (v <? r_volume r).
  - simpl. constructor; [done|]. eapply Forall_impl; [exact Hall|].
    intros y. unfold better. by rewrite (proj2 (side_lt_volume sd r _ y)).
  - specialize (IH s' (v - r_volume r)). by destruct (sweep _ _ _ _ _) as [[ts v'] l'].
Qed.
End sweep.

Lemma trade_of_volume sd code order p r v : t_volume (trade_of sd code order p r v) = v.
Proof. by destruct sd. Qed.
#[export] Hint Resolve trade_of_volume : cxx.

(** ** Prices across the book *)

(** [p], a price of the taker's own side, and [q], a price on side [sd],
    leave a gap: a bid below an ask. *)
Definition apart (sd : side) (p q : double) : Prop :=
  match sd with SellSide => dlt p q = true | BuySide => dlt q p = true end.

(** No bid reaches an ask. *)
Definition uncrossed (ab : abs_book) : Prop :=
  forall x y, x ∈ bids ab -> y ∈ asks ab -> dlt (r_price x) (r_price y) = true.

Lemma uncrossed_side sd ab :
  uncrossed ab <->
  forall x y, x ∈ abs_side (other sd) ab -> y ∈ abs_side sd ab -> apart sd (r_price x) (r_price y).
Proof. unfold uncrossed. destruct sd; simpl; naive_solver. Qed.

(** A declaration behind another has a price no better than its price. *)
Lemma better_price sd a b q :
  rec_ok a -> rec_ok b -> ordered q -> better sd a b \/ a = b -> apart sd q (r_price a) ->
  apart sd q (r_price b).
Proof.
  unfold better, rec_ok. intros Ha Hb Hq [Hab| ->]; [|done].
  destruct sd; simpl in *; unfold BuyRecord_lt, SellRecord_lt in Hab;
    destruct (deq (r_price b) (r_price a)) eqn:E; intros Hq'; double_order.
Qed.

(** All declarations behind an out-of-reach front are out of reach. *)
Lemma sorted_apart sd r l q :
  StronglySorted (better sd) (r :: l) -> Forall rec_ok (r :: l) -> ordered q ->
  apart sd q (r_price r) -> forall y, y ∈ r :: l -> apart sd q (r_price y).
Proof.
  intros Hs Hok Hq Hr y Hy. apply StronglySorted_inv in Hs as [_ Hall].
  rewrite Forall_forall in Hall. rewrite Forall_forall in Hok.
  apply (better_price sd r y q); [apply Hok; left|by apply Hok|done| |done].
  apply elem_of_cons in Hy as [->|Hy]; [by right|left; by apply Hall].
Qed.

(** ** The invariant of the book *)
Record book_inv (n : Z) (ab : abs_book) : Prop := {
  bi_vols : book_vols ab;
  bi_sorted sd : StronglySorted (better sd) (abs_side sd ab);
  bi_ok sd : Forall rec_ok (abs_side sd ab);
  bi_ids sd : Forall (fun x => r_order_id x < n) (abs_side sd ab);
  bi_uncrossed : uncrossed ab;
}.

Lemma book_inv_empty n : book_inv n (mkAbs [] []).
Proof.
  split; try (intros []; constructor). intros x y Hx. by apply not_elem_of_nil in Hx.
Qed.

Lemma book_inv_fresh n ab order : book_inv n ab -> n <= o_order_id order -> fresh order ab.
Proof.
  intros Hi Hn sd. eapply Forall_impl; [apply (bi_ids _ _ Hi sd)|]. simpl. intros. lia.
Qed.

Section invariant.
Implicit Types (ab : abs_book) (order : Order).

Lemma book_inv_mono n n' ab : n <= n' -> book_inv n ab -> book_inv n' ab.
Proof.
  intros Hn []. split; try done. intros sd. eapply Forall_impl; [apply bi_ids0|].
  simpl. intros. lia.
Qed.

Lemma abs_side_set_cases sd sd' ab l :
  abs_side sd' (set_abs_side sd ab l) = if decide (sd' = sd) then l else abs_side sd' ab.
Proof. by destruct sd, sd'. Qed.

(** Replacing one side by declarations at prices it already had. *)
Lemma book_inv_shrink n sd ab l :
  book_inv n ab -> Forall vol_ok l -> StronglySorted (better sd) l ->
  Forall (fun x => rec_ok x /\ r_order_id x < n /\
            exists y, y ∈ abs_side sd ab /\ r_price y = r_price x) l ->
  book_inv n (set_abs_side sd ab l).
Proof.
  intros [Hv Hs Ho Hi Hu] Hlv Hls Hl. rewrite Forall_forall in Hl.
  split; try (intros sd'; rewrite abs_side_set_cases; case_decide; subst; try done;
              apply Forall_forall; intros x Hx; by destruct (Hl x Hx) as (? & ? & _)).
  rewrite (uncrossed_side sd) in *. intros x y. rewrite abs_side_set_other, abs_side_set.
  intros Hx Hy. destruct (Hl y Hy) as (_ & _ & z & Hz & <-). by apply Hu.
Qed.

(** A new declaration on the own side that leaves a gap to the other. *)
Lemma book_inv_insert n sd ab r :
  book_inv n ab -> vol_ok r -> rec_ok r -> r_order_id r = n ->
  (forall y, y ∈ abs_side sd ab -> apart sd (r_price r) (r_price y)) ->
  book_inv (n + 1)
    (set_abs_side (other sd) ab (insert_decl (other sd) r (abs_side (other sd) ab))).
Proof.
  intros [Hv Hs Ho Hi Hu] Hrv Hro Hrn Hgap.
  assert (Hi' : forall sd', Forall (fun x => r_order_id x < n + 1) (abs_side sd' ab)).
  { intros sd'. eapply Forall_impl; [apply Hi|]. simpl. intros. lia. }
  split.
  - intros sd'. rewrite abs_side_set_cases. case_decide; [|done]. subst.
    rewrite insert_decl_perm. by constructor.
  - intros sd'. rewrite abs_side_set_cases. case_decide; [|done]. subst.
    apply insert_decl_sorted; [done..| |done]. eapply Forall_impl; [apply Hi|].
    simpl. intros. lia.
  - intros sd'. rewrite abs_side_set_cases. case_decide; [|done]. subst.
    rewrite insert_decl_perm. by constructor.
  - intros sd'. rewrite abs_side_set_cases. case_decide; [|done]. subst.
    rewrite insert_decl_perm. constructor; [lia|done].
  - rewrite (uncrossed_side sd) in *. intros x y. rewrite abs_side_set, abs_side_set_cases.
    rewrite decide_False by by destruct sd. rewrite insert_decl_perm.
    intros [->|Hx]%elem_of_cons Hy; auto.
Qed.

(** What [sweep_remaining] is used for: the declarations left have the
    prices and ids of the list. *)
Lemma sweep_side_inv {S} (accept : S -> DeclRecord -> option S) mk s sd n ab v :
  (forall r w, t_volume (mk r w) = w) -> book_inv n ab -> 0 <= v ->
  let '(_, _, l') := sweep accept mk s v (abs_side sd ab) in
  book_inv n (set_abs_side sd ab l').
Proof.
  intros Hmk Hb Hv. pose proof (sweep_sorted accept mk sd s v _ (bi_sorted _ _ Hb sd)) as Hs.
  pose proof (sweep_remaining accept mk (fun x => rec_ok x /\ r_order_id x < n /\
            exists y, y ∈ abs_side sd ab /\ r_price y = r_price x) s v (abs_side sd ab)) as Hr.
  destruct (sweep _ _ _ _ _) as [[ts v'] l'].
  destruct Hr as (_ & Hvl & Hl); [done|by apply (bi_vols _ _ Hb)| |done|].
  - apply Forall_forall. intros x Hx. split_and!; [| |eauto].
    + pose proof (bi_ok _ _ Hb sd) as Ho. rewrite Forall_forall in Ho. auto.
    + pose proof (bi_ids _ _ Hb sd) as Hi. rewrite Forall_forall in Hi. auto.
  - by apply book_inv_shrink.
Qed.

Lemma match_and_cancel_inv {S} (accept : S -> DeclRecord -> option S) s sd code n ab order :
  book_inv n ab -> 0 <= o_volume order ->
  book_inv n ((match_and_cancel accept s sd code order ab).2).
Proof.
  intros Hb Hv. unfold match_and_cancel.
  pose proof (sweep_side_inv accept (fun r => trade_of sd code order (r_price r) r) s sd n ab
    (o_volume order) (fun r w => trade_of_volume _ _ _ _ _ _) Hb Hv) as Hi.
  by destruct (sweep _ _ _ _ _) as [[ts v'] l'].
Qed.

(** Resting the remainder keeps the book uncrossed when everything the rule
    [accept] refuses is out of reach of the rest price.  [Q] is what is
    known of the declarations on the consumed side. *)
Lemma match_and_rest_inv {S} (accept : S -> DeclRecord -> option S) (Q : DeclRecord -> Prop)
    s sd code price tprice n ab order :
  book_inv n ab -> o_order_id order = n -> 0 < o_volume order <= INT_MAX -> ordered price ->
  Forall Q (abs_side sd ab) -> (forall r w, Q r -> Q (set_r_volume r w)) ->
  (forall s r, Q r -> accept s r = None -> apart sd price (r_price r)) ->
  book_inv (n + 1) ((match_and_rest accept s sd code order price tprice ab).2).
Proof.
  intros Hb Hn Hv Hp HQ Hset Hstop. unfold match_and_rest.
  set (mk := fun r => trade_of sd code order (tprice r) r).
  assert (Hmk : forall r w, t_volume (mk r w) = w) by (intros; apply trade_of_volume).
  pose proof (sweep_side_inv accept mk s sd n ab (o_volume order) Hmk Hb) as Hi.
  pose proof (sweep_remaining accept mk Q s (o_volume order) (abs_side sd ab)) as Hr.
  pose proof (sweep_stop accept mk s (o_volume order) (abs_side sd ab)) as Hs.
  destruct (sweep _ _ _ _ _) as [[ts v'] l']. simpl.
  destruct Hr as (Hv' & Hvl & HQl); [lia|apply (bi_vols _ _ Hb)|done|done|].
  destruct Hs as [->|Hs]; [lia|apply (bi_vols _ _ Hb)| |].
  { apply (book_inv_mono n); [lia|]. apply Hi. lia. }
  destruct (Z.eqb_spec v' 0); [apply (book_inv_mono n); [lia|]; apply Hi; lia|].
  apply book_inv_insert; [apply Hi; lia|unfold vol_ok; simpl; lia|done|done|].
  simpl. rewrite abs_side_set. destruct Hs as [->|(s' & r & l'' & -> & Hno)].
  { intros y Hy. by apply not_elem_of_nil in Hy. }
  assert (Hil : book_inv n (set_abs_side sd ab (r :: l''))) by (apply Hi; lia).
  pose proof (bi_sorted _ _ Hil sd) as Hsort. pose proof (bi_ok _ _ Hil sd) as Hok.
  rewrite abs_side_set in Hsort, Hok. intros y Hy.
  eapply sorted_apart; eauto. eapply Hstop; [|exact Hno]. by inversion HQl.
Qed.

(** [spec_commit] keeps the invariant; the order's id becomes taken. *)
Lemma spec_commit_inv code n ab order :
  book_inv n ab -> o_order_id order = n -> order_ok order ->
  book_inv (n + 1) ((spec_commit code ab order).2).
Proof.
  intros Hb Hn [Hp Hv]. assert (Hsame : book_inv (n + 1) ab) by (by apply (book_inv_mono n); [lia|]).
  unfold spec_commit. destruct (taker_side order) as [sd|]; [|done].
  assert (Hcancel : forall S (accept : S -> DeclRecord -> option S) s,
    book_inv (n + 1) ((match_and_cancel accept s sd code order ab).2)).
  { intros. apply (book_inv_mono n); [lia|]. apply match_and_cancel_inv; [done|lia]. }
  destruct (o_type order) as [|[[[]|[]|]|[[]|[]|]|]|[]]; simpl; try done; try apply Hcancel.
  - (* limit *)
    apply (match_and_rest_inv _ (fun _ => True)); [done..| |done|].
    + by apply Forall_true.
    + intros [] r _. unfold accept_limit, apart. destruct sd; by case_match.
  - (* whole or cancel *) case_match; [done|apply Hcancel].
  - (* own best *)
    destruct (abs_side (other sd) ab) as [|r l] eqn:El; [done|]. cbn [snd]. rewrite <- El.
    assert (Hr : r ∈ abs_side (other sd) ab) by (rewrite El; left).
    apply book_inv_insert; [done|done| |done|].
    + pose proof (bi_ok _ _ Hb (other sd)) as Ho. rewrite Forall_forall in Ho. by apply (Ho r).
    + simpl. intros y Hy. apply (proj1 (uncrossed_side sd ab)); [apply (bi_uncrossed _ _ Hb)|done|done].
  - (* counterparty best *)
    destruct (abs_side sd ab) as [|r l] eqn:El; [done|].
    pose proof (bi_sorted _ _ Hb sd) as Hs. pose proof (bi_ok _ _ Hb sd) as Ho.
    rewrite El in Hs, Ho. assert (Hr : rec_ok r) by by inversion Ho.
    apply (match_and_rest_inv _ (fun x => rec_ok x /\ (deq (r_price x) (r_price r) = true \/ apart sd (r_price r) (r_price x))));
      [done|done|done|done| |done|].
    + rewrite El. apply Forall_forall. intros y Hy. rewrite Forall_forall in Ho.
      split; [by apply Ho|]. apply elem_of_cons in Hy as [->|Hy]; [left; by apply deq_refl|].
      assert (Hyo : rec_ok y) by (apply Ho; by right).
      apply StronglySorted_inv in Hs as [_ Hall]. rewrite Forall_forall in Hall.
      specialize (Hall y Hy). unfold better, rec_ok in *.
      destruct sd; simpl in *; unfold BuyRecord_lt, SellRecord_lt in Hall;
        destruct (deq (r_price y) (r_price r)) eqn:E; auto.
    + intros [] x [Hx [Hxd|Hxa]]; [|done]. unfold accept_price, dne.
      change (SFeqb (r_price x) (r_price r)) with (deq (r_price x) (r_price r)). by rewrite Hxd.
Qed.
End invariant.

(** ** The ledger of an order

    The volume of an order facing side [sd] is split into what it trades,
    what comes to rest on its own side, and what is cancelled; the opposite
    side loses what is traded and the own side gains what rests. *)
Record ledger (sd : side) (ab : abs_book) (order : Order) (ts : list Trade) (ab' : abs_book)
    (rested cancelled : Z) : Prop := {
  lg_rested : 0 <= rested;
  lg_cancelled : 0 <= cancelled;
  lg_order : o_volume order = traded ts + rested + cancelled;
  lg_opposite : volume_sum (abs_side sd ab) = traded ts + volume_sum (abs_side sd ab');
  lg_own : volume_sum (abs_side (other sd) ab') = volume_sum (abs_side (other sd) ab) + rested;
}.

Section ledger.
Context (sd : side) (code : Z) (ab : abs_book) (order : Order).
Context (Hv : 0 < o_volume order) (Hvols : book_vols ab).

Lemma sweep_ledger {S} (accept : S -> DeclRecord -> option S) mk s :
  (forall r v, t_volume (mk r v) = v) ->
  let '(ts, v', l') := sweep accept mk s (o_volume order) (abs_side sd ab) in
  0 <= v' /\ o_volume order = traded ts + v' /\
  volume_sum (abs_side sd ab) = traded ts + volume_sum l'.
Proof using Hv Hvols.
  intros Hmk. pose proof (sweep_conserves accept mk Hmk s (o_volume order) (abs_side sd ab)) as Hc.
  pose proof (sweep_remaining accept mk (fun _ => True) s (o_volume order) (abs_side sd ab)) as Hr.
  destruct (sweep _ _ _ _ _) as [[ts v'] l'].
  destruct Hr as (? & _); [lia|apply Hvols|by apply Forall_true|done|]. lia.
Qed.

Lemma cancel_ledger {S} (accept : S -> DeclRecord -> option S) s :
  let res := match_and_cancel accept s sd code order ab in
  exists cancelled, ledger sd ab order (res.1) (res.2) 0 cancelled.
Proof using Hv Hvols.
  unfold match_and_cancel.
  pose proof (sweep_ledger accept (fun r => trade_of sd code order (r_price r) r) s
    (fun r v => trade_of_volume _ _ _ _ _ _)) as Hl.
  destruct (sweep _ _ _ _ _) as [[ts v'] l']. simpl. exists v'.
  split; simpl; rewrite ?abs_side_set, ?abs_side_set_other; lia.
Qed.

Lemma rest_ledger {S} (accept : S -> DeclRecord -> option S) s price tp :
  let res := match_and_rest accept s sd code order price tp ab in
  exists rested, ledger sd ab order (res.1) (res.2) rested 0.
Proof using Hv Hvols.
  unfold match_and_rest.
  pose proof (sweep_ledger accept (fun r => trade_of sd code order (tp r) r) s
    (fun r v => trade_of_volume _ _ _ _ _ _)) as Hl.
  destruct (sweep _ _ _ _ _) as [[ts v'] l']. simpl. exists v'.
  destruct (Z.eqb_spec v' 0) as [->|].
  - split; simpl; rewrite ?abs_side_set, ?abs_side_set_other; lia.
  - split; simpl; try lia; rewrite abs_side_set_cases.
    + rewrite decide_False by (by destruct sd). rewrite abs_side_set. lia.
    + rewrite decide_True by done. rewrite insert_decl_perm. simpl.
      rewrite abs_side_set_other. lia.
Qed.

Lemma none_ledger : ledger sd ab order [] ab 0 (o_volume order).
Proof using Hv Hvols. split; simpl; lia. Qed.

Lemma own_best_ledger price :
  ledger sd ab order [] (set_abs_side (other sd) ab
    (insert_decl (other sd) (mkRec (o_order_id order) price (o_volume order)) (abs_side (other sd) ab)))
    (o_volume order) 0.
Proof using Hv Hvols.
  split; simpl; try lia; rewrite abs_side_set_cases.
  - by rewrite decide_False by (by destruct sd).
  - rewrite decide_True by done. rewrite insert_decl_perm. simpl. lia.
Qed.

(** Which part of an order can be cancelled and which can rest. *)
Lemma spec_commit_ledger :
  taker_side order = Some sd ->
  exists rested cancelled,
    ledger sd ab order ((spec_commit code ab order).1) ((spec_commit code ab order).2) rested cancelled
    /\ (o_type order = 0 -> cancelled = 0)
    /\ (o_type order < 0 \/ 3 <= o_type order -> rested = 0).
Proof using Hv Hvols.
  intros Hs. unfold spec_commit. rewrite Hs.
  assert (Hn : exists rested cancelled, ledger sd ab order [] ab rested cancelled /\
            (o_type order = 0 -> cancelled = 0) /\ (o_type order < 0 \/ 3 <= o_type order -> rested = 0)
            \/ o_type order = 0).
  { destruct (decide (o_type order = 0)); [by exists 0, 0; right|].
    exists 0, (o_volume order). left. split; [apply none_ledger|done]. }
  destruct Hn as (r & c & [Hn|E0]); cycle 1.
  { rewrite E0. destruct (rest_ledger (accept_limit sd (o_price order)) tt (o_price order) r_price) as [x Hx].
    exists x, 0. split; [done|lia]. }
  destruct (cancel_ledger accept_all tt) as [c4 H4].
  destruct (cancel_ledger accept_levels (0, dzero)) as [c3 H3].
  assert (Hfinish : forall res rested cancelled k,
    o_type order = k -> ledger sd ab order res.1 res.2 rested cancelled ->
    (k = 0 -> cancelled = 0) -> (k < 0 \/ 3 <= k -> rested = 0) ->
    exists rested cancelled, ledger sd ab order res.1 res.2 rested cancelled /\
      (o_type order = 0 -> cancelled = 0) /\ (o_type order < 0 \/ 3 <= o_type order -> rested = 0))
    by (intros res ? ? k -> **; eauto).
  destruct (o_type order) as [|[[[]|[]|]|[[]|[]|]|]|[]] eqn:Et; try (by exists r, c).
  - destruct (rest_ledger (accept_limit sd (o_price order)) tt (o_price order) r_price) as [x Hx].
    apply (Hfinish _ x 0 0); [done|done|lia..].
  - cbv iota. case_match; [by exists r, c|]. apply (Hfinish _ 0 c4 5); [done|done|lia..].
  - apply (Hfinish _ 0 c3 3); [done|done|lia..].
  - apply (Hfinish _ 0 c4 4); [done|done|lia..].
  - cbv iota. case_match; [by exists r, c|].
    apply (Hfinish (_, _) (o_volume order) 0 2); [done|rewrite <- H; apply own_best_ledger|lia..].
  - cbv iota. case_match; [by exists r, c|].
    destruct (rest_ledger (accept_price (r_price d)) tt (r_price d) (fun _ => r_price d)) as [x Hx].
    apply (Hfinish _ x 0 1); [done|done|lia..].
Qed.
End ledger.
