(* ===== verification/OrderedCommit.v ===== *)
(** * Orders are committed in id order, whatever their arrival order

    [StockExchange::receiveOrder] parks orders in a heap and commits the ones
    that continue the sequence of ids.  The theorem of this file: if the
    orders with the ids [n+1 ... n+k] arrive in any order, the engine ends
    up where committing them one after the other in id order leads. *)

From S2P Require Import Prelude Double StdHeap Types DeclBook StockExchange MatchSpec Matching.
From S2P Require Import MatchProps.
#[local] Open Scope Z_scope.

(** Commit a sequence of orders according to the specification. *)
Fixpoint spec_run (code : Z) (ab : abs_book) (os : list Order) : spec_result :=
  match os with
  | [] => ([], ab)
  | o :: os =>
      let '(ts, ab') := spec_commit code ab o in
      let '(ts', ab'') := spec_run code ab' os in
      (ts ++ ts', ab'')
  end.

(** Every order is acceptable when its turn comes. *)
Fixpoint run_ok (code : Z) (ab : abs_book) (os : list Order) : Prop :=
  match os with
  | [] => True
  | o :: os => order_ok o /\ sums_fit o ab /\ run_ok code ((spec_commit code ab o).2) os
  end.

(** The orders carry the ids [n + 1], [n + 2], ... *)
Definition ids_from (n : Z) (os : list Order) : Prop :=
  forall i o, os !! i = Some o -> o_order_id o = n + 1 + Z.of_nat i.

Lemma spec_run_snoc code ab os o :
  spec_run code ab (os ++ [o]) =
    ((spec_run code ab os).1 ++ (spec_commit code ((spec_run code ab os).2) o).1,
     (spec_commit code ((spec_run code ab os).2) o).2).
Proof.
  revert ab. induction os as [|x os IH]; intros ab; simpl.
  { destruct (spec_commit code ab o) as [ts ab']. simpl. by rewrite app_nil_r. }
  destruct (spec_commit code ab x) as [ts ab1]. rewrite IH.
  destruct (spec_run code ab1 os) as [ts' ab2]. simpl. by rewrite app_assoc.
Qed.

Lemma run_ok_nth code ab os i o :
  run_ok code ab os -> os !! i = Some o ->
  order_ok o /\ sums_fit o ((spec_run code ab (take i os)).2).
Proof.
  revert ab os. induction i as [|i IH]; intros ab [|x os] Hok Hi; simpl in *; try done.
  - simplify_eq. by destruct Hok as (? & ? & _).
  - destruct Hok as (_ & _ & Hok). destruct (spec_commit code ab x) as [ts ab1]. simpl in *.
    specialize (IH ab1 os Hok Hi). by destruct (spec_run code ab1 (take i os)).
Qed.

Lemma spec_run_inv code n ab os i :
  book_inv (n + 1) ab -> run_ok code ab os -> ids_from n os -> (i <= length os)%nat ->
  book_inv (n + 1 + Z.of_nat i) ((spec_run code ab (take i os)).2).
Proof.
  intros Hb Hok Hids. induction i as [|i IH]; intros Hi.
  { rewrite take_0. simpl. by rewrite Z.add_0_r. }
  destruct (lookup_lt_is_Some_2 os i) as [o Ho]; [lia|].
  rewrite (take_S_r _ _ _ Ho), spec_run_snoc. simpl snd.
  replace (n + 1 + Z.of_nat (Datatypes.S i)) with (n + 1 + Z.of_nat i + 1) by lia.
  apply spec_commit_inv; [apply IH; lia|by apply Hids|]. by eapply run_ok_nth.
Qed.

#[export] Instance orderGtById_sw : StrictWeak (fun _ => True) orderGtById.
Proof. split; unfold orderGtById; intros; lia. Qed.

Section ordered.
Context `{HeapLib}.
(** The starting point, and the orders in the sequence of their ids. *)
Context (code n : Z) (ab : abs_book) (prod : list Trade) (os : list Order).
Context (Hinv : book_inv (n + 1) ab) (Hok : run_ok code ab os) (Hids : ids_from n os).
Context (Hcode : forall o, o ∈ os -> o_stk_code o = code).
Context (Hint : INT_MIN <= n /\ n + Z.of_nat (length os) <= INT_MAX).

(** [j] orders are committed, [pend] wait in the heap, [arr] are to come. *)
Record progress (st : StockExchange) (j : nat) (pend arr : list Order) : Prop := {
  pr_code : stk_code st = code;
  pr_last : last_commit_order_id st = n + Z.of_nat j;
  pr_prod : produced st = prod ++ (spec_run code ab (take j os)).1;
  pr_rel : book_rel (decl_book st) ((spec_run code ab (take j os)).2);
  pr_heap : is_heap orderGtById (not_ready_orders st);
  pr_perm : not_ready_orders st ≡ₚ pend;
  pr_rest : pend ++ arr ≡ₚ drop j os;
  pr_le : (j <= length os)%nat;
}.

Lemma drop_ids j o : o ∈ drop j os -> n + 1 + Z.of_nat j <= o_order_id o.
Proof.
  intros [i Hi]%list_elem_of_lookup. rewrite lookup_drop in Hi.
  rewrite (Hids _ _ Hi). lia.
Qed.

Lemma drop_next j o :
  o ∈ drop j os -> o_order_id o = n + 1 + Z.of_nat j -> os !! j = Some o.
Proof.
  intros [i Hi]%list_elem_of_lookup Hid. rewrite lookup_drop in Hi.
  pose proof (Hids _ _ Hi). assert (i = 0%nat) as -> by lia. by rewrite Nat.add_0_r in Hi.
Qed.

(** Committing the order whose turn it is. *)
Lemma commit_next st j pend arr o :
  progress st j (o :: pend) arr -> head (not_ready_orders st) = Some o ->
  o_order_id o = n + 1 + Z.of_nat j ->
  exists ret st', commitOrder st o = Done (ret, st') /\
    not_ready_orders st' = not_ready_orders st /\
    last_commit_order_id st' = last_commit_order_id st /\
    progress (set_last_commit (set_not_ready st'
               (pop_back (pop_heap orderGtById (not_ready_orders st')))) (n + Z.of_nat j + 1))
      (S j) pend arr.
Proof.
  intros [Hc Hl Hp Hr Hh Hperm Hrest _] Hhead Hid.
  assert (Hj : os !! j = Some o) by (apply drop_next; [rewrite <- Hrest; left|done]).
  pose proof (lookup_lt_Some _ _ _ Hj) as Hlt.
  destruct (run_ok_nth _ _ _ _ _ Hok Hj) as [Hoo Hsf].
  pose proof (spec_run_inv code n ab os j Hinv Hok Hids ltac:(lia)) as Hb.
  destruct (commitOrder_implements st o ((spec_run code ab (take j os)).2)) as (b' & Ec & Hb');
    [done|apply Hb|by apply (book_inv_fresh _ _ _ Hb); lia|done|done|].
  eexists _, _. split; [exact Ec|]. split; [done|]. split; [done|].
  destruct (not_ready_orders st) as [|o' h] eqn:Eh; [done|]. simpl in Hhead. simplify_eq.
  split; simpl; rewrite ?Eh.
  - done.
  - lia.
  - rewrite (take_S_r _ _ _ Hj), spec_run_snoc, Hp. simpl. by rewrite <- app_assoc, Hc.
  - rewrite (take_S_r _ _ _ Hj), spec_run_snoc. by rewrite Hc in Hb'.
  - apply (heap_remove_heap (fun _ => True) orderGtById); [by apply Forall_true|done].
  - change (heap_remove orderGtById (o :: h) ≡ₚ pend).
    rewrite (heap_remove_perm orderGtById o h). by apply Permutation_cons_inv in Hperm.
  - rewrite (drop_S _ _ _ Hj) in Hrest. by apply Permutation_cons_inv in Hrest.
  - lia.
Qed.

Lemma commit_ready_progress fuel st j pend arr ret :
  progress st j pend arr -> (length pend < fuel)%nat ->
  exists j' pend' ret' st', commit_ready fuel st ret = Done (ret', st') /\
    progress st' j' pend' arr /\ (forall o, o ∈ pend' -> o_order_id o <> n + 1 + Z.of_nat j').
Proof.
  revert st j pend ret. induction fuel as [|fuel IH]; intros st j pend ret Hpr Hf; [lia|].
  simpl. destruct (not_ready_orders st) as [|o h] eqn:Eh.
  { exists j, pend, ret, st. split_and!; [done|done|]. intros o Ho.
    destruct Hpr as [_ _ _ _ _ Hperm _ _]. rewrite <- Hperm, Eh in Ho.
    by apply not_elem_of_nil in Ho. }
  destruct (Permutation_cons_inv_r h pend o) as (p1 & p2 & Ep & Hp12).
  { destruct Hpr as [_ _ _ _ _ Hperm _ _]. by rewrite <- Hperm, Eh. }
  assert (Hpr' : progress st j (o :: p1 ++ p2) arr).
  { destruct Hpr as [? ? ? ? ? Hperm Hrest ?]. split; try done.
    - rewrite Hperm, Ep. by rewrite Permutation_middle.
    - rewrite <- Hrest, Ep. by rewrite Permutation_middle. }
  pose proof (pr_rest _ _ _ _ Hpr') as Hrest.
  assert (Hin : forall x, x ∈ o :: p1 ++ p2 -> x ∈ drop j os)
    by (intros x Hx; rewrite <- Hrest; apply elem_of_app; by left).
  assert (Hjlt : (j < length os)%nat).
  { apply Permutation_length in Hrest as Hlen.
    rewrite length_drop in Hlen. simpl in Hlen. lia. }
  rewrite (pr_last _ _ _ _ Hpr'). unfold int_add.
  rewrite chk_int_ok by lia. simpl.
  destruct (Z.eqb_spec (n + Z.of_nat j + 1) (o_order_id o)) as [Hid|Hid]; simpl.
  - destruct (commit_next st j (p1 ++ p2) arr o Hpr') as (ret1 & st1 & Ec & Enr & Hl1 & Hpr1);
      [by rewrite Eh|lia|].
    rewrite Ec. simpl.
    rewrite Hl1, (pr_last _ _ _ _ Hpr'), chk_int_ok by lia. simpl. apply (IH _ (S j) (p1 ++ p2)); [done|].
    rewrite Ep, length_app in Hf. simpl in Hf. rewrite length_app. lia.
  - exists j, (o :: p1 ++ p2), ret, st. split_and!; [done|done|]. intros x Hx Hxid.
    pose proof (drop_ids j o (Hin o ltac:(left))).
    assert (Htop : orderGtById o x = false).
    { apply (heap_top (fun _ => True) orderGtById o h); [by apply Forall_true| |].
      - rewrite <- Eh. apply (pr_heap _ _ _ _ Hpr').
      - rewrite <- Eh, (pr_perm _ _ _ _ Hpr'). done. }
    unfold orderGtById in Htop. lia.
Qed.

(** Receiving the next of the orders still to come. *)
Lemma receiveOrder_progress st j pend arr o :
  progress st j pend (o :: arr) ->
  exists j' pend' ret' st', receiveOrder st o = Done (ret', st') /\
    progress st' j' pend' arr /\ (forall x, x ∈ pend' -> o_order_id x <> n + 1 + Z.of_nat j').
Proof.
  intros Hpr. unfold receiveOrder.
  assert (Ho : o ∈ os).
  { rewrite <- (take_drop j os). apply elem_of_app. right. rewrite <- (pr_rest _ _ _ _ Hpr).
    apply elem_of_app. right. left. }
  rewrite (Hcode o Ho), (pr_code _ _ _ _ Hpr), Z.eqb_refl.
  change (cassert true) with (Done tt). rewrite bind_Done. cbv zeta.
  apply (commit_ready_progress _ _ j (o :: pend) arr).
  - destruct Hpr as [? ? ? ? Hh Hperm Hrest ?]. split; simpl; try done.
    + apply (heap_insert_heap (fun _ => True) orderGtById); [by apply Forall_true|done|done].
    + change (heap_insert orderGtById (not_ready_orders st) o ≡ₚ o :: pend).
      by rewrite heap_insert_perm, Hperm.
    + rewrite <- Hrest. by rewrite Permutation_middle.
  - simpl. rewrite push_heap_perm, length_app, (pr_perm _ _ _ _ Hpr). simpl. lia.
Qed.

Lemma receive_all_progress st j pend arr :
  progress st j pend arr -> (forall x, x ∈ pend -> o_order_id x <> n + 1 + Z.of_nat j) ->
  exists st', receive_all st arr = Done st' /\ progress st' (length os) [] [].
Proof.
  revert st j pend. induction arr as [|o arr IH]; intros st j pend Hpr Hno; simpl.
  - exists st. split; [done|]. pose proof (pr_rest _ _ _ _ Hpr) as Hrest.
    rewrite app_nil_r in Hrest.
    destruct (lookup_lt_is_Some os j) as [_ Hj].
    destruct (decide (j < length os)%nat) as [Hlt|Hge].
    { destruct (Hj Hlt) as [o Ho]. exfalso. apply (Hno o); [|by rewrite (Hids _ _ Ho); lia].
      rewrite Hrest, (drop_S _ _ _ Ho). left. }
    rewrite drop_ge in Hrest by lia. apply Permutation_nil_r in Hrest as ->.
    destruct Hpr as [? Hl Hp Hr ? ? ? ?]. rewrite take_ge in Hp, Hr by lia.
    assert (j = length os) as -> by lia.
    split; rewrite ?take_ge, ?drop_ge by lia; done.
  - destruct (receiveOrder_progress st j pend arr o Hpr) as (j' & pend' & ret & st' & E & Hpr' & Hno').
    rewrite E. simpl. by eapply IH.
Qed.
End ordered.
