(* ===== verification/EngineSafety.v ===== *)
(** * Termination and framing of the matching engine

    Without any assumption on the state or the order, the loops of
    [StockExchange] end before their fuel does, and a commit changes nothing
    but the book and the end of the list of trades. *)

From S2P Require Import Prelude Double StdHeap Types DeclBook StockExchange MatchSpec Matching.
#[local] Open Scope Z_scope.

(** What a commit leaves alone. *)
Record frame (st st' : StockExchange) : Prop := {
  fr_code : stk_code st' = stk_code st;
  fr_not_ready : not_ready_orders st' = not_ready_orders st;
  fr_last : last_commit_order_id st' = last_commit_order_id st;
  fr_produced : produced st `prefix_of` produced st';
}.

#[export] Instance frame_refl : Reflexive frame.
Proof. by split. Qed.
#[export] Instance frame_trans : Transitive frame.
Proof. intros x y z [] []. split; try congruence. by etrans. Qed.

Lemma frame_set_book st b : frame st (set_book st b).
Proof. by split. Qed.
Lemma frame_produce st t : frame st (produceTrade st t).
Proof. split; try done. by exists [t]. Qed.
#[export] Hint Resolve frame_set_book frame_produce : cxx.

Section safety.
Context `{HeapLib}.
Implicit Types (st : StockExchange) (order : Order).

Definition side_length (sd : side) st : nat := length (decls sd (decl_book st)).

Lemma heap_remove_length {A} lt (l : list A) :
  l <> [] -> length l = S (length (pop_back (pop_heap lt l))).
Proof.
  destruct l as [|x l]; [done|]. intros _.
  change (pop_back (pop_heap lt (x :: l))) with (heap_remove lt (x :: l)).
  by rewrite (heap_remove_perm lt x l).
Qed.

(** A trade finishes the order or removes a declaration. *)
Lemma trade_with_safe sd st order r price v :
  safe (fun '(v', st') => frame st st' /\ (v' = 0 \/ side_length sd st = S (side_length sd st')))
    (trade_with sd st order r price v).
Proof.
  assert (Htrans : forall t b, frame st (set_book (produceTrade st t) b)).
  { intros. transitivity (produceTrade st t); auto with cxx. }
  unfold side_length. destruct sd; simpl; unfold trade_with_buy, trade_with_sell;
    (destruct (v <? r_volume r);
     [eapply safe_bind; [apply safe_chk_int|]; intros v1 [-> _];
      eapply safe_bind; [apply safe_chk_int|]; intros v2 [-> _]; simpl; split; [done|left; lia]
     |eapply safe_bind; [apply safe_chk_int|]; intros v1 [-> _];
      unfold removeBuyFirst, removeSellFirst; simpl;
      case_bool_decide as Hne; simpl; [done|];
      split; [done|right; by apply heap_remove_length]]).
Qed.

Lemma take_loop_safe {S} (accept : S -> DeclRecord -> option S) price sd fuel st order s v :
  (side_length sd st < fuel)%nat \/ v = 0 /\ fuel <> 0%nat ->
  safe (fun res => frame st res.2) (take_loop accept price sd fuel st order s v).
Proof.
  revert st s v. induction fuel as [|fuel IH]; intros st s v Hf; [lia|]. simpl.
  destruct (Z.eqb_spec v 0); [done|]. destruct Hf as [Hf|[? _]]; [|done].
  destruct (query_first sd (decl_book st)) as [r|] eqn:Hq; [|done].
  destruct (accept s r) as [s'|]; [|done].
  assert (0 < side_length sd st)%nat.
  { unfold side_length. destruct sd; simpl in *; unfold queryBuyFirst, querySellFirst in Hq;
      destruct (decl_book st) as [[] []]; simpl in *; try done; lia. }
  eapply safe_bind; [apply trade_with_safe|]. intros [v' st'] [Hfr Hm].
  eapply safe_mono; [apply IH; destruct Hm; [right|left]; lia|].
  intros res Hres. simpl in Hres. by etrans.
Qed.

Lemma whole_buy_loop_take fuel st order v :
  whole_buy_loop fuel st order v =
    ('(v', st') ← take_loop accept_all r_price SellSide fuel st order tt v;
     if v' =? 0 then Done st' else Fault AssertFailed).
Proof.
  revert st v. induction fuel as [|fuel IH]; intros st v; simpl; [done|].
  destruct (v =? 0) eqn:Ev; simpl; [by rewrite Ev|].
  destruct (querySellFirst _); simpl; [|by rewrite Ev].
  destruct (trade_with_sell _ _ _ _ _) as [[v' st']|]; simpl; [apply IH|done].
Qed.

Lemma whole_sell_loop_take fuel st order v :
  whole_sell_loop fuel st order v =
    ('(v', st') ← take_loop accept_all r_price BuySide fuel st order tt v;
     if v' =? 0 then Done st' else Fault AssertFailed).
Proof.
  revert st v. induction fuel as [|fuel IH]; intros st v; simpl; [done|].
  destruct (v =? 0) eqn:Ev; simpl; [by rewrite Ev|].
  destruct (queryBuyFirst _); simpl; [|by rewrite Ev].
  destruct (trade_with_buy _ _ _ _ _) as [[v' st']|]; simpl; [apply IH|done].
Qed.

Lemma insert_side_safe sd b r :
  safe (fun b' => decls (other sd) b' = decls (other sd) b) (insert_side sd b r).
Proof. destruct sd; simpl; unfold insertBuyDecl, insertSellDecl; by destruct (r_volume r =? 0). Qed.

(** The loops that hold on to the front record. *)
Lemma counterparty_buy_loop_safe fuel st order t v sr :
  (S (side_length SellSide st) < fuel)%nat \/ v = 0 /\ fuel <> 0%nat ->
  safe (frame st) (counterparty_buy_loop fuel st order t v sr).
Proof.
  revert st v sr. induction fuel as [|fuel IH]; intros st v sr Hf; [lia|]. simpl.
  destruct (Z.eqb_spec v 0); [done|]. destruct Hf as [Hf|[? _]]; [|done].
  assert (Hnext : forall st', frame st st' -> forall v' sr',
    (S (side_length SellSide st') < fuel)%nat \/ v' = 0 /\ fuel <> 0%nat ->
    safe (frame st) (counterparty_buy_loop fuel st' order t v' sr')).
  { intros st' Hfr v' sr' Hf'. eapply safe_mono; [by apply IH|]. intros. by etrans. }
   case_if; (eapply safe_bind; [apply (trade_with_safe SellSide)|]); intros [v' st'] [Hfr Hm].
  { apply Hnext; [done|]. destruct Hm; [right|left]; lia. }
  destruct (Z.eqb_spec v' 0); [done|]. destruct Hm as [?|Hm]; [done|].
  assert (Hins : forall sr', safe (frame st)
    (b ← insertBuyDecl (decl_book st') (mkRec (o_order_id order) t v');
     left_volume ← int_sub v' v';
     counterparty_buy_loop fuel (set_book st' b) order t left_volume sr')).
  { intros sr'. eapply safe_bind; [apply (insert_side_safe BuySide)|]. intros b _.
    eapply safe_bind; [apply safe_chk_int|]. intros z [-> _].
    apply Hnext; [etrans; [done|apply frame_set_book]|]. right. lia. }
  destruct (querySellFirst _) as [sr'|]; [case_if|]; [apply Hins| |apply Hins].
  apply Hnext; [done|left; lia].
Qed.

Lemma counterparty_sell_loop_safe fuel st order t v br :
  (S (side_length BuySide st) < fuel)%nat \/ v = 0 /\ fuel <> 0%nat ->
  safe (frame st) (counterparty_sell_loop fuel st order t v br).
Proof.
  revert st v br. induction fuel as [|fuel IH]; intros st v br Hf; [lia|]. simpl.
  destruct (Z.eqb_spec v 0); [done|]. destruct Hf as [Hf|[? _]]; [|done].
  assert (Hnext : forall st', frame st st' -> forall v' br',
    (S (side_length BuySide st') < fuel)%nat \/ v' = 0 /\ fuel <> 0%nat ->
    safe (frame st) (counterparty_sell_loop fuel st' order t v' br')).
  { intros st' Hfr v' br' Hf'. eapply safe_mono; [by apply IH|]. intros. by etrans. }
   case_if; (eapply safe_bind; [apply (trade_with_safe BuySide)|]); intros [v' st'] [Hfr Hm].
  { apply Hnext; [done|]. destruct Hm; [right|left]; lia. }
  destruct (Z.eqb_spec v' 0); [done|]. destruct Hm as [?|Hm]; [done|].
  assert (Hins : forall br', safe (frame st)
    (b ← insertSellDecl (decl_book st') (mkRec (o_order_id order) t v');
     left_volume ← int_sub v' v';
     counterparty_sell_loop fuel (set_book st' b) order t left_volume br')).
  { intros br'. eapply safe_bind; [apply (insert_side_safe SellSide)|]. intros b _.
    eapply safe_bind; [apply safe_chk_int|]. intros z [-> _].
    apply Hnext; [etrans; [done|apply frame_set_book]|]. right. lia. }
  destruct (queryBuyFirst _) as [br'|]; [case_if|]; [apply Hins| |apply Hins].
  apply Hnext; [done|left; lia].
Qed.

Lemma sum_volume_safe ret l : safe (fun _ => True) (sum_volume ret l).
Proof.
  revert ret. induction l as [|r l IH]; intros ret; simpl; [done|].
  eapply safe_bind; [apply safe_chk_int|]. auto.
Qed.

Lemma insert_frame sd st st' r (ret : Z) :
  frame st st' ->
  safe (fun res => frame st res.2) (b ← insert_side sd (decl_book st') r; Done (ret, set_book st' b)).
Proof.
  intros Hfr. eapply safe_bind; [apply insert_side_safe|]. intros b _. simpl.
  etrans; [done|apply frame_set_book].
Qed.

Ltac solve_take :=
  first [eapply safe_bind; [apply take_loop_safe; left; unfold side_length, sell_fuel, buy_fuel; simpl; lia|]
        |eapply safe_bind; [apply counterparty_buy_loop_safe; left; unfold side_length, sell_fuel, buy_fuel; simpl; lia|]
        |eapply safe_bind; [apply counterparty_sell_loop_safe; left; unfold side_length, sell_fuel, buy_fuel; simpl; lia|]].

Lemma handleLimitOrder_safe st order :
  safe (fun res => frame st res.2) (handleLimitOrder st order).
Proof.
  unfold handleLimitOrder. rewrite limit_buy_loop_eq, limit_sell_loop_eq.
  repeat case_if; try done; solve_take; intros [v' st'] Hfr; case_if; try done;
    [apply (insert_frame BuySide)|apply (insert_frame SellSide)]; done.
Qed.

Lemma handleCounterpartyBest_safe st order :
  safe (fun res => frame st res.2) (handleCounterpartyBest st order).
Proof.
  unfold handleCounterpartyBest. destruct (querySellFirst _), (queryBuyFirst _);
    repeat case_if; try done; solve_take; done.
Qed.

Lemma handleOurBest_safe st order :
  safe (fun res => frame st res.2) (handleOurBest st order).
Proof.
  unfold handleOurBest. destruct (querySellFirst _), (queryBuyFirst _);
    repeat case_if; try done;
    first [by apply (insert_frame BuySide)|by apply (insert_frame SellSide)].
Qed.

Lemma handleFiveLevelOtherCancel_safe st order :
  safe (fun res => frame st res.2) (handleFiveLevelOtherCancel st order).
Proof.
  unfold handleFiveLevelOtherCancel. rewrite five_buy_loop_eq, five_sell_loop_eq.
  repeat case_if; try done; solve_take; intros [v' st'] Hfr; try case_if; done.
Qed.

Lemma handleImmediateOtherCancel_safe st order :
  safe (fun res => frame st res.2) (handleImmediateOtherCancel st order).
Proof.
  unfold handleImmediateOtherCancel. rewrite immediate_buy_loop_eq, immediate_sell_loop_eq.
  repeat case_if; try done; solve_take; intros [v' st'] Hfr; case_if; done.
Qed.

Lemma handleWholeOrCancel_safe st order :
  safe (fun res => frame st res.2) (handleWholeOrCancel st order).
Proof.
  unfold handleWholeOrCancel, totalSellVolume, totalBuyVolume.
  repeat case_if; try done; (eapply safe_bind; [apply sum_volume_safe|]); intros total _;
    case_if; try done; rewrite ?whole_buy_loop_take, ?whole_sell_loop_take;
    (eapply safe_bind; [|intros st' Hfr; exact Hfr]); solve_take;
    intros [v' st'] Hfr; case_if; done.
Qed.

Lemma commitOrder_safe st order :
  safe (fun res => frame st res.2) (commitOrder st order).
Proof.
  assert (Hret : forall m : outcome (Z * StockExchange), safe (fun res => frame st res.2) m ->
    safe (fun res => frame st res.2) ('(_, st') ← m; Done (0, st'))).
  { intros m Hm. eapply safe_bind; [exact Hm|]. intros [r st'] Hfr. exact Hfr. }
  unfold commitOrder. repeat case_match; first [apply Hret|done];
    auto using handleLimitOrder_safe, handleCounterpartyBest_safe, handleOurBest_safe,
      handleFiveLevelOtherCancel_safe, handleImmediateOtherCancel_safe, handleWholeOrCancel_safe.
Qed.

(** Receiving orders never runs out of fuel and only adds trades. *)
Lemma commit_ready_safe fuel st ret :
  (length (not_ready_orders st) < fuel)%nat ->
  safe (fun res => stk_code res.2 = stk_code st /\ produced st `prefix_of` produced res.2)
    (commit_ready fuel st ret).
Proof.
  revert st ret. induction fuel as [|fuel IH]; intros st ret Hf; [lia|]. simpl.
  destruct (not_ready_orders st) as [|o h] eqn:Eh; [by split|].
  eapply safe_bind; [apply safe_chk_int|]. intros next _. case_if; [by split|].
  eapply safe_bind; [apply commitOrder_safe|]. intros [ret1 st1] [Hc Hn Hl Hp]. simpl in *.
  eapply safe_bind; [apply safe_chk_int|]. intros last _.
  eapply safe_mono; [apply IH|].
  - simpl. rewrite Hn, Eh.
    pose proof (heap_remove_length orderGtById (o :: h) ltac:(done)) as Hr. simpl in *. lia.
  - intros [ret2 st2] [Hc2 Hp2]. simpl in *. split; [congruence|by etrans].
Qed.

Lemma receiveOrder_safe st order :
  safe (fun res => stk_code res.2 = stk_code st /\ produced st `prefix_of` produced res.2)
    (receiveOrder st order).
Proof.
  unfold receiveOrder. eapply safe_bind; [apply safe_cassert|]. intros [] _. cbv zeta.
  eapply safe_mono; [apply commit_ready_safe; simpl; lia|]. by intros res [].
Qed.

Lemma receive_all_safe st orders :
  safe (fun st' => stk_code st' = stk_code st /\ produced st `prefix_of` produced st') (receive_all st orders).
Proof.
  revert st. induction orders as [|o os IH]; intros st; simpl; [done|].
  eapply safe_bind; [apply receiveOrder_safe|]. intros [ret st'] [Hc Hp].
  eapply safe_mono; [apply IH|]. intros st'' [Hc' Hp']. simpl in *. split; [congruence|by etrans].
Qed.
End safety.
