(* ===== verification/EngineProps.v ===== *)
(** * Correctness of the matching engine

    The properties of [StockExchange] stated on its methods, each with a
    concrete instance. *)

From S2P Require Import Prelude Double StdHeap Types DeclBook StockExchange MatchSpec Matching.
From S2P Require Import MatchProps OrderedCommit EngineSafety.
#[local] Open Scope Z_scope.

(** ** Support *)

(** A sweep takes declarations in priority order: the trades are with an
    initial segment of the list, every one but the last takes all of its
    declaration, and each was accepted. *)
Lemma sweep_priority {S} (accept : S -> DeclRecord -> option S) mk s v l :
  (forall r w, t_volume (mk r w) = w) -> 0 <= v -> Forall vol_ok l ->
  let ts := (sweep accept mk s v l).1.1 in
  (length ts <= length l)%nat /\
  Forall2 (fun t r => t = mk r (t_volume t) /\ 0 < t_volume t <= r_volume r /\
             exists s', accept s' r <> None) ts (take (length ts) l) /\
  (forall i t r, (i + 1 < length ts)%nat -> ts !! i = Some t -> l !! i = Some r ->
     t_volume t = r_volume r).
Proof.
  intros Hmk Hv Hok. revert s v Hv. induction Hok as [|r l [Hr0 Hr1] Hok IH]; intros s v Hv; simpl.
  { split_and!; [done|constructor|done]. }
  destruct (Z.eqb_spec v 0); [split_and!; [simpl; lia|constructor|done]|].
  destruct (accept s r) as [s'|] eqn:Ea; [|split_and!; [simpl; lia|constructor|done]].
  destruct (Z.ltb_spec v (r_volume r)); simpl.
  { split_and!; [lia| |intros; lia]. constructor; [|by rewrite take_0].
    rewrite Hmk. split_and!; [done|lia..|]. exists s. congruence. }
  destruct (IH s' (v - r_volume r)) as (Hk & Hall & Hfull); [lia|].
  destruct (sweep _ _ _ _ _) as [[ts v'] l']. simpl in *.
  split_and!; [lia| |].
  - constructor; [|done]. rewrite Hmk. split_and!; [done|lia..|]. exists s. congruence.
  - intros [|i] t x Hi Ht Hx; simpl in *; [|apply (Hfull i); [lia|done..]].
    simplify_eq. by rewrite Hmk.
Qed.

Lemma match_and_rest_trades {S} (accept : S -> DeclRecord -> option S) s sd code order price tp ab :
  (match_and_rest accept s sd code order price tp ab).1 =
  (sweep accept (fun r => trade_of sd code order (tp r) r) s (o_volume order) (abs_side sd ab)).1.1.
Proof. unfold match_and_rest. by destruct (sweep _ _ _ _ _) as [[ts v'] l']. Qed.

Lemma match_and_cancel_trades {S} (accept : S -> DeclRecord -> option S) s sd code order ab :
  (match_and_cancel accept s sd code order ab).1 =
  (sweep accept (fun r => trade_of sd code order (r_price r) r) s (o_volume order) (abs_side sd ab)).1.1.
Proof. unfold match_and_cancel. by destruct (sweep _ _ _ _ _) as [[ts v'] l']. Qed.

(** The price [p] of a trade is allowed for a taker with limit [lim]. *)
Definition within_limit (sd : side) (lim p : double) : bool :=
  match sd with SellSide => negb (dgt p lim) | BuySide => negb (dlt p lim) end.

(** The ids of the two parties of a trade. *)
Definition taker_id (sd : side) (t : Trade) : Z :=
  match sd with SellSide => t_bid_id t | BuySide => t_ask_id t end.
Definition maker_id (sd : side) (t : Trade) : Z :=
  match sd with SellSide => t_ask_id t | BuySide => t_bid_id t end.

(** What a trade [t] of an order with the resting declaration [r] looks like. *)
Record fill_of (sd : side) (code : Z) (order : Order) (t : Trade) (r : DeclRecord) : Prop := {
  fo_code : t_stk_code t = code;
  fo_taker : taker_id sd t = o_order_id order;
  fo_maker : maker_id sd t = r_order_id r;
  fo_price : deq (t_price t) (r_price r) = true;
  fo_volume : 0 < t_volume t <= r_volume r;
  fo_limit : o_type order = 0 -> within_limit sd (o_price order) (t_price t) = true;
}.

(** The trades follow the priority list. *)
Definition fills_in_order (sd : side) (code : Z) (order : Order) (ts : list Trade)
    (l : list DeclRecord) : Prop :=
  Forall2 (fill_of sd code order) ts (take (length ts) l) /\
  (forall i t r, (i + 1 < length ts)%nat -> ts !! i = Some t -> l !! i = Some r ->
     t_volume t = r_volume r).

Lemma sweep_fills {S} (accept : S -> DeclRecord -> option S) s sd code order tp v l :
  0 <= v -> Forall vol_ok l ->
  (forall r s', r ∈ l -> accept s' r <> None ->
     deq (tp r) (r_price r) = true /\
     (o_type order = 0 -> within_limit sd (o_price order) (tp r) = true)) ->
  fills_in_order sd code order (sweep accept (fun r => trade_of sd code order (tp r) r) s v l).1.1 l.
Proof.
  intros Hv Hok Hacc.
  destruct (sweep_priority accept (fun r => trade_of sd code order (tp r) r) s v l) as (Hk & Hall & Hfull);
    [intros; apply trade_of_volume|done..|]. split; [|done].
  rewrite Forall2_lookup in Hall |- *. intros i. specialize (Hall i).
  destruct (take _ l !! i) as [r|] eqn:El; inversion Hall as [t r' (Et & Hw & s' & Hs') Ht|];
    subst; constructor.
  apply lookup_take_Some in El as [El _]. apply list_elem_of_lookup_2 in El.
  destruct (Hacc r s' El Hs') as [Hd Hl]. rewrite Et. split; destruct sd; simpl in *; auto; by rewrite trade_of_volume.
Qed.

Lemma fills_nil sd code order l : fills_in_order sd code order [] l.
Proof. split; [constructor|done]. Qed.

(** Whatever its type, an order trades down the priority list. *)
Lemma spec_commit_fills code ab order sd n :
  book_inv n ab -> order_ok order -> taker_side order = Some sd ->
  fills_in_order sd code order ((spec_commit code ab order).1) (abs_side sd ab).
Proof.
  intros Hb [_ Hv] Hsd. unfold spec_commit. rewrite Hsd.
  pose proof (bi_vols _ _ Hb sd) as Hvols. pose proof (bi_ok _ _ Hb sd) as Hok.
  assert (Hd : forall r, r ∈ abs_side sd ab -> deq (r_price r) (r_price r) = true).
  { intros r Hr. rewrite Forall_forall in Hok. apply deq_refl. by apply Hok. }
  assert (Hcancel : forall S (accept : S -> DeclRecord -> option S) s, o_type order <> 0 ->
    fills_in_order sd code order (match_and_cancel accept s sd code order ab).1 (abs_side sd ab)).
  { intros. rewrite match_and_cancel_trades. apply sweep_fills; [lia|done|]. auto. }
  destruct (o_type order) as [|[[[]|[]|]|[[]|[]|]|]|[]] eqn:Et; try apply fills_nil.
  - rewrite match_and_rest_trades. apply sweep_fills; [lia|done|].
    intros r [] Hr Ha. split; [by apply Hd|]. intros _. revert Ha.
    unfold accept_limit, within_limit. destruct sd; by case_match.
  - cbv iota. case_match; [apply fills_nil|by apply Hcancel].
  - by apply Hcancel.
  - by apply Hcancel.
  - cbv iota. case_match; apply fills_nil.
  - cbv iota. destruct (abs_side sd ab) as [|x l] eqn:El; [apply fills_nil|].
    rewrite match_and_rest_trades, El. apply sweep_fills; [lia|done|].
    intros r [] Hr Ha. split; [|lia]. revert Ha. unfold accept_price, dne.
    change (SFeqb (r_price r) (r_price x)) with (deq (r_price r) (r_price x)).
    rewrite Forall_forall in Hok. assert (Hx : rec_ok x) by (apply Hok; left).
    rewrite (deq_sym (r_price x) (r_price r)) by first [done|by apply Hok].
    by destruct (deq _ _).
Qed.

(** The state of a running engine: the heaps represent [ab], and every order
    id below [n] may be resting in the book. *)
Record engine_ok `{HeapLib} (st : StockExchange) (ab : abs_book) (n : Z) : Prop := {
  eo_rel : book_rel (decl_book st) ab;
  eo_inv : book_inv n ab;
}.

Lemma engine_step `{HeapLib} st ab n order :
  engine_ok st ab n -> o_order_id order = n -> order_ok order -> sums_fit order ab ->
  exists b', let st' := advance st ((spec_commit (stk_code st) ab order).1) b' in
    commitOrder st order = Done (if known_type order then 0 else -1, st')
    /\ engine_ok st' ((spec_commit (stk_code st) ab order).2) (n + 1).
Proof.
  intros [Hr Hi] Hn Ho Hs.
  destruct (commitOrder_implements st order ab) as (b' & ? & ?);
    [done|apply Hi|eapply book_inv_fresh; [done|lia]|done|done|].
  exists b'. split; [done|]. split; [done|]. by apply spec_commit_inv.
Qed.

(** The volume on one side of the heaps. *)
Definition side_volume (sd : side) (st : StockExchange) : Z := volume_sum (decls sd (decl_book st)).

Lemma volume_sum_rel sd h l : side_rel sd h l -> volume_sum h = volume_sum l.
Proof. intros Hr. apply volume_sum_perm, Hr. Qed.

Lemma engine_volume `{HeapLib} st ab n sd :
  engine_ok st ab n -> side_volume sd st = volume_sum (abs_side sd ab).
Proof. intros [Hr _]. by apply (volume_sum_rel sd). Qed.

(** Five levels, beyond the price the count starts from. *)
Lemma sweep_levels mk c p v l :
  (forall r w, t_price (mk r w) = r_price r) -> Forall rec_ok l -> ordered p -> c <= 5 ->
  exists levels, Z.of_nat (length levels) <= 5 - c /\
    Forall (fun t => exists q, q ∈ p :: levels /\ deq (t_price t) q = true)
      (sweep accept_levels mk (c, p) v l).1.1.
Proof.
  intros Hmk Hok. revert c p v. induction Hok as [|r l Hr Hok IH]; intros c p v Hp Hc; simpl.
  { exists []. split; [simpl; lia|constructor]. }
  destruct (v =? 0); [exists []; split; [simpl; lia|constructor]|].
  assert (Hdone : forall levels x, dne x p = false ->
    exists q, q ∈ p :: levels /\ deq x q = true).
  { intros levels x Hx. exists p. split; [left|]. unfold dne in Hx. unfold deq. by destruct (SFeqb x p). }
  destruct (dne (r_price r) p) eqn:Hd.
  - destruct (c + 1 >? 5) eqn:Hc5; [exists []; split; [simpl; lia|constructor]|].
    assert (Hself : forall levels w, exists q, q ∈ p :: r_price r :: levels /\ deq (t_price (mk r w)) q = true).
    { intros levels w. exists (r_price r). split; [right; left|]. rewrite Hmk. by apply deq_refl. }
    destruct (v <? r_volume r).
    { exists [r_price r]. split; [simpl; lia|]. constructor; [apply Hself|constructor]. }
    destruct (IH (c + 1) (r_price r) (v - r_volume r) Hr) as (levels & Hl & Hall); [lia|].
    destruct (sweep _ _ _ _ _) as [[ts v'] l']. simpl in *.
    exists (r_price r :: levels). split; [simpl; lia|]. constructor; [apply Hself|].
    eapply Forall_impl; [exact Hall|]. intros t (q & Hq & Ht). exists q. split; [by right|done].
  - destruct (v <? r_volume r).
    { exists []. split; [simpl; lia|]. constructor; [|constructor]. apply Hdone. by rewrite Hmk. }
    destruct (IH c p (v - r_volume r) Hp Hc) as (levels & Hl & Hall).
    destruct (sweep _ _ _ _ _) as [[ts v'] l']. simpl in *.
    exists levels. split; [lia|]. constructor; [|done]. apply Hdone. by rewrite Hmk.
Qed.

(** A stock exchange as constructed. *)
Lemma new_engine_ok `{HeapLib} code n : engine_ok (new_StockExchange code) (mkAbs [] []) n.
Proof. split; [intros []; apply side_rel_nil|apply book_inv_empty]. Qed.

(** ** A book with one bid and two asks, for the concrete instances *)
Definition price_10 : double := double_of_Z 10.
Definition price_11 : double := double_of_Z 11.
Definition price_9 : double := double_of_Z 9.
Definition demo_bid : DeclRecord := mkRec 1 price_9 50.
Definition demo_ask1 : DeclRecord := mkRec 2 price_10 100.
Definition demo_ask2 : DeclRecord := mkRec 3 price_11 30.
Definition demo_abs : abs_book := mkAbs [demo_bid] [demo_ask1; demo_ask2].
Definition demo_se : StockExchange :=
  mkSE 1 (mkBook [demo_bid] [demo_ask1; demo_ask2]) [] 3 [].

Definition demo_order (direction type : Z) (price : double) (volume : Z) : Order :=
  mkOrder 1 4 direction type price volume.

(** Two orders of a fresh stock: an ask at 10 and a bid at 11 that takes part of it. *)
Definition demo_os : list Order :=
  [mkOrder 1 1 (-1) 0 price_10 100; mkOrder 1 2 1 0 price_11 60].

Lemma demo_ok : engine_ok demo_se demo_abs 4.
Proof.
  assert (Hs : forall sd, side_rel sd (decls sd (decl_book demo_se)) (abs_side sd demo_abs)).
  { intros []; (apply side_rel_refl; [repeat constructor; by vm_compute|repeat constructor]). }
  split; [done|]. split.
  - intros []; repeat constructor; vm_compute; done.
  - intros sd. apply (Hs sd).
  - intros sd. apply (Hs sd).
  - intros []; repeat constructor.
  - intros x y Hx Hy. simpl in *. set_unfold.
    destruct Hx as [->|[]]; destruct Hy as [->|[->|[]]]; by vm_compute.
Qed.

Ltac solve_order_ok := split; [reflexivity|split; vm_compute; congruence].
Ltac solve_run_ok :=
  repeat first [exact I | split; [solve_order_ok|split; [by intros [=]|]]].

(** ** The properties *)

(** C3: [commitOrder] does what the specification says.  For an order whose
    id is new, whose price is a number and whose volume is positive, the
    method returns (0 for a known type, else -1), emits exactly the trades of
    the priority-list specification and leaves heaps that represent the
    specification's book, which again satisfies the invariant of the book. *)
Theorem commitOrder_refines_spec `{HeapLib} st ab n order :
  engine_ok st ab n -> o_order_id order = n -> order_ok order -> sums_fit order ab ->
  exists st', commitOrder st order = Done (if known_type order then 0 else -1, st') /\
    engine_ok st' ((spec_commit (stk_code st) ab order).2) (n + 1) /\
    produced st' = produced st ++ (spec_commit (stk_code st) ab order).1 /\
    stk_code st' = stk_code st /\ not_ready_orders st' = not_ready_orders st /\
    last_commit_order_id st' = last_commit_order_id st.
Proof.
  intros He Hn Ho Hs. destruct (engine_step st ab n order He Hn Ho Hs) as (b' & Hc & He').
  eexists. split; [exact Hc|]. by split.
Qed.

Lemma commitOrder_refines_spec_witness :
  exists st', commitOrder demo_se (demo_order 1 0 price_11 120) = Done (0, st') /\
    produced st' = [mkTrade 1 4 2 price_10 100; mkTrade 1 4 3 price_11 20].
Proof.
  destruct (commitOrder_refines_spec demo_se demo_abs 4 (demo_order 1 0 price_11 120))
    as (st' & Hc & _ & Hp & _); [exact demo_ok|reflexivity|solve_order_ok|by intros [=]|].
  exists st'. split; [exact Hc|]. rewrite Hp. vm_compute. reflexivity.
Defined.

(** C4: The orders of a stock are committed in the order of their ids, whatever
    order they arrive in: if the orders with the ids [n + 1], ..., [n + k]
    arrive in any permutation, [receiveOrder] ends in the state and with the
    trades that committing them by id gives, and with no order left waiting. *)
Theorem receive_all_in_id_order `{HeapLib} st ab n os arr :
  engine_ok st ab (n + 1) -> last_commit_order_id st = n -> not_ready_orders st = [] ->
  ids_from n os -> (forall o, o ∈ os -> o_stk_code o = stk_code st) ->
  run_ok (stk_code st) ab os -> INT_MIN <= n /\ n + Z.of_nat (length os) <= INT_MAX ->
  arr ≡ₚ os ->
  exists st', receive_all st arr = Done st' /\
    engine_ok st' ((spec_run (stk_code st) ab os).2) (n + 1 + Z.of_nat (length os)) /\
    produced st' = produced st ++ (spec_run (stk_code st) ab os).1 /\
    last_commit_order_id st' = n + Z.of_nat (length os) /\ not_ready_orders st' = [].
Proof.
  intros [Hr Hi] Hl Hnr Hids Hcode Hok Hint Hperm.
  destruct (receive_all_progress (stk_code st) n ab (produced st) os Hi Hok Hids Hcode Hint st 0 [] arr)
    as (st' & Hrun & Hpr).
  - split; rewrite ?take_0, ?drop_0; simpl; rewrite ?Hnr, ?app_nil_r; try done; try lia.
  - intros x Hx. by apply not_elem_of_nil in Hx.
  - exists st'. split; [done|]. destruct Hpr as [_ Hl' Hp Hrel _ Hnil _ _].
    rewrite take_ge in Hp, Hrel by lia. split_and!; [|done|done|by apply Permutation_nil_r].
    split; [done|]. rewrite <- (take_ge os (length os)) by lia. rewrite length_take, Nat.min_id.
    by apply spec_run_inv.
Qed.

Lemma receive_all_in_id_order_witness :
  exists st', receive_all (new_StockExchange 1) (reverse demo_os) = Done st' /\
    produced st' = [mkTrade 1 2 1 price_10 60] /\ last_commit_order_id st' = 2.
Proof.
  destruct (receive_all_in_id_order (new_StockExchange 1) (mkAbs [] []) 0 demo_os (reverse demo_os))
    as (st' & Hc & _ & Hp & Hl & _).
  - apply new_engine_ok.
  - reflexivity.
  - reflexivity.
  - intros [|[|[|i]]] o [= <-]; reflexivity.
  - intros o Ho. unfold demo_os in Ho. set_unfold. by destruct Ho as [->|[->|[]]].
  - solve_run_ok.
  - vm_compute. split; congruence.
  - apply reverse_Permutation.
  - exists st'. split; [exact Hc|]. split; [rewrite Hp; vm_compute; reflexivity|exact Hl].
Defined.

(** C5: The book of a running exchange is never crossed: after orders with the
    ids [1], ..., [k] have arrived in any permutation at a fresh exchange, every
    declared bid is below every declared ask, every declared volume is positive,
    and both vectors are heaps for the order of their records. *)
Theorem book_never_crossed `{HeapLib} code os arr :
  ids_from 0 os -> (forall o, o ∈ os -> o_stk_code o = code) ->
  run_ok code (mkAbs [] []) os -> Z.of_nat (length os) <= INT_MAX -> arr ≡ₚ os ->
  exists st', receive_all (new_StockExchange code) arr = Done st' /\
    (forall b a, b ∈ buy_decls (decl_book st') -> a ∈ sell_decls (decl_book st') ->
       dlt (r_price b) (r_price a) = true) /\
    (forall sd, is_heap (side_lt sd) (decls sd (decl_book st')) /\
       Forall (fun r => 0 < r_volume r <= INT_MAX) (decls sd (decl_book st'))).
Proof.
  intros Hids Hcode Hok Hlen Hperm.
  destruct (receive_all_progress code 0 (mkAbs [] []) [] os (book_inv_empty _) Hok Hids Hcode)
    with (st := new_StockExchange code) (j := 0%nat) (pend := @nil Order) (arr := arr)
    as (st' & Hrun & Hpr).
  - unfold INT_MIN. lia.
  - split; rewrite ?take_0, ?drop_0; simpl; try done; try lia.
    intros []; apply side_rel_nil.
  - intros x Hx. by apply not_elem_of_nil in Hx.
  - exists st'. split; [done|]. destruct Hpr as [_ _ _ Hrel _ _ _ _].
    pose proof (spec_run_inv code 0 (mkAbs [] []) os (length os) (book_inv_empty _) Hok Hids ltac:(lia)) as Hi.
    split.
    + intros b a Hb Ha. apply (bi_uncrossed _ _ Hi).
      * by rewrite <- (sr_perm _ _ _ (Hrel BuySide)).
      * by rewrite <- (sr_perm _ _ _ (Hrel SellSide)).
    + intros sd. split; [apply (Hrel sd)|]. rewrite (sr_perm _ _ _ (Hrel sd)). apply (bi_vols _ _ Hi).
Qed.

Lemma book_never_crossed_witness :
  exists st', receive_all (new_StockExchange 1) (reverse demo_os) = Done st' /\
    (forall b a, b ∈ buy_decls (decl_book st') -> a ∈ sell_decls (decl_book st') ->
       dlt (r_price b) (r_price a) = true).
Proof.
  destruct (book_never_crossed 1 demo_os (reverse demo_os)) as (st' & Hc & Hb & _).
  - intros [|[|[|i]]] o [= <-]; reflexivity.
  - intros o Ho. unfold demo_os in Ho. set_unfold. by destruct Ho as [->|[->|[]]].
  - solve_run_ok.
  - vm_compute. congruence.
  - apply reverse_Permutation.
  - exists st'. split; [exact Hc|exact Hb].
Defined.

(** C7: No volume is created or lost.  An order that faces side [sd] splits
    its volume into what it trades, what comes to rest and what is cancelled;
    the declarations of side [sd] lose exactly the traded volume, those of the
    own side gain exactly the resting volume.  A limit order cancels nothing,
    an order of type 3, 4 or 5 leaves nothing in the book. *)
Theorem commitOrder_conserves_volume `{HeapLib} st ab n order sd :
  engine_ok st ab n -> o_order_id order = n -> order_ok order -> sums_fit order ab ->
  taker_side order = Some sd ->
  exists ret st' ts rested cancelled,
    commitOrder st order = Done (ret, st') /\ produced st' = produced st ++ ts /\
    0 <= rested /\ 0 <= cancelled /\ o_volume order = traded ts + rested + cancelled /\
    side_volume sd st = traded ts + side_volume sd st' /\
    side_volume (other sd) st' = side_volume (other sd) st + rested /\
    (o_type order = 0 -> cancelled = 0) /\
    (o_type order < 0 \/ 3 <= o_type order -> rested = 0).
Proof.
  intros He Hn Ho Hs Hsd. destruct (engine_step st ab n order He Hn Ho Hs) as (b' & Hc & He').
  destruct (spec_commit_ledger sd (stk_code st) ab order) as (rested & cancelled & [] & H0 & H3);
    [apply Ho|apply (eo_inv _ _ _ He)|done|].
  eexists _, _, _, rested, cancelled. split; [exact Hc|]. split; [done|].
  rewrite !(engine_volume _ _ _ _ He), !(engine_volume _ _ _ _ He'). by split_and!.
Qed.

Lemma commitOrder_conserves_volume_witness :
  exists ret st' ts rested cancelled,
    commitOrder demo_se (demo_order 1 3 price_11 200) = Done (ret, st') /\
    200 = traded ts + rested + cancelled /\ rested = 0 /\ side_volume SellSide st' = 130 - traded ts.
Proof.
  destruct (commitOrder_conserves_volume demo_se demo_abs 4 (demo_order 1 3 price_11 200) SellSide)
    as (ret & st' & ts & r & c & Hc & _ & _ & _ & Hv & Hs & _ & _ & Hr);
    [exact demo_ok|reflexivity|solve_order_ok|by intros [=]|reflexivity|].
  exists ret, st', ts, r, c. split; [exact Hc|]. split; [exact Hv|].
  split; [apply Hr; right; vm_compute; congruence|].
  change (side_volume SellSide demo_se) with 130 in Hs. lia.
Defined.

(** C6: Price-time priority.  Whatever its type, an order trades with the
    opposite declarations in the order of price, then id: the i-th trade is with
    the i-th declaration of the sorted list, carries the ids of both parties
    on the right sides, is at the declaration's price, for at most its volume,
    within the limit of a limit order, and only the last trade leaves
    something of its declaration. *)
Theorem commitOrder_price_time_priority `{HeapLib} st ab n order sd :
  engine_ok st ab n -> o_order_id order = n -> order_ok order -> sums_fit order ab ->
  taker_side order = Some sd ->
  exists ret st' ts l,
    commitOrder st order = Done (ret, st') /\ produced st' = produced st ++ ts /\
    l ≡ₚ decls sd (decl_book st) /\ StronglySorted (better sd) l /\
    fills_in_order sd (stk_code st) order ts l.
Proof.
  intros He Hn Ho Hs Hsd. destruct (engine_step st ab n order He Hn Ho Hs) as (b' & Hc & He').
  destruct He as [Hr Hi]. eexists _, _, _, (abs_side sd ab). split; [exact Hc|].
  split; [done|]. split; [by rewrite (sr_perm _ _ _ (Hr sd))|]. split; [apply (Hr sd)|].
  by apply (spec_commit_fills _ _ _ _ n).
Qed.

Lemma commitOrder_price_time_priority_witness :
  exists ret st' ts l,
    commitOrder demo_se (demo_order 1 0 price_11 120) = Done (ret, st') /\
    l ≡ₚ [demo_ask1; demo_ask2] /\
    fills_in_order SellSide 1 (demo_order 1 0 price_11 120) ts l.
Proof.
  destruct (commitOrder_price_time_priority demo_se demo_abs 4 (demo_order 1 0 price_11 120) SellSide)
    as (ret & st' & ts & l & Hc & _ & Hp & _ & Hf);
    [exact demo_ok|reflexivity|solve_order_ok|by intros [=]|reflexivity|].
  exists ret, st', ts, l. split; [exact Hc|]. split; [exact Hp|exact Hf].
Defined.

(** C29: A five-level order (type 3) trades at five price levels at most, apart
    from trades at price 0, which its level counter starts from. *)
Theorem five_levels_bound `{HeapLib} st ab n order sd :
  engine_ok st ab n -> o_order_id order = n -> order_ok order ->
  taker_side order = Some sd -> o_type order = 3 ->
  exists st' ts levels,
    commitOrder st order = Done (0, st') /\ produced st' = produced st ++ ts /\
    (length levels <= 5)%nat /\
    Forall (fun t => exists q, q ∈ dzero :: levels /\ deq (t_price t) q = true) ts.
Proof.
  intros He Hn Ho Hsd Ht.
  destruct (engine_step st ab n order He Hn Ho) as (b' & Hc & _); [intros E; lia|].
  unfold known_type in Hc. unfold spec_commit in Hc. rewrite Ht, Hsd in Hc. cbn [Z.leb andb] in Hc.
  rewrite match_and_cancel_trades in Hc.
  destruct (sweep_levels (fun r => trade_of sd (stk_code st) order (r_price r) r) 0 dzero
    (o_volume order) (abs_side sd ab)) as (levels & Hl & Hall).
  - by intros; destruct sd.
  - apply (bi_ok _ _ (eo_inv _ _ _ He)).
  - done.
  - lia.
  - eexists _, _, levels. split; [exact Hc|]. split; [done|]. split; [lia|done].
Qed.

Lemma five_levels_bound_witness :
  exists st' ts levels, commitOrder demo_se (demo_order 1 3 price_11 200) = Done (0, st') /\
    (length levels <= 5)%nat /\
    Forall (fun t => exists q, q ∈ dzero :: levels /\ deq (t_price t) q = true) ts.
Proof.
  destruct (five_levels_bound demo_se demo_abs 4 (demo_order 1 3 price_11 200) SellSide)
    as (st' & ts & levels & Hc & _ & Hl & Hf);
    [exact demo_ok|reflexivity|solve_order_ok|reflexivity|reflexivity|].
  exists st', ts, levels. split; [exact Hc|]. split; [exact Hl|exact Hf].
Defined.

(** C8: A whole-or-cancel order (type 5) trades all of its volume or does
    nothing at all, and it is executed exactly when the opposite side holds
    its volume. *)
Theorem whole_or_cancel_all_or_nothing `{HeapLib} st ab n order sd :
  engine_ok st ab n -> o_order_id order = n -> order_ok order ->
  taker_side order = Some sd -> o_type order = 5 -> side_volume sd st <= INT_MAX ->
  exists st' ts, commitOrder st order = Done (0, st') /\ produced st' = produced st ++ ts /\
    (o_volume order <= side_volume sd st -> traded ts = o_volume order) /\
    (side_volume sd st < o_volume order -> ts = [] /\ st' = st).
Proof.
  intros He Hn Ho Hsd Ht Hfit. pose proof He as [Hr Hi]. rewrite (engine_volume _ _ _ _ He) in *.
  destruct (Z.ltb_spec (volume_sum (abs_side sd ab)) (o_volume order)) as [Hlt|Hge].
  - exists st, []. split_and!; [|by rewrite app_nil_r|lia|done].
    unfold commitOrder. rewrite Ht. unfold handleWholeOrCancel.
    pose proof (total_here st ab Hr (bi_vols _ _ Hi) sd Hfit) as Hsum.
    revert Hsd. unfold taker_side. destruct (o_direction order =? 1); [intros [= <-]|
      destruct (o_direction order =? -1); [intros [= <-]|done]];
      unfold totalSellVolume, totalBuyVolume; simpl decls in Hsum; rewrite Hsum, bind_Done;
      by rewrite (proj2 (Z.gtb_lt _ _) Hlt).
  - destruct (engine_step st ab n order He Hn Ho) as (b' & Hc & _); [intros _ sd'; congruence|].
    unfold known_type in Hc. unfold spec_commit in Hc. rewrite Ht, Hsd in Hc. cbn [Z.leb andb] in Hc.
    replace (o_volume order >? volume_sum (abs_side sd ab)) with false in Hc by lia.
    eexists _, _. split; [exact Hc|]. split; [done|]. split; [intros _|lia].
    rewrite match_and_cancel_trades.
    set (mk := fun r => trade_of sd (stk_code st) order (r_price r) r).
    pose proof (sweep_conserves accept_all mk (fun r v => trade_of_volume _ _ _ _ _ _) tt
      (o_volume order) (abs_side sd ab)) as Hcons.
    pose proof (sweep_all_exhausts mk (o_volume order) _ (bi_vols _ _ Hi sd)) as Hex.
    destruct (sweep _ _ _ _ _) as [[ts v'] l']. simpl in *. destruct Ho as [_ Hv]. lia.
Qed.

Lemma whole_or_cancel_all_or_nothing_witness :
  (exists st' ts, commitOrder demo_se (demo_order 1 5 price_11 130) = Done (0, st') /\
     produced st' = ts /\ traded ts = 130) /\
  commitOrder demo_se (demo_order 1 5 price_11 131) = Done (0, demo_se).
Proof.
  split.
  - destruct (whole_or_cancel_all_or_nothing demo_se demo_abs 4 (demo_order 1 5 price_11 130) SellSide)
      as (st' & ts & Hc & Hp & Ht & _);
      [exact demo_ok|reflexivity|solve_order_ok|reflexivity|reflexivity|vm_compute; congruence|].
    exists st', ts. split; [exact Hc|]. split; [exact Hp|apply Ht; vm_compute; congruence].
  - destruct (whole_or_cancel_all_or_nothing demo_se demo_abs 4 (demo_order 1 5 price_11 131) SellSide)
      as (st' & ts & Hc & Hp & _ & Hn);
      [exact demo_ok|reflexivity|solve_order_ok|reflexivity|reflexivity|vm_compute; congruence|].
    rewrite Hc. f_equal. f_equal. apply Hn. vm_compute. reflexivity.
Defined.

(** C30: The matching loops terminate.  Whatever the state, the order and the
    heap implementation, receiving a batch of orders never uses up the fuel of
    a loop: it ends, or stops at a fault of the program.  When it ends, the
    trades handed out before are still the beginning of the list of trades. *)
Theorem receive_all_terminates `{HeapLib} st orders :
  receive_all st orders <> Fault OutOfFuel /\
  (forall st', receive_all st orders = Done st' -> produced st `prefix_of` produced st').
Proof.
  pose proof (receive_all_safe st orders) as Hs.
  split; [by eapply safe_fuel|]. intros st' E. rewrite E in Hs. apply Hs.
Qed.

(** C32: The volume sums of the whole-or-cancel test are computed in an [int]:
    over positive volumes each of the two methods returns the exact sum when it
    fits in 32 bits and overflows when it does not. *)
Theorem total_volume_exact b :
  Forall vol_ok (buy_decls b) -> Forall vol_ok (sell_decls b) ->
  totalBuyVolume b = (if volume_sum (buy_decls b) <=? INT_MAX
                      then Done (volume_sum (buy_decls b)) else Fault SignedOverflow) /\
  totalSellVolume b = (if volume_sum (sell_decls b) <=? INT_MAX
                       then Done (volume_sum (sell_decls b)) else Fault SignedOverflow).
Proof.
  assert (Hsum : forall l ret, Forall vol_ok l -> 0 <= ret <= INT_MAX ->
    sum_volume ret l = if ret + volume_sum l <=? INT_MAX then Done (ret + volume_sum l)
                       else Fault SignedOverflow).
  { intros l ret Hl. revert ret. induction Hl as [|r l [Hr0 Hr1] Hl IH]; intros ret Hret; simpl.
    - destruct (Z.leb_spec (ret + 0) INT_MAX); [f_equal; lia|lia].
    - pose proof (volume_sum_nonneg l Hl). unfold int_add, chk_int.
      destruct (is_int (ret + r_volume r)) eqn:Ei.
      + apply is_int_spec in Ei. cbn [mbind outcome_bind]. rewrite IH by lia.
        by rewrite !Z.add_assoc.
      + destruct (Z.leb_spec (ret + (r_volume r + volume_sum l)) INT_MAX); [|done].
        unfold is_int, INT_MIN, INT_MAX in *. lia. }
  intros Hb Hs. unfold totalBuyVolume, totalSellVolume. by rewrite !Hsum by (done || unfold INT_MAX; lia).
Qed.

Lemma total_volume_exact_witness :
  totalSellVolume (mkBook [] [mkRec 1 price_10 2000000000; mkRec 2 price_10 2000000000])
    = Fault SignedOverflow.
Proof.
  rewrite (proj2 (total_volume_exact
    (mkBook [] [mkRec 1 price_10 2000000000; mkRec 2 price_10 2000000000])
    ltac:(constructor) ltac:(repeat constructor; vm_compute; congruence))).
  vm_compute. reflexivity.
Defined.

(** C31: An order whose id is not above the last committed id is never
    committed, and blocks the stock: once such an order waits, receiving any
    order commits nothing, the book, the trades and the last committed id
    stay, and the order still waits. *)
Theorem stale_order_blocks `{HeapLib} st order stale :
  is_heap orderGtById (not_ready_orders st) -> stale ∈ not_ready_orders st ->
  o_order_id stale <= last_commit_order_id st ->
  INT_MIN <= last_commit_order_id st < INT_MAX -> o_stk_code order = stk_code st ->
  exists waiting, receiveOrder st order = Done (0, set_not_ready st waiting) /\
    is_heap orderGtById waiting /\ waiting ≡ₚ order :: not_ready_orders st.
Proof.
  intros Hh Hin Hid Hl Hcode. unfold receiveOrder. rewrite Hcode, Z.eqb_refl.
  change (cassert true) with (Done tt). rewrite bind_Done. cbv zeta.
  set (w := push_heap orderGtById (not_ready_orders st ++ [order])). exists w.
  assert (Hw : is_heap orderGtById w)
    by (apply (heap_insert_heap (fun _ => True) orderGtById); [by apply Forall_true|done|done]).
  assert (Hp : w ≡ₚ order :: not_ready_orders st)
    by (apply (heap_insert_perm orderGtById)).
  split; [|done]. cbn [set_not_ready not_ready_orders].
  destruct w as [|o w'] eqn:Ew; [by apply Permutation_nil_cons in Hp|].
  assert (Htop : orderGtById o stale = false).
  { apply (heap_top (fun _ => True) orderGtById o w'); [by apply Forall_true|done|].
    rewrite Hp. by right. }
  unfold orderGtById in Htop. cbn [commit_ready length not_ready_orders set_not_ready last_commit_order_id].
  unfold int_add. rewrite chk_int_ok by lia. rewrite bind_Done.
  by rewrite (proj2 (Z.eqb_neq (last_commit_order_id st + 1) (o_order_id o))) by lia.
Qed.

Lemma stale_order_blocks_witness :
  exists waiting,
    receiveOrder (set_not_ready demo_se [mkOrder 1 3 1 0 price_10 5]) (demo_order 1 0 price_11 120)
      = Done (0, set_not_ready demo_se waiting) /\
    waiting ≡ₚ [demo_order 1 0 price_11 120; mkOrder 1 3 1 0 price_10 5].
Proof.
  destruct (stale_order_blocks (set_not_ready demo_se [mkOrder 1 3 1 0 price_10 5])
    (demo_order 1 0 price_11 120) (mkOrder 1 3 1 0 price_10 5)) as (w & Hc & _ & Hp).
  - intros [|i] p x Hi; [lia|]. intros _ Hx. destruct i; discriminate Hx.
  - left.
  - vm_compute. congruence.
  - split; [vm_compute; congruence|reflexivity].
  - reflexivity.
  - exists w. split; [exact Hc|exact Hp].
Defined.

(** Six asks at six prices, the first of them 0. *)
Definition zero_price_se : StockExchange :=
  mkSE 1 (mkBook [] [mkRec 1 dzero 1; mkRec 2 (double_of_Z 1) 1; mkRec 3 (double_of_Z 2) 1;
    mkRec 4 (double_of_Z 3) 1; mkRec 5 (double_of_Z 4) 1; mkRec 6 (double_of_Z 5) 1;
    mkRec 7 (double_of_Z 6) 1]) [] 7 [].

(** The level counter of a five-level order starts from the price 0, so a
    declaration at price 0 does not count as a level: a buy order of type 3
    trades at six prices of a book that starts at 0. *)
Theorem five_levels_zero_price :
  exists st', commitOrder zero_price_se (mkOrder 1 8 1 3 dzero 10) = Done (0, st') /\
    map t_price (produced st') = map double_of_Z [0; 1; 2; 3; 4; 5] /\
    map r_order_id (sell_decls (decl_book st')) = [7].
Proof. eexists. split; [vm_compute; reflexivity|]. split; vm_compute; reflexivity. Qed.

(** C33: The asserts of the engine.  An order of another stock stops
    [receiveOrder]; an own-best order (type 2) without volume stops
    [commitOrder] as soon as its own side has a declaration, although every
    other type accepts a volume of 0. *)
Theorem engine_asserts `{HeapLib} st order :
  (o_stk_code order <> stk_code st -> receiveOrder st order = Fault AssertFailed) /\
  (forall sd, taker_side order = Some sd -> o_volume order = 0 -> o_type order = 2 ->
     decls (other sd) (decl_book st) <> [] -> commitOrder st order = Fault AssertFailed) /\
  (forall sd, taker_side order = Some sd -> o_volume order = 0 ->
     o_type order = 0 \/ o_type order = 3 \/ o_type order = 4 ->
     commitOrder st order = Done (0, st)).
Proof.
  split_and!.
  - intros Hne. unfold receiveOrder. by rewrite (proj2 (Z.eqb_neq _ _) Hne).
  - intros sd Hsd Hv Ht Hne. unfold commitOrder. rewrite Ht. unfold handleOurBest.
    revert Hsd. unfold taker_side. destruct (o_direction order =? 1); [intros [= <-]|
      destruct (o_direction order =? -1); [intros [= <-]|done]]; simpl in Hne;
      unfold queryBuyFirst, querySellFirst; destruct (decl_book st) as [[] []]; try done;
      unfold insertBuyDecl, insertSellDecl; simpl; by rewrite Hv.
  - intros sd Hsd Hv Ht. unfold commitOrder, handleLimitOrder, handleFiveLevelOtherCancel,
      handleImmediateOtherCancel, sell_fuel, buy_fuel. rewrite Hv. cbn.
    revert Hsd. unfold taker_side. destruct (o_direction order =? 1) eqn:Ed; [intros [= <-]|
      destruct (o_direction order =? -1) eqn:Ed2; [intros [= <-]|done]];
      destruct Ht as [-> |[-> | ->]]; cbn; rewrite ?Ed, ?Ed2; done.
Qed.

Lemma engine_asserts_witness :
  commitOrder demo_se (demo_order 1 2 price_10 0) = Fault AssertFailed /\
  commitOrder demo_se (demo_order 1 0 price_10 0) = Done (0, demo_se).
Proof.
  split.
  - apply (proj1 (proj2 (engine_asserts demo_se (demo_order 1 2 price_10 0))) SellSide); try reflexivity.
    intros E. discriminate E.
  - apply (proj2 (proj2 (engine_asserts demo_se (demo_order 1 0 price_10 0))) SellSide); try reflexivity.
    left. reflexivity.
Defined.
