(* ===== verification/RunBounds.v ===== *)
(** * Bounds along a run of the matching engine

    While the volumes of all orders of a stock together fit an [int], every
    sum the engine forms fits as well, so the orders of the stock can all be
    committed ([run_ok]); and the trades of such a run are values that a
    message can carry. *)

From S2P Require Import Prelude Double Bytes StdHeap Types DeclBook StockExchange MatchSpec Matching.
From S2P Require Import MatchProps OrderedCommit.
#[local] Open Scope Z_scope.

(** The volume of a list of orders. *)
Definition order_volume (os : list Order) : Z := foldr (fun o a => o_volume o + a) 0 os.

Lemma order_volume_app l l' : order_volume (l ++ l') = order_volume l + order_volume l'.
Proof. induction l as [|o l IH]; simpl; lia. Qed.

#[export] Instance order_volume_perm : Proper ((≡ₚ) ==> eq) order_volume.
Proof. intros l l' Hp. induction Hp; simpl; lia. Qed.

Lemma order_volume_nonneg os : Forall (fun o => 0 <= o_volume o) os -> 0 <= order_volume os.
Proof. induction 1; simpl; lia. Qed.

Lemma traded_nonneg ts : Forall (fun t => 0 < t_volume t) ts -> 0 <= traded ts.
Proof. induction 1; simpl; lia. Qed.

(** There are at most as many trades as units of volume. *)
Lemma traded_length ts : Forall (fun t => 0 < t_volume t) ts -> Z.of_nat (length ts) <= traded ts.
Proof. induction 1; simpl; lia. Qed.

(** The declared volume of both sides. *)
Definition book_volume (ab : abs_book) : Z := volume_sum (bids ab) + volume_sum (asks ab).

Lemma book_volume_side sd ab : book_volume ab = volume_sum (abs_side sd ab) + volume_sum (abs_side (other sd) ab).
Proof. unfold book_volume. destruct sd; simpl; lia. Qed.

(** Every trade takes its volume from the order and from the book. *)
Lemma spec_commit_volume code ab order :
  book_vols ab -> 0 < o_volume order ->
  book_volume ((spec_commit code ab order).2) + 2 * traded ((spec_commit code ab order).1)
    <= book_volume ab + o_volume order.
Proof.
  intros Hb Hv. destruct (taker_side order) as [sd|] eqn:Es.
  - destruct (spec_commit_ledger sd code ab order Hv Hb Es) as (rested & cancelled & [] & _).
    rewrite !(book_volume_side sd). lia.
  - unfold spec_commit. rewrite Es. simpl. lia.
Qed.

(** ** What the trades of a commit look like, and what comes to rest *)

Section shape.
Context (code : Z) (ab : abs_book) (order : Order) (Q : DeclRecord -> Prop).
Context (Hvols : book_vols ab) (Hv : 0 < o_volume order).
Context (HQset : forall r w, Q r -> Q (set_r_volume r w)).
Context (HQ : forall sd, Forall Q (abs_side sd ab)).

(** A trade with one of the declarations of the book, at the price of one. *)
Definition book_trade (t : Trade) : Prop :=
  exists sd r r', Q r /\ vol_ok r /\ Q r' /\
    t = trade_of sd code order (r_price r') r (t_volume t) /\ 0 < t_volume t <= r_volume r.

Lemma sweep_book_trades {S} (accept : S -> DeclRecord -> option S) tp s sd :
  (forall r, Q r -> exists r', Q r' /\ tp r = r_price r') ->
  let '(ts, v', l') :=
    sweep accept (fun r => trade_of sd code order (tp r) r) s (o_volume order) (abs_side sd ab) in
  Forall book_trade ts /\ Forall Q l'.
Proof using Hvols Hv HQset HQ.
  intros Htp. set (mk := fun r => trade_of sd code order (tp r) r).
  assert (Hmk : forall r v, t_volume (mk r v) = v) by (intros; apply trade_of_volume).
  pose proof (sweep_trades accept mk Hmk s (o_volume order) _ ltac:(lia) (Hvols sd)) as Ht.
  pose proof (sweep_remaining accept mk Q s (o_volume order) _ ltac:(lia) (Hvols sd) (HQ sd) HQset) as Hr.
  destruct (sweep _ _ _ _ _) as [[ts v'] l']. split; [|apply Hr].
  eapply Forall_impl; [exact Ht|]. intros t (_ & r & Hin & _ & E & Hb).
  pose proof (proj1 (Forall_forall _ _) (HQ sd) r Hin) as Hq. destruct (Htp r Hq) as (r' & Hr' & Etp).
  exists sd, r, r'. split_and!; [done|by apply (proj1 (Forall_forall _ _) (Hvols sd))|done| |lia..].
  rewrite E at 1. unfold mk. by rewrite Etp.
Qed.

Lemma sides_set sd l : Forall Q l -> forall sd', Forall Q (abs_side sd' (set_abs_side sd ab l)).
Proof using HQ. intros Hl sd'. rewrite abs_side_set_cases. by case_decide. Qed.

Lemma Forall_insert_decl sd r l : Q r -> Forall Q l -> Forall Q (insert_decl sd r l).
Proof using Type. intros Hr Hl. rewrite insert_decl_perm. by constructor. Qed.

Lemma cancel_shape {S} (accept : S -> DeclRecord -> option S) s sd :
  let res := match_and_cancel accept s sd code order ab in
  Forall book_trade res.1 /\ forall sd', Forall Q (abs_side sd' res.2).
Proof using Hvols Hv HQset HQ.
  unfold match_and_cancel. pose proof (sweep_book_trades accept r_price s sd) as Hs.
  destruct (sweep _ _ _ _ _) as [[ts v'] l']. destruct Hs as [Ht Hl]; [eauto|].
  split; [done|]. by apply sides_set.
Qed.

Lemma rest_shape {S} (accept : S -> DeclRecord -> option S) s sd price tp :
  (forall r, Q r -> exists r', Q r' /\ tp r = r_price r') ->
  (forall v, Q (mkRec (o_order_id order) price v)) ->
  let res := match_and_rest accept s sd code order price tp ab in
  Forall book_trade res.1 /\ forall sd', Forall Q (abs_side sd' res.2).
Proof using Hvols Hv HQset HQ.
  intros Htp Hnew. unfold match_and_rest. pose proof (sweep_book_trades accept tp s sd Htp) as Hs.
  destruct (sweep _ _ _ _ _) as [[ts v'] l']. destruct Hs as [Ht Hl].
  split; [done|]. intros sd'. simpl. case_match; [by apply sides_set|].
  rewrite abs_side_set_cases. case_decide; [|by apply sides_set].
  apply Forall_insert_decl; [done|]. by apply sides_set.
Qed.

Lemma spec_commit_shape :
  (forall v, Q (mkRec (o_order_id order) (o_price order) v)) ->
  (forall r v, Q r -> Q (mkRec (o_order_id order) (r_price r) v)) ->
  Forall book_trade ((spec_commit code ab order).1) /\
  forall sd, Forall Q (abs_side sd ((spec_commit code ab order).2)).
Proof using Hvols Hv HQset HQ.
  intros Hnew Hnew'. unfold spec_commit. destruct (taker_side order) as [sd|]; [|done].
  assert (Hhead : forall sd r l, abs_side sd ab = r :: l -> Q r).
  { intros sd0 r l E. pose proof (HQ sd0) as Hq. rewrite E in Hq. by inversion Hq. }
  destruct (o_type order) as [|[[[]|[]|]|[[]|[]|]|]|[]]; try done; try apply cancel_shape.
  - apply rest_shape; eauto.
  - case_match; [done|apply cancel_shape].
  - destruct (abs_side (other sd) ab) as [|r l] eqn:E; [done|]. split; [done|]. intros sd'. cbn [snd].
    rewrite abs_side_set_cases. case_decide; [|done]. rewrite <- E.
    apply Forall_insert_decl; [eauto|done].
  - destruct (abs_side sd ab) as [|r l] eqn:E; [done|].
    apply rest_shape; [|by eauto]. intros x _. exists r. split; [by eapply Hhead|done].
Qed.
End shape.

Section run.
Context (code : Z).

Lemma spec_run_volume n ab os :
  book_inv (n + 1) ab -> ids_from n os -> Forall order_ok os ->
  book_volume ((spec_run code ab os).2) + 2 * traded ((spec_run code ab os).1)
    <= book_volume ab + order_volume os.
Proof.
  revert n ab. induction os as [|o os IH]; intros n ab Hb Hids Hok; simpl; [lia|].
  inversion_clear Hok as [|? ? Ho Hok']. pose proof (Hids 0%nat o eq_refl) as Hid.
  pose proof (spec_commit_volume code ab o (bi_vols _ _ Hb) (proj1 (proj2 Ho))) as Hc.
  pose proof (spec_commit_inv code (n + 1) ab o Hb ltac:(lia) Ho) as Hb'.
  destruct (spec_commit code ab o) as [ts ab']. simpl in Hc, Hb'.
  specialize (IH (n + 1) ab' Hb'). destruct (spec_run code ab' os) as [ts' ab'']. simpl in *.
  rewrite traded_app. enough (book_volume ab'' + 2 * traded ts' <= book_volume ab' + order_volume os) by lia.
  apply IH; [|done]. intros i x Hi. specialize (Hids (S i) x Hi). lia.
Qed.

(** Orders whose volumes fit an [int] together can all be committed. *)
Lemma run_ok_volume n ab os :
  book_inv (n + 1) ab -> ids_from n os -> Forall order_ok os ->
  book_volume ab + order_volume os <= INT_MAX -> run_ok code ab os.
Proof.
  revert n ab. induction os as [|o os IH]; intros n ab Hb Hids Hok Hfit; simpl in *; [done|].
  inversion_clear Hok as [|? ? Ho Hok']. pose proof (Hids 0%nat o eq_refl) as Hid.
  assert (Hpos : 0 <= order_volume os).
  { apply order_volume_nonneg. eapply Forall_impl; [exact Hok'|]. intros x [_ ?]. lia. }
  split; [done|]. split.
  - intros _ sd _. rewrite (book_volume_side sd) in Hfit.
    pose proof (volume_sum_nonneg _ (bi_vols _ _ Hb (other sd))). destruct Ho as [_ Ho]. lia.
  - apply (IH (n + 1)); [by apply spec_commit_inv; [|lia|]| |done|].
    + intros i x Hi. specialize (Hids (S i) x Hi). lia.
    + pose proof (spec_commit_volume code ab o (bi_vols _ _ Hb) (proj1 (proj2 Ho))) as Hc.
      pose proof (spec_commit_inv code (n + 1) ab o Hb ltac:(lia) Ho) as Hb'.
      assert (0 <= traded ((spec_commit code ab o).1)); [|lia].
      apply traded_nonneg. destruct (spec_commit_shape code ab o (fun _ => True)) as [Ht _];
        [apply Hb|apply Ho|done|by intros; apply Forall_true|done|done|].
      eapply Forall_impl; [exact Ht|]. intros t (sd & r & r' & ? & ? & ? & ? & ?). simpl. lia.
Qed.
(** ** The trades of a run can be sent *)
Definition decl_image (r : DeclRecord) : Prop := is_int (r_order_id r) = true /\ valid_double (r_price r) = true.

Definition trade_good (t : Trade) : Prop :=
  valid_Trade t = true /\ t_stk_code t = code /\ 0 < t_volume t.

Lemma spec_run_trades n ab os :
  is_int code = true -> book_inv (n + 1) ab -> ids_from n os ->
  Forall (fun o => order_ok o /\ valid_Order o = true) os -> (forall sd, Forall decl_image (abs_side sd ab)) ->
  Forall trade_good ((spec_run code ab os).1).
Proof.
  intros Hcode. revert n ab. induction os as [|o os IH]; intros n ab Hb Hids Hok Himg; simpl; [constructor|].
  inversion_clear Hok as [|? ? [Ho Hvo] Hok']. pose proof (Hids 0%nat o eq_refl) as Hid.
  pose proof (spec_commit_inv code (n + 1) ab o Hb ltac:(lia) Ho) as Hb'.
  unfold valid_Order in Hvo. to_prop.
  destruct (spec_commit_shape code ab o decl_image) as [Ht Hi];
    [apply Hb|apply Ho|done|done|done|by intros r v [_ ?]|].
  destruct (spec_commit code ab o) as [ts ab']. simpl in *.
  specialize (IH (n + 1) ab' Hb'). destruct (spec_run code ab' os) as [ts' ab'']. simpl in *.
  apply Forall_app. split; [|apply IH; [|done|done]; intros i y Hy; specialize (Hids (S i) y Hy); lia].
  eapply Forall_impl; [exact Ht|]. intros t (sd & r & r' & [Hr1 Hr2] & [Hr3 Hr4] & [_ Hr'] & E & Hvol).
  assert (is_int (t_volume t) = true) by (apply is_int_spec; unfold INT_MIN, INT_MAX in *; lia).
  rewrite E. unfold trade_good, valid_Trade.
  destruct sd; cbn -[is_int valid_double]; rewrite ?andb_true_iff; split_and!; (done || lia).
Qed.
End run.
