(* ===== verification/Exchange.v ===== *)
(** * The exchange process ([src/exchange/exchange.cpp],
    [src/exchange/order_receiver.cpp])

    The exchange owns, for each of its stocks, a sliding window that the
    order receiver fills and a [StockExchange] whose thread empties it.
    [handle_order_msg] is one round of the order receiver, [stock_round] one
    round of [StockExchange::run]. *)

From stdpp Require Import gmap.
From S2P Require Import Prelude Double Bytes Config Types StdHeap DeclBook StockExchange.
From S2P Require Import SlidingWindow Messages.
#[local] Open Scope Z_scope.

Record Exchange := mkExchange {
  stock_exchange : gmap Z StockExchange;
  order_buffer : gmap Z (SlidingWindow Order);
}.

(** A value-initialised [Order]. *)
Definition Order_init : Order := mkOrder 0 0 0 0 dzero 0.

(** The loop of the constructor that collects the stocks of the partition,
    over [i = from, from + 1, ...]. *)
Fixpoint collect_codes (cfg : Config) (n : nat) (from : Z) : outcome (list Z) :=
  match n with
  | O => Done []
  | S n =>
      r ← int_mod from (exchange_num cfg);
      codes ← collect_codes cfg n (from + 1);
      Done (if r =? partition_idx cfg then from :: codes else codes)
  end.

Definition stk_codes (cfg : Config) : outcome (list Z) :=
  collect_codes cfg (Z.to_nat (stock_num cfg)) 1.

Fixpoint add_stocks (cfg : Config) (codes : list Z) (e : Exchange) : outcome Exchange :=
  match codes with
  | [] => Done e
  | code :: codes =>
      w ← new_SlidingWindow Order_init (sliding_window_size cfg);
      add_stocks cfg codes
        (mkExchange (<[code := new_StockExchange code]> (stock_exchange e))
           (<[code := w]> (order_buffer e)))
  end.

Definition new_Exchange (cfg : Config) : outcome Exchange :=
  codes ← stk_codes cfg;
  add_stocks cfg codes (mkExchange ∅ ∅).

Definition set_order_buffer (e : Exchange) (m : gmap Z (SlidingWindow Order)) : Exchange :=
  mkExchange (stock_exchange e) m.
Definition set_stock_exchange (e : Exchange) (m : gmap Z StockExchange) : Exchange :=
  mkExchange m (order_buffer e).

(** [Exchange::receiveOrder].  [at] throws on an unknown stock and [put] on a
    taken slot; both are caught, printed and forgotten. *)
Definition receiveOrder (cfg : Config) (e : Exchange) (order : Order) : outcome Exchange :=
  id ← int_sub (o_order_id order) 1;
  window_idx ← int_mod id (sliding_window_size cfg);
  catch_all
    (match order_buffer e !! o_stk_code order with
     | None => Fault Thrown
     | Some w =>
         w ← put w order (to_size window_idx);
         Done (set_order_buffer e (<[o_stk_code order := w]> (order_buffer e)))
     end)
    (Done e).

(** [while (order_buffer[stk_code].poll(order)) orders.push_back(order);].
    Each success clears a flag, so one iteration more than there are slots is
    enough. *)
Fixpoint poll_all (fuel : nat) (w : SlidingWindow Order) : outcome (list Order * SlidingWindow Order) :=
  match fuel with
  | O => Fault OutOfFuel
  | S fuel =>
      '(res, w) ← poll w;
      match res with
      | None => Done ([], w)
      | Some order => '(orders, w) ← poll_all fuel w; Done (order :: orders, w)
      end
  end.

(** [Exchange::comsumeOrder]: the orders, and the acknowledgement handed to
    [put_order_ack], if there is one.  [operator[]] creates an empty window for
    an unknown stock. *)
Definition comsumeOrder (e : Exchange) (stk_code : Z) : outcome (list Order * option OrderAck * Exchange) :=
  let w := default (mkSlidingWindow [] [] 0 0) (order_buffer e !! stk_code) in
  '(orders, w) ← poll_all (S (length (avaliable_ w))) w;
  let ack := option_map (fun order => mkOrderAck stk_code (o_order_id order)) (last orders) in
  Done (orders, ack, set_order_buffer e (<[stk_code := w]> (order_buffer e))).

Section rounds.
Context `{HeapLib}.

(** One round of [StockExchange::run] on the shared exchange. *)
Definition stock_round (e : Exchange) (stk_code : Z) : outcome (option OrderAck * Exchange) :=
  '(orders, ack, e) ← comsumeOrder e stk_code;
  match stock_exchange e !! stk_code with
  | None => Fault NullDeref
  | Some st =>
      st ← receive_all st orders;
      Done (ack, set_stock_exchange e (<[stk_code := st]> (stock_exchange e)))
  end.

(** [Exchange::handleSingleOrder]. *)
Definition handleSingleOrder (e : Exchange) (order : Order) : outcome (Z * Exchange) :=
  _ ← cassert ((o_stk_code order >=? 1) && (o_stk_code order <=? 10));
  match stock_exchange e !! o_stk_code order with
  | None => Fault NullDeref
  | Some st =>
      '(ret, st) ← StockExchange.receiveOrder st order;
      Done (0, set_stock_exchange e (<[o_stk_code order := st]> (stock_exchange e)))
  end.
End rounds.

(** ** The order receiver *)

(** [for (i < cnt) { get_elem_from_buf(...); receiveOrder(order); }]. *)
Fixpoint receive_elems (cfg : Config) (n : nat) (buf : bytes) (offset : nat) (e : Exchange) : outcome Exchange :=
  match n with
  | O => Done e
  | S n =>
      '(order, offset) ← get_elem_from_buf pod_Order buf offset;
      e ← receiveOrder cfg e order;
      receive_elems cfg n buf offset e
  end.

(** One message in [ExchangeOrderReceiver::run]. *)
Definition handle_order_msg (cfg : Config) (e : Exchange) (msg : bytes) : outcome Exchange :=
  '(msg_code, offset) ← get_elem_from_buf pod_uint32 (c_str msg) 0;
  _ ← ASSERT (msg_code =? ORDER_MSG);
  '(cnt, offset) ← get_elem_from_buf pod_uint32 (c_str msg) offset;
  receive_elems cfg (Z.to_nat cnt) (c_str msg) offset e.

(** ** Lemmas *)

(** Receiving the orders of a list. *)
Fixpoint receive_each (cfg : Config) (e : Exchange) (orders : list Order) : outcome Exchange :=
  match orders with
  | [] => Done e
  | order :: orders => e ← receiveOrder cfg e order; receive_each cfg e orders
  end.

Lemma receive_elems_each cfg xs pre rest e :
  well_padded pod_Order xs ->
  receive_elems cfg (length xs) (pre ++ store_list pod_Order xs ++ rest) (length pre) e
    = receive_each cfg e (map snd xs).
Proof.
  revert pre e. induction xs as [|[pad x] xs IH]; intros pre e Hxs; [done|].
  inversion_clear Hxs as [|? ? Hh Hxs']. destruct Hh as [Hpad Hx].
  unfold store_list. cbn [length receive_elems map concat snd receive_each].
  rewrite <- app_assoc, (get_elem_app pod_Order) by done. rewrite bind_Done.
  destruct (receiveOrder cfg e x) as [e'|]; [|done]. cbn [mbind outcome_bind].
  pose proof (IH (pre ++ store pod_Order pad x) e' Hxs') as IH'.
  rewrite length_app, (store_length pod_Order pad x Hpad), <- app_assoc in IH'. exact IH'.
Qed.

Lemma handle_order_msg_each cfg e xs :
  Z.of_nat (length xs) < 2 ^ 32 -> well_padded pod_Order xs ->
  handle_order_msg cfg e (message pod_Order ORDER_MSG xs) = receive_each cfg e (map snd xs).
Proof.
  intros Hn Hxs. unfold handle_order_msg.
  pose proof (read_code_message pod_Order ORDER_MSG xs ltac:(unfold ORDER_MSG; lia)) as Hc.
  unfold read_code in Hc. rewrite Hc, bind_Done. change (ASSERT (ORDER_MSG =? ORDER_MSG)) with (Done tt).
  rewrite bind_Done, (read_count_message pod_Order) by done. rewrite bind_Done, Nat2Z.id.
  pose proof (receive_elems_each cfg xs (store_int ORDER_MSG ++ store_int (Z.of_nat (length xs)))
    [Init.Byte.x00] e Hxs) as Hr.
  rewrite length_app, !store_int_length in Hr. rewrite <- Hr. unfold message, c_str.
  by rewrite <- !app_assoc.
Qed.

(** A window of one stock: position [i] holds the order with the id [i + 1]. *)
Record stock_window (code : Z) (w : SlidingWindow Order) (next : Z) (items : gmap Z Order) : Prop := {
  sw_ok : window_ok w next items;
  sw_ids i o : items !! i = Some o -> o_order_id o = i + 1 /\ o_stk_code o = code;
}.

(** The orders taken in one go: the run of positions from the head on. *)
Lemma poll_all_law fuel code w next items :
  stock_window code w next items ->
  (forall i o, items !! i = Some o -> i < next + Z.of_nat fuel - 1) -> (0 < fuel)%nat ->
  exists os w' items', poll_all fuel w = Done (os, w') /\
    stock_window code w' (next + Z.of_nat (length os)) items' /\ capacity_ w' = capacity_ w /\
    (forall k o, os !! k = Some o -> items !! (next + Z.of_nat k) = Some o) /\
    items !! (next + Z.of_nat (length os)) = None /\
    (forall i, next + Z.of_nat (length os) <= i -> items' !! i = items !! i).
Proof.
  revert w next items. induction fuel as [|fuel IH]; intros w next items [Hw Hids] Hf Hpos; [lia|].
  pose proof (poll_law _ _ _ Hw) as Hp. simpl. destruct (items !! next) as [o|] eqn:Eo.
  - destruct Hp as (w1 & -> & _ & Hw1 & Hc1). rewrite bind_Done.
    pose proof (Hf _ _ Eo). destruct fuel as [|fuel]; [lia|].
    destruct (IH w1 (next + 1) (delete next items)) as (os & w' & items' & E & Hw' & Hc' & Hos & Hno & Hrest).
    { split; [done|]. intros i x [_ Hx]%lookup_delete_Some. by apply Hids. }
    { intros i x [_ Hx]%lookup_delete_Some. pose proof (Hf _ _ Hx). lia. }
    { lia. }
    rewrite E, bind_Done. exists (o :: os), w', items'. simpl length.
    replace (next + Z.of_nat (S (length os))) with (next + 1 + Z.of_nat (length os)) by lia.
    split_and!; [done|done|congruence| | |].
    + intros [|k] x Hk; simpl in Hk; [by simplify_eq; rewrite Z.add_0_r|].
      replace (next + Z.of_nat (S k)) with (next + 1 + Z.of_nat k) by lia.
      specialize (Hos k x Hk). by apply lookup_delete_Some in Hos as [_ ?].
    + rewrite lookup_delete_ne in Hno by lia. done.
    + intros i Hi. rewrite Hrest by lia. apply lookup_delete_ne. lia.
  - destruct Hp as [-> _]. rewrite bind_Done. exists [], w, items. simpl. rewrite Z.add_0_r.
    split_and!; try done.
Qed.

(** Receiving an order whose position the window covers. *)
Lemma receiveOrder_law cfg e code w next items order :
  order_buffer e !! code = Some w -> stock_window code w next items ->
  capacity_ w = sliding_window_size cfg -> o_stk_code order = code ->
  is_int (o_order_id order) = true ->
  next <= o_order_id order - 1 < next + sliding_window_size cfg ->
  match items !! (o_order_id order - 1) with
  | Some _ => receiveOrder cfg e order = Done e
  | None => exists w', receiveOrder cfg e order = Done (set_order_buffer e (<[code := w']> (order_buffer e)))
      /\ stock_window code w' next (<[o_order_id order - 1 := order]> items) /\ capacity_ w' = capacity_ w
  end.
Proof.
  intros Hb [Hw Hids] Hcap Hcode Hint Hr. apply is_int_spec in Hint.
  pose proof (wk_next _ _ _ Hw) as Hn. pose proof (wk_cap _ _ _ Hw) as Hc.
  unfold receiveOrder. rewrite int_sub_ok by (unfold INT_MIN, INT_MAX in *; lia).
  rewrite bind_Done, int_mod_ok by lia. rewrite bind_Done, Hcode, Hb, <- Hcap.
  pose proof (slot_bound (capacity_ w) (o_order_id order - 1) ltac:(lia)) as Hs.
  rewrite to_size_small by (unfold INT_MAX in *; lia).
  pose proof (put_law w next items (o_order_id order - 1) order Hw ltac:(lia)) as Hp.
  destruct (items !! (o_order_id order - 1)); [by rewrite Hp|].
  destruct Hp as (w' & -> & Hw' & Hc'). exists w'. split; [done|]. split; [|done].
  split; [done|]. intros i o. destruct (decide (i = o_order_id order - 1)) as [->|].
  - rewrite lookup_insert_eq. intros [= <-]. split; [lia|done].
  - rewrite lookup_insert_ne by done. apply Hids.
Qed.
