(* ===== verification/ExchangeProps.v ===== *)
(** * Properties of the exchange process

    Which stocks an exchange serves, what arrives from the messages of the
    traders, and what the stock threads take out of the windows. *)

From stdpp Require Import gmap.
From S2P Require Import Prelude Double Bytes Config Types StdHeap DeclBook StockExchange.
From S2P Require Import BlockQueue SlidingWindow Messages Exchange.
#[local] Open Scope Z_scope.

(** ** Support *)
Lemma collect_codes_spec cfg n from :
  0 < exchange_num cfg -> 0 <= from ->
  exists codes, collect_codes cfg n from = Done codes /\
    forall code, code ∈ codes <->
      from <= code < from + Z.of_nat n /\ code mod exchange_num cfg = partition_idx cfg.
Proof.
  intros He. revert from. induction n as [|n IH]; intros from Hf; simpl.
  { exists []. split; [done|]. intros code. rewrite elem_of_nil. lia. }
  rewrite int_mod_ok, bind_Done by lia.
  destruct (IH (from + 1)) as (codes & -> & Hcodes); [lia|]. rewrite bind_Done.
  eexists. split; [done|]. intros code.
  destruct (Z.eqb_spec (from mod exchange_num cfg) (partition_idx cfg)) as [E|E].
  - rewrite elem_of_cons, Hcodes. split.
    + intros [->|[? ?]]; split; (done || lia).
    + intros [? ?]. destruct (decide (code = from)); [by left|right; split; [lia|done]].
  - rewrite Hcodes. split; intros [? ?]; (split; [|done]); [lia|].
    destruct (decide (code = from)) as [->|]; [done|lia].
Qed.

(** The two maps cover the same stocks, with fresh windows and engines. *)
Lemma add_stocks_spec cfg codes e w0 :
  new_SlidingWindow Order_init (sliding_window_size cfg) = Done w0 ->
  exists e', add_stocks cfg codes e = Done e' /\
    forall code,
      order_buffer e' !! code = (if decide (code ∈ codes) then Some w0 else order_buffer e !! code) /\
      stock_exchange e' !! code =
        (if decide (code ∈ codes) then Some (new_StockExchange code) else stock_exchange e !! code).
Proof.
  intros Hw. revert e. induction codes as [|c codes IH]; intros e; simpl.
  { exists e. split; [done|]. intros code. split; try case_decide; set_solver. }
  rewrite Hw, bind_Done. edestruct IH as (e' & -> & He'). exists e'. split; [done|].
  intros code. destruct (He' code) as [-> ->]. cbn [order_buffer stock_exchange]. clear IH He' Hw.
  destruct (decide (code = c)) as [->|Hne];
    rewrite ?lookup_insert_eq, ?lookup_insert_ne by done;
    repeat case_decide; rewrite ?elem_of_cons in *; (done || tauto).
Qed.

(** The constructor of the exchange. *)
Lemma new_Exchange_spec cfg :
  0 < exchange_num cfg -> 0 < sliding_window_size cfg <= INT_MAX -> 0 <= stock_num cfg ->
  exists e, new_Exchange cfg = Done e /\
    forall code,
      (1 <= code <= stock_num cfg /\ code mod exchange_num cfg = partition_idx cfg <->
       is_Some (order_buffer e !! code)) /\
      (is_Some (order_buffer e !! code) <-> stock_exchange e !! code = Some (new_StockExchange code)) /\
      (forall w, order_buffer e !! code = Some w ->
         stock_window code w 0 ∅ /\ capacity_ w = sliding_window_size cfg) /\
      (is_Some (stock_exchange e !! code) -> is_Some (order_buffer e !! code)).
Proof.
  intros He Hw Hs. unfold new_Exchange, stk_codes.
  destruct (collect_codes_spec cfg (Z.to_nat (stock_num cfg)) 1 He) as (codes & -> & Hcodes); [lia|].
  rewrite bind_Done.
  destruct (new_SlidingWindow Order_init (sliding_window_size cfg)) as [w0|] eqn:Ew;
    [|unfold new_SlidingWindow in Ew; case_if; [lia|done]].
  destruct (add_stocks_spec cfg codes (mkExchange ∅ ∅) w0 Ew) as (e & -> & Hspec).
  exists e. split; [done|]. intros code. destruct (Hspec code) as [-> ->].
  cbn [order_buffer stock_exchange]. rewrite !lookup_empty. specialize (Hcodes code). split_and!.
  - case_decide as Hin; [|split; [|by intros []]]; [split; [eauto|]|].
    + intros _. apply Hcodes in Hin. lia.
    + intros ?. destruct Hin. apply Hcodes. lia.
  - case_decide; split; try done; eauto.
  - intros w. case_decide; [|done]. intros [= <-]. split; [split; [|done]|].
    + by eapply new_window_ok.
    + unfold new_SlidingWindow in Ew. case_if; [done|]. by simplify_eq.
  - case_decide; [eauto|by intros []].
Qed.

(** A small configuration: two stocks, two exchanges, windows of three slots. *)
Definition demo_cfg (partition : Z) : Config := {|
  data_folder := ""; trade_output_folder := ""; network_config_file := "";
  partition_idx := partition; sliding_window_size := 3; stock_num := 2;
  trader_num := 2; exchange_num := 2;
  loader_nx_matrix := 2; loader_ny_matrix := 1; loader_nz_matrix := 2; load_mode := 2;
  traders_addr := []; exchanges_addr := []; trader_port2exchange_port := [] |}.

Definition demo_o (id : Z) : Order := mkOrder 1 id 1 0 (double_of_Z 10) 5.

(** ** The properties *)

(** C23: Every stock is served by exactly the exchange the traders send its
    orders to.  The constructor of the exchange with index [p] succeeds and
    creates a window, empty and of the configured size, and an engine for
    exactly the stocks [code] from 1 to [stock_num] with
    [code % exchange_num = p], the index under which the trader controller picks
    the order sender. *)
Theorem exchange_serves_its_stocks cfg :
  0 < exchange_num cfg -> 0 < sliding_window_size cfg <= INT_MAX -> 0 <= stock_num cfg ->
  exists e, new_Exchange cfg = Done e /\
    forall code,
      (1 <= code <= stock_num cfg /\ code mod exchange_num cfg = partition_idx cfg <->
       is_Some (order_buffer e !! code)) /\
      (is_Some (order_buffer e !! code) <-> stock_exchange e !! code = Some (new_StockExchange code)) /\
      (forall w, order_buffer e !! code = Some w ->
         stock_window code w 0 ∅ /\ capacity_ w = sliding_window_size cfg).
Proof.
  intros He Hw Hs. destruct (new_Exchange_spec cfg He Hw Hs) as (e & E & Hspec).
  exists e. split; [done|]. intros code. by destruct (Hspec code) as (? & ? & ? & _).
Qed.

Lemma exchange_serves_its_stocks_witness :
  exists e, new_Exchange (demo_cfg 1) = Done e /\ is_Some (order_buffer e !! 1) /\
    ~ is_Some (order_buffer e !! 2).
Proof.
  destruct (exchange_serves_its_stocks (demo_cfg 1)) as (e & He & Hc);
    [reflexivity|vm_compute; split; congruence|vm_compute; congruence|].
  exists e. split; [exact He|]. split.
  - apply (proj1 (Hc 1)). split; [vm_compute; split; congruence|reflexivity].
  - intros H. apply (proj1 (Hc 2)) in H. destruct H as [_ H]. vm_compute in H. discriminate H.
Defined.

(** C24: The order channel loses nothing.  The message the order sender builds
    from its queue holds the first queued order, spinning while there is none;
    and a message with any list of orders, whatever their padding bytes hold,
    is received by the exchange as exactly these orders, one after the other. *)
Theorem order_channel_round_trip Q `{Fifo Q Order} cfg e :
  (forall pad (q : Q), fifo_ok q ->
     match fifo_contents q with
     | [] => next_order_msg pad q = Blocked
     | order :: l => exists q',
         next_order_msg pad q = Ran (Done (message pod_Order ORDER_MSG [(pad, order)], q')) /\
         fifo_contents q' = l
     end) /\
  (forall xs, Z.of_nat (length xs) < 2 ^ 32 -> well_padded pod_Order xs ->
     handle_order_msg cfg e (message pod_Order ORDER_MSG xs) = receive_each cfg e (map snd xs)).
Proof.
  split.
  - intros pad q Hq. pose proof (next_order_msg_law pad q Hq) as Hn.
    destruct (fifo_contents q); [done|]. destruct Hn as (q' & -> & _ & Hc). eauto.
  - intros xs Hn Hxs. by apply handle_order_msg_each.
Qed.

Lemma order_channel_round_trip_witness :
  let q := Stl.mkBlockQueueSTL [demo_o 1; demo_o 2] (-1) in
  let pad := replicate 4 Init.Byte.x00 in
  exists q' e' msg, next_order_msg pad q = Ran (Done (msg, q')) /\
    Stl.m_queue q' = [demo_o 2] /\
    handle_order_msg (demo_cfg 1) (mkExchange ∅ ∅) msg = Done e'.
Proof.
  intros q pad.
  destruct (order_channel_round_trip (Stl.BlockQueueSTL Order) (demo_cfg 1) (mkExchange ∅ ∅)) as [Hsend Hrecv].
  destruct (Hsend pad q I) as (q' & Hmsg & Hc).
  eexists q', _, _. split; [exact Hmsg|]. split; [exact Hc|].
  rewrite Hrecv; [vm_compute; reflexivity|vm_compute; reflexivity|].
  constructor; [split; vm_compute; reflexivity|constructor].
Defined.

(** C25: What [Exchange::receiveOrder] does with an order.  An order whose
    position the window of its stock covers is stored if its slot is free;
    if the slot is taken, or the stock is not one of this exchange, the order
    is dropped and the exchange unchanged. *)
Theorem exchange_receiveOrder_cases cfg e order :
  is_int (o_order_id order) = true -> 0 < o_order_id order -> 0 < sliding_window_size cfg ->
  (order_buffer e !! o_stk_code order = None -> receiveOrder cfg e order = Done e) /\
  (forall w next items,
     order_buffer e !! o_stk_code order = Some w -> stock_window (o_stk_code order) w next items ->
     capacity_ w = sliding_window_size cfg ->
     next < o_order_id order <= next + sliding_window_size cfg ->
     match items !! (o_order_id order - 1) with
     | Some _ => receiveOrder cfg e order = Done e
     | None => exists w',
         receiveOrder cfg e order =
           Done (set_order_buffer e (<[o_stk_code order := w']> (order_buffer e))) /\
         stock_window (o_stk_code order) w' next (<[o_order_id order - 1 := order]> items)
     end).
Proof.
  intros Hint Hpos HW. split.
  - intros Hno. apply is_int_spec in Hint. unfold receiveOrder.
    rewrite int_sub_ok by (unfold INT_MIN, INT_MAX in *; lia).
    rewrite bind_Done, int_mod_ok by lia. by rewrite bind_Done, Hno.
  - intros w next items Hb Hw Hcap Hr.
    pose proof (receiveOrder_law cfg e _ w next items order Hb Hw Hcap eq_refl Hint ltac:(lia)) as Hl.
    destruct (items !! (o_order_id order - 1)); [done|]. destruct Hl as (w' & ? & ? & _). eauto.
Qed.

(** The demo exchange with the order 2 of stock 1 waiting in its window. *)
Definition demo_window : SlidingWindow Order :=
  mkSlidingWindow [Order_init; demo_o 2; Order_init] [false; true; false] 3 0.
Definition demo_items : gmap Z Order := {[1 := demo_o 2]}.
Definition demo_exchange : Exchange := mkExchange {[1 := new_StockExchange 1]} {[1 := demo_window]}.

Lemma demo_window_ok : stock_window 1 demo_window 0 demo_items.
Proof.
  assert (Hlook : forall i o, demo_items !! i = Some o -> i = 1 /\ o = demo_o 2)
    by (intros i o Hi; unfold demo_items in Hi; by apply lookup_singleton_Some in Hi as [<- <-]).
  split; [split|].
  - done.
  - done.
  - vm_compute. split; congruence.
  - lia.
  - done.
  - intros i x Hx. destruct (Hlook _ _ Hx) as [-> _]. simpl. lia.
  - intros i Hi. simpl in Hi. unfold demo_items.
    assert (i = 0 \/ i = 1 \/ i = 2) as [->|[->| ->]] by lia; vm_compute; done.
  - intros i x Hx. destruct (Hlook _ _ Hx) as [-> ->]. done.
  - intros i x Hx. destruct (Hlook _ _ Hx) as [-> ->]. done.
Qed.

Lemma exchange_receiveOrder_cases_witness :
  receiveOrder (demo_cfg 1) demo_exchange (demo_o 2) = Done demo_exchange /\
  exists w', receiveOrder (demo_cfg 1) demo_exchange (demo_o 3) =
    Done (set_order_buffer demo_exchange (<[1 := w']> (order_buffer demo_exchange))).
Proof.
  split.
  - apply (proj2 (exchange_receiveOrder_cases (demo_cfg 1) demo_exchange (demo_o 2) eq_refl eq_refl eq_refl)
      demo_window 0 demo_items); [reflexivity|exact demo_window_ok|reflexivity|vm_compute; split; congruence].
  - destruct (proj2 (exchange_receiveOrder_cases (demo_cfg 1) demo_exchange (demo_o 3) eq_refl eq_refl eq_refl)
      demo_window 0 demo_items) as (w' & E & _);
      [reflexivity|exact demo_window_ok|reflexivity|vm_compute; split; congruence|].
    exists w'. exact E.
Defined.

(** C22: [comsumeOrder] takes out the orders that continue the sequence of ids
    and acknowledges the last one.  If the orders up to the id [next] have been
    taken out before, it returns orders with the ids [next + 1], [next + 2],
    ... , all it can without a gap; the acknowledgement carries the last of
    these ids, and there is none when there was no order. *)
Theorem comsumeOrder_consecutive e code w next items :
  order_buffer e !! code = Some w -> stock_window code w next items ->
  exists os ack w' items', comsumeOrder e code =
      Done (os, ack, set_order_buffer e (<[code := w']> (order_buffer e))) /\
    stock_window code w' (next + Z.of_nat (length os)) items' /\
    (forall k o, os !! k = Some o -> o_order_id o = next + 1 + Z.of_nat k /\ o_stk_code o = code) /\
    (forall o, items !! (next + Z.of_nat (length os)) <> Some o) /\
    (forall i o, next + Z.of_nat (length os) <= i -> items' !! i = Some o <-> items !! i = Some o) /\
    ack = (if decide (os = []) then None else Some (mkOrderAck code (next + Z.of_nat (length os)))).
Proof.
  intros Hb Hw. pose proof Hw as [Hwin Hids].
  destruct (poll_all_law (S (length (avaliable_ w))) code w next items Hw) as
    (os & w' & items' & E & Hw' & _ & Hos & Hno & Hrest).
  { intros i o Hi. pose proof (wk_range _ _ _ Hwin _ _ Hi). pose proof (wk_avail _ _ _ Hwin). lia. }
  { lia. }
  assert (Hid : forall k o, os !! k = Some o -> o_order_id o = next + 1 + Z.of_nat k /\ o_stk_code o = code).
  { intros k o Hk. destruct (Hids _ _ (Hos k o Hk)). split; [lia|done]. }
  unfold comsumeOrder. rewrite Hb. cbn [from_option id]. cbv zeta. rewrite E, bind_Done.
  eexists os, _, w', items'. split; [done|]. split_and!; try done.
  - intros o. by rewrite Hno.
  - intros i o Hi. by rewrite Hrest.
  - destruct os as [|o os _] using rev_ind; [done|]. rewrite decide_False by (by destruct os).
    rewrite last_snoc. cbn [option_map]. do 2 f_equal.
    destruct (Hid (length os) o) as [-> _]; [by apply list_lookup_middle|].
    rewrite length_app. simpl. lia.
Qed.

Lemma comsumeOrder_consecutive_witness :
  exists os ack w', comsumeOrder demo_exchange 1 =
      Done (os, ack, set_order_buffer demo_exchange (<[1 := w']> (order_buffer demo_exchange))) /\
    os = [] /\ ack = None.
Proof.
  destruct (comsumeOrder_consecutive demo_exchange 1 demo_window 0 demo_items) as
    (os & ack & w' & items' & E & _ & _ & _ & _ & Hack); [reflexivity|exact demo_window_ok|].
  exists os, ack, w'. split; [exact E|]. vm_compute in E. injection E as <- <- _. split; reflexivity.
Defined.

(** C27: The window does not recognise an order it has already delivered.  If
    the orders up to the id [next] have been taken out and the slot is free, an
    order with an id among the last [sliding_window_size] of those is stored
    at the position of the id [sliding_window_size] higher, where the order
    with that id will then find its slot taken and be dropped. *)
Theorem stale_order_takes_slot cfg e order w next items :
  is_int (o_order_id order) = true -> 0 < o_order_id order ->
  order_buffer e !! o_stk_code order = Some w -> window_ok w next items ->
  capacity_ w = sliding_window_size cfg ->
  next - sliding_window_size cfg < o_order_id order <= next ->
  items !! (o_order_id order - 1 + sliding_window_size cfg) = None ->
  exists w', receiveOrder cfg e order =
      Done (set_order_buffer e (<[o_stk_code order := w']> (order_buffer e))) /\
    window_ok w' next (<[o_order_id order - 1 + sliding_window_size cfg := order]> items) /\
    (forall later, o_stk_code later = o_stk_code order ->
       o_order_id later = o_order_id order + sliding_window_size cfg ->
       is_int (o_order_id later) = true ->
       let e' := set_order_buffer e (<[o_stk_code order := w']> (order_buffer e)) in
       receiveOrder cfg e' later = Done e').
Proof.
  intros Hint Hpos Hb Hw Hcap Hr Hfree. apply is_int_spec in Hint.
  pose proof (wk_cap _ _ _ Hw) as Hc. set (W := sliding_window_size cfg) in *.
  assert (Hmod : (o_order_id order - 1 + W) mod W = (o_order_id order - 1) mod W)
    by (rewrite <- (Z.mul_1_l W) at 1; by rewrite Z.mod_add by lia).
  pose proof (slot_bound W (o_order_id order - 1) ltac:(lia)) as Hs.
  pose proof (put_law w next items (o_order_id order - 1 + W) order Hw ltac:(lia)) as Hp.
  rewrite Hfree, Hcap, Hmod in Hp. destruct Hp as (w' & Hput & Hw' & Hcap').
  exists w'. split; [|split; [done|]].
  - unfold receiveOrder. rewrite int_sub_ok by (unfold INT_MIN, INT_MAX in *; lia).
    rewrite bind_Done. fold W. rewrite int_mod_ok by lia. rewrite bind_Done, Hb.
    rewrite to_size_small by (unfold INT_MAX in *; lia). by rewrite Hput.
  - intros later Hcode Hid Hli. apply is_int_spec in Hli. cbv zeta.
    unfold receiveOrder. rewrite int_sub_ok by (unfold INT_MIN, INT_MAX in *; lia).
    rewrite bind_Done. fold W. rewrite int_mod_ok by lia. rewrite bind_Done.
    rewrite to_size_small by (pose proof (slot_bound W (o_order_id later - 1) ltac:(lia)); unfold INT_MAX in *; lia).
    cbn [order_buffer set_order_buffer]. rewrite Hcode, lookup_insert_eq.
    pose proof (put_law w' next _ (o_order_id order - 1 + W) later Hw' ltac:(lia)) as Hp.
    rewrite lookup_insert_eq, Hcap' in Hp.
    replace (o_order_id later - 1) with (o_order_id order - 1 + W) by lia. by rewrite Hp.
Qed.

(** The same window after the orders 1 and 2 have been taken out. *)
Definition demo_drained : Exchange :=
  mkExchange {[1 := new_StockExchange 1]}
    {[1 := mkSlidingWindow [demo_o 1; demo_o 2; Order_init] [false; false; false] 3 2]}.

Lemma stale_order_takes_slot_witness :
  exists w', receiveOrder (demo_cfg 1) demo_drained (demo_o 1) =
    Done (set_order_buffer demo_drained (<[1 := w']> (order_buffer demo_drained))) /\
    window_ok w' 2 {[3 := demo_o 1]}.
Proof.
  destruct (stale_order_takes_slot (demo_cfg 1) demo_drained (demo_o 1)
    (mkSlidingWindow [demo_o 1; demo_o 2; Order_init] [false; false; false] 3 2) 2 ∅) as (w' & E & Hw & _);
    try reflexivity.
  - split; try done.
    intros i Hi. simpl in Hi. rewrite lookup_empty.
    assert (i = 2 \/ i = 3 \/ i = 4) as [->|[->| ->]] by lia; reflexivity.
  - vm_compute. split; congruence.
  - exists w'. split; [exact E|exact Hw].
Defined.
