(* ===== verification/Trader.v ===== *)
(** * The trader controller ([src/trader/trader_controller.h],
    [src/trader/trader_controller.cpp])

    The information its thread shares with the trade receiver
    ([SharedTradeInfo], every method under its mutex), the test that decides
    whether an order may be sent, and one round of [run_all_in_memory]. *)

From stdpp Require Import gmap.
From S2P Require Import Prelude Double Bytes Config Types BlockQueue.
#[local] Open Scope Z_scope.

(** ** [SharedTradeInfo] *)
Record SharedTradeInfo := mkSharedTradeInfo {
  sliding_window_start : list Z;
  hooked_trade : list (gmap Z Z);
}.

Definition new_SharedTradeInfo (cfg : Config) (in_hooked_trade : list (gmap Z Z)) : SharedTradeInfo :=
  mkSharedTradeInfo (replicate (Z.to_nat (stock_num cfg)) 1) in_hooked_trade.

Definition update_sliding_window_start (s : SharedTradeInfo) (stock_code new_sliding_window_start : Z)
    : outcome SharedTradeInfo :=
  i ← int_sub stock_code 1;
  start ← array_get (sliding_window_start s) i;
  _ ← cassert (new_sliding_window_start >=? start);
  l ← array_set (sliding_window_start s) i new_sliding_window_start;
  Done (mkSharedTradeInfo l (hooked_trade s)).

Definition get_sliding_window_start (s : SharedTradeInfo) (stock_code : Z) : outcome Z :=
  i ← int_sub stock_code 1;
  array_get (sliding_window_start s) i.

Definition update_if_hooked (s : SharedTradeInfo) (stock_code trade_idx volume : Z)
    : outcome SharedTradeInfo :=
  i ← int_sub stock_code 1;
  m ← array_get (hooked_trade s) i;
  match m !! trade_idx with
  | None => Done s
  | Some v =>
      _ ← cassert (v =? -1);
      l ← array_set (hooked_trade s) i (<[trade_idx := volume]> m);
      Done (mkSharedTradeInfo (sliding_window_start s) l)
  end.

Definition get_hooked_volume (s : SharedTradeInfo) (stock_code trade_idx : Z) : outcome Z :=
  i ← int_sub stock_code 1;
  m ← array_get (hooked_trade s) i;
  match m !! trade_idx with
  | Some v => Done v
  | None => Fault AssertFailed
  end.

(** ** [TraderController] *)
Record TraderController := mkTraderController {
  price_limits : list (list double);
  hook : list (gmap Z HookTarget);
  sorted_order_structs : list (list SortStruct);
  oim : OrderInfoMatrix;
  next_sorted_struct_idx : list Z;
}.

(** The price limits of stock [t]: [price_limits[k][t]]. *)
Definition price_limit (tc : TraderController) (k t : Z) : outcome double :=
  l ← array_get (price_limits tc) k;
  array_get l t.

(** [check_order]: whether the order may be sent, and the order as the test
    leaves it. *)
Definition check_order (tc : TraderController) (s : SharedTradeInfo) (order : Order)
    (order_id_upper_limits stk_code_minus_one : Z) : outcome (bool * Order) :=
  if o_order_id order >=? order_id_upper_limits then Done (false, order)
  else
    h ← array_get (hook tc) stk_code_minus_one;
    '(ready, order) ←
      match h !! o_order_id order with
      | None => Done (true, order)
      | Some ht =>
          v ← get_hooked_volume s (target_stk_code ht) (target_trade_idx ht);
          if v =? -1 then Done (false, order)
          else if v >? arg ht then Done (true, set_o_type order (-1))
          else Done (true, order)
      end;
    if negb ready then Done (false, order)
    else if o_type order =? 0 then
      lo ← price_limit tc 0 stk_code_minus_one;
      if dlt (o_price order) lo then Done (true, set_o_type order (-1))
      else
        hi ← price_limit tc 1 stk_code_minus_one;
        if dgt (o_price order) hi then Done (true, set_o_type order (-1))
        else Done (true, order)
    else Done (true, order).

Section run.
Context (cfg : Config).
Implicit Types (tc : TraderController).

(** The inner loop of [run_all_in_memory] for stock [t], from index [ss_idx]
    of its sorted orders on ([structs] are those from there).  The other
    threads may change the shared information between two tests: [info i] is
    what the test of the order at index [i] sees. *)
Fixpoint collect_orders tc (info : Z -> SharedTradeInfo) (t order_id_limits : Z)
    (structs : list SortStruct) (ss_idx : Z) : outcome (list Order * Z) :=
  match structs with
  | [] => Done ([], ss_idx)
  | ss :: structs =>
      order ← generate_order (stock_num cfg) (oim tc) (t + 1) ss
                (loader_nx_matrix cfg) (loader_ny_matrix cfg) (loader_nz_matrix cfg);
      '(ok, order) ← check_order tc (info ss_idx) order order_id_limits t;
      if negb ok then Done ([], ss_idx)
      else
        '(orders, ss_idx) ← collect_orders tc info t order_id_limits structs (ss_idx + 1);
        Done (order :: orders, ss_idx)
  end.

(** The body of the loop over the stocks; [start_info] is what
    [get_sliding_window_start] sees. *)
Definition collect_stock tc (start_info : SharedTradeInfo) (info : Z -> SharedTradeInfo) (t : Z)
    : outcome (list Order * TraderController) :=
  start ← get_sliding_window_start start_info (t + 1);
  order_id_limits ← int_add start (sliding_window_size cfg);
  ss_idx ← array_get (next_sorted_struct_idx tc) t;
  structs ← array_get (sorted_order_structs tc) t;
  '(orders, ss_idx') ← collect_orders tc info t order_id_limits (drop (Z.to_nat ss_idx) structs) ss_idx;
  l ← array_set (next_sorted_struct_idx tc) t ss_idx';
  Done (orders, mkTraderController (price_limits tc) (hook tc) (sorted_order_structs tc) (oim tc) l).

Fixpoint collect_stocks tc (obs : Z -> SharedTradeInfo * (Z -> SharedTradeInfo)) (n : nat) (t : Z)
    : outcome (list Order * TraderController) :=
  match n with
  | O => Done ([], tc)
  | S n =>
      '(orders, tc) ← collect_stock tc (obs t).1 (obs t).2 t;
      '(rest, tc) ← collect_stocks tc obs n (t + 1);
      Done (orders ++ rest, tc)
  end.

(** [for (auto& order : order_to_send) order_senders_[idx]->put_order(order)];
    a full queue makes the thread wait. *)
Fixpoint put_orders `{Fifo Q Order} (queues : list Q) (orders : list Order) : attempt (list Q) :=
  match orders with
  | [] => Ran (Done queues)
  | order :: orders =>
      match int_mod (o_stk_code order) (exchange_num cfg) with
      | Fault f => Ran (Fault f)
      | Done idx =>
          match array_get queues idx with
          | Fault f => Ran (Fault f)
          | Done q =>
              match fifo_put q order with
              | Blocked => Blocked
              | Ran (Fault f) => Ran (Fault f)
              | Ran (Done q) =>
                  match array_set queues idx q with
                  | Fault f => Ran (Fault f)
                  | Done queues => put_orders queues orders
                  end
              end
          end
      end
  end.

(** One round of the [while (work_flag)] loop up to the sends: the orders to
    send. *)
Definition collect_round tc (obs : Z -> SharedTradeInfo * (Z -> SharedTradeInfo))
    : outcome (list Order * TraderController) :=
  collect_stocks tc obs (Z.to_nat (stock_num cfg)) 0.
End run.
