(* ===== verification/TraderProps.v ===== *)
(** * Properties of the trader controller

    When an order may be sent, and which orders a round sends. *)

From stdpp Require Import gmap.
From S2P Require Import Prelude Double Bytes Config Types BlockQueue Trader.
#[local] Open Scope Z_scope.

(** ** Generating an order from the matrices *)
Record matrix_ok (cfg : Config) (m : OrderInfoMatrix) : Prop := {
  mk_nx : 0 < loader_nx_matrix cfg;
  mk_ny : 0 < loader_ny_matrix cfg;
  mk_nz : 0 < loader_nz_matrix cfg;
  mk_stocks : 0 < stock_num cfg;
  mk_fits : loader_nx_matrix cfg * (loader_ny_matrix cfg * loader_nz_matrix cfg) <= INT_MAX;
  mk_direction : Z.of_nat (length (direction_matrix m)) = loader_nx_matrix cfg * (loader_ny_matrix cfg * loader_nz_matrix cfg);
  mk_type : Z.of_nat (length (type_matrix m)) = loader_nx_matrix cfg * (loader_ny_matrix cfg * loader_nz_matrix cfg);
  mk_price : Z.of_nat (length (price_matrix m)) = loader_nx_matrix cfg * (loader_ny_matrix cfg * loader_nz_matrix cfg);
  mk_volume : Z.of_nat (length (volume_matrix m)) = loader_nx_matrix cfg * (loader_ny_matrix cfg * loader_nz_matrix cfg);
}.

(** The coordinates lie in the matrices and belong to stock [t + 1]. *)
Record struct_ok (cfg : Config) (t : Z) (ss : SortStruct) : Prop := {
  so_x : get_x (ss_coor ss) < loader_nx_matrix cfg;
  so_y : get_y (ss_coor ss) < loader_ny_matrix cfg;
  so_z : get_z (ss_coor ss) < loader_nz_matrix cfg;
  so_stock : get_x (ss_coor ss) mod stock_num cfg = t;
}.

Lemma coor_nonneg c : 0 <= get_x c /\ 0 <= get_y c /\ 0 <= get_z c.
Proof.
  unfold get_x, get_y, get_z. rewrite !land_1023.
  split_and!; apply Z.mod_pos_bound; lia.
Qed.

Lemma in_range_true x n : 0 <= x < n -> in_range x n = true.
Proof. unfold in_range. lia. Qed.

Lemma matrix_index_ok x y z nx ny nz :
  0 <= x < nx -> 0 <= y < ny -> 0 <= z < nz -> nx * (ny * nz) <= INT_MAX ->
  matrix_index x y z ny nz = Done (x * (ny * nz) + y * nz + z) /\
  0 <= x * (ny * nz) + y * nz + z < nx * (ny * nz).
Proof.
  intros Hx Hy Hz Hfit.
  assert (Hp : 0 <= ny * nz) by nia. assert (Hyz : 0 <= y * nz /\ y * nz + z < ny * nz) by nia.
  assert (Hxp : 0 <= x * (ny * nz) /\ x * (ny * nz) + ny * nz <= nx * (ny * nz)) by nia.
  unfold matrix_index, INT_MAX in *.
  assert (Hint : forall v, 0 <= v <= 2147483647 -> INT_MIN <= v <= INT_MAX)
    by (unfold INT_MIN, INT_MAX; lia).
  rewrite (int_mul_ok ny nz), bind_Done by (apply Hint; nia).
  rewrite (int_mul_ok x), bind_Done by (apply Hint; lia).
  rewrite (int_mul_ok y), bind_Done by (apply Hint; lia).
  rewrite (int_add_ok (x * (ny * nz))), bind_Done by (apply Hint; lia).
  rewrite int_add_ok by (apply Hint; lia). split; [done|lia].
Qed.

(** The linear index of a coordinate triple. *)
Definition linear_index (cfg : Config) (c : Z) : Z :=
  get_x c * (loader_ny_matrix cfg * loader_nz_matrix cfg) + get_y c * loader_nz_matrix cfg + get_z c.

Lemma generate_order_ok cfg m t ss :
  matrix_ok cfg m -> struct_ok cfg t ss ->
  exists d ty p v,
    generate_order (stock_num cfg) m (t + 1) ss
      (loader_nx_matrix cfg) (loader_ny_matrix cfg) (loader_nz_matrix cfg)
      = Done (mkOrder (t + 1) (ss_order_id ss) d ty p v) /\
    direction_matrix m !! Z.to_nat (linear_index cfg (ss_coor ss)) = Some d /\
    type_matrix m !! Z.to_nat (linear_index cfg (ss_coor ss)) = Some ty /\
    price_matrix m !! Z.to_nat (linear_index cfg (ss_coor ss)) = Some p /\
    volume_matrix m !! Z.to_nat (linear_index cfg (ss_coor ss)) = Some v.
Proof.
  intros [] []. pose proof (coor_nonneg (ss_coor ss)) as (Hx & Hy & Hz).
  destruct (matrix_index_ok (get_x (ss_coor ss)) (get_y (ss_coor ss)) (get_z (ss_coor ss))
    (loader_nx_matrix cfg) (loader_ny_matrix cfg) (loader_nz_matrix cfg)) as [Ei Hi]; [lia..|].
  unfold generate_order, linear_index.
  rewrite !in_range_true by lia. cbn [andb cassert]. cbv zeta.
  rewrite bind_Done, int_mod_ok, bind_Done, so_stock0, Z.eqb_refl by lia.
  cbn [cassert]. rewrite bind_Done, Ei, bind_Done.
  destruct (array_get_total (direction_matrix m)
    (get_x (ss_coor ss) * (loader_ny_matrix cfg * loader_nz_matrix cfg) + get_y (ss_coor ss) * loader_nz_matrix cfg + get_z (ss_coor ss)))
    as (d & Hd & ->); [lia|].
  destruct (array_get_total (type_matrix m)
    (get_x (ss_coor ss) * (loader_ny_matrix cfg * loader_nz_matrix cfg) + get_y (ss_coor ss) * loader_nz_matrix cfg + get_z (ss_coor ss)))
    as (ty & Hty & ->); [lia|].
  destruct (array_get_total (price_matrix m)
    (get_x (ss_coor ss) * (loader_ny_matrix cfg * loader_nz_matrix cfg) + get_y (ss_coor ss) * loader_nz_matrix cfg + get_z (ss_coor ss)))
    as (p & Hpr & ->); [lia|].
  destruct (array_get_total (volume_matrix m)
    (get_x (ss_coor ss) * (loader_ny_matrix cfg * loader_nz_matrix cfg) + get_y (ss_coor ss) * loader_nz_matrix cfg + get_z (ss_coor ss)))
    as (v & Hv & ->); [lia|].
  rewrite !bind_Done. by exists d, ty, p, v.
Qed.

(** ** What [check_order] needs *)
Record check_env (tc : TraderController) (s : SharedTradeInfo) (t : Z)
    (h : gmap Z HookTarget) (lo hi : double) : Prop := {
  ce_hook : array_get (hook tc) t = Done h;
  ce_lo : price_limit tc 0 t = Done lo;
  ce_hi : price_limit tc 1 t = Done hi;
  ce_targets id ht : h !! id = Some ht ->
    exists v, get_hooked_volume s (target_stk_code ht) (target_trade_idx ht) = Done v;
}.

(** The test depends on the hooks and the price limits only. *)
Lemma check_order_ext tc tc' s o limit t :
  hook tc' = hook tc -> price_limits tc' = price_limits tc ->
  check_order tc' s o limit t = check_order tc s o limit t.
Proof. intros Eh Ep. unfold check_order, price_limit. by rewrite Eh, Ep. Qed.

(** The verdict on an order. *)
Inductive verdict := Wait | Cancel | Send.

Definition hook_verdict (s : SharedTradeInfo) (h : gmap Z HookTarget) (order : Order) : verdict :=
  match h !! o_order_id order with
  | None => Send
  | Some ht =>
      match get_hooked_volume s (target_stk_code ht) (target_trade_idx ht) with
      | Done v => if v =? -1 then Wait else if v >? arg ht then Cancel else Send
      | Fault _ => Wait
      end
  end.

Definition price_verdict (lo hi : double) (order : Order) : verdict :=
  if (o_type order =? 0) && (dlt (o_price order) lo || dgt (o_price order) hi) then Cancel else Send.

Definition order_verdict (s : SharedTradeInfo) (h : gmap Z HookTarget) (lo hi : double)
    (limit : Z) (order : Order) : verdict :=
  if o_order_id order >=? limit then Wait
  else match hook_verdict s h order with
       | Wait => Wait
       | Cancel => Cancel
       | Send => price_verdict lo hi order
       end.

Definition verdict_result (v : verdict) (order : Order) : bool * Order :=
  match v with
  | Wait => (false, order)
  | Cancel => (true, set_o_type order (-1))
  | Send => (true, order)
  end.

Lemma check_order_verdict tc s t h lo hi limit order :
  check_env tc s t h lo hi ->
  check_order tc s order limit t = Done (verdict_result (order_verdict s h lo hi limit order) order).
Proof.
  intros [Hh Hlo Hhi Ht]. unfold check_order, order_verdict, hook_verdict.
  destruct (o_order_id order >=? limit); [done|]. rewrite Hh, bind_Done.
  assert (Hprice : (if o_type order =? 0 then
      lo ← price_limit tc 0 t;
      if dlt (o_price order) lo then Done (true, set_o_type order (-1))
      else hi ← price_limit tc 1 t;
           if dgt (o_price order) hi then Done (true, set_o_type order (-1)) else Done (true, order)
    else Done (true, order)) = Done (verdict_result (price_verdict lo hi order) order)).
  { unfold price_verdict. rewrite Hlo, Hhi, !bind_Done. destruct (o_type order =? 0); [|done].
    destruct (dlt (o_price order) lo); [done|]. by destruct (dgt (o_price order) hi). }
  destruct (h !! o_order_id order) as [ht|] eqn:Eh; [|rewrite bind_Done; exact Hprice].
  destruct (Ht _ _ Eh) as [v ->]. rewrite bind_Done.
  destruct (v =? -1); [done|]. destruct (v >? arg ht); [done|]. rewrite bind_Done. exact Hprice.
Qed.

(** ** What a round sends *)

(** The orders sent, and how many of the structs they use up. *)
Fixpoint sendable (vd : Z -> SortStruct -> verdict) (gen : SortStruct -> Order)
    (structs : list SortStruct) (i : Z) : list Order :=
  match structs with
  | [] => []
  | ss :: structs =>
      match vd i ss with
      | Wait => []
      | v => (verdict_result v (gen ss)).2 :: sendable vd gen structs (i + 1)
      end
  end.

Lemma collect_orders_sendable cfg tc info t limit h lo hi structs i :
  matrix_ok cfg (oim tc) -> Forall (struct_ok cfg t) structs ->
  (forall j, check_env tc (info j) t h lo hi) ->
  exists gen, (forall ss, ss ∈ structs -> o_order_id (gen ss) = ss_order_id ss /\ o_stk_code (gen ss) = t + 1 /\
      generate_order (stock_num cfg) (oim tc) (t + 1) ss
        (loader_nx_matrix cfg) (loader_ny_matrix cfg) (loader_nz_matrix cfg) = Done (gen ss)) /\
    let orders := sendable (fun j ss => order_verdict (info j) h lo hi limit (gen ss)) gen structs i in
    collect_orders cfg tc info t limit structs i = Done (orders, i + Z.of_nat (length orders)).
Proof.
  intros Hm Hs Henv.
  set (gen := fun ss => match generate_order (stock_num cfg) (oim tc) (t + 1) ss
        (loader_nx_matrix cfg) (loader_ny_matrix cfg) (loader_nz_matrix cfg) with
      | Done o => o | Fault _ => mkOrder 0 0 0 0 dzero 0 end).
  exists gen.
  assert (Hgen : forall ss, struct_ok cfg t ss -> o_order_id (gen ss) = ss_order_id ss /\ o_stk_code (gen ss) = t + 1 /\
      generate_order (stock_num cfg) (oim tc) (t + 1) ss
        (loader_nx_matrix cfg) (loader_ny_matrix cfg) (loader_nz_matrix cfg) = Done (gen ss)).
  { intros ss Hss. destruct (generate_order_ok cfg (oim tc) t ss Hm Hss) as (d & ty & p & v & E & _).
    unfold gen. by rewrite E. }
  split; [rewrite Forall_forall in Hs; auto|]. cbv zeta.
  revert i. induction Hs as [|ss structs Hss Hs IH]; intros i;
    cbn [collect_orders sendable length]; [by rewrite Z.add_0_r|].
  destruct (Hgen ss Hss) as (_ & _ & ->). rewrite bind_Done.
  rewrite (check_order_verdict _ _ _ h lo hi) by done. rewrite bind_Done.
  destruct (order_verdict (info i) h lo hi limit (gen ss));
    cbn [verdict_result negb length]; [by rewrite Z.add_0_r|..];
    rewrite (IH (i + 1)), bind_Done; do 2 f_equal; lia.
Qed.

Lemma sendable_prefix vd gen structs i :
  let orders := sendable vd gen structs i in
  (length orders <= length structs)%nat /\
  (forall k o, orders !! k = Some o -> exists ss, structs !! k = Some ss /\ vd (i + Z.of_nat k) ss <> Wait /\
     o = (verdict_result (vd (i + Z.of_nat k) ss) (gen ss)).2) /\
  (forall ss, structs !! length orders = Some ss -> vd (i + Z.of_nat (length orders)) ss = Wait).
Proof.
  revert i. induction structs as [|ss structs IH]; intros i; simpl; [split_and!; done|].
  specialize (IH (i + 1)). cbv zeta in IH. destruct IH as (IH1 & IH2 & IH3).
  set (rest := sendable vd gen structs (i + 1)) in *.
  assert (Hgo : vd i ss <> Wait ->
    let orders := (verdict_result (vd i ss) (gen ss)).2 :: rest in
    (length orders <= length (ss :: structs))%nat /\
    (forall k o, orders !! k = Some o -> exists x, (ss :: structs) !! k = Some x /\
       vd (i + Z.of_nat k) x <> Wait /\ o = (verdict_result (vd (i + Z.of_nat k) x) (gen x)).2) /\
    (forall x, (ss :: structs) !! length orders = Some x -> vd (i + Z.of_nat (length orders)) x = Wait)).
  { intros Hne. cbv zeta. split_and!; [simpl; lia| |].
    - intros [|k] o Hk; simpl in Hk.
      + injection Hk as <-. exists ss. by rewrite Z.add_0_r.
      + destruct (IH2 k o Hk) as (x & Hx & Hv & Ho). exists x.
        replace (i + Z.of_nat (S k)) with (i + 1 + Z.of_nat k) by lia. done.
    - intros x Hx. cbn [length]. replace (i + Z.of_nat (S (length rest))) with (i + 1 + Z.of_nat (length rest)) by lia.
      by apply IH3. }
  destruct (vd i ss) eqn:Ev; [|by apply Hgo..].
  simpl. split_and!; [lia|done|]. intros x [= <-]. by rewrite Z.add_0_r.
Qed.

Lemma verdict_result_fields v o :
  o_order_id (verdict_result v o).2 = o_order_id o /\ o_stk_code (verdict_result v o).2 = o_stk_code o.
Proof. by destruct v. Qed.

Lemma price_verdict_spec lo hi order :
  price_verdict lo hi order <> Wait /\
  (price_verdict lo hi order = Cancel <->
     o_type order = 0 /\ (dlt (o_price order) lo = true \/ dgt (o_price order) hi = true)).
Proof.
  unfold price_verdict. destruct (Z.eqb_spec (o_type order) 0); simpl; [|by split; [|split; [|intros []]]].
  destruct (dlt (o_price order) lo), (dgt (o_price order) hi); simpl; split; try done;
    split; try done; try (intros [_ [|]]; done); auto.
Qed.

Lemma hook_verdict_spec s (h : gmap Z HookTarget) order :
  (forall ht, h !! o_order_id order = Some ht ->
     exists v, get_hooked_volume s (target_stk_code ht) (target_trade_idx ht) = Done v) ->
  (hook_verdict s h order = Wait <-> exists ht, h !! o_order_id order = Some ht /\
     get_hooked_volume s (target_stk_code ht) (target_trade_idx ht) = Done (-1)) /\
  (hook_verdict s h order = Cancel <-> exists ht v, h !! o_order_id order = Some ht /\
     get_hooked_volume s (target_stk_code ht) (target_trade_idx ht) = Done v /\ v <> -1 /\ arg ht < v) /\
  (hook_verdict s h order = Send <-> forall ht v, h !! o_order_id order = Some ht ->
     get_hooked_volume s (target_stk_code ht) (target_trade_idx ht) = Done v -> v <> -1 /\ v <= arg ht).
Proof.
  intros Henv. unfold hook_verdict. destruct (h !! o_order_id order) as [ht|] eqn:Eh;
    [|split_and!; split; try done; [by intros (? & ? & _)|by intros (? & ? & ? & _)]].
  destruct (Henv _ eq_refl) as [v Ev]. rewrite Ev.
  destruct (Z.eqb_spec v (-1)) as [->|Hv]; [|destruct (Z.gtb_spec v (arg ht)) as [Ha|Ha]].
  - split_and!; split; try done; [eauto| |].
    + intros (? & w & [= <-] & E & ? & _). congruence.
    + intros Hall. by destruct (Hall ht (-1) eq_refl Ev).
  - split_and!; split; try done; [|eauto 8|].
    + intros (? & [= <-] & E). congruence.
    + intros Hall. destruct (Hall ht v eq_refl Ev). lia.
  - split_and!; split; try done.
    + intros (? & [= <-] & E). congruence.
    + intros (? & w & [= <-] & E & _ & ?). rewrite Ev in E. injection E as <-. lia.
    + intros _ ? w [= <-] E. rewrite Ev in E. by injection E as <-.
Qed.

(** A trader of one stock with two orders, the second behind a hook. *)
Definition demo_tcfg : Config := {|
  data_folder := ""; trade_output_folder := ""; network_config_file := "";
  partition_idx := 0; sliding_window_size := 3; stock_num := 1;
  trader_num := 1; exchange_num := 1;
  loader_nx_matrix := 1; loader_ny_matrix := 1; loader_nz_matrix := 2; load_mode := 2;
  traders_addr := []; exchanges_addr := []; trader_port2exchange_port := [] |}.
Definition demo_hooks : gmap Z HookTarget := {[2 := mkHookTarget 1 1 10]}.
Definition demo_structs : list SortStruct := [mkSortStruct 1 (set_coor 0 0 0); mkSortStruct 2 (set_coor 0 0 1)].
Definition demo_tc : TraderController :=
  mkTraderController [[double_of_Z 9]; [double_of_Z 11]] [demo_hooks] [demo_structs]
    (mkOrderInfoMatrix [1; 1] [0; 0] [double_of_Z 10; double_of_Z 12] [5; 6]) [0].
(** The hooked trade has volume [v], -1 while it has not been reported. *)
Definition demo_info (v : Z) : SharedTradeInfo := mkSharedTradeInfo [1] [{[1 := v]}].

Lemma demo_env v : check_env demo_tc (demo_info v) 0 demo_hooks (double_of_Z 9) (double_of_Z 11).
Proof.
  split; try reflexivity. intros id ht Hid. unfold demo_hooks in Hid.
  apply lookup_singleton_Some in Hid as [<- <-]. exists v. reflexivity.
Qed.

(** ** The properties *)

(** C18: The test of the trader controller on an order.  It makes the order
    wait if its id has not come under the limit or the hooked trade has not
    been reported; it cancels the order (type -1) if the hooked trade's volume
    exceeds the hook's argument, or if it is a limit order outside of the
    price limits of its stock; otherwise the order goes out as it is.  The
    target stock's volume is looked up only for orders with a hook. *)
Theorem check_order_decides tc s t h lo hi limit order :
  check_env tc s t h lo hi ->
  check_order tc s order limit t =
    Done (match order_verdict s h lo hi limit order with
          | Wait => (false, order)
          | Cancel => (true, set_o_type order (-1))
          | Send => (true, order)
          end) /\
  (order_verdict s h lo hi limit order = Wait <->
     limit <= o_order_id order \/
     exists ht, h !! o_order_id order = Some ht /\
       get_hooked_volume s (target_stk_code ht) (target_trade_idx ht) = Done (-1)) /\
  (order_verdict s h lo hi limit order = Cancel <->
     o_order_id order < limit /\
     ((exists ht v, h !! o_order_id order = Some ht /\
         get_hooked_volume s (target_stk_code ht) (target_trade_idx ht) = Done v /\ v <> -1 /\ arg ht < v) \/
      (forall ht v, h !! o_order_id order = Some ht ->
         get_hooked_volume s (target_stk_code ht) (target_trade_idx ht) = Done v -> v <> -1 /\ v <= arg ht) /\
      o_type order = 0 /\ (dlt (o_price order) lo = true \/ dgt (o_price order) hi = true))).
Proof.
  intros Henv. split; [by rewrite (check_order_verdict tc s t h lo hi); [destruct (order_verdict _ _ _ _ _ _)|]|].
  pose proof (price_verdict_spec lo hi order) as [Hpw Hpc].
  pose proof (hook_verdict_spec s h order (fun ht => ce_targets _ _ _ _ _ _ Henv _ ht)) as (Hhw & Hhc & Hhs).
  unfold order_verdict. destruct (Z.geb_spec (o_order_id order) limit) as [Hl|Hl];
    [split; split; try done; [by left|lia]|].
  destruct (hook_verdict s h order).
  - split; split; try done; [right; by apply Hhw|].
    intros [_ [Hc|(Hs & _)]]; [by apply Hhc in Hc|by apply Hhs in Hs].
  - split; split; try done; [|by split; [|left; apply Hhc]].
    intros [?|Hw]; [lia|by apply Hhw in Hw].
  - split; split.
    + intros ?. by destruct Hpw.
    + intros [?|Hw]; [lia|by apply Hhw in Hw].
    + intros Hc. apply Hpc in Hc. split; [done|]. right. split; [by apply Hhs|done].
    + intros [_ [Hc|(_ & Hc)]]; [by apply Hhc in Hc|by apply Hpc].
Qed.

Lemma check_order_decides_witness :
  check_order demo_tc (demo_info (-1)) (mkOrder 1 2 1 0 (double_of_Z 10) 6) 4 0
    = Done (false, mkOrder 1 2 1 0 (double_of_Z 10) 6) /\
  check_order demo_tc (demo_info 20) (mkOrder 1 2 1 0 (double_of_Z 10) 6) 4 0
    = Done (true, mkOrder 1 2 1 (-1) (double_of_Z 10) 6).
Proof.
  split.
  - rewrite (proj1 (check_order_decides demo_tc (demo_info (-1)) 0 demo_hooks _ _ 4
      (mkOrder 1 2 1 0 (double_of_Z 10) 6) (demo_env (-1)))). vm_compute. reflexivity.
  - rewrite (proj1 (check_order_decides demo_tc (demo_info 20) 0 demo_hooks _ _ 4
      (mkOrder 1 2 1 0 (double_of_Z 10) 6) (demo_env 20))). vm_compute. reflexivity.
Defined.

(** C20: What a round sends for a stock.  The loop ends; the orders are the next
    ones of the stock's sorted list, in its order and without a gap, each with
    an id below [start + sliding_window_size] for the window start read at the
    begin; the index moves past exactly these; and if orders are left, the
    next one is beyond the window or waits for its hook. *)
Theorem collect_stock_sends_in_order cfg tc start_info info t start idx structs h lo hi :
  matrix_ok cfg (oim tc) -> array_get (sorted_order_structs tc) t = Done structs ->
  array_get (next_sorted_struct_idx tc) t = Done idx -> 0 <= idx ->
  Forall (struct_ok cfg t) structs ->
  (forall j, check_env tc (info j) t h lo hi) ->
  get_sliding_window_start start_info (t + 1) = Done start ->
  INT_MIN <= start + sliding_window_size cfg <= INT_MAX ->
  exists orders tc', collect_stock cfg tc start_info info t = Done (orders, tc') /\
    next_sorted_struct_idx tc' =
      <[Z.to_nat t := idx + Z.of_nat (length orders)]> (next_sorted_struct_idx tc) /\
    (forall k o, orders !! k = Some o -> exists ss, structs !! (Z.to_nat idx + k)%nat = Some ss /\
       o_order_id o = ss_order_id ss /\ o_stk_code o = t + 1 /\
       o_order_id o < start + sliding_window_size cfg) /\
    (forall ss, structs !! (Z.to_nat idx + length orders)%nat = Some ss ->
       start + sliding_window_size cfg <= ss_order_id ss \/
       exists ht, h !! ss_order_id ss = Some ht /\
         get_hooked_volume (info (idx + Z.of_nat (length orders))) (target_stk_code ht) (target_trade_idx ht)
           = Done (-1)).
Proof.
  intros Hm Hstructs Hidx Hpos Hok Henv Hstart Hint.
  unfold collect_stock. rewrite Hstart, bind_Done. rewrite int_add_ok, bind_Done by done.
  rewrite Hidx, bind_Done, Hstructs, bind_Done.
  destruct (collect_orders_sendable cfg tc info t (start + sliding_window_size cfg) h lo hi
    (drop (Z.to_nat idx) structs) idx Hm) as (gen & Hgen & E); [by apply Forall_drop|done|].
  set (vd := fun j ss => order_verdict (info j) h lo hi (start + sliding_window_size cfg) (gen ss)) in *.
  cbv zeta in E. rewrite E, bind_Done.
  pose proof (sendable_prefix vd gen (drop (Z.to_nat idx) structs) idx) as (Hlen & Hpre & Hstop).
  set (orders := sendable vd gen (drop (Z.to_nat idx) structs) idx) in *.
  apply array_get_inv in Hidx as [Ht Hidx]. pose proof (lookup_lt_Some _ _ _ Hidx).
  rewrite array_set_ok, bind_Done by lia.
  assert (Hwait : forall j ss, ss ∈ drop (Z.to_nat idx) structs -> vd j ss = Wait ->
    start + sliding_window_size cfg <= ss_order_id ss \/
       exists ht, h !! ss_order_id ss = Some ht /\
         get_hooked_volume (info j) (target_stk_code ht) (target_trade_idx ht) = Done (-1)).
  { intros j ss Hss Hvd. destruct (Hgen ss Hss) as (Eid & _). rewrite <- Eid. revert Hvd.
    unfold vd, order_verdict, hook_verdict, price_verdict.
    destruct (o_order_id (gen ss) >=? start + sliding_window_size cfg) eqn:El; [intros _; left; lia|].
    destruct (h !! o_order_id (gen ss)) as [ht|] eqn:Eh; [|by case_if].
    destruct (ce_targets _ _ _ _ _ _ (Henv j) _ _ Eh) as [v Ev]. rewrite Ev.
    destruct (Z.eqb_spec v (-1)) as [->|]; [intros _; right; eauto|]. by repeat case_if. }
  eexists orders, _. split; [done|]. split; [done|]. split.
  - intros k o Hk. destruct (Hpre k o Hk) as (ss & Hss & Hv & ->).
    destruct (verdict_result_fields (vd (idx + Z.of_nat k) ss) (gen ss)) as [-> ->].
    destruct (Hgen ss (list_elem_of_lookup_2 _ _ _ Hss)) as (Eid & Ecode & _).
    exists ss. rewrite lookup_drop in Hss. split_and!; [done|done|done|].
    revert Hv. unfold vd, order_verdict. case_if; [done|lia].
  - intros ss Hss. rewrite <- lookup_drop in Hss. apply Hwait; [by eapply list_elem_of_lookup_2|by apply Hstop].
Qed.

Lemma collect_stock_sends_in_order_witness :
  exists orders tc', collect_stock demo_tcfg demo_tc (demo_info (-1)) (fun _ => demo_info (-1)) 0 = Done (orders, tc') /\
    map o_order_id orders = [1] /\ next_sorted_struct_idx tc' = [1].
Proof.
  destruct (collect_stock_sends_in_order demo_tcfg demo_tc (demo_info (-1)) (fun _ => demo_info (-1)) 0 1 0
    demo_structs demo_hooks (double_of_Z 9) (double_of_Z 11)) as (orders & tc' & E & _);
    try reflexivity; try lia.
  - split; vm_compute; congruence.
  - repeat constructor; vm_compute; reflexivity.
  - intros j. apply demo_env.
  - split; vm_compute; congruence.
  - exists orders, tc'. split; [exact E|]. vm_compute in E. injection E as <- <-. split; reflexivity.
Defined.

(** C28: The information the threads share moves one way.  A window start only
    grows, an update below it stops the trader; the volume of a hooked trade
    is set once, by the first trade with its index, a second update of it
    stops the trader; updates of other trades change nothing. *)
Theorem shared_info_updates s code i start m idx volume new :
  int_sub code 1 = Done i -> array_get (sliding_window_start s) i = Done start ->
  array_get (hooked_trade s) i = Done m ->
  (start <= new -> exists s', update_sliding_window_start s code new = Done s' /\
     get_sliding_window_start s' code = Done new /\ hooked_trade s' = hooked_trade s /\
     forall code', code' <> code -> get_sliding_window_start s' code' = get_sliding_window_start s code') /\
  (new < start -> update_sliding_window_start s code new = Fault AssertFailed) /\
  (m !! idx = None -> update_if_hooked s code idx volume = Done s) /\
  (m !! idx = Some (-1) -> exists s', update_if_hooked s code idx volume = Done s' /\
     get_hooked_volume s' code idx = Done volume /\ sliding_window_start s' = sliding_window_start s) /\
  (forall v, m !! idx = Some v -> v <> -1 -> update_if_hooked s code idx volume = Fault AssertFailed).
Proof.
  intros Hi Hs Hm. pose proof (array_get_inv _ _ _ Hs) as [Hi0 Hs'].
  pose proof (array_get_inv _ _ _ Hm) as [_ Hm'].
  pose proof (lookup_lt_Some _ _ _ Hs'). pose proof (lookup_lt_Some _ _ _ Hm').
  unfold update_sliding_window_start, get_sliding_window_start, update_if_hooked, get_hooked_volume.
  rewrite Hi, !bind_Done, Hs, Hm, !bind_Done. split_and!.
  - intros Hnew. rewrite Z.geb_leb, (proj2 (Z.leb_le _ _) Hnew). cbn [cassert].
    rewrite bind_Done, array_set_ok, bind_Done by lia. eexists. split; [done|]. cbn [sliding_window_start].
    split; [by apply array_get_ok; [lia|apply list_lookup_insert_eq; lia]|]. split; [done|].
    intros code' Hne. destruct (int_sub code' 1) as [j|f] eqn:Ej; [|done]. rewrite !bind_Done.
    assert (j <> i). { apply chk_int_inv in Ej as [-> _], Hi as [-> _]. lia. }
    unfold array_get. case_if; [done|]. by rewrite list_lookup_insert_ne by lia.
  - intros Hnew. rewrite Z.geb_leb, (proj2 (Z.leb_gt _ _) Hnew). done.
  - intros ->. done.
  - intros ->. cbn [cassert Z.eqb]. cbn. rewrite array_set_ok by lia. eexists. split; [done|].
    cbn [hooked_trade sliding_window_start]. split; [|done].
    rewrite (array_get_ok _ _ (<[idx:=volume]> m)); [|lia|apply list_lookup_insert_eq; lia].
    rewrite bind_Done. by rewrite lookup_insert_eq.
  - intros v -> Hv. by rewrite (proj2 (Z.eqb_neq _ _) Hv).
Qed.

Lemma shared_info_updates_witness :
  (exists s', update_sliding_window_start (demo_info (-1)) 1 4 = Done s' /\ get_sliding_window_start s' 1 = Done 4) /\
  update_if_hooked (demo_info 20) 1 1 30 = Fault AssertFailed.
Proof.
  split.
  - destruct (proj1 (shared_info_updates (demo_info (-1)) 1 0 1 {[1 := -1]} 1 0 4 eq_refl eq_refl eq_refl))
      as (s' & E & Eg & _); [lia|]. exists s'. split; [exact E|exact Eg].
  - apply (proj2 (proj2 (proj2 (proj2 (shared_info_updates (demo_info 20) 1 0 1 {[1 := 20]} 1 30 0 eq_refl eq_refl eq_refl)))) 20);
      [reflexivity|lia].
Defined.
