(* ===== verification/TradeReceiver.v ===== *)
(** * The trade receiver of the trader ([src/trader/trade_receiver.cpp])

    It appends the trades of each stock to a buffer and writes full buffers
    to the stock's file, counts them, reports hooked trades to the shared
    information, and turns acknowledgements into window starts.  The system
    calls [open], [write] and [fdatasync] are parameters. *)

From stdpp Require Import gmap.
From S2P Require Import Prelude Double Bytes Config Types BlockQueue Messages Trader.
#[local] Open Scope Z_scope.

Definition TRADE_BUF_THRESHOLD : Z := 100.
Definition EMPTY_FD : Z := -1.

(** The system calls: [sys_open] gives the descriptor of a stock's file
    (created empty, -1 on failure), [sys_write] returns a count and the new
    contents, [sys_fdatasync] a status. *)
Class FileIO := {
  sys_open : Z -> Z;
  sys_write : bytes -> bytes -> Z * bytes;
  sys_fdatasync : bytes -> Z;
}.

Record TraderTradeReceiver := mkReceiver {
  trade_fds_ : gmap Z Z;
  trade_buffer_ : gmap Z (list Trade);
  trade_idxs_ : gmap Z Z;
  (** contents of the open files by descriptor *)
  files : gmap Z bytes;
}.

(** The memory behind [buffer.data()]: [Trade] is packed. *)
Definition trades_data (buffer : list Trade) : bytes := concat (map store_Trade buffer).

Section receiver.
Context `{FileIO}.

(** The loop of the constructor over the stocks [from], [from + 1], ... *)
Fixpoint open_stocks (n : nat) (from : Z) (r : TraderTradeReceiver) : outcome TraderTradeReceiver :=
  match n with
  | O => Done r
  | S n =>
      let fd := sys_open from in
      if fd =? EMPTY_FD then Fault Thrown
      else open_stocks n (from + 1)
             (mkReceiver (<[from := fd]> (trade_fds_ r)) (<[from := []]> (trade_buffer_ r))
                (<[from := 1]> (trade_idxs_ r)) (<[fd := []]> (files r)))
  end.

Definition new_TraderTradeReceiver (cfg : Config) : outcome TraderTradeReceiver :=
  _ ← ASSERT (negb (String.eqb (trade_output_folder cfg) ""));
  open_stocks (Z.to_nat (stock_num cfg)) 1 (mkReceiver ∅ ∅ ∅ ∅).

(** [write] and [fdatasync] of a buffer, with the exceptions on failure.
    [operator[]] gives descriptor 0 for a stock that was not opened. *)
Definition write_buffer (r : TraderTradeReceiver) (code : Z) (buffer : list Trade)
    : outcome TraderTradeReceiver :=
  let fd := default 0 (trade_fds_ r !! code) in
  let data := trades_data buffer in
  let '(n, contents) := sys_write (default [] (files r !! fd)) data in
  if negb (to_size n =? Z.of_nat (length data)) then Fault Thrown
  else if negb (sys_fdatasync contents =? 0) then Fault Thrown
  else Done (mkReceiver (trade_fds_ r) (trade_buffer_ r) (trade_idxs_ r) (<[fd := contents]> (files r))).

Definition set_buffer (r : TraderTradeReceiver) (code : Z) (buffer : list Trade) : TraderTradeReceiver :=
  mkReceiver (trade_fds_ r) (<[code := buffer]> (trade_buffer_ r)) (trade_idxs_ r) (files r).

(** The body of the second loop of [process_trade_result]. *)
Definition process_trade (r : TraderTradeReceiver) (s : SharedTradeInfo) (trade : Trade)
    : outcome (TraderTradeReceiver * SharedTradeInfo) :=
  let code := t_stk_code trade in
  let trade_idx := default 0 (trade_idxs_ r !! code) in
  s ← update_if_hooked s code trade_idx (t_volume trade);
  next ← int_add trade_idx 1;
  let buffer := default [] (trade_buffer_ r !! code) ++ [trade] in
  let r := mkReceiver (trade_fds_ r) (<[code := buffer]> (trade_buffer_ r))
             (<[code := next]> (trade_idxs_ r)) (files r) in
  if Z.of_nat (length buffer) >=? TRADE_BUF_THRESHOLD then
    r ← write_buffer r code buffer;
    Done (set_buffer r code [], s)
  else Done (r, s).

Fixpoint process_trades (r : TraderTradeReceiver) (s : SharedTradeInfo) (trades : list Trade)
    : outcome (TraderTradeReceiver * SharedTradeInfo) :=
  match trades with
  | [] => Done (r, s)
  | trade :: trades => '(r, s) ← process_trade r s trade; process_trades r s trades
  end.

Definition process_trade_result (r : TraderTradeReceiver) (s : SharedTradeInfo) (msg : bytes)
    : outcome (TraderTradeReceiver * SharedTradeInfo) :=
  commTrades ← read_elems pod_CommTrade msg;
  process_trades r s (map convert_commtrade_to_trade commTrades).

(** [flush], over the stocks in the iteration order [codes] of the map. *)
Fixpoint flush_buffers (r : TraderTradeReceiver) (codes : list Z) : outcome TraderTradeReceiver :=
  match codes with
  | [] => Done r
  | code :: codes =>
      r ← write_buffer r code (default [] (trade_buffer_ r !! code));
      flush_buffers (set_buffer r code []) codes
  end.

Definition flush (r : TraderTradeReceiver) : outcome TraderTradeReceiver :=
  flush_buffers r (map fst (map_to_list (trade_buffer_ r))).
End receiver.

(** The second loop of [process_order_ack]. *)
Fixpoint update_starts (s : SharedTradeInfo) (acks : list OrderAck) : outcome SharedTradeInfo :=
  match acks with
  | [] => Done s
  | ack :: acks =>
      next ← int_add (a_order_id ack) 1;
      s ← update_sliding_window_start s (a_stk_code ack) next;
      update_starts s acks
  end.

Definition process_order_ack (s : SharedTradeInfo) (msg : bytes) : outcome SharedTradeInfo :=
  acks ← read_elems pod_OrderAck msg;
  update_starts s acks.

(** The dispatch of [TraderTradeReceiver::run] on one message. *)
Definition handle_msg `{FileIO} (r : TraderTradeReceiver) (s : SharedTradeInfo) (msg : bytes)
    : outcome (TraderTradeReceiver * SharedTradeInfo) :=
  '(msg_code, _) ← get_elem_from_buf pod_uint32 (c_str msg) 0;
  if msg_code =? ORDER_ACK_MSG then s ← process_order_ack s msg; Done (r, s)
  else if msg_code =? TRADE_MSG then process_trade_result r s msg
  else _ ← ASSERT false; Done (r, s).

Fixpoint handle_msgs `{FileIO} (r : TraderTradeReceiver) (s : SharedTradeInfo) (msgs : list bytes)
    : outcome (TraderTradeReceiver * SharedTradeInfo) :=
  match msgs with
  | [] => Done (r, s)
  | msg :: msgs => '(r, s) ← handle_msg r s msg; handle_msgs r s msgs
  end.

(** ** Reading a trade file ([src/output_diff.cpp])

    [read(fd, trade_buf, 24)] until it returns less than 24. *)
Fixpoint read_trades (fuel : nat) (contents : bytes) : list Trade :=
  match fuel with
  | O => []
  | S fuel =>
      if decide (24 <= length contents)%nat
      then load_Trade contents :: read_trades fuel (drop 24 contents)
      else []
  end.

Definition read_trade_from_file (contents : bytes) : list Trade :=
  read_trades (S (length contents)) contents.

(** [operator!=]. *)
Definition trade_ne (t1 t2 : Trade) : bool :=
  negb (t_stk_code t1 =? t_stk_code t2) || negb (t_ask_id t1 =? t_ask_id t2)
  || negb (t_bid_id t1 =? t_bid_id t2) || dne (t_price t1) (t_price t2)
  || negb (t_volume t1 =? t_volume t2).

(** The loop of [main] over the common indices: the first difference. *)
Fixpoint first_diff (answer output : list Trade) (i : Z) : option Z :=
  match answer, output with
  | t1 :: answer, t2 :: output => if trade_ne t1 t2 then Some i else first_diff answer output (i + 1)
  | _, _ => None
  end.
