(* ===== verification/TradeReceiverProps.v ===== *)
(** * Properties of the trade receiver

    The files of the trader hold the trades the exchanges sent, stock by
    stock and in order, and the hooks see the volumes of the right trades. *)

From stdpp Require Import gmap.
From S2P Require Import Prelude Double Bytes Config Types BlockQueue Messages Trader TradeReceiver.
#[local] Open Scope Z_scope.

(** ** Support *)

(** System calls that do what was asked. *)
Record reliable_io `{FileIO} : Prop := {
  rio_write old data : sys_write old data = (Z.of_nat (length data), old ++ data);
  rio_sync contents : sys_fdatasync contents = 0;
}.

(** The trades of a stock. *)
Definition by_code (code : Z) (ts : list Trade) : list Trade :=
  filter (fun t => t_stk_code t = code) ts.

Lemma by_code_app code ts t :
  by_code code (ts ++ [t]) = by_code code ts ++ (if decide (t_stk_code t = code) then [t] else []).
Proof. unfold by_code. by rewrite filter_app, filter_cons, filter_nil. Qed.

Lemma by_code_length code ts : (length (by_code code ts) <= length ts)%nat.
Proof. apply length_filter. Qed.

(** The value of the hooked trade with index [k]: the volume of the [k]-th
    trade, counting from 1, or -1 while there is none. *)
Definition hook_value (l : list Trade) (k : Z) : Z :=
  if k <? 1 then -1 else match l !! Z.to_nat (k - 1) with Some t => t_volume t | None => -1 end.

Lemma hook_value_app l t k :
  hook_value (l ++ [t]) k =
    if decide (k = Z.of_nat (length l) + 1) then t_volume t else hook_value l k.
Proof.
  unfold hook_value. case_decide as E.
  - destruct (Z.ltb_spec k 1); [lia|]. rewrite lookup_app_r by lia.
    by replace (Z.to_nat (k - 1) - length l)%nat with 0%nat by lia.
  - destruct (Z.ltb_spec k 1); [done|].
    destruct (decide (Z.to_nat (k - 1) < length l)%nat); [by rewrite lookup_app_l|].
    by rewrite !lookup_ge_None_2 by (rewrite ?length_app; simpl; lia).
Qed.

Lemma trades_data_app l l' : trades_data (l ++ l') = trades_data l ++ trades_data l'.
Proof. unfold trades_data. by rewrite map_app, concat_app. Qed.

(** ** The state of a receiver that has processed the trades [ts] *)
Record stock_state (n : Z) (code : Z) (ts : list Trade) (r : TraderTradeReceiver)
    (fd : Z) (b : list Trade) : Prop := {
  ss_fd : trade_fds_ r !! code = Some fd;
  ss_buffer : trade_buffer_ r !! code = Some b;
  ss_file : exists f, files r !! fd = Some f /\ f ++ trades_data b = trades_data (by_code code ts);
  ss_short : Z.of_nat (length b) < TRADE_BUF_THRESHOLD;
  ss_idx : trade_idxs_ r !! code = Some (Z.of_nat (length (by_code code ts)) + 1);
}.

Record recv_ok (n : Z) (ts : list Trade) (r : TraderTradeReceiver) : Prop := {
  ro_stock code : 1 <= code <= n -> exists fd b, stock_state n code ts r fd b;
  ro_fds code code' fd : trade_fds_ r !! code = Some fd -> trade_fds_ r !! code' = Some fd -> code = code';
  ro_keys code b : trade_buffer_ r !! code = Some b -> 1 <= code <= n;
}.

Record hooks_ok (n : Z) (ts : list Trade) (s : SharedTradeInfo) : Prop := {
  ho_length : Z.of_nat (length (hooked_trade s)) = n;
  ho_value code m k v : 1 <= code <= n -> hooked_trade s !! Z.to_nat (code - 1) = Some m ->
    m !! k = Some v -> v = hook_value (by_code code ts) k;
}.

Section receiver.
Context `{FileIO} (Hio : reliable_io) (n : Z).

(** Writing the buffer of a stock moves it to the file. *)
Lemma write_buffer_law ts r code fd b b' :
  recv_ok n ts r -> stock_state n code ts r fd b' -> Z.of_nat (length (trades_data b)) < 2 ^ 64 ->
  exists f r', files r !! fd = Some f /\ write_buffer r code b = Done r' /\
    r' = mkReceiver (trade_fds_ r) (trade_buffer_ r) (trade_idxs_ r) (<[fd := f ++ trades_data b]> (files r)).
Proof.
  intros Hr [Hfd _ (f & Hf & _) _ _] Hlen. exists f. eexists. split; [done|]. split; [|done].
  unfold write_buffer. rewrite Hfd. cbn [from_option id]. rewrite Hf. cbn [from_option id].
  rewrite (rio_write Hio), to_size_small, Z.eqb_refl, (rio_sync Hio) by lia. done.
Qed.

(** The state of the other stocks survives a change of one stock's maps. *)
Lemma other_stock ts ts' r code code' fd fd' b bs idx fs :
  recv_ok n ts r -> stock_state n code ts r fd b -> trade_fds_ r !! code' = Some fd' -> code <> code' ->
  by_code code ts' = by_code code ts ->
  stock_state n code ts' (mkReceiver (trade_fds_ r) (<[code' := bs]> (trade_buffer_ r))
    (<[code' := idx]> (trade_idxs_ r)) (<[fd' := fs]> (files r))) fd b.
Proof.
  intros Hr [Hfd Hb (f & Hf & Hd) Hs Hi] Hfd' Hne Hts. split; simpl; rewrite ?Hts; try done.
  - by rewrite lookup_insert_ne.
  - exists f. rewrite lookup_insert_ne; [done|]. intros ->.
    destruct Hne. by apply (ro_fds _ _ _ Hr _ _ fd).
  - by rewrite lookup_insert_ne.
Qed.

Lemma trades_data_length l : length (trades_data l) = (24 * length l)%nat.
Proof.
  induction l as [|t l IH]; [done|]. unfold trades_data in *. cbn [map concat].
  rewrite length_app, IH. unfold store_Trade.
  rewrite !length_app, !store_int_length, store_double_length. simpl. lia.
Qed.

(** Which trades are hooked. *)
Definition same_hooks (s s' : SharedTradeInfo) : Prop :=
  forall i k, is_Some (hooked_trade s !! i ≫= fun m => m !! k) <->
              is_Some (hooked_trade s' !! i ≫= fun m => m !! k).

Lemma by_code_same ts t : by_code (t_stk_code t) (ts ++ [t]) = by_code (t_stk_code t) ts ++ [t].
Proof. by rewrite by_code_app, decide_True. Qed.

Lemma by_code_other ts t code : code <> t_stk_code t -> by_code code (ts ++ [t]) = by_code code ts.
Proof. intros Hne. rewrite by_code_app, decide_False by congruence. by rewrite app_nil_r. Qed.

(** The report of a trade to the hooks. *)
Lemma update_hooks_law ts s t :
  hooks_ok n ts s -> 1 <= t_stk_code t <= n -> n <= INT_MAX ->
  exists s', update_if_hooked s (t_stk_code t) (Z.of_nat (length (by_code (t_stk_code t) ts)) + 1) (t_volume t)
      = Done s' /\ hooks_ok n (ts ++ [t]) s' /\
    sliding_window_start s' = sliding_window_start s /\ same_hooks s s'.
Proof.
  intros [Hhl Hhv] Hc Hn. set (code := t_stk_code t) in *. unfold update_if_hooked.
  rewrite int_sub_ok by (unfold INT_MIN, INT_MAX in *; lia). rewrite bind_Done.
  destruct (array_get_total (hooked_trade s) (code - 1)) as (m & Hm & ->); [lia|]. rewrite bind_Done.
  pose proof (lookup_lt_Some _ _ _ Hm) as Hlt.
  assert (Hkeep : forall code' m' k v, 1 <= code' <= n -> hooked_trade s !! Z.to_nat (code' - 1) = Some m' ->
    m' !! k = Some v -> (code' = code -> k <> Z.of_nat (length (by_code code ts)) + 1) ->
    v = hook_value (by_code code' (ts ++ [t])) k).
  { intros code' m' k v Hc' Hm' Hv Hk. destruct (decide (code' = code)) as [->|Hne].
    - unfold code. rewrite by_code_same, hook_value_app, decide_False by (by apply Hk). by eapply Hhv.
    - rewrite by_code_other by done. by eapply Hhv. }
  destruct (m !! (Z.of_nat (length (by_code code ts)) + 1)) as [v|] eqn:Ev.
  - pose proof (Hhv code m _ v Hc Hm Ev) as Ehv. unfold hook_value in Ehv.
    rewrite (lookup_ge_None_2 (by_code code ts)) in Ehv by lia.
    assert (v = -1) as -> by (by case_if). change (cassert (-1 =? -1)) with (Done tt). rewrite bind_Done.
    rewrite array_set_ok, bind_Done by lia.
    eexists. split; [done|]. split; [|split; [done|]].
    + split; simpl; [by rewrite length_insert|]. intros code' m' k v' Hc' Hm' Hv'.
      destruct (decide (code' = code)) as [->|Hne].
      * rewrite list_lookup_insert_eq in Hm' by done. injection Hm' as <-.
        destruct (decide (k = Z.of_nat (length (by_code code ts)) + 1)) as [->|Hk].
        -- rewrite lookup_insert_eq in Hv'. unfold code.
           rewrite by_code_same, hook_value_app, decide_True by done. congruence.
        -- rewrite lookup_insert_ne in Hv' by done. by eapply Hkeep.
      * rewrite list_lookup_insert_ne in Hm' by lia. by eapply Hkeep.
    + intros i k. simpl. destruct (decide (i = Z.to_nat (code - 1))) as [->|Hne].
      * rewrite list_lookup_insert_eq by done. rewrite Hm. simpl.
        destruct (decide (k = Z.of_nat (length (by_code code ts)) + 1)) as [->|].
        -- rewrite lookup_insert_eq, Ev. split; intros; eauto.
        -- by rewrite lookup_insert_ne.
      * by rewrite list_lookup_insert_ne.
  - exists s. split; [done|]. split; [|done]. split; [done|]. intros code' m' k v' Hc' Hm' Hv'.
    eapply Hkeep; eauto. intros -> ->. simplify_eq.
Qed.

(** The maps after the trade [t], with the buffer [b'] and file [f'] of its
    stock, whatever was written. *)
Lemma next_recv_ok ts r t fd b f b' f' :
  recv_ok n ts r -> stock_state n (t_stk_code t) ts r fd b -> files r !! fd = Some f ->
  f' ++ trades_data b' = f ++ trades_data (b ++ [t]) -> Z.of_nat (length b') < TRADE_BUF_THRESHOLD ->
  f ++ trades_data b = trades_data (by_code (t_stk_code t) ts) ->
  1 <= t_stk_code t <= n ->
  recv_ok n (ts ++ [t]) (mkReceiver (trade_fds_ r) (<[t_stk_code t := b']> (trade_buffer_ r))
    (<[t_stk_code t := Z.of_nat (length (by_code (t_stk_code t) ts)) + 1 + 1]> (trade_idxs_ r))
    (<[fd := f']> (files r))).
Proof.
  intros Hr Hst Hf Hf' Hb' Hd Hc. pose proof Hst as [Hfd _ _ _ _]. split.
  - intros code' Hc'. destruct (decide (code' = t_stk_code t)) as [->|Hne].
    + exists fd, b'. split; simpl; [done|by rewrite lookup_insert_eq| |done|].
      * exists f'. rewrite lookup_insert_eq. split; [done|].
        by rewrite Hf', by_code_same, !trades_data_app, app_assoc, Hd.
      * rewrite lookup_insert_eq, by_code_same, length_app. f_equal. simpl. lia.
    + destruct (ro_stock _ _ _ Hr code' Hc') as (fd' & b1 & Hst'). exists fd', b1.
      eapply other_stock; eauto. by apply by_code_other.
  - apply (ro_fds _ _ _ Hr).
  - simpl. intros code' b1 [[<- _]|[_ ?]]%lookup_insert_Some; [done|]. by eapply ro_keys.
Qed.

(** One trade. *)
Lemma process_trade_law ts r s t :
  recv_ok n ts r -> hooks_ok n ts s -> 1 <= t_stk_code t <= n -> n <= INT_MAX ->
  Z.of_nat (length (by_code (t_stk_code t) ts)) + 1 < INT_MAX ->
  exists r' s', process_trade r s t = Done (r', s') /\
    recv_ok n (ts ++ [t]) r' /\ hooks_ok n (ts ++ [t]) s' /\
    sliding_window_start s' = sliding_window_start s /\ same_hooks s s'.
Proof.
  intros Hr Hh Hc Hn Hlen.
  destruct (ro_stock _ _ _ Hr _ Hc) as (fd & b & Hst). pose proof Hst as [Hfd Hb (f & Hf & Hd) Hs Hi].
  unfold process_trade. rewrite Hi, Hb. cbn [from_option id]. cbv zeta.
  destruct (update_hooks_law ts s t Hh Hc Hn) as (s' & -> & Hs'). rewrite bind_Done.
  rewrite int_add_ok, bind_Done by (unfold INT_MIN in *; lia).
  rewrite Z.geb_leb. destruct (Z.leb_spec TRADE_BUF_THRESHOLD (Z.of_nat (length (b ++ [t])))) as [Hfull|Hshort].
  - assert (Hblen : Z.of_nat (length (trades_data (b ++ [t]))) < 2 ^ 64).
    { rewrite trades_data_length, length_app. unfold TRADE_BUF_THRESHOLD in Hs. simpl. lia. }
    unfold write_buffer. cbn [trade_fds_ files]. rewrite Hfd. cbn [from_option id]. rewrite Hf.
    cbn [from_option id]. rewrite (rio_write Hio), to_size_small, Z.eqb_refl, (rio_sync Hio) by lia.
    cbn [negb Z.eqb]. rewrite bind_Done. eexists _, s'. split; [done|]. split; [|done].
    unfold set_buffer. cbn [trade_fds_ trade_buffer_ trade_idxs_ files]. rewrite insert_insert_eq.
    eapply next_recv_ok; eauto; [|by unfold TRADE_BUF_THRESHOLD].
    unfold trades_data at 2. cbn [map concat]. by rewrite app_nil_r.
  - eexists _, s'. split; [done|]. split; [|done].
    rewrite <- (insert_id (files r) fd f Hf). by eapply next_recv_ok.
Qed.

(** The message of a trade is processed as the trade. *)
Lemma handle_trade_msg r s t :
  valid_Trade t = true -> handle_msg r s (trade_msg t) = process_trade r s t.
Proof.
  intros Hv. unfold handle_msg. rewrite trade_msg_message.
  pose proof (read_code_message pod_CommTrade TRADE_MSG [([], convert_trade_to_commtrade t)]
    ltac:(unfold TRADE_MSG; lia)) as Hc.
  unfold read_code in Hc. rewrite Hc, bind_Done. cbn [TRADE_MSG ORDER_ACK_MSG Z.eqb Pos.eqb].
  unfold process_trade_result. rewrite read_elems_message, bind_Done.
  - cbn [map snd process_trades]. rewrite convert_round_trip. by destruct (process_trade r s t) as [[]|].
  - done.
  - constructor; [|constructor]. split; [done|]. by apply valid_convert.
Qed.

Lemma same_hooks_trans s s' s'' : same_hooks s s' -> same_hooks s' s'' -> same_hooks s s''.
Proof. intros H1 H2 i k. by rewrite (H1 i k). Qed.

Lemma handle_trades_law ts0 ts r s :
  recv_ok n ts0 r -> hooks_ok n ts0 s ->
  Forall (fun t => valid_Trade t = true /\ 1 <= t_stk_code t <= n) ts -> n <= INT_MAX ->
  Z.of_nat (length (ts0 ++ ts)) < INT_MAX ->
  exists r' s', handle_msgs r s (map trade_msg ts) = Done (r', s') /\
    recv_ok n (ts0 ++ ts) r' /\ hooks_ok n (ts0 ++ ts) s' /\
    sliding_window_start s' = sliding_window_start s /\ same_hooks s s'.
Proof.
  revert ts0 r s. induction ts as [|t ts IH]; intros ts0 r s Hr Hh Hts Hn Hlen; simpl.
  { exists r, s. rewrite app_nil_r. split_and!; try done. }
  inversion_clear Hts as [|? ? [Hv Hc] Hts']. rewrite handle_trade_msg by done.
  rewrite length_app in Hlen. simpl in Hlen.
  destruct (process_trade_law ts0 r s t) as (r1 & s1 & -> & Hr1 & Hh1 & Hs1 & Hd1);
    [done..|pose proof (by_code_length (t_stk_code t) ts0); lia|].
  rewrite bind_Done. destruct (IH (ts0 ++ [t]) r1 s1) as (r2 & s2 & E & Hr2 & Hh2 & Hs2 & Hd2); [done..| |].
  { rewrite !length_app. simpl. lia. }
  rewrite <- app_assoc in Hr2, Hh2. exists r2, s2.
  split_and!; [done|done|done|congruence|by eapply same_hooks_trans].
Qed.

(** Flushing. *)
Lemma flush_buffers_law ts r codes :
  recv_ok n ts r -> Forall (fun code => 1 <= code <= n) codes ->
  exists r', flush_buffers r codes = Done r' /\ recv_ok n ts r' /\ trade_fds_ r' = trade_fds_ r /\
    forall code, code ∈ codes \/ trade_buffer_ r !! code = Some [] -> trade_buffer_ r' !! code = Some [].
Proof.
  intros Hr Hcodes. revert r Hr. induction Hcodes as [|code codes Hc Hcodes IH]; intros r Hr; simpl.
  { exists r. split_and!; try done. by intros code [?%not_elem_of_nil|?]. }
  destruct (ro_stock _ _ _ Hr code Hc) as (fd & b & Hst). pose proof Hst as [Hfd Hb (f & Hf & Hd) Hs Hi].
  rewrite Hb. cbn [from_option id].
  destruct (write_buffer_law ts r code fd b b Hr Hst) as (f' & r1 & Hf' & -> & ->).
  { rewrite trades_data_length. unfold TRADE_BUF_THRESHOLD in Hs. lia. }
  assert (f' = f) as -> by congruence. rewrite bind_Done.
  destruct (IH (set_buffer (mkReceiver (trade_fds_ r) (trade_buffer_ r) (trade_idxs_ r)
      (<[fd := f ++ trades_data b]> (files r))) code [])) as (r' & -> & Hr' & Hfds & Hnil).
  - split.
    + intros code' Hc'. destruct (decide (code' = code)) as [->|Hne].
      * exists fd, []. split; simpl; [done|by rewrite lookup_insert_eq| |done|done].
        exists (f ++ trades_data b). rewrite lookup_insert_eq. split; [done|].
        unfold trades_data at 2. cbn [map concat]. by rewrite app_nil_r.
      * destruct (ro_stock _ _ _ Hr code' Hc') as (fd' & b' & Hst'). exists fd', b'.
        unfold set_buffer. cbn [trade_fds_ trade_buffer_ trade_idxs_ files].
        rewrite <- (insert_id (trade_idxs_ r) code _ Hi). by eapply other_stock.
    + apply (ro_fds _ _ _ Hr).
    + simpl. intros code' b1 [[<- _]|[_ ?]]%lookup_insert_Some; [done|]. by eapply ro_keys.
  - exists r'. split_and!; try done. intros code' Hcase. apply Hnil. simpl.
    destruct (decide (code' = code)) as [->|Hne]; [right; by rewrite lookup_insert_eq|].
    rewrite lookup_insert_ne by done. destruct Hcase as [Hin|]; [|by right].
    apply elem_of_cons in Hin as [|]; [done|by left].
Qed.

Lemma flush_law ts r :
  recv_ok n ts r ->
  exists r', flush r = Done r' /\
    forall code, 1 <= code <= n -> exists fd, trade_fds_ r' !! code = Some fd /\ trade_fds_ r !! code = Some fd /\
      files r' !! fd = Some (trades_data (by_code code ts)).
Proof.
  intros Hr. unfold flush.
  destruct (flush_buffers_law ts r (map fst (map_to_list (trade_buffer_ r))) Hr) as (r' & -> & Hr' & Hfds & Hnil).
  { apply Forall_forall. intros code ([code' b] & -> & Hin)%list_elem_of_fmap.
    apply elem_of_map_to_list in Hin. by eapply ro_keys. }
  exists r'. split; [done|]. intros code Hc.
  destruct (ro_stock _ _ _ Hr' code Hc) as (fd & b & [Hfd Hb (f & Hf & Hd) _ _]).
  destruct (ro_stock _ _ _ Hr code Hc) as (fd0 & b0 & [_ Hb0 _ _ _]).
  assert (Hin : code ∈ map fst (map_to_list (trade_buffer_ r))).
  { apply list_elem_of_fmap. exists (code, b0). split; [done|]. by apply elem_of_map_to_list. }
  rewrite (Hnil code (or_introl Hin)) in Hb. injection Hb as <-.
  unfold trades_data at 1 in Hd. cbn [map concat] in Hd. rewrite app_nil_r in Hd. subst f.
  exists fd. split_and!; [done|congruence|done].
Qed.

(** The constructor. *)
Lemma open_stocks_law k from r :
  (forall code, from <= code < from + Z.of_nat k -> sys_open code <> EMPTY_FD) ->
  exists r', open_stocks k from r = Done r' /\
    forall code, trade_fds_ r' !! code = (if decide (from <= code < from + Z.of_nat k) then Some (sys_open code) else trade_fds_ r !! code) /\
      trade_buffer_ r' !! code = (if decide (from <= code < from + Z.of_nat k) then Some [] else trade_buffer_ r !! code) /\
      trade_idxs_ r' !! code = (if decide (from <= code < from + Z.of_nat k) then Some 1 else trade_idxs_ r !! code) /\
      (from <= code < from + Z.of_nat k \/ files r !! sys_open code = Some [] -> files r' !! sys_open code = Some []).
Proof.
  revert from r. induction k as [|k IH]; intros from r Hopen; cbn [open_stocks].
  { exists r. split; [done|]. intros code. rewrite !decide_False by lia. split_and!; try done.
    by intros [?|?]; [lia|]. }
  rewrite (proj2 (Z.eqb_neq _ _) (Hopen from ltac:(lia))).
  edestruct IH as (r' & -> & Hr'); [intros; apply Hopen; lia|].
  exists r'. split; [done|]. intros code. destruct (Hr' code) as (-> & -> & -> & Hfile).
  cbn [trade_fds_ trade_buffer_ trade_idxs_ files] in *.
  destruct (decide (code = from)) as [->|Hne].
  - rewrite !lookup_insert_eq. split_and!; try (repeat case_decide; (done || lia)).
    intros _. apply Hfile. right. by rewrite lookup_insert_eq.
  - rewrite !lookup_insert_ne by done. split_and!; try (repeat case_decide; (done || lia)).
    intros Hcase. apply Hfile. destruct Hcase; [left; lia|]. right.
    destruct (decide (sys_open from = sys_open code)) as [->|]; [by rewrite lookup_insert_eq|by rewrite lookup_insert_ne].
Qed.

Lemma new_receiver_ok cfg :
  trade_output_folder cfg <> ""%string -> stock_num cfg = n ->
  (forall code, 1 <= code <= n -> sys_open code <> EMPTY_FD) ->
  (forall code code', 1 <= code <= n -> 1 <= code' <= n -> sys_open code = sys_open code' -> code = code') ->
  exists r, new_TraderTradeReceiver cfg = Done r /\ recv_ok n [] r.
Proof.
  intros Hfolder Hn Hopen Hinj. unfold new_TraderTradeReceiver.
  destruct (String.eqb_spec (trade_output_folder cfg) ""); [done|]. cbn [negb ASSERT]. rewrite bind_Done.
  destruct (open_stocks_law (Z.to_nat (stock_num cfg)) 1 (mkReceiver ∅ ∅ ∅ ∅)) as (r & -> & Hr).
  { intros code Hc. apply Hopen. lia. }
  exists r. split; [done|]. split.
  - intros code Hc. destruct (Hr code) as (Hfd & Hb & Hi & Hf). rewrite decide_True in Hfd by lia.
    rewrite decide_True in Hb by lia. rewrite decide_True in Hi by lia.
    exists (sys_open code), []. split; try done.
    exists []. split; [apply Hf; left; lia|done].
  - intros code code' fd Hfd Hfd'. destruct (Hr code) as (E & _). destruct (Hr code') as (E' & _).
    rewrite E in Hfd. rewrite E' in Hfd'. repeat case_decide; simplify_eq. apply Hinj; (lia || congruence).
  - intros code b Hb. destruct (Hr code) as (_ & E & _). rewrite E in Hb. case_decide; [lia|done].
Qed.
End receiver.

(** ** Reading the files back *)
Lemma read_trades_data fuel l :
  Forall (fun t => valid_Trade t = true) l -> (length l < fuel)%nat -> read_trades fuel (trades_data l) = l.
Proof.
  intros Hv. revert fuel. induction Hv as [|t l Ht Hv IH]; intros [|fuel] Hf; simpl in Hf; try lia; [done|].
  unfold trades_data. cbn [map concat read_trades].
  assert (Hlen : length (store_Trade t) = 24%nat).
  { unfold store_Trade. by rewrite !length_app, !store_int_length, store_double_length. }
  rewrite decide_True by (rewrite length_app; lia).
  rewrite load_store_Trade by done. f_equal.
  rewrite drop_app_length' by done. apply IH. lia.
Qed.

Lemma trade_ne_refl t : ordered (t_price t) -> trade_ne t t = false.
Proof.
  intros Ho. unfold trade_ne. rewrite !Z.eqb_refl. simpl.
  pose proof (deq_refl _ Ho) as E. unfold dne. unfold deq in E. by rewrite E.
Qed.

(** Handling the message of one acknowledgement. *)
Lemma handle_ack_msg `{FileIO} r s code id :
  is_int code = true -> is_int id = true -> id < INT_MAX ->
  handle_msg r s (ack_msg (mkOrderAck code id)) =
    (s ← update_sliding_window_start s code (id + 1); Done (r, s)).
Proof.
  intros Hic Hii Hid. pose proof (proj1 (is_int_spec _) Hii) as Hii'.
  unfold handle_msg. rewrite ack_msg_message.
  pose proof (read_code_message pod_OrderAck ORDER_ACK_MSG [([], mkOrderAck code id)]
    ltac:(unfold ORDER_ACK_MSG; lia)) as Hcode.
  unfold read_code in Hcode. rewrite Hcode, bind_Done. cbn [ORDER_ACK_MSG Z.eqb Pos.eqb].
  unfold process_order_ack. rewrite read_elems_message.
  - rewrite bind_Done. cbn [map snd update_starts a_order_id a_stk_code].
    rewrite int_add_ok, bind_Done by (unfold INT_MIN in *; lia).
    by destruct (update_sliding_window_start s code (id + 1)).
  - done.
  - constructor; [|constructor]. split; [done|].
    simpl. unfold valid_OrderAck. simpl. by rewrite Hic, Hii.
Qed.

(** An operating system that does what it is asked, on descriptors 100, 101, ... *)
Definition demo_io : FileIO := {|
  sys_open code := 100 + code;
  sys_write old data := (Z.of_nat (length data), old ++ data);
  sys_fdatasync _ := 0 |}.

Lemma demo_io_reliable : reliable_io (H := demo_io).
Proof. by split. Qed.

Definition demo_rcfg : Config := {|
  data_folder := ""; trade_output_folder := "out"; network_config_file := "";
  partition_idx := 0; sliding_window_size := 3; stock_num := 2;
  trader_num := 1; exchange_num := 1;
  loader_nx_matrix := 2; loader_ny_matrix := 1; loader_nz_matrix := 2; load_mode := 2;
  traders_addr := []; exchanges_addr := []; trader_port2exchange_port := [] |}.
Definition demo_trades : list Trade :=
  [mkTrade 1 4 2 (double_of_Z 10) 100; mkTrade 2 1 2 (double_of_Z 7) 3; mkTrade 1 4 3 (double_of_Z 11) 20].
(** The second trade of stock 1 is hooked. *)
Definition demo_shared : SharedTradeInfo := mkSharedTradeInfo [1; 1] [{[2 := -1]}; ∅].

(** ** The properties *)

(** C10: The trade files are complete and in order.  With system calls that
    work, a new receiver that gets the messages of the trades [ts] handles
    them all, and after [flush] the file of every stock holds exactly the
    trades of that stock in the order they came, so reading the file back
    ([read_trade_from_file]) gives these trades. *)
Theorem trade_files_complete `{FileIO} cfg s ts :
  reliable_io -> trade_output_folder cfg <> ""%string -> stock_num cfg <= INT_MAX ->
  (forall code, 1 <= code <= stock_num cfg -> sys_open code <> EMPTY_FD) ->
  (forall code code', 1 <= code <= stock_num cfg -> 1 <= code' <= stock_num cfg ->
     sys_open code = sys_open code' -> code = code') ->
  hooks_ok (stock_num cfg) [] s ->
  Forall (fun t => valid_Trade t = true /\ 1 <= t_stk_code t <= stock_num cfg) ts ->
  Z.of_nat (length ts) < INT_MAX ->
  exists r r' s' r'', new_TraderTradeReceiver cfg = Done r /\
    handle_msgs r s (map trade_msg ts) = Done (r', s') /\ flush r' = Done r'' /\
    forall code, 1 <= code <= stock_num cfg -> exists fd contents,
      trade_fds_ r'' !! code = Some fd /\ files r'' !! fd = Some contents /\
      contents = trades_data (by_code code ts) /\ read_trade_from_file contents = by_code code ts.
Proof.
  intros Hio Hfolder Hn Hopen Hinj Hh Hts Hlen.
  destruct (new_receiver_ok (stock_num cfg) cfg Hfolder eq_refl Hopen Hinj) as (r & Hnew & Hr).
  destruct (handle_trades_law Hio (stock_num cfg) [] ts r s Hr Hh Hts Hn Hlen)
    as (r' & s' & Hrun & Hr' & _).
  destruct (flush_law Hio (stock_num cfg) ts r' Hr') as (r'' & Hflush & Hfiles).
  exists r, r', s', r''. split_and!; [done..|]. intros code Hc.
  destruct (Hfiles code Hc) as (fd & Hfd & _ & Hf). exists fd, (trades_data (by_code code ts)).
  split_and!; [done..|]. unfold read_trade_from_file. apply read_trades_data.
  - unfold by_code. apply Forall_forall. intros t [_ Ht]%list_elem_of_filter.
    rewrite Forall_forall in Hts. by apply Hts.
  - rewrite trades_data_length. lia.
Qed.

Lemma demo_hooks_ok : hooks_ok 2 [] demo_shared.
Proof.
  split; [vm_compute; congruence|]. intros code m k v Hc Hm Hv.
  assert (code = 1 \/ code = 2) as [->| ->] by lia.
  2: { change (Z.to_nat (2 - 1)) with 1%nat in Hm. injection Hm as <-. by rewrite lookup_empty in Hv. }
  change (Z.to_nat (1 - 1)) with 0%nat in Hm. injection Hm as <-.
  apply lookup_singleton_Some in Hv as [<- <-]. reflexivity.
Qed.

Lemma demo_trades_ok : Forall (fun t => valid_Trade t = true /\ 1 <= t_stk_code t <= 2) demo_trades.
Proof. repeat constructor; vm_compute; congruence. Qed.

Lemma trade_files_complete_witness :
  exists r r' s' r'', new_TraderTradeReceiver (H := demo_io) demo_rcfg = Done r /\
    handle_msgs (H := demo_io) r demo_shared (map trade_msg demo_trades) = Done (r', s') /\
    flush (H := demo_io) r' = Done r'' /\
    exists contents, files r'' !! 101 = Some contents /\
      read_trade_from_file contents = [mkTrade 1 4 2 (double_of_Z 10) 100; mkTrade 1 4 3 (double_of_Z 11) 20].
Proof.
  destruct (trade_files_complete (H := demo_io) demo_rcfg demo_shared demo_trades) as (r & r' & s' & r'' & Hn & Hr & Hf & Hfiles);
    [exact demo_io_reliable|discriminate|vm_compute; congruence| | |exact demo_hooks_ok|exact demo_trades_ok|vm_compute; reflexivity|].
  - intros code Hc. simpl in *. unfold EMPTY_FD. lia.
  - intros code code' _ _ E. simpl in E. lia.
  - exists r, r', s', r''. split; [exact Hn|]. split; [exact Hr|]. split; [exact Hf|].
    destruct (Hfiles 1) as (fd & contents & Hfd & Hc & Hd & Hread); [vm_compute; split; congruence|].
    assert (fd = 101) as ->.
    { vm_compute in Hn. injection Hn as <-. vm_compute in Hr. injection Hr as <- <-.
      vm_compute in Hf. injection Hf as <-. vm_compute in Hfd. congruence. }
    exists contents. split; [exact Hc|exact Hread].
Defined.

(** C21: A hook sees the volume of the trade it names.  After the trades [ts]
    have been processed, the value of the hooked trade with stock [code] and
    index [k] is the volume of the [k]-th of [ts] with that stock, counting
    from 1, and -1 (not ready) while there are fewer; the hooked trades are
    the ones registered at the begin and the window starts are untouched. *)
Theorem hooks_report_volumes `{FileIO} n r s ts code k :
  reliable_io -> n <= INT_MAX -> recv_ok n [] r -> hooks_ok n [] s ->
  Forall (fun t => valid_Trade t = true /\ 1 <= t_stk_code t <= n) ts ->
  Z.of_nat (length ts) < INT_MAX -> 1 <= code <= n ->
  is_Some (hooked_trade s !! Z.to_nat (code - 1) ≫= fun m => m !! k) ->
  exists r' s', handle_msgs r s (map trade_msg ts) = Done (r', s') /\
    get_hooked_volume s' code k = Done (hook_value (by_code code ts) k) /\
    sliding_window_start s' = sliding_window_start s /\ same_hooks s s'.
Proof.
  intros Hio Hn Hr Hh Hts Hlen Hc Hreg.
  destruct (handle_trades_law Hio n [] ts r s Hr Hh Hts Hn Hlen)
    as (r' & s' & Hrun & _ & Hh' & Hstarts & Hsame).
  exists r', s'. split_and!; [done| |done|done].
  apply Hsame in Hreg. destruct Hreg as [v Hv]. apply bind_Some in Hv as (m & Hm & Hv).
  unfold get_hooked_volume. rewrite int_sub_ok, bind_Done by (unfold INT_MIN, INT_MAX in *; lia).
  rewrite (array_get_ok _ _ m), bind_Done by (done || lia). rewrite Hv.
  f_equal. by eapply (ho_value _ _ _ Hh' code m).
Qed.

Lemma hooks_report_volumes_witness :
  exists r r' s', new_TraderTradeReceiver (H := demo_io) demo_rcfg = Done r /\
    handle_msgs (H := demo_io) r demo_shared (map trade_msg demo_trades) = Done (r', s') /\
    get_hooked_volume s' 1 2 = Done 20.
Proof.
  destruct (new_receiver_ok (H := demo_io) 2 demo_rcfg) as (r & Hn & Hr);
    [discriminate|reflexivity|intros; simpl; unfold EMPTY_FD; lia|intros ? ? _ _ E; simpl in E; lia|].
  destruct (hooks_report_volumes (H := demo_io) 2 r demo_shared demo_trades 1 2) as (r' & s' & Hrun & Hv & _);
    [exact demo_io_reliable|vm_compute; congruence|exact Hr|exact demo_hooks_ok|exact demo_trades_ok
    |vm_compute; reflexivity|vm_compute; split; congruence|vm_compute; eexists; reflexivity|].
  exists r, r', s'. split; [exact Hn|]. split; [exact Hrun|exact Hv].
Defined.

(** The acknowledgement of an order opens the window behind it.  Handling
    the message built for the acknowledgement of the order [id] of a stock
    sets the stock's window start to [id + 1] if that does not go back, and
    stops the trader at an assert if it does. *)
Theorem ack_opens_window `{FileIO} r s code id start :
  is_int code = true -> is_int id = true -> id < INT_MAX -> 1 <= code ->
  array_get (sliding_window_start s) (code - 1) = Done start ->
  (start <= id + 1 -> exists s', handle_msg r s (ack_msg (mkOrderAck code id)) = Done (r, s') /\
     get_sliding_window_start s' code = Done (id + 1) /\ hooked_trade s' = hooked_trade s /\
     forall code', 1 <= code' -> code' <> code -> is_int code' = true ->
       get_sliding_window_start s' code' = get_sliding_window_start s code') /\
  (id + 1 < start -> handle_msg r s (ack_msg (mkOrderAck code id)) = Fault AssertFailed).
Proof.
  intros Hic Hii Hid Hc Hs. pose proof (proj1 (is_int_spec _) Hic) as Hic'.
  pose proof (proj1 (is_int_spec _) Hii) as Hii'.
  rewrite handle_ack_msg by done. unfold update_sliding_window_start, get_sliding_window_start.
  rewrite int_sub_ok, !bind_Done, Hs, !bind_Done by (unfold INT_MIN in *; lia).
  apply array_get_inv in Hs as [_ Hs]. pose proof (lookup_lt_Some _ _ _ Hs).
  split; intros Hle; rewrite Z.geb_leb.
  - rewrite (proj2 (Z.leb_le _ _) Hle). cbn [cassert]. rewrite bind_Done, array_set_ok, !bind_Done by lia.
    eexists. split; [done|]. cbn [sliding_window_start hooked_trade].
    split; [by apply array_get_ok; [lia|apply list_lookup_insert_eq; lia]|]. split; [done|].
    intros code' Hc' Hne Hi'. apply is_int_spec in Hi'.
    rewrite int_sub_ok, !bind_Done by (unfold INT_MIN in *; lia).
    unfold array_get. case_if; [done|]. by rewrite list_lookup_insert_ne by lia.
  - by rewrite (proj2 (Z.leb_gt _ _) Hle).
Qed.

Lemma ack_opens_window_witness :
  (exists s', handle_msg (H := demo_io) (mkReceiver ∅ ∅ ∅ ∅) demo_shared (ack_msg (mkOrderAck 2 7)) =
     Done (mkReceiver ∅ ∅ ∅ ∅, s') /\ get_sliding_window_start s' 2 = Done 8) /\
  handle_msg (H := demo_io) (mkReceiver ∅ ∅ ∅ ∅) demo_shared (ack_msg (mkOrderAck 2 (-1))) = Fault AssertFailed.
Proof.
  split.
  - destruct (proj1 (ack_opens_window (H := demo_io) (mkReceiver ∅ ∅ ∅ ∅) demo_shared 2 7 1 eq_refl eq_refl
      ltac:(vm_compute; reflexivity) ltac:(lia) eq_refl)) as (s' & E & Es & _); [lia|].
    exists s'. split; [exact E|exact Es].
  - apply (proj2 (ack_opens_window (H := demo_io) (mkReceiver ∅ ∅ ∅ ∅) demo_shared 2 (-1) 1 eq_refl eq_refl
      ltac:(vm_compute; reflexivity) ltac:(lia) eq_refl)). lia.
Defined.
