(* ===== verification/Protocol.v ===== *)
(** * The flow of the orders of one stock through the system

    Traders send their orders while the ids are in the window they know of,
    the exchange stores them in its sliding window, the stock's thread takes
    them out in the order of ids and acknowledges them, the acknowledgements
    move the traders' windows.  Channels between processes are FIFO queues.
    The steps call the modelled functions of the components; any interleaving
    of them is a run. *)

From stdpp Require Import gmap relations.
From S2P Require Import Prelude Double Bytes Config Types StdHeap DeclBook StockExchange.
From S2P Require Import SlidingWindow Exchange Trader TraderProps.
#[local] Open Scope Z_scope.

(** A trader: its controller, the orders of the stock it has still to send,
    the information shared with its receiver, the orders on the way to the
    exchange and the acknowledgements on the way back. *)
Record trader_st := mkTraderSt {
  ctl : TraderController;
  todo : list Order;
  info : SharedTradeInfo;
  out : list Order;
  ackq : list OrderAck;
}.

(** [delivered] collects the orders handed to the stock's engine. *)
Record sys := mkSys {
  traders : list trader_st;
  exch : Exchange;
  delivered : list Order;
}.

Definition set_sent (x : trader_st) (rest : list Order) (o : Order) : trader_st :=
  mkTraderSt (ctl x) rest (info x) (out x ++ [o]) (ackq x).
Definition set_out (x : trader_st) (l : list Order) : trader_st :=
  mkTraderSt (ctl x) (todo x) (info x) l (ackq x).
Definition set_acked (x : trader_st) (s : SharedTradeInfo) (l : list OrderAck) : trader_st :=
  mkTraderSt (ctl x) (todo x) s (out x) l.
Definition push_ack (ack : option OrderAck) (x : trader_st) : trader_st :=
  mkTraderSt (ctl x) (todo x) (info x) (out x) (ackq x ++ option_list ack).

Section protocol.
Context (cfg : Config) (code : Z).

Inductive step : sys -> sys -> Prop :=
  | step_send st t x o rest start o' :
      traders st !! t = Some x -> todo x = o :: rest ->
      get_sliding_window_start (info x) code = Done start ->
      check_order (ctl x) (info x) o (start + sliding_window_size cfg) (code - 1) = Done (true, o') ->
      step st (mkSys (<[t := set_sent x rest o']> (traders st)) (exch st) (delivered st))
  | step_receive st t x o rest e' :
      traders st !! t = Some x -> out x = o :: rest ->
      receiveOrder cfg (exch st) o = Done e' ->
      step st (mkSys (<[t := set_out x rest]> (traders st)) e' (delivered st))
  | step_consume st os ack e' :
      comsumeOrder (exch st) code = Done (os, ack, e') ->
      step st (mkSys (map (push_ack ack) (traders st)) e' (delivered st ++ os))
  | step_ack st t x a rest s' :
      traders st !! t = Some x -> ackq x = a :: rest ->
      update_sliding_window_start (info x) (a_stk_code a) (a_order_id a + 1) = Done s' ->
      step st (mkSys (<[t := set_acked x s' rest]> (traders st)) (exch st) (delivered st)).

(** ** The invariant *)

(** The orders that have not reached the exchange. *)
Definition pool (xs : list trader_st) : list Order := concat (map (fun x => todo x ++ out x) xs).

(** From the known start [k], the acknowledgements lead up to [next]. *)
Fixpoint ack_chain (k : Z) (l : list OrderAck) (next : Z) : Prop :=
  match l with
  | [] => k = next + 1
  | a :: l => a_stk_code a = code /\ k <= a_order_id a + 1 /\ ack_chain (a_order_id a + 1) l next
  end.

Record trader_ok (next total : Z) (x : trader_st) : Prop := {
  to_start : exists k, get_sliding_window_start (info x) code = Done k /\ ack_chain k (ackq x) next;
  to_orders : Forall (fun o => o_stk_code o = code /\ 1 <= o_order_id o <= total) (todo x ++ out x);
  to_window : Forall (fun o => o_order_id o <= next + sliding_window_size cfg) (out x);
  to_sorted : StronglySorted (fun o1 o2 => o_order_id o1 < o_order_id o2) (todo x);
}.

Record sys_ok (total : Z) (st : sys) (w : SlidingWindow Order) (next : Z) (items : gmap Z Order) : Prop := {
  so_window : order_buffer (exch st) !! code = Some w;
  so_stock_window : stock_window code w next items;
  so_cap : capacity_ w = sliding_window_size cfg;
  so_traders : Forall (trader_ok next total) (traders st);
  so_nodup : NoDup (map o_order_id (pool (traders st)));
  so_fresh : Forall (fun o => next < o_order_id o /\ items !! (o_order_id o - 1) = None) (pool (traders st));
  so_delivered : Z.of_nat (length (delivered st)) = next /\
    forall k o, delivered st !! k = Some o -> o_order_id o = Z.of_nat k + 1 /\ o_stk_code o = code;
  so_complete id : 1 <= id <= total ->
    id <= next \/ is_Some (items !! (id - 1)) \/ id ∈ map o_order_id (pool (traders st));
  so_bound : next <= total;
  so_item_bound i o : items !! i = Some o -> i < total;
}.

(** ** The pool *)
Lemma pool_lookup xs t x : xs !! t = Some x ->
  exists p q, pool xs = p ++ (todo x ++ out x) ++ q /\
    forall y, pool (<[t := y]> xs) = p ++ (todo y ++ out y) ++ q.
Proof.
  intros Hx. exists (pool (take t xs)), (pool (drop (S t) xs)).
  assert (Happ : forall l l', pool (l ++ l') = pool l ++ pool l')
    by (intros; unfold pool; by rewrite map_app, concat_app).
  split; [|intros y].
  - rewrite <- (take_drop_middle xs t x Hx) at 1. rewrite Happ. done.
  - rewrite insert_take_drop by (by eapply lookup_lt_Some). rewrite Happ. done.
Qed.

Lemma pool_map_push ack xs : pool (map (push_ack ack) xs) = pool xs.
Proof. unfold pool. rewrite map_map. done. Qed.

Lemma pool_elem xs t x o : xs !! t = Some x -> o ∈ todo x ++ out x -> o ∈ pool xs.
Proof.
  intros Hx Ho. destruct (pool_lookup xs t x Hx) as (p & q & -> & _).
  rewrite !elem_of_app in *. tauto.
Qed.

Lemma pool_elem_inv xs o : o ∈ pool xs -> exists t x, xs !! t = Some x /\ o ∈ todo x ++ out x.
Proof.
  unfold pool. induction xs as [|x xs IH]; simpl; [by intros ?%not_elem_of_nil|].
  intros [Ho|Ho]%elem_of_app; [by exists 0%nat, x|].
  destruct (IH Ho) as (t & y & ? & ?). by exists (S t), y.
Qed.

Lemma pool_insert_perm xs t x y l l' :
  xs !! t = Some x -> l ++ todo y ++ out y ≡ₚ l' ++ todo x ++ out x ->
  l ++ pool (<[t := y]> xs) ≡ₚ l' ++ pool xs.
Proof.
  intros Hx Hp. destruct (pool_lookup xs t x Hx) as (p & q & -> & ->).
  rewrite (Permutation_app_comm p), (Permutation_app_comm p (_ ++ q)), <- !app_assoc.
  rewrite !app_assoc. do 2 f_equiv. by rewrite <- !app_assoc.
Qed.

(** ** Acknowledgements *)
Lemma ack_chain_le k l next : ack_chain k l next -> k <= next + 1.
Proof.
  revert k. induction l as [|a l IH]; intros k; simpl; [lia|].
  intros (_ & ? & H). apply IH in H. lia.
Qed.

Lemma ack_chain_snoc k l next next' :
  ack_chain k l next -> next <= next' -> ack_chain k (l ++ [mkOrderAck code next']) next'.
Proof.
  revert k. induction l as [|a l IH]; intros k; simpl; [intros -> ?; split_and!; (done || lia)|].
  intros (? & ? & H) Hle. split_and!; [done|done|]. by apply IH.
Qed.

Lemma start_updated s new start :
  get_sliding_window_start s code = Done start -> start <= new ->
  exists s', update_sliding_window_start s code new = Done s' /\ get_sliding_window_start s' code = Done new.
Proof.
  unfold get_sliding_window_start, update_sliding_window_start. intros Hs Hle.
  apply bind_done in Hs as (i & -> & Hg). rewrite !bind_Done, Hg, bind_Done.
  rewrite Z.geb_leb, (proj2 (Z.leb_le _ _) Hle). cbn [cassert]. rewrite bind_Done.
  apply array_get_inv in Hg as [Hi Hg]. pose proof (lookup_lt_Some _ _ _ Hg).
  rewrite array_set_ok, bind_Done by lia. eexists. split; [done|]. rewrite bind_Done.
  apply array_get_ok; [lia|]. apply list_lookup_insert_eq. lia.
Qed.

Lemma check_order_same tc s o limit t o' :
  check_order tc s o limit t = Done (true, o') ->
  o_order_id o' = o_order_id o /\ o_stk_code o' = o_stk_code o /\ o_order_id o < limit.
Proof.
  unfold check_order. destruct (Z.geb_spec (o_order_id o) limit); [done|].
  intros E. apply bind_done in E as (h & _ & E). apply bind_done in E as ([ready o1] & E1 & E).
  assert (o_order_id o1 = o_order_id o /\ o_stk_code o1 = o_stk_code o) as [Hi1 Hc1].
  { destruct (h !! o_order_id o); [|by simplify_eq]. apply bind_done in E1 as (v & _ & E1).
    repeat case_if; by simplify_eq. }
  assert (o_order_id o' = o_order_id o1 /\ o_stk_code o' = o_stk_code o1) as [-> ->]; [|done].
  destruct ready; [|done]. cbn [negb] in E. case_if; [|by simplify_eq].
  apply bind_done in E as (lo & _ & E). case_if; [by simplify_eq|].
  apply bind_done in E as (hi & _ & E). case_if; by simplify_eq.
Qed.

(** ** Preservation *)
Section preservation.
Context (total : Z) (Htotal : total < INT_MAX) (HW : 0 < sliding_window_size cfg).

Lemma pool_ids_perm xs t x y :
  xs !! t = Some x ->
  map o_order_id (todo x ++ out x) ≡ₚ map o_order_id (todo y ++ out y) ->
  map o_order_id (pool (<[t := y]> xs)) ≡ₚ map o_order_id (pool xs).
Proof.
  intros Hx Hp. destruct (pool_lookup xs t x Hx) as (p & q & -> & ->).
  rewrite !map_app in *. by rewrite Hp.
Qed.

(** A predicate on ids and the pool. *)
Lemma pool_forall_ids (P : Z -> Prop) xs ys :
  map o_order_id (pool ys) ≡ₚ map o_order_id (pool xs) ->
  Forall (fun o => P (o_order_id o)) (pool xs) -> Forall (fun o => P (o_order_id o)) (pool ys).
Proof. intros Hp. by rewrite <- !(Forall_map o_order_id P), Hp. Qed.

(** An order may go out while its id is in the window the trader knows of. *)
Lemma sent_preserves st w next items t x o rest start o' :
  sys_ok total st w next items ->
  traders st !! t = Some x -> todo x = o :: rest -> get_sliding_window_start (info x) code = Done start ->
  o_order_id o' = o_order_id o -> o_stk_code o' = o_stk_code o -> o_order_id o < start + sliding_window_size cfg ->
  sys_ok total (mkSys (<[t := set_sent x rest o']> (traders st)) (exch st) (delivered st)) w next items.
Proof.
  intros Hok Hx Htodo Hstart Hid Hcode Hlim.
  pose proof Hok as [Hw Hsw Hcap Htr Hnd Hfr Hdel Hcomp Hb Hib].
  pose proof (proj1 (Forall_lookup _ _) Htr t x Hx) as [(k & Hk & Hchain) Hord Hwin Hsort].
  assert (Hperm : map o_order_id (todo x ++ out x) ≡ₚ
    map o_order_id (todo (set_sent x rest o') ++ out (set_sent x rest o'))).
  { simpl. rewrite Htodo, !map_app. simpl. rewrite Hid. rewrite Permutation_app_comm.
    rewrite (Permutation_app_comm (map o_order_id (out x)) [o_order_id o]), app_assoc.
    rewrite (Permutation_app_comm (map o_order_id rest)). simpl.
    by rewrite Permutation_app_comm. }
  pose proof (pool_ids_perm _ _ _ _ Hx Hperm) as Hpool.
  split; simpl; try done.
  - apply Forall_insert; [done|]. split; simpl.
    + by exists k.
    + rewrite Htodo in Hord. simpl in Hord. inversion_clear Hord as [|? ? Ho Hord'].
      rewrite Forall_app in Hord'. rewrite !Forall_app. split_and!; [apply Hord'..|].
      repeat constructor; rewrite ?Hid, ?Hcode; apply Ho.
    + rewrite Forall_app. split; [done|]. repeat constructor. rewrite Hid.
      pose proof (ack_chain_le _ _ _ Hchain). rewrite Hstart in Hk. simplify_eq. lia.
    + rewrite Htodo in Hsort. by apply StronglySorted_inv in Hsort as [].
  - by rewrite Hpool.
  - eapply (pool_forall_ids (fun id => next < id /\ items !! (id - 1) = None)); [exact Hpool|done].
  - intros id. rewrite Hpool. apply Hcomp.
Qed.

Lemma send_preserves st w next items t x o rest start o' :
  sys_ok total st w next items ->
  traders st !! t = Some x -> todo x = o :: rest -> get_sliding_window_start (info x) code = Done start ->
  check_order (ctl x) (info x) o (start + sliding_window_size cfg) (code - 1) = Done (true, o') ->
  sys_ok total (mkSys (<[t := set_sent x rest o']> (traders st)) (exch st) (delivered st)) w next items.
Proof.
  intros Hok Hx Htodo Hstart Hcheck. destruct (check_order_same _ _ _ _ _ _ Hcheck) as (Hid & Hcode & Hlim).
  by eapply sent_preserves.
Qed.

(** What the invariant depends on: the orders and acknowledgements of every
    trader, the start it knows, the stock's window and the delivered orders. *)
Definition same_flow (x y : trader_st) : Prop :=
  todo x = todo y /\ out x = out y /\ ackq x = ackq y /\
  get_sliding_window_start (info x) code = get_sliding_window_start (info y) code.

Lemma same_pool xs ys : Forall2 same_flow xs ys -> pool xs = pool ys.
Proof.
  unfold pool. induction 1 as [|x y xs ys (E1 & E2 & _) _ IH]; [done|]. simpl. by rewrite IH, E1, E2.
Qed.

Lemma sys_ok_same st st' w next items :
  sys_ok total st w next items -> Forall2 same_flow (traders st) (traders st') ->
  order_buffer (exch st') !! code = order_buffer (exch st) !! code -> delivered st' = delivered st ->
  sys_ok total st' w next items.
Proof.
  intros [Hw Hsw Hcap Htr Hnd Hfr Hdel Hcomp Hb Hib] Hsame Eb Ed. pose proof (same_pool _ _ Hsame) as Ep.
  split; rewrite <- ?Ep, ?Ed; try done; [by rewrite Eb|].
  eapply Forall2_Forall_r; [exact Hsame|]. eapply Forall_impl; [exact Htr|].
  intros x Hx y (E1 & E2 & E3 & E4). destruct Hx as [(k & Hk & Hc) Ho Hwi Hs].
  split; rewrite <- ?E1, <- ?E2; try done. exists k. by rewrite <- E4, <- E3.
Qed.

Lemma receive_preserves st w next items t x o rest :
  sys_ok total st w next items -> traders st !! t = Some x -> out x = o :: rest ->
  exists w', let e' := set_order_buffer (exch st) (<[code := w']> (order_buffer (exch st))) in
    receiveOrder cfg (exch st) o = Done e' /\
    sys_ok total (mkSys (<[t := set_out x rest]> (traders st)) e' (delivered st)) w' next
      (<[o_order_id o - 1 := o]> items).
Proof.
  intros Hok Hx Hout. pose proof Hok as [Hw Hsw Hcap Htr Hnd Hfr Hdel Hcomp Hb Hib].
  pose proof (proj1 (Forall_lookup _ _) Htr t x Hx) as [(k & Hk & Hchain) Hord Hwin Hsort].
  rewrite Hout in Hord, Hwin. apply Forall_app in Hord as [Hord1 Hord2].
  inversion_clear Hord2 as [|? ? [Hoc Hoi] Hord2']. inversion_clear Hwin as [|? ? How Hwin'].
  assert (Hpool : o ∈ pool (traders st)).
  { apply (pool_elem _ _ _ _ Hx). rewrite Hout. apply elem_of_app. right. left. }
  rewrite Forall_forall in Hfr. destruct (Hfr o Hpool) as [Hon Hoitem].
  pose proof (receiveOrder_law cfg (exch st) code w next items o Hw Hsw Hcap Hoc) as Hlaw.
  rewrite Hoitem in Hlaw. destruct Hlaw as (w' & E & Hsw' & Hcap'); [apply is_int_spec; unfold INT_MIN, INT_MAX in *; lia|lia|].
  exists w'. cbv zeta. split; [done|].
  assert (Hpp : [o] ++ pool (<[t := set_out x rest]> (traders st)) ≡ₚ [] ++ pool (traders st)).
  { apply (pool_insert_perm _ _ x); [done|]. simpl. rewrite Hout. by rewrite Permutation_middle. }
  simpl in Hpp. rewrite <- Hpp in Hnd. simpl in Hnd. apply NoDup_cons in Hnd as [Hnotin Hnd].
  split; simpl; try done.
  - by rewrite lookup_insert_eq.
  - congruence.
  - apply Forall_insert; [done|]. split; simpl; try done; [by exists k|]. by apply Forall_app.
  - apply Forall_forall. intros y Hy. destruct (Hfr y) as [Hyn Hyi]; [rewrite <- Hpp; by right|].
    split; [done|]. rewrite lookup_insert_ne; [done|]. intros Eid. apply Hnotin.
    replace (o_order_id o) with (o_order_id y) by lia. by apply list_elem_of_fmap_2.
  - intros id Hid. destruct (decide (id = o_order_id o)) as [->|Hne].
    + right. left. rewrite lookup_insert_eq. eauto.
    + rewrite lookup_insert_ne by lia. destruct (Hcomp id Hid) as [?|[?|Hin]]; [by left|right; by left|].
      right. right. rewrite <- Hpp in Hin. simpl in Hin. apply elem_of_cons in Hin as [|]; [lia|done].
  - intros i y. destruct (decide (i = o_order_id o - 1)) as [->|]; [lia|].
    rewrite lookup_insert_ne by done. apply Hib.
Qed.

(** The slot of an arriving order is free. *)
Lemma receive_slot st w next items t x o rest :
  sys_ok total st w next items -> traders st !! t = Some x -> out x = o :: rest ->
  let i := (o_order_id o - 1) mod sliding_window_size cfg in
  int_sub (o_order_id o) 1 = Done (o_order_id o - 1) /\
  int_mod (o_order_id o - 1) (sliding_window_size cfg) = Done i /\ to_size i = i /\ o_stk_code o = code /\
  exists w', put w o i = Done w'.
Proof.
  intros Hok Hx Hout. pose proof Hok as [Hw [Hwin _] Hcap Htr _ Hfr _ _ _ _].
  pose proof (proj1 (Forall_lookup _ _) Htr t x Hx) as [_ Hord How _].
  assert (Hin : o ∈ out x) by (rewrite Hout; left).
  rewrite Forall_forall in Hord, How, Hfr. specialize (How o Hin). simpl in How.
  destruct (Hord o) as [Hoc Hoi]; [apply elem_of_app; by right|].
  destruct (Hfr o) as [Hon Hoitem]; [apply (pool_elem _ _ _ _ Hx), elem_of_app; by right|].
  pose proof (put_law w next items (o_order_id o - 1) o Hwin ltac:(lia)) as Hp.
  rewrite Hoitem, Hcap in Hp. destruct Hp as (w' & Hput & _).
  pose proof (wk_cap _ _ _ Hwin). pose proof (slot_bound (sliding_window_size cfg) (o_order_id o - 1) ltac:(lia)).
  cbv zeta. rewrite int_sub_ok by (unfold INT_MIN, INT_MAX in *; lia). rewrite int_mod_ok by lia.
  split_and!; [done|done|apply to_size_small; unfold INT_MAX in *; lia|done|]. by exists w'.
Qed.

Lemma receive_stored st w next items t x o rest :
  sys_ok total st w next items -> traders st !! t = Some x -> out x = o :: rest ->
  exists w', put w o ((o_order_id o - 1) mod sliding_window_size cfg) = Done w' /\
    receiveOrder cfg (exch st) o = Done (set_order_buffer (exch st) (<[code := w']> (order_buffer (exch st)))).
Proof.
  intros Hok Hx Hout. destruct (receive_slot _ _ _ _ _ _ _ _ Hok Hx Hout) as (Es & Em & Ez & Hoc & w' & Hput).
  exists w'. split; [done|]. unfold receiveOrder.
  by rewrite Es, bind_Done, Em, bind_Done, Hoc, (so_window _ _ _ _ _ Hok), Ez, Hput.
Qed.

Lemma ack_preserves st w next items t x a rest :
  sys_ok total st w next items -> traders st !! t = Some x -> ackq x = a :: rest ->
  exists s', update_sliding_window_start (info x) (a_stk_code a) (a_order_id a + 1) = Done s' /\
    sys_ok total (mkSys (<[t := set_acked x s' rest]> (traders st)) (exch st) (delivered st)) w next items.
Proof.
  intros Hok Hx Hq. pose proof Hok as [Hw Hsw Hcap Htr Hnd Hfr Hdel Hcomp Hb Hib].
  pose proof (proj1 (Forall_lookup _ _) Htr t x Hx) as [(k & Hk & Hchain) Hord Hwin Hsort].
  rewrite Hq in Hchain. destruct Hchain as (Hac & Hle & Hchain).
  destruct (start_updated _ (a_order_id a + 1) k Hk Hle) as (s' & E & Hk').
  exists s'. rewrite Hac. split; [done|].
  assert (Hpool : pool (<[t := set_acked x s' rest]> (traders st)) = pool (traders st)).
  { destruct (pool_lookup (traders st) t x Hx) as (p & q & -> & ->). done. }
  split; simpl; rewrite ?Hpool; try done.
  apply Forall_insert; [done|]. split; simpl; try done. by exists (a_order_id a + 1).
Qed.

Lemma consume_preserves st w next items :
  sys_ok total st w next items ->
  exists os ack w' items', let e' := set_order_buffer (exch st) (<[code := w']> (order_buffer (exch st))) in
    comsumeOrder (exch st) code = Done (os, ack, e') /\
    sys_ok total (mkSys (map (push_ack ack) (traders st)) e' (delivered st ++ os)) w'
      (next + Z.of_nat (length os)) items' /\
    (is_Some (items !! next) -> os <> []) /\ (os = [] -> ack = None) /\
    (forall o, o ∈ os -> exists i, items !! i = Some o) /\
    (forall i o, items' !! i = Some o -> items !! i = Some o).
Proof.
  intros Hok. pose proof Hok as [Hw Hsw Hcap Htr Hnd Hfr [Hdl Hdi] Hcomp Hb Hib].
  destruct (poll_all_law (S (length (avaliable_ w))) code w next items Hsw) as
    (os & w' & items' & E & Hsw' & Hcap' & Hos & Hno & Hrest).
  { intros i o Hi. pose proof (wk_range _ _ _ (sw_ok _ _ _ _ Hsw) _ _ Hi).
    pose proof (wk_avail _ _ _ (sw_ok _ _ _ _ Hsw)). lia. }
  { lia. }
  assert (Hids : forall k o, os !! k = Some o -> o_order_id o = next + Z.of_nat k + 1 /\ o_stk_code o = code).
  { intros k o Hk. destruct (sw_ids _ _ _ _ Hsw _ _ (Hos k o Hk)). split; [lia|done]. }
  set (ack := option_map (fun order => mkOrderAck code (o_order_id order)) (last os)).
  assert (Hack : ack = if decide (os = []) then None else Some (mkOrderAck code (next + Z.of_nat (length os)))).
  { unfold ack. destruct os as [|o os _] using rev_ind; [done|]. rewrite decide_False by (by destruct os).
    rewrite last_snoc. cbn [option_map]. do 2 f_equal.
    destruct (Hids (length os) o) as [-> _]; [by apply list_lookup_middle|].
    rewrite length_app. simpl. lia. }
  exists os, ack, w', items'. cbv zeta. split; [|split; [|split; [|split; [|split]]]].
  - unfold comsumeOrder. rewrite Hw. cbn [from_option id]. cbv zeta. by rewrite E, bind_Done.
  - split; simpl; rewrite ?pool_map_push; try done.
    + by rewrite lookup_insert_eq.
    + congruence.
    + apply Forall_map. eapply Forall_impl; [exact Htr|]. intros x [(k & Hk & Hchain) Hord Hwin Hsort].
      split; simpl; try done.
      * exists k. split; [done|]. rewrite Hack. case_decide as Eos.
        -- subst os. simpl. by rewrite app_nil_r, Z.add_0_r.
        -- simpl. apply (ack_chain_snoc _ _ next); [done|lia].
      * eapply Forall_impl; [exact Hwin|]. simpl. intros. lia.
    + rewrite Forall_forall in Hfr |- *. intros y Hy. destruct (Hfr y Hy) as [Hyn Hyi].
      assert (Hlt : next + Z.of_nat (length os) < o_order_id y).
      { destruct (decide (next + Z.of_nat (length os) < o_order_id y)) as [|Hge]; [done|]. exfalso.
        destruct (lookup_lt_is_Some_2 os (Z.to_nat (o_order_id y - 1 - next))) as [o Ho]; [lia|].
        apply Hos in Ho. replace (next + Z.of_nat (Z.to_nat (o_order_id y - 1 - next))) with (o_order_id y - 1) in Ho by lia.
        congruence. }
      split; [done|]. rewrite Hrest by lia. done.
    + split; [rewrite length_app; lia|]. intros k o [Hk|[Hk Ho]]%lookup_app_Some; [by apply Hdi|].
      destruct (Hids _ _ Ho) as [-> ?]. split; [lia|done].
    + intros id Hid. destruct (Hcomp id Hid) as [?|[[o Ho]|?]]; [left; lia| |by right; right].
      destruct (decide (next + Z.of_nat (length os) <= id - 1)); [right; left; rewrite Hrest by done; eauto|left; lia].
    + destruct os as [|o os' _] using rev_ind; [simpl; lia|].
      assert (Ho : (os' ++ [o]) !! length os' = Some o) by by apply list_lookup_middle.
      apply Hos in Ho. pose proof (Hib _ _ Ho). rewrite length_app. simpl. lia.
    + intros i o Hi. pose proof (wk_range _ _ _ (sw_ok _ _ _ _ Hsw') _ _ Hi).
      rewrite Hrest in Hi by lia. by eapply Hib.
  - intros [o Ho] ->. simpl in Hno. rewrite Z.add_0_r in Hno. congruence.
  - intros ->. by rewrite Hack.
  - intros o [k Hk]%list_elem_of_lookup. eauto.
  - intros i o Hi. pose proof (wk_range _ _ _ (sw_ok _ _ _ _ Hsw') _ _ Hi).
    by rewrite Hrest in Hi by lia.
Qed.
End preservation.

(** ** Runs *)

(** A trader that never waits for a hook. *)
Definition free_sender (tc : TraderController) : Prop :=
  forall s o limit, o_order_id o < limit ->
    exists o', check_order tc s o limit (code - 1) = Done (true, o').

(** The orders 1, ..., [total] are distributed over the traders, nothing has
    been sent. *)
Record init_ok (total : Z) (st : sys) : Prop := {
  io_window : exists w, order_buffer (exch st) !! code = Some w /\ stock_window code w 0 ∅ /\
    capacity_ w = sliding_window_size cfg;
  io_traders : Forall (fun x => get_sliding_window_start (info x) code = Done 1 /\ out x = [] /\ ackq x = [] /\
    StronglySorted (fun o1 o2 => o_order_id o1 < o_order_id o2) (todo x) /\
    Forall (fun o => o_stk_code o = code /\ 1 <= o_order_id o <= total) (todo x)) (traders st);
  io_nodup : NoDup (map o_order_id (pool (traders st)));
  io_all id : 1 <= id <= total -> id ∈ map o_order_id (pool (traders st));
  io_delivered : delivered st = [];
}.

Lemma init_sys_ok total st :
  0 <= total -> init_ok total st -> exists w, sys_ok total st w 0 ∅.
Proof.
  intros Ht [(w & Hw & Hsw & Hcap) Htr Hnd Hall Hdel]. exists w. split; try done.
  - eapply Forall_impl; [exact Htr|]. intros x (Hk & Ho & Hq & Hs & Hf). split.
    + exists 1. split; [done|]. by rewrite Hq.
    + rewrite Ho, app_nil_r. done.
    + by rewrite Ho.
    + done.
  - apply Forall_forall. intros o Ho. rewrite lookup_empty. split; [|done].
    destruct (pool_elem_inv _ _ Ho) as (t & x & Hx & Hox).
    destruct (proj1 (Forall_lookup _ _) Htr t x Hx) as (_ & Hout & _ & _ & Hf).
    rewrite Hout, app_nil_r in Hox. rewrite Forall_forall in Hf. pose proof (Hf o Hox). lia.
  - rewrite Hdel. done.
  - intros id Hid. right. right. auto.
Qed.

Section runs.
Context (total : Z) (Htotal : total < INT_MAX) (HW : 0 < sliding_window_size cfg).

Definition reached (st : sys) : Prop := exists w next items, sys_ok total st w next items.

Lemma step_reached st st' : reached st -> step st st' -> reached st'.
Proof.
  intros (w & next & items & Hok) Hs.
  destruct Hs as [st t x o rest start o' Hx Htodo Hstart Hc|st t x o rest e' Hx Hout E|st os ack e' E|st t x a rest s' Hx Hq E].
  - exists w, next, items. by eapply send_preserves.
  - destruct (receive_preserves total Htotal st w next items t x o rest Hok Hx Hout) as (w' & E' & Hok').
    rewrite E in E'. injection E' as ->. by eexists _, _, _.
  - destruct (consume_preserves total st w next items Hok) as (os' & ack' & w' & items' & E' & Hok' & _).
    rewrite E in E'. injection E' as -> -> ->. by eexists _, _, _.
  - destruct (ack_preserves total st w next items t x a rest Hok Hx Hq) as (s2 & E' & Hok').
    rewrite E in E'. injection E' as ->. by eexists _, _, _.
Qed.

Lemma run_reached st st' : reached st -> rtc step st st' -> reached st'.
Proof. intros Hr Hs. induction Hs; [done|]. by eauto using step_reached. Qed.

(** The controllers do not change. *)
Lemma step_free st st' :
  step st st' -> Forall (fun x => free_sender (ctl x)) (traders st) ->
  Forall (fun x => free_sender (ctl x)) (traders st').
Proof.
  intros Hs Hf.
  destruct Hs as [st t x o rest start o' Hx _ _ _|st t x o rest e' Hx _ _|st os ack e' _|st t x a rest s' Hx _ _];
    simpl; try (apply Forall_insert; [done|]; by apply (proj1 (Forall_lookup _ _) Hf t x Hx)).
  by apply Forall_map.
Qed.

(** ** Progress *)
Definition load (x : trader_st) : nat := 2 * length (todo x) + length (out x) + length (ackq x).
Definition measure (st : sys) : nat :=
  sum_list_with load (traders st) +
  (length (traders st) + 1) * (Z.to_nat total - length (delivered st)).

Lemma load_push ack xs :
  (sum_list_with load (map (push_ack ack) xs) <= sum_list_with load xs + length xs)%nat.
Proof.
  induction xs as [|x xs IH]; simpl; [lia|].
  assert (load (push_ack ack x) <= load x + 1)%nat; [|lia].
  unfold load, push_ack. simpl. rewrite length_app. destruct ack; simpl; lia.
Qed.

(** Before the end something can be done: take the next order from the window,
    or receive, acknowledge or send at the trader that has it. *)
Lemma next_action st w next items :
  sys_ok total st w next items -> next < total ->
  is_Some (items !! next) \/
  exists t x, traders st !! t = Some x /\
    (out x <> [] \/ ackq x <> [] \/
     get_sliding_window_start (info x) code = Done (next + 1) /\
     exists h rest, todo x = h :: rest /\ o_order_id h = next + 1).
Proof.
  intros Hok Hlt. pose proof (so_delivered _ _ _ _ _ Hok) as [Hdl _].
  destruct (so_complete _ _ _ _ _ Hok (next + 1)) as [?|[Hitem|Hin]]; [lia|lia| |].
  { left. by replace (next + 1 - 1) with next in Hitem by lia. }
  right. apply list_elem_of_fmap in Hin as (o & Hid & Ho).
  destruct (pool_elem_inv _ _ Ho) as (t & x & Hx & Hox). exists t, x. split; [done|].
  pose proof (proj1 (Forall_lookup _ _) (so_traders _ _ _ _ _ Hok) t x Hx) as [(k & Hk & Hchain) _ _ Hsort].
  destruct (out x) as [|y rest] eqn:Hout; [|by left].
  destruct (ackq x) as [|a rest] eqn:Hq; [|by right; left].
  right. right. simpl in Hchain. subst k. split; [done|]. rewrite app_nil_r in Hox.
  destruct (todo x) as [|h rest] eqn:Htodo; [by apply not_elem_of_nil in Hox|]. exists h, rest. split; [done|].
  assert (Hh : h ∈ todo x ++ out x) by (rewrite Htodo; left).
  pose proof (proj1 (Forall_forall _ _) (so_fresh _ _ _ _ _ Hok) h (pool_elem _ _ _ _ Hx Hh)) as [Hlow _].
  apply elem_of_cons in Hox as [->|Hox]; [lia|]. apply StronglySorted_inv in Hsort as [_ Hall].
  rewrite Forall_forall in Hall. specialize (Hall o Hox). simpl in Hall. lia.
Qed.

(** When all orders are delivered no trader holds one. *)
Lemma drained_trader st w items x t :
  sys_ok total st w total items -> traders st !! t = Some x -> todo x = [] /\ out x = [].
Proof.
  intros Hok Hx. destruct (todo x ++ out x) as [|o l] eqn:E; [by apply app_nil in E|].
  assert (Ho : o ∈ todo x ++ out x) by (rewrite E; left).
  pose proof (proj1 (Forall_forall _ _) (so_fresh _ _ _ _ _ Hok) o (pool_elem _ _ _ _ Hx Ho)) as [Hlt _].
  pose proof (to_orders _ _ _ (proj1 (Forall_lookup _ _) (so_traders _ _ _ _ _ Hok) t x Hx)) as Hord.
  rewrite Forall_forall in Hord. destruct (Hord o Ho). lia.
Qed.

Lemma next_step st w next items :
  sys_ok total st w next items -> Forall (fun x => free_sender (ctl x)) (traders st) -> next < total ->
  exists st', step st st' /\ (measure st' < measure st)%nat.
Proof.
  intros Hok Hfree Hlt. pose proof (so_delivered _ _ _ _ _ Hok) as [Hdl _].
  destruct (next_action st w next items Hok Hlt) as [Hitem|(t & x & Hx & [Hout|[Hq|(Hk & h & rest & Htodo & Hh)]])].
  - destruct (consume_preserves total st w next items Hok) as (os & ack & w' & items' & E & Hok' & Hne & _).
    specialize (Hne Hitem). eexists. split; [by apply step_consume|].
    unfold measure. simpl. rewrite length_map, length_app.
    pose proof (load_push ack (traders st)). pose proof (so_bound _ _ _ _ _ Hok') as Hb.
    destruct os; [done|]. simpl in *. nia.
  - destruct (out x) as [|y rest] eqn:Ex; [done|].
    destruct (receive_preserves total Htotal st w next items t x y rest Hok Hx Ex) as (w' & E & _).
    eexists. split; [by eapply step_receive|]. unfold measure. simpl. rewrite length_insert.
    pose proof (sum_list_insert load _ _ _ (set_out x rest) Hx) as Hl.
    assert (load x = S (load (set_out x rest))) by (unfold load; simpl; rewrite Ex; simpl; lia). lia.
  - destruct (ackq x) as [|a rest] eqn:Ex; [done|].
    destruct (ack_preserves total st w next items t x a rest Hok Hx Ex) as (s' & E & _).
    eexists. split; [by eapply step_ack|]. unfold measure. simpl. rewrite length_insert.
    pose proof (sum_list_insert load _ _ _ (set_acked x s' rest) Hx) as Hl.
    assert (load x = S (load (set_acked x s' rest))) by (unfold load; simpl; rewrite Ex; simpl; lia). lia.
  - destruct (proj1 (Forall_lookup _ _) Hfree t x Hx (info x) h (next + 1 + sliding_window_size cfg)) as [o' Hc]; [lia|].
    assert (Hlim : o_order_id h < next + 1 + sliding_window_size cfg) by lia.
    eexists. split; [by eapply step_send|]. unfold measure. simpl. rewrite length_insert.
    pose proof (sum_list_insert load _ _ _ (set_sent x rest o') Hx) as Hl.
    assert (load x = S (load (set_sent x rest o')))
      by (unfold load; simpl; rewrite Htodo, length_app; simpl; lia). lia.
Qed.

Lemma run_completes st :
  reached st -> Forall (fun x => free_sender (ctl x)) (traders st) ->
  exists st', rtc step st st' /\ Z.of_nat (length (delivered st')) = total.
Proof.
  remember (measure st) as m eqn:Em. revert st Em.
  induction (lt_wf m) as [m _ IH]. intros st -> Hr Hf. pose proof Hr as (w & next & items & Hok).
  pose proof (so_delivered _ _ _ _ _ Hok) as [Hdl _]. pose proof (so_bound _ _ _ _ _ Hok).
  destruct (decide (next = total)) as [->|Hne]; [by exists st|].
  destruct (next_step st w next items Hok Hf) as (st1 & Hs & Hm); [lia|].
  destruct (IH (measure st1) Hm st1 eq_refl) as (st' & Hrun & Hd);
    [by eapply step_reached|by eapply step_free|].
  exists st'. split; [by eapply rtc_l|done].
Qed.
End runs.
End protocol.
