(* ===== verification/ProtocolProps.v ===== *)
(** * Properties of the protocol

    Safety of the sliding windows and delivery of every order, for any number
    of traders and any interleaving. *)

From stdpp Require Import gmap relations.
From S2P Require Import Prelude Double Bytes Config Types StdHeap DeclBook StockExchange.
From S2P Require Import SlidingWindow Exchange Trader TraderProps Protocol.
#[local] Open Scope Z_scope.

(** Two traders share the orders 1, 2, 3 of stock 1; the window has three slots. *)
Definition demo_pcfg : Config := {|
  data_folder := ""; trade_output_folder := ""; network_config_file := "";
  partition_idx := 0; sliding_window_size := 3; stock_num := 1;
  trader_num := 2; exchange_num := 1;
  loader_nx_matrix := 1; loader_ny_matrix := 1; loader_nz_matrix := 2; load_mode := 2;
  traders_addr := []; exchanges_addr := []; trader_port2exchange_port := [] |}.
Definition demo_order (id : Z) : Order := mkOrder 1 id 1 3 (double_of_Z 10) 5.
Definition free_tc : TraderController :=
  mkTraderController [[double_of_Z 9]; [double_of_Z 11]] [∅] [] (mkOrderInfoMatrix [] [] [] []) [0].
Definition demo_trader (l : list Order) : trader_st :=
  mkTraderSt free_tc l (mkSharedTradeInfo [1] [∅]) [] [].
Definition demo_sys : sys :=
  mkSys [demo_trader [demo_order 1; demo_order 3]; demo_trader [demo_order 2]]
    (mkExchange ∅ {[1 := mkSlidingWindow (replicate 3 Order_init) (replicate 3 false) 3 0]}) [].

Lemma demo_init_ok : init_ok demo_pcfg 1 3 demo_sys.
Proof.
  split.
  - eexists. split; [reflexivity|]. split; [|reflexivity]. split; [|done].
    apply (new_window_ok Order_init 3); [vm_compute; split; congruence|reflexivity].
  - repeat constructor; vm_compute; congruence.
  - apply (bool_decide_unpack _). vm_compute. exact I.
  - intros id Hid. assert (id = 1 \/ id = 2 \/ id = 3) as [->|[->| ->]] by lia;
      apply (bool_decide_unpack _); vm_compute; exact I.
  - reflexivity.
Qed.

Lemma free_tc_free : free_sender 1 free_tc.
Proof.
  intros s o limit Hid.
  assert (Henv : check_env free_tc s 0 ∅ (double_of_Z 9) (double_of_Z 11)).
  { split; try reflexivity. intros id ht Hht. by rewrite lookup_empty in Hht. }
  change (1 - 1) with 0. rewrite (check_order_verdict _ _ _ _ _ _ _ _ Henv).
  unfold order_verdict, hook_verdict, price_verdict. rewrite lookup_empty.
  destruct (Z.geb_spec (o_order_id o) limit); [lia|]. case_if; simpl; eauto.
Qed.

(** C9: The windows are safe.  Start from traders that share out the orders
    [1 ... total] of a stock, each sorted by id, and a fresh window.  In every
    state any interleaving of sends, receipts, consumptions and
    acknowledgements leads to: the orders handed to the engine are 1, 2, 3, ...
    in this order; whatever order arrives next is stored in a free slot of
    the window, none is dropped; consuming never faults; and no
    acknowledgement makes a trader's window go back. *)
Theorem protocol_safe cfg code total st0 st :
  0 <= total < INT_MAX -> 0 < sliding_window_size cfg -> init_ok cfg code total st0 ->
  rtc (step cfg code) st0 st ->
  (forall k o, delivered st !! k = Some o -> o_order_id o = Z.of_nat k + 1 /\ o_stk_code o = code) /\
  (forall t x o rest, traders st !! t = Some x -> out x = o :: rest ->
     exists w w', order_buffer (exch st) !! code = Some w /\
       put w o ((o_order_id o - 1) mod sliding_window_size cfg) = Done w' /\
       receiveOrder cfg (exch st) o =
         Done (set_order_buffer (exch st) (<[code := w']> (order_buffer (exch st))))) /\
  is_done (comsumeOrder (exch st) code) = true /\
  (forall t x a rest, traders st !! t = Some x -> ackq x = a :: rest ->
     is_done (update_sliding_window_start (info x) (a_stk_code a) (a_order_id a + 1)) = true).
Proof.
  intros Ht HW Hinit Hrun. destruct (init_sys_ok cfg code total st0 ltac:(lia) Hinit) as [w0 Hw0].
  destruct (run_reached cfg code total ltac:(lia) st0 st ltac:(by eexists _, _, _) Hrun) as (w & next & items & Hok).
  split_and!.
  - apply (so_delivered _ _ _ _ _ _ _ Hok).
  - intros t x o rest Hx Hout.
    destruct (receive_stored cfg code total ltac:(lia) HW st w next items t x o rest Hok Hx Hout) as (w' & Hput & E).
    exists w, w'. split_and!; [apply (so_window _ _ _ _ _ _ _ Hok)|done|done].
  - destruct (consume_preserves cfg code total st w next items Hok) as (os & ack & w' & items' & E & _).
    by rewrite E.
  - intros t x a rest Hx Hq.
    destruct (ack_preserves cfg code total st w next items t x a rest Hok Hx Hq) as (s' & E & _). by rewrite E.
Qed.

(** Every order is delivered.  If no trader waits for a hook, then from
    every state a run can reach, some continuation hands all [total] orders to
    the engine: no interleaving leads to a deadlock of windows and
    acknowledgements. *)
Theorem protocol_delivers cfg code total st0 st :
  0 <= total < INT_MAX -> 0 < sliding_window_size cfg -> init_ok cfg code total st0 ->
  Forall (fun x => free_sender code (ctl x)) (traders st0) ->
  rtc (step cfg code) st0 st ->
  exists st', rtc (step cfg code) st st' /\ map o_order_id (delivered st') = seqZ 1 total.
Proof.
  intros Ht HW Hinit Hfree Hrun. destruct (init_sys_ok cfg code total st0 ltac:(lia) Hinit) as [w0 Hw0].
  assert (Hreach0 : reached cfg code total st0) by by eexists _, _, _.
  pose proof (run_reached cfg code total ltac:(lia) st0 st Hreach0 Hrun) as Hreach.
  assert (Hfree' : Forall (fun x => free_sender code (ctl x)) (traders st)).
  { clear Hinit Hreach0 Hreach Hw0. induction Hrun as [|st1 st2 st3 Hs Hrun IH]; [done|].
    apply IH. by eapply step_free. }
  destruct (run_completes cfg code total ltac:(lia) HW st Hreach Hfree') as (st' & Hrun' & Hlen).
  exists st'. split; [done|].
  destruct (run_reached cfg code total ltac:(lia) st st' Hreach Hrun') as (w & next & items & Hok).
  destruct (so_delivered _ _ _ _ _ _ _ Hok) as [_ Hids].
  apply list_eq. intros k. destruct (decide (k < length (delivered st'))%nat) as [Hk|Hk].
  - destruct (lookup_lt_is_Some_2 (delivered st') k Hk) as [o Ho].
    rewrite list_lookup_fmap, Ho. simpl. rewrite lookup_seqZ_lt by lia.
    f_equal. destruct (Hids k o Ho). lia.
  - rewrite (lookup_ge_None_2 (map _ _)) by (rewrite length_map; lia).
    rewrite lookup_seqZ_ge by lia. done.
Qed.

(** The first trader sends the order 1, which the exchange receives. *)
Definition demo_sys1 : sys :=
  mkSys [demo_trader [demo_order 3]; demo_trader [demo_order 2]]
    (mkExchange ∅ {[1 := mkSlidingWindow [demo_order 1; Order_init; Order_init] [true; false; false] 3 0]}) [].

Lemma demo_run : rtc (step demo_pcfg 1) demo_sys demo_sys1.
Proof.
  eapply rtc_l.
  { apply (step_send demo_pcfg 1 demo_sys 0 (demo_trader [demo_order 1; demo_order 3]) (demo_order 1)
      [demo_order 3] 1 (demo_order 1)); vm_compute; reflexivity. }
  eapply rtc_l.
  { eapply (step_receive demo_pcfg 1 _ 0 (mkTraderSt free_tc [demo_order 3] (mkSharedTradeInfo [1] [∅]) [demo_order 1] [])
      (demo_order 1) []); [reflexivity|reflexivity|vm_compute; reflexivity]. }
  apply rtc_refl.
Qed.

Lemma protocol_safe_witness :
  rtc (step demo_pcfg 1) demo_sys demo_sys1 /\ is_done (comsumeOrder (exch demo_sys1) 1) = true.
Proof.
  split; [exact demo_run|].
  apply (protocol_safe demo_pcfg 1 3 demo_sys demo_sys1);
    [vm_compute; split; congruence|reflexivity|exact demo_init_ok|exact demo_run].
Defined.

Lemma protocol_delivers_witness :
  exists st', rtc (step demo_pcfg 1) demo_sys1 st' /\ map o_order_id (delivered st') = [1; 2; 3].
Proof.
  apply (protocol_delivers demo_pcfg 1 3 demo_sys demo_sys1);
    [vm_compute; split; congruence|reflexivity|exact demo_init_ok| |exact demo_run].
  repeat constructor; exact free_tc_free.
Defined.
