(* ===== verification/StockFlow.v ===== *)
(** * The orders of one stock on their way through the system

    What the transition systems of [System] and [World] share: the messages
    that carry orders and reports, the state of the engine after the orders
    delivered so far, and the invariant of the flow of one stock ([flow_inv]):
    a state of the protocol together with the engine that runs on what the
    protocol delivers.  Every kind of step keeps it. *)

From stdpp Require Import gmap relations.
From S2P Require Import Prelude Double Bytes Config Types StdHeap DeclBook StockExchange.
From S2P Require Import MatchSpec Matching MatchProps OrderedCommit EngineSafety EngineProps RunBounds.
From S2P Require Import BlockQueue SlidingWindow Messages Exchange Trader TraderProps.
From S2P Require Import TradeReceiver TradeReceiverProps Protocol.
#[local] Open Scope Z_scope.

(** ** Messages *)

(** The message of one round of the order sender. *)
Definition order_msg (pad : bytes) (order : Order) : bytes :=
  message pod_Order ORDER_MSG [(pad, order)].

(** What the trade channel carries. *)
Inductive event := EAck (a : OrderAck) | ETrade (t : Trade).
Definition event_msg (ev : event) : bytes :=
  match ev with EAck a => ack_msg a | ETrade t => trade_msg t end.
Definition acks_of (evs : list event) : list OrderAck :=
  omap (fun ev => match ev with EAck a => Some a | ETrade _ => None end) evs.
Definition trades_of (evs : list event) : list Trade :=
  omap (fun ev => match ev with EAck _ => None | ETrade t => Some t end) evs.
(** An order as a trader may send it: unchanged, or cancelled by the test. *)
Definition sent_as (o0 o : Order) : Prop := o = o0 \/ o = set_o_type o0 (-1).

Definition is_order_msg (o : Order) (msg : bytes) : Prop :=
  valid_Order o = true /\ exists pad, length pad = pod_pad pod_Order /\ msg = order_msg pad o.

Lemma handle_order_msg_one cfg e o msg :
  is_order_msg o msg -> handle_order_msg cfg e msg = receiveOrder cfg e o.
Proof.
  intros [Hv (pad & Hpad & ->)]. unfold order_msg. rewrite handle_order_msg_each; [|done|by repeat constructor].
  simpl. by destruct (receiveOrder cfg e o).
Qed.

(** An acknowledgement does not touch the hooks. *)
Lemma update_start_hooks n ts s c' new s' :
  update_sliding_window_start s c' new = Done s' -> hooks_ok n ts s -> hooks_ok n ts s'.
Proof.
  unfold update_sliding_window_start. intros E [Hl Hv].
  apply bind_done in E as (i & _ & E). apply bind_done in E as (old & _ & E).
  apply bind_done in E as ([] & _ & E). apply bind_done in E as (l & _ & E). simplify_eq. by split.
Qed.

Lemma acks_of_app l l' : acks_of (l ++ l') = acks_of l ++ acks_of l'.
Proof. apply omap_app. Qed.
Lemma trades_of_app l l' : trades_of (l ++ l') = trades_of l ++ trades_of l'.
Proof. apply omap_app. Qed.
Lemma acks_of_trades ts : acks_of (map ETrade ts) = [].
Proof. by induction ts. Qed.
Lemma trades_of_acks l : trades_of (map EAck l) = [].
Proof. by induction l. Qed.
Lemma acks_of_acks l : acks_of (map EAck l) = l.
Proof. induction l as [|a l IH]; [done|]. cbn. f_equal. exact IH. Qed.
Lemma trades_of_trades ts : trades_of (map ETrade ts) = ts.
Proof. induction ts as [|t ts IH]; [done|]. cbn. f_equal. exact IH. Qed.

(** ** Trade files *)

(** What a reader of the stock's file finds. *)
Definition trader_file (r : TraderTradeReceiver) (code : Z) : option (list Trade) :=
  fd ← trade_fds_ r !! code; read_trade_from_file <$> (files r !! fd).

(** Flushing a receiver that has handled the trades [got] leaves the trades of
    every stock in its file. *)
Lemma flush_file `{FileIO} (Hio : reliable_io) n got r :
  recv_ok n got r -> Forall (fun t => valid_Trade t = true) got ->
  exists r', flush r = Done r' /\ forall code, 1 <= code <= n -> trader_file r' code = Some (by_code code got).
Proof.
  intros Hr Hg. destruct (flush_law Hio n got r Hr) as (r' & Hf & Hfiles).
  exists r'. split; [done|]. intros code Hcode. destruct (Hfiles code Hcode) as (fd & Hfd & _ & Hc).
  unfold trader_file. rewrite Hfd. simpl. rewrite Hc. simpl. f_equal. apply read_trades_data.
  - apply Forall_forall. intros t [_ Ht]%list_elem_of_filter. by apply (proj1 (Forall_forall _ _) Hg).
  - rewrite trades_data_length. lia.
Qed.

Lemma by_code_good code ts : Forall (trade_good code) ts -> by_code code ts = ts.
Proof.
  unfold by_code. induction 1 as [|t ts (_ & Ht & _) _ IH]; [done|]. by rewrite filter_cons_True, IH.
Qed.

(** ** The engine and the input *)
Section flow.
Context `{HeapLib} (cfg : Config) (code : Z).

Definition event_ok (ev : event) : Prop :=
  match ev with
  | EAck a => exists id, a = mkOrderAck code id /\ is_int id = true /\ id < INT_MAX
  | ETrade t => True
  end.

Record engine_rel (e : Exchange) (os : list Order) : Prop := {
  er_engine : exists st, stock_exchange e !! code = Some st /\ stk_code st = code /\
    engine_ok st ((spec_run code (mkAbs [] []) os).2) (Z.of_nat (length os) + 1) /\
    last_commit_order_id st = Z.of_nat (length os) /\ not_ready_orders st = [] /\
    produced st = (spec_run code (mkAbs [] []) os).1;
}.


(** What is assumed of the input. *)
Record inputs_ok (inputs : list Order) : Prop := {
  io_orders : Forall (fun o => order_ok o /\ valid_Order o = true /\ o_stk_code o = code) inputs;
  io_ids : NoDup (map o_order_id inputs);
  io_volume : order_volume inputs <= INT_MAX;
}.

(** How an order is sent for one of the input: [sent_as], or something more
    definite. *)
Context (sent : Order -> Order -> Prop).

(** The flow of the stock: [inputs] are the orders the traders started from. *)
Record flow_inv (total : Z) (inputs : list Order) (a : sys)
    (w : SlidingWindow Order) (next : Z) (items : gmap Z Order) : Prop := {
  fi_protocol : sys_ok cfg code total a w next items;
  fi_engine : engine_rel (exch a) (delivered a);
  fi_todo : Forall (fun x => todo x ⊆ inputs) (traders a);
  fi_out : Forall (fun x => Forall (fun o => exists o0, o0 ∈ inputs /\ sent o0 o) (out x)) (traders a);
  fi_items i o : items !! i = Some o -> exists o0, o0 ∈ inputs /\ sent o0 o;
  fi_delivered : Forall (fun o => exists o0, o0 ∈ inputs /\ sent o0 o) (delivered a);
}.

(** ** Runs of the engine in pieces *)
Lemma spec_run_app ab os os' :
  spec_run code ab (os ++ os') =
    ((spec_run code ab os).1 ++ (spec_run code ((spec_run code ab os).2) os').1,
     (spec_run code ((spec_run code ab os).2) os').2).
Proof.
  revert ab. induction os as [|o os IH]; intros ab; simpl; [by destruct (spec_run code ab os')|].
  destruct (spec_commit code ab o) as [ts ab']. rewrite IH.
  destruct (spec_run code ab' os) as [ts1 ab1]. simpl. by rewrite app_assoc.
Qed.

Lemma run_ok_app ab os os' :
  run_ok code ab (os ++ os') -> run_ok code ((spec_run code ab os).2) os'.
Proof.
  revert ab. induction os as [|o os IH]; intros ab; simpl; [done|]. intros (_ & _ & Hok).
  destruct (spec_commit code ab o) as [ts ab']. specialize (IH ab' Hok).
  by destruct (spec_run code ab' os).
Qed.

(** ** The orders that are delivered *)
Lemma check_order_sent tc s o limit t o' :
  check_order tc s o limit t = Done (true, o') -> sent_as o o'.
Proof.
  unfold check_order, sent_as. case_if; [done|].
  intros E. apply bind_done in E as (h & _ & E). apply bind_done in E as ([ready o1] & E1 & E).
  assert (Ho1 : o1 = o \/ o1 = set_o_type o (-1)).
  { destruct (h !! o_order_id o); [|by simplify_eq; left]. apply bind_done in E1 as (v & _ & E1).
    repeat case_if; simplify_eq; auto. }
  assert (Htype : forall o1, set_o_type o1 (-1) = set_o_type (set_o_type o1 (-1)) (-1)) by by intros [].
  destruct ready; [|done]. cbn [negb] in E. case_if; [|by simplify_eq].
  apply bind_done in E as (lo & _ & E).
  case_if; [|apply bind_done in E as (hi & _ & E); case_if]; simplify_eq; destruct Ho1 as [->| ->]; auto.
Qed.

Lemma volume_le os inputs :
  NoDup (map o_order_id os) -> Forall (fun o => 0 <= o_volume o) inputs ->
  (forall o, o ∈ os -> exists o0, o0 ∈ inputs /\ o_order_id o = o_order_id o0 /\ o_volume o = o_volume o0) ->
  order_volume os <= order_volume inputs.
Proof.
  revert inputs. induction os as [|o os IH]; intros inputs Hnd Hpos Hin; simpl.
  { by apply order_volume_nonneg. }
  apply NoDup_cons in Hnd as [Hnew Hnd].
  destruct (Hin o) as (o0 & Ho0 & Eid & Evol); [left|].
  apply elem_of_Permutation in Ho0 as [inputs' Hp]. rewrite Hp in Hpos |- *. simpl.
  inversion_clear Hpos. rewrite Evol. enough (order_volume os <= order_volume inputs') by lia.
  apply IH; [done|done|]. intros y Hy. destruct (Hin y) as (y0 & Hy0 & Ey & Evy); [by right|].
  rewrite Hp in Hy0. apply elem_of_cons in Hy0 as [->|Hy0]; [|by exists y0].
  destruct Hnew. rewrite Eid, <- Ey. by apply list_elem_of_fmap_2.
Qed.

Lemma ids_from_seq inputs : ids_from 0 inputs -> map o_order_id inputs = seqZ 1 (Z.of_nat (length inputs)).
Proof.
  intros Hids. apply list_eq. intros i. rewrite list_lookup_fmap.
  destruct (inputs !! i) as [o|] eqn:E; simpl.
  - pose proof (lookup_lt_Some _ _ _ E). rewrite lookup_seqZ_lt by lia. f_equal. specialize (Hids i o E). lia.
  - apply lookup_ge_None in E. by rewrite lookup_seqZ_ge by lia.
Qed.

Section delivered.
Context (inputs : list Order) (Hinputs : inputs_ok inputs).

Lemma sent_ok o0 o : o0 ∈ inputs -> sent_as o0 o ->
  order_ok o /\ valid_Order o = true /\ o_stk_code o = code /\
  o_order_id o = o_order_id o0 /\ o_volume o = o_volume o0.
Proof using Hinputs.
  intros Hin Hs. destruct (proj1 (Forall_forall _ _) (io_orders _ Hinputs) o0 Hin) as (Hok & Hv & Hc).
  destruct Hs as [->| ->]; [done|]. destruct o0. split_and!; try done.
  unfold valid_Order in *. simpl in *. to_prop. rewrite ?andb_true_iff. split_and!; done.
Qed.

Lemma run_facts os :
  ids_from 0 os -> Forall (fun o => exists o0, o0 ∈ inputs /\ sent_as o0 o) os ->
  Forall (fun o => order_ok o /\ valid_Order o = true) os /\
  order_volume os <= INT_MAX /\ run_ok code (mkAbs [] []) os.
Proof using Hinputs.
  intros Hids Hfrom. rewrite Forall_forall in Hfrom.
  assert (Hok : Forall (fun o => order_ok o /\ valid_Order o = true) os).
  { apply Forall_forall. intros o Ho. destruct (Hfrom o Ho) as (o0 & H1 & H2).
    by destruct (sent_ok o0 o H1 H2) as (? & ? & _). }
  assert (Hvol : order_volume os <= INT_MAX).
  { etransitivity; [apply (volume_le os inputs)|apply Hinputs].
    - apply NoDup_alt. intros i j id Hi Hj. rewrite list_lookup_fmap in Hi, Hj.
      destruct (os !! i) as [oi|] eqn:Ei; [|done]. destruct (os !! j) as [oj|] eqn:Ej; [|done].
      simpl in *. pose proof (Hids i oi Ei). pose proof (Hids j oj Ej). simplify_eq. lia.
    - eapply Forall_impl; [apply Hinputs|]. intros o ([_ ?] & _). lia.
    - intros o Ho. destruct (Hfrom o Ho) as (o0 & H1 & H2).
      destruct (sent_ok o0 o H1 H2) as (_ & _ & _ & ? & ?). eauto. }
  split_and!; [done|done|]. apply (run_ok_volume code 0); [apply book_inv_empty|done| |unfold book_volume; simpl; lia].
  eapply Forall_impl; [exact Hok|]. by intros o [].
Qed.
End delivered.
(** The start: nothing was sent, the engine is new. *)
Lemma flow_start total inputs a :
  0 <= total -> init_ok cfg code total a -> stock_exchange (exch a) !! code = Some (new_StockExchange code) ->
  Forall (fun x => todo x ⊆ inputs) (traders a) -> exists w, flow_inv total inputs a w 0 ∅.
Proof.
  intros Ht Hi He Htd. destruct (init_sys_ok cfg code total a Ht Hi) as [w Hp]. exists w.
  split; try done.
  - split. exists (new_StockExchange code). rewrite (io_delivered _ _ _ _ Hi).
    split_and!; try done. apply new_engine_ok.
  - eapply Forall_impl; [apply (io_traders _ _ _ _ Hi)|]. intros x (_ & Eo & _). simpl. by rewrite Eo.
  - rewrite (io_delivered _ _ _ _ Hi). constructor.
Qed.

(** ** The steps of the flow *)
Section steps.
Context (total : Z) (inputs : list Order).
Context (Hcode : is_int code = true) (Htotal : total < INT_MAX) (HW : 0 < sliding_window_size cfg).
Context (Hinputs : inputs_ok inputs) (Hsent_as : forall o0 o, sent o0 o -> sent_as o0 o).

Abbreviation inv := (flow_inv total inputs).
Abbreviation engine_trades := (fun os => (spec_run code (mkAbs [] []) os).1).
Abbreviation from_input := (fun o => exists o0, o0 ∈ inputs /\ sent o0 o).

Lemma from_input_as os : Forall from_input os -> Forall (fun o => exists o0, o0 ∈ inputs /\ sent_as o0 o) os.
Proof using Hsent_as. intros Hf. eapply Forall_impl; [exact Hf|]. intros o (o0 & ? & ?). eauto. Qed.

(** The delivered orders and the engine's trades. *)
Lemma flow_delivered a w next items :
  inv a w next items ->
  ids_from 0 (delivered a) /\ Forall (fun o => o_stk_code o = code) (delivered a) /\
  Z.of_nat (length (delivered a)) = next /\ 0 <= next <= total.
Proof using Type.
  intros Hi. destruct (so_delivered _ _ _ _ _ _ _ (fi_protocol _ _ _ _ _ _ Hi)) as [Hl Hids].
  pose proof (so_bound _ _ _ _ _ _ _ (fi_protocol _ _ _ _ _ _ Hi)). split_and!; try lia.
  - intros i o Ho. destruct (Hids i o Ho). lia.
  - apply Forall_lookup. intros i o Ho. by destruct (Hids i o Ho).
Qed.

Lemma flow_trades a w next items :
  inv a w next items ->
  Forall (trade_good code) (engine_trades (delivered a)) /\
  2 * Z.of_nat (length (engine_trades (delivered a))) <= INT_MAX.
Proof using Hcode Hinputs Hsent_as.
  intros Hi. destruct (flow_delivered _ _ _ _ Hi) as (Hids & _).
  destruct (run_facts inputs Hinputs (delivered a) Hids (from_input_as _ (fi_delivered _ _ _ _ _ _ Hi))) as (Hok & Hvol & Hrun).
  assert (Hg : Forall (trade_good code) (engine_trades (delivered a))).
  { apply (spec_run_trades code 0); [done|apply book_inv_empty|done|done|by intros []; constructor]. }
  split; [done|].
  assert (Hpos : Forall (fun t => 0 < t_volume t) (engine_trades (delivered a)))
    by (eapply Forall_impl; [exact Hg|]; by intros t (_ & _ & ?)).
  pose proof (traded_length _ Hpos).
  pose proof (spec_run_volume code 0 (mkAbs [] []) (delivered a) (book_inv_empty _) Hids) as Hv.
  pose proof (spec_run_inv code 0 (mkAbs [] []) (delivered a) (length (delivered a)) (book_inv_empty _)
    Hrun Hids ltac:(lia)) as Hb.
  rewrite take_ge in Hb by lia.
  pose proof (volume_sum_nonneg _ (bi_vols _ _ Hb BuySide)).
  pose proof (volume_sum_nonneg _ (bi_vols _ _ Hb SellSide)).
  unfold book_volume in Hv. simpl in *.
  assert (Forall order_ok (delivered a)) by (eapply Forall_impl; [exact Hok|]; by intros o []).
  specialize (Hv ltac:(done)). lia.
Qed.

(** The delivered orders [os] are the first inputs, as they were sent. *)
Definition delivers (os : list Order) : Prop :=
  ids_from 0 os /\ (length os <= length inputs)%nat /\
  forall k o, os !! k = Some o -> exists o0, inputs !! k = Some o0 /\ sent_as o0 o.

Lemma flow_at a w next items k o :
  ids_from 0 inputs -> inv a w next items -> delivered a !! k = Some o ->
  exists o0, inputs !! k = Some o0 /\ sent o0 o.
Proof using Hinputs Hsent_as.
  intros Hids Hi Hk. destruct (flow_delivered a w next items Hi) as (Hd & _). specialize (Hd k o Hk).
  destruct (proj1 (Forall_lookup _ _) (fi_delivered _ _ _ _ _ _ Hi) k o Hk) as (o0 & Hin & Hs).
  exists o0. split; [|done]. apply list_elem_of_lookup in Hin as [j Hj].
  destruct (sent_ok inputs Hinputs o0 o) as (_ & _ & _ & Eid & _);
    [by apply list_elem_of_lookup; exists j|by apply Hsent_as|].
  pose proof (Hids j o0 Hj). by replace k with j by lia.
Qed.

Lemma flow_delivers a w next items :
  ids_from 0 inputs -> total = Z.of_nat (length inputs) -> inv a w next items -> delivers (delivered a).
Proof using Hinputs Hsent_as.
  intros Hids Ht Hi. destruct (flow_delivered a w next items Hi) as (Hd & _ & Hl & Hb).
  split_and!; [done|lia|]. intros k o Hk. destruct (flow_at a w next items k o Hids Hi Hk) as (o0 & ? & ?). eauto.
Qed.

(** A trader sends the next order of the stock. *)
Lemma flow_send a w next items t x o rest start o' :
  inv a w next items -> traders a !! t = Some x -> todo x = o :: rest ->
  get_sliding_window_start (info x) code = Done start -> o_order_id o < start + sliding_window_size cfg ->
  sent o o' ->
  inv (mkSys (<[t := set_sent x rest o']> (traders a)) (exch a) (delivered a)) w next items.
Proof using Hsent_as.
  intros [Hp He Htd Hot Hit Hde] Hx Htodo Hstart Hlim Hsent.
  assert (Hin : o ∈ inputs).
  { apply (proj1 (Forall_lookup _ _) Htd t x Hx). rewrite Htodo. left. }
  assert (Hsame : o_order_id o' = o_order_id o /\ o_stk_code o' = o_stk_code o) by (by destruct (Hsent_as _ _ Hsent) as [->| ->]).
  split; simpl; try done.
  - eapply sent_preserves; [done|done|done|done|apply Hsame|apply Hsame|done].
  - apply Forall_insert; [done|]. simpl. intros y Hy.
    apply (proj1 (Forall_lookup _ _) Htd t x Hx). rewrite Htodo. by right.
  - apply Forall_insert; [done|]. simpl. apply Forall_app.
    split; [apply (proj1 (Forall_lookup _ _) Hot t x Hx)|]. constructor; [by exists o|done].
Qed.

(** The exchange stores the next order of a trader. *)
Lemma flow_receive a w next items t x o rest :
  inv a w next items -> traders a !! t = Some x -> out x = o :: rest ->
  exists w', let e' := set_order_buffer (exch a) (<[code := w']> (order_buffer (exch a))) in
    receiveOrder cfg (exch a) o = Done e' /\
    inv (mkSys (<[t := set_out x rest]> (traders a)) e' (delivered a)) w' next (<[o_order_id o - 1 := o]> items).
Proof using Htotal.
  intros [Hp [(st & Hst & Hen)] Htd Hot Hit Hde] Hx Eout.
  destruct (receive_preserves cfg code total Htotal a w next items t x o rest Hp Hx Eout) as (w' & E & Hp').
  pose proof (proj1 (Forall_lookup _ _) Hot t x Hx) as Hox. cbn beta in Hox. rewrite Eout in Hox.
  inversion_clear Hox as [|? ? Hfrom Hox'].
  exists w'. cbv zeta. split; [done|]. split; simpl.
  - exact Hp'.
  - split. by exists st.
  - apply Forall_insert; [done|]. by apply (proj1 (Forall_lookup _ _) Htd t x Hx).
  - by apply Forall_insert.
  - intros i y. destruct (decide (i = o_order_id o - 1)) as [->|Hne].
    + rewrite lookup_insert_eq. by intros [= <-].
    + rewrite lookup_insert_ne by done. apply Hit.
  - done.
Qed.

(** A trader handles an acknowledgement, or a message that leaves the start of
    the window alone. *)
Lemma flow_ack a w next items t x ack rest :
  inv a w next items -> traders a !! t = Some x -> ackq x = ack :: rest ->
  exists s', update_sliding_window_start (info x) (a_stk_code ack) (a_order_id ack + 1) = Done s' /\
    inv (mkSys (<[t := set_acked x s' rest]> (traders a)) (exch a) (delivered a)) w next items.
Proof using Type.
  intros [Hp He Htd Hot Hit Hde] Hx Hq.
  destruct (ack_preserves cfg code total a w next items t x ack rest Hp Hx Hq) as (s' & E & Hp').
  exists s'. split; [done|]. split; simpl; try done.
  - apply Forall_insert; [done|]. by apply (proj1 (Forall_lookup _ _) Htd t x Hx).
  - apply Forall_insert; [done|]. by apply (proj1 (Forall_lookup _ _) Hot t x Hx).
Qed.

(** States that agree on the flow of the stock. *)
Lemma flow_same a a' w next items :
  inv a w next items -> Forall2 (same_flow code) (traders a) (traders a') ->
  order_buffer (exch a') !! code = order_buffer (exch a) !! code ->
  stock_exchange (exch a') !! code = stock_exchange (exch a) !! code ->
  delivered a' = delivered a -> inv a' w next items.
Proof using Type.
  intros [Hp [(st & Hst & Hen)] Htd Hot Hit Hde] Hsame Eb Es Ed. split; rewrite ?Ed; try done.
  - by eapply sys_ok_same.
  - split. exists st. by rewrite Es.
  - eapply Forall2_Forall_r; [exact Hsame|]. eapply Forall_impl; [exact Htd|]. by intros x Hx y (<- & _).
  - eapply Forall2_Forall_r; [exact Hsame|]. eapply Forall_impl; [exact Hot|]. by intros x Hx y (_ & <- & _).
Qed.

(** *** A round of the stock's thread *)
Lemma consume_ack e os ack e' :
  comsumeOrder e code = Done (os, ack, e') ->
  ack = option_map (fun order => mkOrderAck code (o_order_id order)) (last os).
Proof using Type. unfold comsumeOrder. intros E. apply bind_done in E as ([os' w] & _ & E). by simplify_eq. Qed.

(** The orders [os] taken out in a round continue the delivered ones. *)
Record continues (a : sys) (next : Z) (os : list Order) : Prop := {
  co_from : Forall from_input (delivered a ++ os);
  co_ids : ids_from next os;
  co_codes o : o ∈ os -> o_stk_code o = code;
  co_run : run_ok code ((spec_run code (mkAbs [] []) (delivered a)).2) os;
  co_bound : next + Z.of_nat (length os) <= total;
}.

Lemma round_orders a w next items a' w' items' os :
  inv a w next items -> sys_ok cfg code total a' w' (next + Z.of_nat (length os)) items' ->
  delivered a' = delivered a ++ os -> (forall o, o ∈ os -> exists i, items !! i = Some o) ->
  continues a next os.
Proof using Hinputs Hsent_as.
  intros Hi Hp' Edel Hos. destruct (flow_delivered _ _ _ _ Hi) as (_ & _ & Hlen & _).
  destruct (so_delivered _ _ _ _ _ _ _ Hp') as [_ Hids]. rewrite Edel in Hids.
  assert (Hfrom : Forall from_input (delivered a ++ os)).
  { apply Forall_app. split; [apply (fi_delivered _ _ _ _ _ _ Hi)|]. apply Forall_forall. intros o Ho.
    destruct (Hos o Ho) as [i Hoi]. by eapply (fi_items _ _ _ _ _ _ Hi). }
  assert (Hat : forall i o, os !! i = Some o -> o_order_id o = next + 1 + Z.of_nat i /\ o_stk_code o = code).
  { intros i o Ho. destruct (Hids (length (delivered a) + i)%nat o) as [Eid Ec]; [|split; [lia|done]].
    rewrite lookup_app_r by lia. by replace (_ + i - _)%nat with i by lia. }
  split; [done| | | |apply (so_bound _ _ _ _ _ _ _ Hp')].
  - intros i o Ho. by destruct (Hat i o Ho).
  - intros o [i Ho]%list_elem_of_lookup. by destruct (Hat i o Ho).
  - apply run_ok_app, (run_facts inputs Hinputs); [|by apply from_input_as].
    intros i o Ho. destruct (Hids i o Ho). lia.
Qed.

Lemma round_ack a next os e ack e' :
  continues a next os -> 0 <= next -> comsumeOrder e code = Done (os, ack, e') ->
  forall y, ack = Some y -> event_ok (EAck y).
Proof using Htotal.
  intros Hco Hnext E y Hy. apply consume_ack in E as ->. destruct (last os) as [o|] eqn:El; [|done].
  simplify_eq/=. exists (o_order_id o). split; [done|]. apply last_Some in El as [os' ->].
  pose proof (co_ids _ _ _ Hco (length os') o) as Eid. rewrite list_lookup_middle in Eid by done.
  specialize (Eid eq_refl). pose proof (co_bound _ _ _ Hco) as Hb. rewrite length_app in Hb. simpl in Hb.
  rewrite is_int_spec. unfold INT_MIN, INT_MAX in *. lia.
Qed.

Lemma flow_round a w next items :
  inv a w next items ->
  exists os ack st st' ts w' items',
    let e' := mkExchange (<[code := st']> (stock_exchange (exch a))) (<[code := w']> (order_buffer (exch a))) in
    stock_exchange (exch a) !! code = Some st /\ stock_round (exch a) code = Done (ack, e') /\
    produced st' = produced st ++ ts /\ engine_trades (delivered a ++ os) = engine_trades (delivered a) ++ ts /\
    produced st = engine_trades (delivered a) /\
    (forall y, ack = Some y -> event_ok (EAck y)) /\
    inv (mkSys (map (push_ack ack) (traders a)) e' (delivered a ++ os)) w' (next + Z.of_nat (length os)) items' /\
    (is_Some (items !! next) -> os <> []).
Proof using Hcode Hinputs Hsent_as Htotal.
  intros Hi. pose proof Hi as [Hp [(st & Hst & Hsc & Hen & Hlast & Hnr & Hprod)] Htd Hot Hit Hde].
  destruct (flow_delivered _ _ _ _ Hi) as (_ & _ & Hlen & Hb).
  destruct (consume_preserves cfg code total a w next items Hp)
    as (os & ack & w' & items' & E & Hp' & Hne & _ & Hos & Hit').
  pose proof (round_orders _ _ _ _ _ _ _ os Hi Hp' eq_refl Hos) as Hco.
  pose proof (round_ack _ _ _ _ _ _ Hco (proj1 Hb) E) as Hack.
  pose proof (co_bound _ _ _ Hco) as Hb'.
  destruct (receive_all_in_id_order st _ next os os ltac:(by rewrite <- Hlen))
    as (st' & Erecv & Hen' & Hprod' & Hlast' & Hnr');
    [by rewrite Hlast|done|apply Hco|rewrite Hsc; apply Hco|rewrite Hsc; apply Hco
    |unfold INT_MIN in *; lia|done|].
  rewrite Hsc in *. pose proof (receive_all_safe st os) as Hstc. rewrite Erecv, Hsc in Hstc. destruct Hstc as [Hstc _].
  exists os, ack, st, st', ((spec_run code ((spec_run code (mkAbs [] []) (delivered a)).2) os).1), w', items'.
  cbv zeta. split; [done|]. split.
  { unfold stock_round. rewrite E, bind_Done. cbn [set_order_buffer stock_exchange]. by rewrite Hst, Erecv. }
  split_and!; [done|by rewrite spec_run_app|done|exact Hack| |exact Hne].
  split; simpl; [by destruct Hp'| |by apply Forall_map|by apply Forall_map|eauto|apply Hco].
  split. exists st'. cbn [stock_exchange]. rewrite lookup_insert_eq, spec_run_app, length_app. simpl.
  split_and!; try done; [|lia|by rewrite Hprod', Hprod].
  by replace (Z.of_nat (_ + _) + 1) with (next + 1 + Z.of_nat (length os)) by lia.
Qed.
End steps.
End flow.

(** What is known of the orders that were sent may grow. *)
Lemma flow_mono `{HeapLib} cfg code (sent sent' : Order -> Order -> Prop) total inputs a w next items :
  (forall o0 o, sent o0 o -> sent' o0 o) ->
  flow_inv cfg code sent total inputs a w next items -> flow_inv cfg code sent' total inputs a w next items.
Proof.
  intros Hs [Hp He Htd Hot Hit Hde]. split; try done.
  - eapply Forall_impl; [exact Hot|]. intros x Hx. eapply Forall_impl; [exact Hx|]. intros o (o0 & ? & ?). eauto.
  - intros i o Ho. destruct (Hit i o Ho) as (o0 & ? & ?). eauto.
  - eapply Forall_impl; [exact Hde|]. intros o (o0 & ? & ?). eauto.
Qed.
