(* ===== verification/Rules.v ===== *)
(** * What the traders decide, as rules

    A trader sends an order once its window covers it and the trade its hook
    names was reported; the volume of that trade and the price limits decide
    whether the order goes out as it is or cancelled
    ([TraderController::check_order]).  When it is asked depends on the
    threads, what comes out does not: a rule delivers the next order of a
    stock as soon as its hook has a trade, whatever else goes on ([rule_step]).
    Deliveries never disturb each other, so that there is one end
    ([settled]), which every run of the rules is on its way to. *)

From stdpp Require Import gmap relations functions.
From S2P Require Import Prelude Double Bytes Config Types BlockQueue MatchSpec OrderedCommit.
From S2P Require Import Trader TraderProps TradeReceiver TradeReceiverProps StockFlow.
#[local] Open Scope Z_scope.

(** ** Decisions *)

(** What is known of an order beforehand. *)
Record order_rule := mkRule {
  rule_hook : option HookTarget;
  rule_low : double;
  rule_high : double;
}.

(** What the controller [tc] knows of the order [id] of the stock [code]. *)
Definition rule_of (tc : TraderController) (code id : Z) : order_rule :=
  let i := Z.to_nat (code - 1) in
  let limit k := default dzero (l ← price_limits tc !! k; l !! i) in
  mkRule (h ← hook tc !! i; h !! id) (limit 0%nat) (limit 1%nat).

(** The trade a hook names, counted from 1. *)
Definition hooked (trades : Z -> list Trade) (ht : HookTarget) : option Trade :=
  if target_trade_idx ht <? 1 then None
  else trades (target_stk_code ht) !! Z.to_nat (target_trade_idx ht - 1).

(** A limit order beyond the price limits is cancelled. *)
Definition priced (r : order_rule) (o : Order) : Order :=
  if (o_type o =? 0) && (dlt (o_price o) (rule_low r) || dgt (o_price o) (rule_high r))
  then set_o_type o (-1) else o.

(** The order as it is sent, when that is decided. *)
Definition decide_order (r : order_rule) (trades : Z -> list Trade) (o : Order) : option Order :=
  match rule_hook r with
  | None => Some (priced r o)
  | Some ht =>
      t ← hooked trades ht;
      Some (if t_volume t >? arg ht then set_o_type o (-1) else priced r o)
  end.

Lemma decide_order_sent r trades o o' : decide_order r trades o = Some o' -> sent_as o o'.
Proof.
  unfold decide_order, priced, sent_as. destruct (rule_hook r) as [ht|].
  - intros (t & _ & E)%bind_Some. repeat case_if; simplify_eq; auto.
  - intros E. repeat case_if; simplify_eq; auto.
Qed.

(** The trades of every stock when [dels] are the orders delivered to it. *)
Definition trades_from (dels : Z -> list Order) (code : Z) : list Trade :=
  (spec_run code (mkAbs [] []) (dels code)).1.

(** ** More deliveries *)
Definition grows {A} (d d' : Z -> list A) : Prop := forall code, d code `prefix_of` d' code.

#[export] Instance grows_preorder {A} : PreOrder (@grows A).
Proof. split; [by intros d code|]. intros d1 d2 d3 H12 H23 code. transitivity (d2 code); auto. Qed.

Lemma trades_grow d d' : grows d d' -> grows (trades_from d) (trades_from d').
Proof.
  intros Hd code. unfold trades_from. destruct (Hd code) as [os ->]. rewrite spec_run_app. cbn [fst]. by exists ((spec_run code ((spec_run code (mkAbs [] []) (d code)).2) os).1).
Qed.

Lemma hooked_grows trades trades' ht t :
  grows trades trades' -> hooked trades ht = Some t -> hooked trades' ht = Some t.
Proof.
  intros Hg. unfold hooked. case_if; [done|]. intros Ht. by eapply prefix_lookup_Some.
Qed.

Lemma decide_grows r trades trades' o o' :
  grows trades trades' -> decide_order r trades o = Some o' -> decide_order r trades' o = Some o'.
Proof.
  intros Hg. unfold decide_order. destruct (rule_hook r) as [ht|]; [|done].
  intros (t & Ht & E)%bind_Some. by rewrite (hooked_grows _ _ _ _ Hg Ht).
Qed.

Section rules.
Context (n : Z) (rules : Z -> Z -> order_rule) (inputs : Z -> list Order).
Implicit Types (d e : Z -> list Order).

(** ** The machine *)

(** The order [o] is what becomes of the input [o0]. *)
Definition obeys d (code : Z) (o0 o : Order) : Prop :=
  decide_order (rules code (o_order_id o0)) (trades_from d) o0 = Some o.

(** The next order of the stock, when it is decided. *)
Definition next_order d (code : Z) : option Order :=
  o0 ← inputs code !! length (d code);
  decide_order (rules code (o_order_id o0)) (trades_from d) o0.

(** Any stock may go on. *)
Inductive rule_step : (Z -> list Order) -> (Z -> list Order) -> Prop :=
  | deliver d code o :
      1 <= code <= n -> next_order d code = Some o -> rule_step d (<[code := d code ++ [o]]> d).

Definition stuck d : Prop := forall code, 1 <= code <= n -> next_order d code = None.

(** Going through the stocks again and again. *)
Definition settle_stock d (code : Z) : Z -> list Order :=
  match next_order d code with
  | Some o => <[code := d code ++ [o]]> d
  | None => d
  end.
Definition settle_round d : Z -> list Order := fold_left settle_stock (seqZ 1 n) d.
Definition undelivered d : nat := sum_list_with (fun code => length (inputs code) - length (d code))%nat (seqZ 1 n).
Definition settled : Z -> list Order := Nat.iter (undelivered (fun _ => [])) settle_round (fun _ => []).

(** ** Every delivery is a decision that stands *)
Definition ruled d : Prop :=
  forall code k o, d code !! k = Some o -> exists o0, inputs code !! k = Some o0 /\ obeys d code o0 o.

Lemma obeys_grows d e code o0 o : grows d e -> obeys d code o0 o -> obeys e code o0 o.
Proof using Type. intros Hg. by apply decide_grows, trades_grow. Qed.

Lemma insert_grows d code os : grows d (<[code := d code ++ os]> d).
Proof using Type.
  intros c. destruct (decide (c = code)) as [->|Hne]; [rewrite fn_lookup_insert; by eexists|].
  by rewrite fn_lookup_insert_ne.
Qed.

Lemma step_grows d e : rule_step d e -> grows d e.
Proof using Type. intros [d' code o _ _]. apply insert_grows. Qed.

Lemma run_grows d e : rtc rule_step d e -> grows d e.
Proof using Type. induction 1 as [|d1 d2 d3 Hs _ IH]; [done|]. etransitivity; [by apply step_grows|done]. Qed.

Lemma next_order_grows d e code o :
  grows d e -> length (e code) = length (d code) -> next_order d code = Some o -> next_order e code = Some o.
Proof using Type.
  intros Hg Hl (o0 & Ho0 & Hd)%bind_Some. apply bind_Some. exists o0. rewrite Hl. split; [done|].
  by eapply obeys_grows.
Qed.

Lemma step_ruled d e : rule_step d e -> ruled d -> ruled e.
Proof using Type.
  intros Hs Hr. pose proof (step_grows d e Hs) as Hg. destruct Hs as [d code o _ (o0 & Ho0 & Hd)%bind_Some].
  intros c k y Hy. assert (Hold : d c !! k = Some y -> exists o0, inputs c !! k = Some o0 /\ obeys (<[code:=d code ++ [o]]> d) c o0 y).
  { intros Hk. destruct (Hr c k y Hk) as (y0 & Hy0 & Hob). exists y0. split; [done|]. by eapply obeys_grows. }
  destruct (decide (c = code)) as [->|Hne]; [|rewrite fn_lookup_insert_ne in Hy by done; by apply Hold].
  rewrite fn_lookup_insert in Hy. apply lookup_app_Some in Hy as [Hy|[Hk Hy]]; [by apply Hold|].
  apply list_lookup_singleton_Some in Hy as [Hk0 <-]. exists o0. replace k with (length (d code)) by lia.
  split; [done|]. by eapply obeys_grows.
Qed.

Lemma run_ruled d e : rtc rule_step d e -> ruled d -> ruled e.
Proof using Type. induction 1; eauto using step_ruled. Qed.

Lemma start_ruled : ruled (fun _ => []).
Proof using Type. intros code k o Hk. by rewrite lookup_nil in Hk. Qed.

Lemma step_outside d e code : rule_step d e -> ~ 1 <= code <= n -> e code = d code.
Proof using Type. intros [d' c o Hc _] Hn. rewrite fn_lookup_insert_ne; [done|]. by intros ->. Qed.

Lemma run_outside d e code : rtc rule_step d e -> ~ 1 <= code <= n -> e code = d code.
Proof using Type. induction 1 as [|d1 d2 d3 Hs _ IH]; intros Hn; [done|]. by rewrite IH, (step_outside _ _ _ Hs). Qed.

(** Several deliveries to one stock. *)
Lemma deliver_run d code os :
  1 <= code <= n ->
  (forall k o, os !! k = Some o -> exists o0, inputs code !! (length (d code) + k)%nat = Some o0 /\ obeys d code o0 o) ->
  exists e, rtc rule_step d e /\ forall c, e c = (<[code := d code ++ os]> d) c.
Proof using Type.
  intros Hc. induction os as [|o os IH] using rev_ind; intros Hos.
  - exists d. split; [done|]. intros c. rewrite app_nil_r.
    destruct (decide (c = code)) as [->|]; [by rewrite fn_lookup_insert|by rewrite fn_lookup_insert_ne].
  - destruct IH as (e & Hr & He). { intros k y Hy. apply Hos. by apply lookup_app_l_Some. }
    pose proof (He code) as Ee. rewrite fn_lookup_insert in Ee.
    exists (<[code := e code ++ [o]]> e). split.
    + eapply rtc_r; [exact Hr|]. constructor; [done|].
      destruct (Hos (length os) o) as (o0 & Ho0 & Hob); [by apply list_lookup_middle|].
      unfold next_order. rewrite Ee, length_app, Ho0. cbn [mbind option_bind].
      eapply obeys_grows; [|exact Hob]. by apply run_grows.
    + intros c. destruct (decide (c = code)) as [->|]; [by rewrite !fn_lookup_insert, Ee, app_assoc|].
      by rewrite fn_lookup_insert_ne, He, !fn_lookup_insert_ne.
Qed.

(** ** One end *)

(** Whatever was delivered on the way is delivered at the end. *)
Lemma below_stuck d0 d e : rtc rule_step d0 d -> ruled e -> stuck e -> grows d0 e -> grows d e.
Proof using Type.
  intros Hr He Hs. induction Hr as [|d d1 d2 Hst _ IH]; [done|]. intros Hg. apply IH. clear IH d2.
  destruct Hst as [d code o Hc Hn]. intros c.
  destruct (decide (c = code)) as [->|Hne]; [|by rewrite fn_lookup_insert_ne].
  rewrite fn_lookup_insert. destruct (Hg code) as [[|y os] Ee].
  - rewrite app_nil_r in Ee. pose proof (next_order_grows d e code o Hg ltac:(by rewrite Ee) Hn) as Hn'.
    by rewrite Hs in Hn'.
  - assert (Hy : e code !! length (d code) = Some y) by (rewrite Ee; by apply list_lookup_middle).
    destruct (He code _ y Hy) as (y0 & Hy0 & Hob). apply bind_Some in Hn as (o0 & Ho0 & Hd).
    rewrite Ho0 in Hy0. injection Hy0 as <-. assert (Ho : obeys e code o0 o) by (by eapply obeys_grows).
    unfold obeys in *. rewrite Hob in Ho. injection Ho as ->. exists os. by rewrite Ee, <- app_assoc.
Qed.

(** ** The end is reached *)
Lemma step_undelivered d e : rule_step d e -> (undelivered e < undelivered d)%nat.
Proof using Type.
  intros [d' code o Hc (o0 & Ho0%lookup_lt_Some & _)%bind_Some]. unfold undelivered.
  pose proof (sum_list_change (fun c => length (inputs c) - length ((<[code := d' code ++ [o]]> d') c))%nat
    (fun c => length (inputs c) - length (d' c))%nat (seqZ 1 n) code (NoDup_seqZ _ _) ltac:(apply elem_of_seqZ; lia)) as Hs.
  cbv beta in Hs. rewrite fn_lookup_insert, length_app in Hs. simpl in Hs.
  specialize (Hs ltac:(intros j Hj; by rewrite fn_lookup_insert_ne)). lia.
Qed.

Lemma run_undelivered d e : rtc rule_step d e -> (undelivered e <= undelivered d)%nat.
Proof using Type. induction 1 as [|d1 d2 d3 Hs%step_undelivered _ IH]; lia. Qed.

Lemma settle_stock_law d code :
  1 <= code <= n -> settle_stock d code = d /\ next_order d code = None \/ rule_step d (settle_stock d code).
Proof using Type.
  intros Hc. unfold settle_stock. destruct (next_order d code) as [o|] eqn:En; [right|by left]. by constructor.
Qed.

Lemma settle_stocks l d :
  (forall code, code ∈ l -> 1 <= code <= n) ->
  rtc rule_step d (fold_left settle_stock l d) /\
  (fold_left settle_stock l d = d /\ (forall code, code ∈ l -> next_order d code = None) \/
   (undelivered (fold_left settle_stock l d) < undelivered d)%nat).
Proof using Type.
  revert d. induction l as [|code l IH]; intros d Hl; simpl.
  - split; [done|]. left. split; [done|]. intros c Hc. by apply not_elem_of_nil in Hc.
  - destruct (IH (settle_stock d code)) as [Hr Hd]; [intros c Hc; apply Hl; by right|].
    destruct (settle_stock_law d code) as [[E En]|Hs]; [apply Hl; left| |].
    + rewrite E in *. split; [done|]. destruct Hd as [[E' Hn]|?]; [left|by right]. split; [done|].
      intros c [->|Hc]%elem_of_cons; [done|by apply Hn].
    + split; [by eapply rtc_l|]. right. apply step_undelivered in Hs. apply run_undelivered in Hr. lia.
Qed.

Lemma settle_round_law d :
  rtc rule_step d (settle_round d) /\ (settle_round d = d /\ stuck d \/ (undelivered (settle_round d) < undelivered d)%nat).
Proof using Type.
  destruct (settle_stocks (seqZ 1 n) d) as [Hr Hd]; [intros c Hc%elem_of_seqZ; lia|]. split; [done|].
  destruct Hd as [[E Hn]|?]; [left|by right]. split; [done|]. intros c Hc. apply Hn, elem_of_seqZ. lia.
Qed.

Lemma stuck_run d e : stuck d -> rtc rule_step d e -> e = d.
Proof using Type.
  intros Hs Hr. inversion Hr as [|? d1 ? Hstep _ E1 E2]; [done|]. subst.
  destruct Hstep as [d' code o Hc Hn]. by rewrite Hs in Hn.
Qed.

Lemma settle_rounds k d :
  rtc rule_step d (Nat.iter k settle_round d) /\
  (stuck (Nat.iter k settle_round d) \/ (undelivered (Nat.iter k settle_round d) + k <= undelivered d)%nat).
Proof using Type.
  induction k as [|k [Hr Hd]]; simpl; [split; [done|right; lia]|].
  set (d1 := Nat.iter k settle_round d) in *. destruct (settle_round_law d1) as [Hr1 Hd1].
  split; [by etransitivity|]. destruct Hd as [Hs|Hd].
  - left. by rewrite (stuck_run _ _ Hs Hr1).
  - destruct Hd1 as [[E Hs]|Hd1]; [left; by rewrite E|right; lia].
Qed.

(** The rules come to one end: whatever was delivered in a run of the rules is
    delivered in [settled], in the same order, and nothing can be added to it. *)
Lemma settled_end :
  rtc rule_step (fun _ => []) settled /\ stuck settled /\
  forall d, rtc rule_step (fun _ => []) d -> grows d settled /\ (stuck d -> forall code, d code = settled code).
Proof using Type.
  unfold settled. set (k := undelivered _). destruct (settle_rounds k (fun _ => [])) as [Hr Hd].
  fold k in Hd. set (e := Nat.iter k settle_round _) in *.
  assert (Hs : stuck e).
  { destruct Hd as [?|Hd]; [done|]. intros code Hc. destruct (next_order e code) as [o|] eqn:En; [|done].
    pose proof (step_undelivered _ _ (deliver e code o Hc En)). lia. }
  assert (Hru : forall d, rtc rule_step (fun _ => []) d -> ruled d).
  { intros d Hrd. eapply run_ruled; [exact Hrd|]. apply start_ruled. }
  assert (Hnil : forall d, grows (fun _ => []) d) by (intros d code; apply prefix_nil).
  split; [done|]. split; [done|]. intros d Hrd. split; [by eapply below_stuck; eauto|].
  intros Hsd code. apply (anti_symm prefix); eapply below_stuck; eauto.
Qed.

(** Orders without hooks are all delivered. *)
Lemma stuck_no_hooks d code :
  ruled d -> stuck d -> 1 <= code <= n -> (forall id, rule_hook (rules code id) = None) ->
  length (d code) = length (inputs code).
Proof using Type.
  intros Hr Hs Hc Hno. specialize (Hs code Hc). unfold next_order in Hs.
  destruct (inputs code !! length (d code)) as [o0|] eqn:Ei.
  { simpl in Hs. unfold decide_order in Hs. by rewrite Hno in Hs. }
  apply lookup_ge_None in Ei. destruct (d code) as [|o os] eqn:Ed using rev_ind; [simpl in *; lia|].
  destruct (Hr code (length os) o) as (o0 & Ho0%lookup_lt_Some & _); [by rewrite Ed, list_lookup_middle|].
  rewrite length_app in *. simpl in *. lia.
Qed.
End rules.

(** ** The test of the controller decides by the rule *)
Lemma limit_at tc k i v :
  price_limit tc (Z.of_nat k) i = Done v -> default dzero (l ← price_limits tc !! k; l !! Z.to_nat i) = v.
Proof.
  intros (l & [_ Hl]%array_get_inv & [_ Hi]%array_get_inv)%bind_done. rewrite Nat2Z.id in Hl. by rewrite Hl; simpl; rewrite Hi.
Qed.

Lemma rule_of_env tc s code h lo hi id :
  check_env tc s (code - 1) h lo hi -> rule_of tc code id = mkRule (h !! id) lo hi.
Proof.
  intros [Hh Hlo Hhi _]. apply array_get_inv in Hh as [_ Hh]. unfold rule_of. rewrite Hh. simpl.
  by rewrite (limit_at tc 0 (code - 1) lo), (limit_at tc 1 (code - 1) hi).
Qed.

(** The hooks after the trades [got], which are [trades] for every stock. *)
Section hooks.
Context (n : Z) (got : list Trade) (s : SharedTradeInfo) (trades : Z -> list Trade).
Context (Hhooks : hooks_ok n got s) (Htrades : forall code, 1 <= code <= n -> trades code = by_code code got).
Context (Hpos : forall code, 1 <= code <= n -> Forall (fun t => 0 < t_volume t) (trades code)).

Lemma hooked_volume ht v :
  get_hooked_volume s (target_stk_code ht) (target_trade_idx ht) = Done v ->
  v = match hooked trades ht with Some t => t_volume t | None => -1 end /\
  forall t, hooked trades ht = Some t -> 0 < t_volume t.
Proof using Hhooks Hpos Htrades.
  destruct Hhooks as [Hlen Hval]. intros (i & [-> _]%chk_int_inv & E)%bind_done.
  apply bind_done in E as (m & [Hi0 Hm]%array_get_inv & E). pose proof (lookup_lt_Some _ _ _ Hm).
  destruct (m !! target_trade_idx ht) as [v'|] eqn:Ek; [|done]. injection E as ->.
  assert (Hc : 1 <= target_stk_code ht <= n) by lia.
  rewrite (Hval _ m _ v Hc Hm Ek), <- Htrades by done. unfold hook_value, hooked. case_if; [done|]. split; [done|].
  intros t Ht. by eapply (Forall_lookup_1 _ _ _ _ (Hpos _ Hc)).
Qed.

Lemma check_rule tc code h lo hi limit o :
  check_env tc s (code - 1) h lo hi -> o_order_id o < limit ->
  check_order tc s o limit (code - 1) =
    Done (match decide_order (rule_of tc code (o_order_id o)) trades o with
          | Some o' => (true, o')
          | None => (false, o)
          end).
Proof using Hhooks Hpos Htrades.
  intros Henv Hlim. rewrite (check_order_verdict _ _ _ h lo hi) by done. f_equal.
  rewrite (rule_of_env _ _ _ _ _ _ _ Henv). unfold order_verdict, hook_verdict, decide_order. cbn [rule_hook].
  destruct (Z.geb_spec (o_order_id o) limit); [lia|].
  assert (Hp : verdict_result (price_verdict lo hi o) o = (true, priced (mkRule (h !! o_order_id o) lo hi) o)).
  { unfold price_verdict, priced. cbn [rule_low rule_high]. by case_if. }
  destruct (h !! o_order_id o) as [ht|] eqn:Eht; [|exact Hp].
  destruct (ce_targets _ _ _ _ _ _ Henv _ _ Eht) as [v Ev]. rewrite Ev.
  destruct (hooked_volume ht v Ev) as [-> Hv]. destruct (hooked trades ht) as [t|]; [|done]. simpl.
  specialize (Hv t eq_refl). destruct (Z.eqb_spec (t_volume t) (-1)); [lia|]. by destruct (t_volume t >? arg ht).
Qed.
End hooks.
