(* ===== verification/System.v ===== *)
(** * The system seen from one stock

    A coarser system than [World], for one stock: the traders, the exchange and the channels between them, with the bytes
    that travel: the threads of [src/trader/trader_controller.cpp],
    [src/trader/order_sender.cpp], [src/exchange/order_receiver.cpp],
    [src/exchange/stock_exchange.cpp], [src/exchange/trade_sender.cpp] and
    [src/trader/trade_receiver.cpp] as the steps of a transition system.  Every
    step calls the modelled functions; any interleaving of them is a run.  A
    channel stands for the queue, the thread and the connection of a sender,
    and the trade sender tells all traders in one step.
    [Protocol] abstracts from the messages, the engine and the trades; the
    invariant of this file relates every state of the system to a state of the
    protocol, to the specification of the engine run on the delivered orders,
    and to the trades each trader has received. *)

From stdpp Require Import gmap relations.
From S2P Require Import Prelude Double Bytes Config Types StdHeap DeclBook StockExchange.
From S2P Require Import MatchSpec Matching MatchProps OrderedCommit EngineProps RunBounds.
From S2P Require Import BlockQueue SlidingWindow Messages Exchange Trader TraderProps.
From S2P Require Import TradeReceiver TradeReceiverProps Protocol StockFlow.
#[local] Open Scope Z_scope.

(** A trader with its two channels: to the exchange's order receiver and from
    its trade sender. *)
Record link := mkLink {
  l_ctl : TraderController;
  l_todo : list Order;
  l_info : SharedTradeInfo;
  l_recv : TraderTradeReceiver;
  order_chan : list bytes;
  trade_chan : list bytes;
}.

Record system := mkSystem {
  links : list link;
  exchange : Exchange;
}.

Definition link_sent (l : link) (rest : list Order) (msg : bytes) : link :=
  mkLink (l_ctl l) rest (l_info l) (l_recv l) (order_chan l ++ [msg]) (trade_chan l).
Definition link_taken (l : link) (q : list bytes) : link :=
  mkLink (l_ctl l) (l_todo l) (l_info l) (l_recv l) q (trade_chan l).
Definition link_told (msgs : list bytes) (l : link) : link :=
  mkLink (l_ctl l) (l_todo l) (l_info l) (l_recv l) (order_chan l) (trade_chan l ++ msgs).
Definition link_heard (l : link) (r : TraderTradeReceiver) (s : SharedTradeInfo) (q : list bytes) : link :=
  mkLink (l_ctl l) (l_todo l) s r (order_chan l) q.

Section system.
Context `{HeapLib} `{FileIO} (cfg : Config) (code : Z).

(** What a round of the stock's thread hands to the trade sender: the
    acknowledgement ([comsumeOrder]), then the trades of the engine. *)
Definition round_msgs (ack : option OrderAck) (st st' : StockExchange) : list bytes :=
  map ack_msg (option_list ack) ++ map trade_msg (drop (length (produced st)) (produced st')).

Inductive sys_step : system -> system -> Prop :=
  | sys_send c t l o rest start o' pad :
      links c !! t = Some l -> l_todo l = o :: rest ->
      get_sliding_window_start (l_info l) code = Done start ->
      check_order (l_ctl l) (l_info l) o (start + sliding_window_size cfg) (code - 1) = Done (true, o') ->
      length pad = pod_pad pod_Order ->
      sys_step c (mkSystem (<[t := link_sent l rest (order_msg pad o')]> (links c)) (exchange c))
  | sys_receive c t l msg q e' :
      links c !! t = Some l -> order_chan l = msg :: q ->
      handle_order_msg cfg (exchange c) msg = Done e' ->
      sys_step c (mkSystem (<[t := link_taken l q]> (links c)) e')
  | sys_round c ack e' st st' :
      stock_exchange (exchange c) !! code = Some st ->
      stock_round (exchange c) code = Done (ack, e') ->
      stock_exchange e' !! code = Some st' ->
      sys_step c (mkSystem (map (link_told (round_msgs ack st st')) (links c)) e')
  | sys_report c t l msg q r' s' :
      links c !! t = Some l -> trade_chan l = msg :: q ->
      handle_msg (l_recv l) (l_info l) msg = Done (r', s') ->
      sys_step c (mkSystem (<[t := link_heard l r' s' q]> (links c)) (exchange c)).

(** ** The invariant *)

(** A trader of the protocol and a link of the system, when the engine has
    produced [ts]: [got] are the trades the receiver has handled, [evs] the
    messages it has not. *)
Record link_rel (ts : list Trade) (x : trader_st) (l : link) (got : list Trade) (evs : list event) : Prop := {
  lr_ctl : ctl x = l_ctl l;
  lr_todo : todo x = l_todo l;
  lr_info : info x = l_info l;
  lr_out : Forall2 is_order_msg (out x) (order_chan l);
  lr_chan : trade_chan l = map event_msg evs;
  lr_acks : ackq x = acks_of evs;
  lr_trades : got ++ trades_of evs = ts;
  lr_events : Forall (event_ok code) evs;
  lr_recv : recv_ok (stock_num cfg) got (l_recv l);
  lr_hooks : hooks_ok (stock_num cfg) got (l_info l);
}.

(** [inputs] are the orders the traders started from. *)
Record sys_inv (total : Z) (inputs : list Order) (a : sys) (c : system)
    (w : SlidingWindow Order) (next : Z) (items : gmap Z Order) : Prop := {
  si_flow : flow_inv cfg code sent_as total inputs a w next items;
  si_exch : exch a = exchange c;
  si_links : Forall2 (fun x l => exists got evs,
    link_rel ((spec_run code (mkAbs [] []) (delivered a)).1) x l got evs) (traders a) (links c);
}.
End system.
