(* ===== verification/SystemInv.v ===== *)
(** * The invariant of the system

    Every step of [System.sys_step] keeps [System.sys_inv]: sending and
    receiving orders and handling acknowledgements are steps of the protocol,
    a round of the stock's thread is a step of the protocol together with a
    run of the engine, and handling a trade only changes the trader's hooks
    and files. *)

From stdpp Require Import gmap relations.
From S2P Require Import Prelude Double Bytes Config Types StdHeap DeclBook StockExchange.
From S2P Require Import MatchSpec Matching MatchProps OrderedCommit EngineSafety EngineProps RunBounds.
From S2P Require Import BlockQueue SlidingWindow Messages Exchange Trader TraderProps.
From S2P Require Import TradeReceiver TradeReceiverProps Protocol StockFlow System.
#[local] Open Scope Z_scope.

Section inv.
Context `{HeapLib} `{FileIO} (Hio : reliable_io) (cfg : Config) (code total : Z) (inputs : list Order).
Context (Hcode : 1 <= code <= stock_num cfg) (Hstocks : stock_num cfg <= INT_MAX).
Context (Htotal : total < INT_MAX) (HW : 0 < sliding_window_size cfg).
Context (Hinputs : inputs_ok code inputs).

Abbreviation inv := (sys_inv cfg code total inputs).
Abbreviation engine_trades := (fun os => (spec_run code (mkAbs [] []) os).1).

Lemma code_int : is_int code = true.
Proof using Hcode Hstocks. apply is_int_spec. unfold INT_MIN, INT_MAX in *. lia. Qed.

Lemma inv_link a c w next items t l :
  inv a c w next items -> links c !! t = Some l ->
  exists x got evs, traders a !! t = Some x /\ link_rel cfg code (engine_trades (delivered a)) x l got evs.
Proof using Type.
  intros Hi Hl. destruct (Forall2_lookup_r _ _ _ _ _ (si_links _ _ _ _ _ _ _ _ _ Hi) Hl) as (x & Hx & got & evs & Hrel).
  by exists x, got, evs.
Qed.

(** ** Sending an order *)
Lemma send_inv a c w next items t l o rest start o' pad :
  inv a c w next items ->
  links c !! t = Some l -> l_todo l = o :: rest -> get_sliding_window_start (l_info l) code = Done start ->
  check_order (l_ctl l) (l_info l) o (start + sliding_window_size cfg) (code - 1) = Done (true, o') ->
  length pad = pod_pad pod_Order ->
  exists a', inv a' (mkSystem (<[t := link_sent l rest (order_msg pad o')]> (links c)) (exchange c)) w next items.
Proof using Hinputs.
  intros Hi Hl Htodo Hstart Hcheck Hpad.
  destruct (inv_link _ _ _ _ _ _ _ Hi Hl) as (x & got & evs & Hx & Hrel).
  destruct Hrel as [Ectl Etodo Einfo Hout Hchan Hacks Htr Hev Hr Hh]. destruct Hi as [Hf He Hls].
  assert (Hin : o ∈ inputs).
  { apply (proj1 (Forall_lookup _ _) (fi_todo _ _ _ _ _ _ _ _ _ Hf) t x Hx). rewrite Etodo, Htodo. left. }
  pose proof (check_order_sent _ _ _ _ _ _ Hcheck) as Hsent.
  destruct (check_order_same _ _ _ _ _ _ Hcheck) as (_ & _ & Hlim).
  rewrite <- Einfo in Hstart. rewrite <- Etodo in Htodo.
  exists (mkSys (<[t := set_sent x rest o']> (traders a)) (exch a) (delivered a)).
  split; simpl; [by eapply flow_send|done|].
  apply Forall2_insert; [done|]. exists got, evs. split; simpl; try done.
  apply Forall2_app; [done|]. constructor; [|done]. split; [|by exists pad].
  by destruct (sent_ok code inputs Hinputs o o' Hin Hsent) as (_ & ? & _).
Qed.

(** ** Receiving an order *)
Lemma receive_inv a c w next items t l msg q :
  inv a c w next items -> links c !! t = Some l -> order_chan l = msg :: q ->
  exists e' a' w' items', handle_order_msg cfg (exchange c) msg = Done e' /\
    inv a' (mkSystem (<[t := link_taken l q]> (links c)) e') w' next items'.
Proof using Htotal.
  intros Hi Hl Hq. destruct (inv_link _ _ _ _ _ _ _ Hi Hl) as (x & got & evs & Hx & Hrel).
  destruct Hrel as [Ectl Etodo Einfo Hout Hchan Hacks Htr Hev Hr Hh]. destruct Hi as [Hf He Hls].
  rewrite Hq in Hout. apply Forall2_cons_inv_r in Hout as (o & rest & Hmsg & Hout & Eout).
  destruct (flow_receive cfg code sent_as total inputs Htotal a w next items t x o rest Hf Hx Eout) as (w' & E & Hf').
  rewrite (handle_order_msg_one _ _ o) by done. rewrite <- He, E.
  eexists _, _, w', _. split; [done|]. split; simpl; [exact Hf'|done|].
  apply Forall2_insert; [done|]. by exists got, evs.
Qed.

(** ** A round of the stock's thread *)
Lemma told_link ts ts' ack x l got evs st st' os :
  link_rel cfg code ts x l got evs ->
  produced st = ts -> produced st' = ts ++ ts' ->
  (forall y, ack = Some y -> event_ok code (EAck y)) -> ts ++ ts' = engine_trades os ->
  exists got evs, link_rel cfg code (engine_trades os) (push_ack ack x)
    (link_told (round_msgs ack st st') l) got evs.
Proof using Type.
  intros [Ectl Etodo Einfo Hout Hchan Hacks Htr Hev Hr Hh] Est Est' Hack <-.
  exists got, (evs ++ map EAck (option_list ack) ++ map ETrade ts'). split; simpl; try done.
  - rewrite Hchan. unfold round_msgs. rewrite Est, Est', drop_app_length, !map_app, !map_map. done.
  - by rewrite !acks_of_app, acks_of_acks, acks_of_trades, app_nil_r, Hacks.
  - by rewrite !trades_of_app, trades_of_acks, trades_of_trades, <- Htr, <- app_assoc.
  - apply Forall_app. split; [done|]. apply Forall_app. split.
    + destruct ack; simpl; [constructor; [by apply Hack|]|]; constructor.
    + by apply Forall_map, Forall_true.
Qed.

Lemma round_inv a c w next items :
  inv a c w next items ->
  exists ack e' st st' a' w' next' items',
    stock_exchange (exchange c) !! code = Some st /\ stock_round (exchange c) code = Done (ack, e') /\
    stock_exchange e' !! code = Some st' /\
    inv a' (mkSystem (map (link_told (round_msgs ack st st')) (links c)) e') w' next' items' /\
    next <= next' /\ (is_Some (items !! next) -> next < next').
Proof using Hcode Hstocks Hinputs Htotal.
  intros [Hf He Hls].
  destruct (flow_round cfg code sent_as total inputs code_int Htotal Hinputs (fun _ _ Hs => Hs) a w next items Hf)
    as (os & ack & st & st' & ts & w' & items' & Hst & E & Hts & Etr & Hprod & Hack & Hf' & Hne).
  rewrite He in *. eexists ack, _, st, st', _, w', (next + Z.of_nat (length os)), items'.
  split; [done|]. split; [exact E|]. split; [simpl; by rewrite lookup_insert_eq|]. split; [|split; [lia|]].
  - split; [exact Hf'|done|]. simpl. apply Forall2_fmap_2. eapply Forall2_impl; [exact Hls|].
    intros x l (got & evs & Hrel). eapply told_link; [exact Hrel|exact Hprod| |exact Hack|by symmetry].
    by rewrite Hts, Hprod.
  - intros Hs. specialize (Hne Hs). destruct os; [done|simpl; lia].
Qed.

(** ** Handling a message of the trade channel *)
Lemma report_inv a c w next items t l msg q :
  inv a c w next items -> links c !! t = Some l -> trade_chan l = msg :: q ->
  exists r' s' a', handle_msg (l_recv l) (l_info l) msg = Done (r', s') /\
    inv a' (mkSystem (<[t := link_heard l r' s' q]> (links c)) (exchange c)) w next items.
Proof using Hcode Hstocks Hinputs Hio.
  intros Hi Hl Hq. destruct (inv_link _ _ _ _ _ _ _ Hi Hl) as (x & got & evs & Hx & Hrel).
  destruct Hrel as [Ectl Etodo Einfo Hout Hchan Hacks Htr Hev Hr Hh]. destruct Hi as [Hf He Hls].
  destruct (flow_trades cfg code sent_as total inputs code_int Hinputs (fun _ _ Hs => Hs) _ _ _ _ Hf) as [Hgood Hcount].
  rewrite Hq in Hchan. destruct evs as [|[ack|tr] evs]; [done| |]; injection Hchan as -> Hchan;
    inversion_clear Hev as [|? ? Hev1 Hev'].
  - destruct Hev1 as (id & -> & Hid & Hlt). simpl in Hacks.
    destruct (flow_ack cfg code sent_as total inputs a w next items t x _ _ Hf Hx Hacks) as (s' & E & Hf').
    simpl in E. rewrite Einfo in E. exists (l_recv l), s'. eexists.
    cbn [event_msg]. rewrite handle_ack_msg by (done || apply code_int). rewrite E. split; [done|].
    split; [exact Hf'|done|]. simpl. apply Forall2_insert; [done|]. exists got, evs.
    split; simpl; try done. by eapply update_start_hooks.
  - simpl in Hacks, Htr.
    assert (Htr' : (got ++ [tr]) ++ trades_of evs = engine_trades (delivered a)) by (by rewrite <- app_assoc).
    assert (Htg : trade_good code tr).
    { rewrite Forall_forall in Hgood. apply Hgood. rewrite <- Htr', <- app_assoc. apply elem_of_app. right. left. }
    destruct Htg as (Hval & Hcd & _).
    destruct (process_trade_law Hio (stock_num cfg) got (l_recv l) (l_info l) tr Hr Hh)
      as (r' & s' & E & Hr' & Hh' & Hstart & _); [lia|done| |].
    { rewrite <- Htr, length_app in Hcount. simpl in Hcount. pose proof (by_code_length (t_stk_code tr) got).
      unfold INT_MAX in *. lia. }
    exists r', s', (mkSys (<[t := set_acked x s' (ackq x)]> (traders a)) (exch a) (delivered a)).
    cbn [event_msg]. rewrite handle_trade_msg by done. split; [done|]. split; simpl; [|done|].
    + eapply flow_same; [exact Hf| |done|done|done]. simpl.
      rewrite <- (list_insert_id (traders a) t x Hx) at 1. apply Forall2_insert; [by apply Forall_Forall2_diag, Forall_true|].
      split_and!; try done. simpl. unfold get_sliding_window_start. by rewrite Hstart, Einfo.
    + apply Forall2_insert; [done|]. by exists (got ++ [tr]), evs.
Qed.

(** ** Every step keeps the invariant *)
Definition reachable (c : system) : Prop := exists a w next items, inv a c w next items.

Lemma step_reachable c c' : reachable c -> sys_step cfg code c c' -> reachable c'.
Proof using Hcode Hstocks Hinputs Hio Htotal HW.
  intros (a & w & next & items & Hi) Hs.
  destruct Hs as [c t l o rest start o' pad Hl Htodo Hstart Hcheck Hpad|c t l msg q e' Hl Hq E
    |c ack e' st st' Hst E Hst'|c t l msg q r' s' Hl Hq E].
  - destruct (send_inv a c w next items t l o rest start o' pad) as [a' Ha']; [eassumption..|]. by exists a', w, next, items.
  - destruct (receive_inv a c w next items t l msg q) as (e2 & a' & w' & items' & E2 & Hi'); [done..|].
    rewrite E in E2. injection E2 as ->. by exists a', w', next, items'.
  - destruct (round_inv a c w next items Hi) as (ack2 & e2 & st2 & st2' & a' & w' & next' & items' & Hst2 & E2 & Hst2' & Hi' & _).
    rewrite Hst in Hst2. injection Hst2 as <-. rewrite E in E2. injection E2 as <- <-.
    rewrite Hst' in Hst2'. injection Hst2' as <-. by exists a', w', next', items'.
  - destruct (report_inv a c w next items t l msg q) as (r2 & s2 & a' & E2 & Hi'); [done..|].
    rewrite E in E2. injection E2 as -> ->. by exists a', w, next, items.
Qed.

Lemma run_reachable c c' : reachable c -> rtc (sys_step cfg code) c c' -> reachable c'.
Proof using Hcode Hstocks Hinputs Hio Htotal HW. intros Hr Hs. induction Hs; eauto using step_reachable. Qed.
End inv.
