(* ===== verification/SystemProps.v ===== *)
(** * Properties of the system seen from one stock

    What the traders' files hold is what the specification of the engine says
    of the orders, in the order of their ids: in every reachable state up to
    the orders delivered so far, and, with traders that do not wait for a hook,
    in a state every run can be continued to for all orders. *)

From stdpp Require Import gmap relations.
From S2P Require Import Prelude Double Bytes Config Types StdHeap DeclBook StockExchange.
From S2P Require Import MatchSpec Matching MatchProps OrderedCommit EngineSafety EngineProps RunBounds.
From S2P Require Import BlockQueue SlidingWindow Messages Exchange Trader TraderProps.
From S2P Require Import TradeReceiver TradeReceiverProps Protocol StockFlow System SystemInv.
#[local] Open Scope Z_scope.

Section props.
Context `{HeapLib} `{FileIO} (cfg : Config) (code : Z).

(** The orders [inputs], with the ids 1, 2, ..., are distributed over the
    traders; nothing has been sent. *)
Record sys_init (inputs : list Order) (c : system) : Prop := {
  sn_window : exists w, order_buffer (exchange c) !! code = Some w /\
    new_SlidingWindow Order_init (sliding_window_size cfg) = Done w;
  sn_engine : stock_exchange (exchange c) !! code = Some (new_StockExchange code);
  sn_links : Forall (fun l => get_sliding_window_start (l_info l) code = Done 1 /\
    order_chan l = [] /\ trade_chan l = [] /\
    StronglySorted (fun o1 o2 => o_order_id o1 < o_order_id o2) (l_todo l) /\
    new_TraderTradeReceiver cfg = Done (l_recv l) /\ hooks_ok (stock_num cfg) [] (l_info l)) (links c);
  sn_inputs : concat (map l_todo (links c)) ≡ₚ inputs;
  sn_ids : ids_from 0 inputs;
}.

(** What the environment provides: an operating system that does what it is
    asked, with a file of its own for every stock, and numbers in range. *)
Record env_ok (inputs : list Order) : Prop := {
  en_io : reliable_io;
  en_code : 1 <= code <= stock_num cfg;
  en_stocks : stock_num cfg <= INT_MAX;
  en_window : 0 < sliding_window_size cfg <= INT_MAX;
  en_total : Z.of_nat (length inputs) < INT_MAX;
  en_folder : trade_output_folder cfg <> ""%string;
  en_open s : 1 <= s <= stock_num cfg -> sys_open s <> EMPTY_FD;
  en_inj s s' : 1 <= s <= stock_num cfg -> 1 <= s' <= stock_num cfg -> sys_open s = sys_open s' -> s = s';
  en_inputs : inputs_ok code inputs;
}.

(** ** The initial state *)
Definition start_of (c : system) : sys :=
  mkSys (map (fun l => mkTraderSt (l_ctl l) (l_todo l) (l_info l) [] []) (links c)) (exchange c) [].

Lemma pool_start c : pool (traders (start_of c)) = concat (map l_todo (links c)).
Proof.
  unfold pool, start_of. cbn [traders]. rewrite map_map. f_equal.
  apply map_ext. intros l. apply app_nil_r.
Qed.

Lemma init_inv inputs c :
  env_ok inputs -> sys_init inputs c -> reachable cfg code (Z.of_nat (length inputs)) inputs c.
Proof.
  intros Hen [(w & Hw & Hnew) Heng Hlinks Hin Hids].
  assert (Hsorted : forall l, l ∈ links c -> l_todo l ⊆ inputs).
  { intros l Hl o Ho. rewrite <- Hin. apply list_elem_of_In, in_concat. exists (l_todo l).
    rewrite <- !list_elem_of_In. split; [by apply list_elem_of_fmap_2|done]. }
  pose proof (new_window_ok _ _ _ (en_window _ Hen) Hnew) as Hwin.
  assert (Hcap : capacity_ w = sliding_window_size cfg).
  { unfold new_SlidingWindow in Hnew. case_if; [done|]. by simplify_eq. }
  assert (Hpi : init_ok cfg code (Z.of_nat (length inputs)) (start_of c)).
  { split; rewrite ?pool_start; simpl.
    - exists w. split; [done|]. split; [|done]. split; [done|]. intros i o. by rewrite lookup_empty.
    - apply Forall_map. apply Forall_forall. intros l Hl. rewrite Forall_forall in Hlinks.
      destruct (Hlinks l Hl) as (Hs & _ & _ & Hsort & _). simpl. split_and!; try done.
      apply Forall_forall. intros o Ho. apply Hsorted in Ho; [|done].
      split; [by apply (proj1 (Forall_forall _ _) (io_orders _ _ (en_inputs _ Hen)))|].
      apply list_elem_of_lookup in Ho as [i Ho]. pose proof (lookup_lt_Some _ _ _ Ho).
      specialize (Hids i o Ho). lia.
    - rewrite Hin. apply (en_inputs _ Hen).
    - intros id Hid. rewrite Hin, ids_from_seq by done. apply elem_of_seqZ. lia.
    - done. }
  destruct (flow_start cfg code sent_as _ inputs (start_of c) (Nat2Z.is_nonneg _) Hpi Heng) as [w0 Hf].
  { simpl. apply Forall_map, Forall_forall. intros l Hl. by apply Hsorted. }
  exists (start_of c), w0, 0, ∅. split; [done|done|].
  simpl. apply Forall2_fmap_l, Forall_Forall2_diag. apply Forall_forall. intros l Hl.
  rewrite Forall_forall in Hlinks. destruct (Hlinks l Hl) as (_ & Ho & Ht & _ & Hr & Hh).
  destruct (new_receiver_ok (stock_num cfg) cfg (en_folder _ Hen) eq_refl (en_open _ Hen) (en_inj _ Hen))
    as (r & Hr' & Hrok). rewrite Hr in Hr'. injection Hr' as <-.
  exists [], []. split; simpl; rewrite ?Ho, ?Ht; done.
Qed.

(** ** What can be read off the invariant *)
Section reached.
Context (inputs : list Order) (Hen : env_ok inputs) (Hids : ids_from 0 inputs).
Abbreviation total := (Z.of_nat (length inputs)).
Abbreviation engine_trades := (fun os => (spec_run code (mkAbs [] []) os).1).

(** Flushing a receiver that has handled the trades [got] leaves them in the
    stock's file. *)
Lemma flush_good got r :
  recv_ok (stock_num cfg) got r -> Forall (trade_good code) got ->
  exists r', flush r = Done r' /\ trader_file r' code = Some got.
Proof using Hen.
  intros Hr Hg. destruct (flush_file (en_io _ Hen) (stock_num cfg) got r Hr) as (r' & Hf & Hfile).
  { eapply Forall_impl; [exact Hg|]. by intros t []. }
  exists r'. split; [done|]. by rewrite (Hfile code (en_code _ Hen)), by_code_good.
Qed.

(** What every trader has of the trades [ts]: a prefix in its file, the rest
    on the way. *)
Definition holds_prefix (ts : list Trade) (l : link) : Prop :=
  exists got evs r', got ++ trades_of evs = ts /\ trade_chan l = map event_msg evs /\
    flush (l_recv l) = Done r' /\ trader_file r' code = Some got.

Lemma inv_files a c w next items :
  sys_inv cfg code total inputs a c w next items ->
  Forall (holds_prefix (engine_trades (delivered a))) (links c).
Proof using Hen Hids.
  intros Hi. destruct (flow_trades cfg code sent_as total inputs (code_int cfg code (en_code _ Hen) (en_stocks _ Hen)) (en_inputs _ Hen)
    (fun _ _ Hs => Hs) a w next items (si_flow _ _ _ _ _ _ _ _ _ Hi)) as [Hg _].
  apply Forall_lookup. intros t l Hl.
  destruct (inv_link cfg code total inputs a c w next items t l Hi Hl) as (x & got & evs & _ & Hrel).
  pose proof (lr_trades _ _ _ _ _ _ _ Hrel) as Htr. rewrite <- Htr in Hg. apply Forall_app in Hg as [Hg _].
  destruct (flush_good got (l_recv l) (lr_recv _ _ _ _ _ _ _ Hrel) Hg) as (r' & Hf & Hfile).
  exists got, evs, r'. split_and!; [done|apply (lr_chan _ _ _ _ _ _ _ Hrel)|done|done].
Qed.

(** No step of the processes can fault. *)
Definition never_faults (c : system) : Prop :=
  is_done (stock_round (exchange c) code) = true /\
  (forall t l msg q, links c !! t = Some l -> order_chan l = msg :: q ->
     is_done (handle_order_msg cfg (exchange c) msg) = true) /\
  (forall t l msg q, links c !! t = Some l -> trade_chan l = msg :: q ->
     is_done (handle_msg (l_recv l) (l_info l) msg) = true).

Lemma inv_never_faults a c w next items :
  sys_inv cfg code total inputs a c w next items -> never_faults c.
Proof using Hen Hids.
  intros Hi. destruct Hen as [Hio Hc Hs HW Ht _ _ _ Hin]. split_and!.
  - destruct (round_inv cfg code total inputs Hc Hs Ht Hin a c w next items Hi)
      as (ack & e' & st & st' & a' & w' & next' & items' & _ & E & _). by rewrite E.
  - intros t l msg q Hl Hq.
    destruct (receive_inv cfg code total inputs Ht a c w next items t l msg q Hi Hl Hq) as (e' & a' & w' & i' & E & _).
    by rewrite E.
  - intros t l msg q Hl Hq.
    destruct (report_inv Hio cfg code total inputs Hc Hs Hin a c w next items t l msg q Hi Hl Hq)
      as (r' & s' & a' & E & _). by rewrite E.
Qed.

(** ** Progress *)
Definition waiting (l : link) : nat := 2 * length (l_todo l) + length (order_chan l) + length (trade_chan l).
Definition work (c : system) : nat := sum_list_with waiting (links c).

Lemma step_controllers c c' : sys_step cfg code c c' -> map l_ctl (links c') = map l_ctl (links c).
Proof using Type.
  assert (Hset : forall (ls : list link) t l l', ls !! t = Some l -> l_ctl l' = l_ctl l ->
    map l_ctl (<[t := l']> ls) = map l_ctl ls).
  { intros ls t l l' Hl Hc. transitivity (<[t := l_ctl l']> (map l_ctl ls)); [apply list_fmap_insert|].
    apply list_insert_id. by rewrite Hc, list_lookup_fmap, Hl. }
  destruct 1; simpl; try (by eapply Hset). by rewrite map_map.
Qed.

Definition free_links (c : system) : Prop := Forall (free_sender code) (map l_ctl (links c)).

Lemma next_sys_step a c w next items :
  sys_inv cfg code total inputs a c w next items -> free_links c ->
  next < total \/ (exists t l, links c !! t = Some l /\ trade_chan l <> []) ->
  exists c' a' w' next' items', sys_step cfg code c c' /\ sys_inv cfg code total inputs a' c' w' next' items' /\
    (next < next' \/ next' = next /\ (work c' < work c)%nat).
Proof using Hen Hids.
  intros Hi Hfree Hmore. destruct Hen as [Hio Hc Hs HW Ht _ _ _ Hin].
  assert (Hreport : forall t l, links c !! t = Some l -> trade_chan l <> [] ->
    exists c' a' w' next' items', sys_step cfg code c c' /\ sys_inv cfg code total inputs a' c' w' next' items' /\
    (next < next' \/ next' = next /\ (work c' < work c)%nat)).
  { intros t l Hl Hq. destruct (trade_chan l) as [|msg q] eqn:Eq; [done|].
    destruct (report_inv Hio cfg code total inputs Hc Hs Hin a c w next items t l msg q Hi Hl Eq)
      as (r' & s' & a' & E & Hi').
    eexists _, a', w, next, items. split; [by eapply sys_report|]. split; [exact Hi'|]. right. split; [done|].
    unfold work. simpl. pose proof (sum_list_insert waiting _ _ _ (link_heard l r' s' q) Hl) as Hsum.
    assert (waiting l = S (waiting (link_heard l r' s' q))); [unfold waiting; simpl; rewrite Eq; simpl; lia|lia]. }
  destruct Hmore as [Hlt|(t & l & Hl & Hq)]; [|by eapply Hreport].
  pose proof (fi_protocol _ _ _ _ _ _ _ _ _ (si_flow _ _ _ _ _ _ _ _ _ Hi)) as Hp.
  destruct (next_action cfg code total a w next items Hp Hlt)
    as [Hitem|(t & x & Hx & Hact)].
  { destruct (round_inv cfg code total inputs Hc Hs Ht Hin a c w next items Hi)
      as (ack & e' & st & st' & a' & w' & next' & items' & Hst & E & Hst' & Hi' & _ & Hn).
    eexists _, a', w', next', items'. split; [by eapply sys_round|]. split; [exact Hi'|]. left. auto. }
  destruct (Forall2_lookup_l _ _ _ _ _ (si_links _ _ _ _ _ _ _ _ _ Hi) Hx) as (l & Hl & got & evs & Hrel).
  destruct Hrel as [Ectl Etodo Einfo Hout Hchan Hacks _ _ _ _].
  destruct Hact as [Hne|[Hne|(Hk & h & rest & Htodo & Hh)]].
  - destruct (order_chan l) as [|msg q] eqn:Eq; [by apply Forall2_nil_inv_r in Hout|].
    destruct (receive_inv cfg code total inputs Ht a c w next items t l msg q Hi Hl Eq)
      as (e' & a' & w' & items' & E & Hi').
    eexists _, a', w', next, items'. split; [by eapply sys_receive|]. split; [exact Hi'|]. right. split; [done|].
    unfold work. simpl. pose proof (sum_list_insert waiting _ _ _ (link_taken l q) Hl) as Hsum.
    assert (waiting l = S (waiting (link_taken l q))); [unfold waiting; simpl; rewrite Eq; simpl; lia|lia].
  - apply (Hreport t l Hl). rewrite Hchan. destruct evs; [|done]. by rewrite Hacks in Hne.
  - assert (Hf : free_sender code (l_ctl l)).
    { apply (proj1 (Forall_lookup _ _) Hfree t). by rewrite list_lookup_fmap, Hl. }
    destruct (Hf (l_info l) h (next + 1 + sliding_window_size cfg)) as [o' Hcheck]; [lia|].
    assert (Hlim : o_order_id h < next + 1 + sliding_window_size cfg) by lia. rewrite Einfo in Hk. rewrite Etodo in Htodo.
    set (pad := replicate (pod_pad pod_Order) Init.Byte.x00).
    assert (Hpad : length pad = pod_pad pod_Order) by apply length_replicate.
    destruct (send_inv cfg code total inputs Hin a c w next items t l h rest _ o' pad Hi Hl Htodo Hk Hcheck Hpad)
      as [a' Hi'].
    eexists _, a', w, next, items. split; [by eapply sys_send|]. split; [exact Hi'|]. right. split; [done|].
    unfold work. simpl. pose proof (sum_list_insert waiting _ _ _ (link_sent l rest (order_msg pad o')) Hl) as Hsum.
    assert (waiting l = S (waiting (link_sent l rest (order_msg pad o'))));
      [unfold waiting; simpl; rewrite Htodo, length_app; simpl; lia|lia].
Qed.

Lemma run_to_end k m a c w next items :
  Z.to_nat (total - next) = k -> work c = m ->
  sys_inv cfg code total inputs a c w next items -> free_links c ->
  exists c' a' w' items', rtc (sys_step cfg code) c c' /\ sys_inv cfg code total inputs a' c' w' total items' /\
    Forall (fun l => trade_chan l = []) (links c').
Proof using Hen Hids.
  revert m a c w next items. induction (lt_wf k) as [k _ IHk]. intros m.
  induction (lt_wf m) as [m _ IHm]. intros a c w next items Hk Hm Hi Hfree.
  destruct (flow_delivered cfg code sent_as total inputs a w next items (si_flow _ _ _ _ _ _ _ _ _ Hi)) as (_ & _ & _ & Hb).
  assert (Hcase : (next = total /\ Forall (fun l => trade_chan l = []) (links c)) \/
    (next < total \/ exists t l, links c !! t = Some l /\ trade_chan l <> [])).
  { destruct (decide (Forall (fun l => trade_chan l = []) (links c))) as [Hdone|Hmore].
    - destruct (decide (next = total)); [by left|right; left; lia].
    - right. right. apply not_Forall_Exists in Hmore; [|apply _].
      apply Exists_exists in Hmore as (l & [t Hl]%list_elem_of_lookup & Hq). eauto. }
  destruct Hcase as [[-> Hdone]|Hmore]; [by exists c, a, w, items|].
  destruct (next_sys_step a c w next items Hi Hfree Hmore) as (c1 & a1 & w1 & n1 & i1 & Hs & Hi1 & Hd).
  assert (Hf1 : free_links c1) by (unfold free_links; by rewrite (step_controllers _ _ Hs)).
  destruct (flow_delivered cfg code sent_as total inputs a1 w1 n1 i1 (si_flow _ _ _ _ _ _ _ _ _ Hi1)) as (_ & _ & _ & Hb1).
  enough (exists c' a' w' items', rtc (sys_step cfg code) c1 c' /\ sys_inv cfg code total inputs a' c' w' total items' /\
    Forall (fun l => trade_chan l = []) (links c')) as (c' & a' & w' & i' & Hr & ?).
  { exists c', a', w', i'. split; [by eapply rtc_l|done]. }
  destruct Hd as [Hd|[-> Hd]].
  - eapply (IHk (Z.to_nat (total - n1))); [lia|done|done|exact Hi1|done].
  - eapply (IHm (work c1)); [lia|done|done|exact Hi1|done].
Qed.
End reached.
End props.

(** ** Two traders of a stock *)
Definition demo_scfg : Config := {|
  data_folder := ""; trade_output_folder := "out"; network_config_file := "";
  partition_idx := 0; sliding_window_size := 1; stock_num := 1;
  trader_num := 2; exchange_num := 1;
  loader_nx_matrix := 1; loader_ny_matrix := 1; loader_nz_matrix := 2; load_mode := 2;
  traders_addr := []; exchanges_addr := []; trader_port2exchange_port := [] |}.
Definition demo_ctl : TraderController :=
  mkTraderController [[price_9]; [price_11]] [∅] [] (mkOrderInfoMatrix [] [] [] []) [0].
Definition demo_info : SharedTradeInfo := mkSharedTradeInfo [1] [∅].
Definition demo_recv : TraderTradeReceiver := mkReceiver {[1 := 101]} {[1 := []]} {[1 := 1]} {[101 := []]}.
Definition demo_link (todo : list Order) : link := mkLink demo_ctl todo demo_info demo_recv [] [].
Definition demo_o1 : Order := mkOrder 1 1 1 0 price_10 100.
Definition demo_o2 : Order := mkOrder 1 2 (-1) 0 price_10 60.
Definition demo_inputs : list Order := [demo_o1; demo_o2].
Definition demo_exchange : Exchange :=
  mkExchange {[1 := new_StockExchange 1]} {[1 := mkSlidingWindow [Order_init] [false] 1 0]}.
Definition demo_system : system := mkSystem [demo_link [demo_o1]; demo_link [demo_o2]] demo_exchange.

Lemma demo_env_ok : env_ok (H0 := demo_io) demo_scfg 1 demo_inputs.
Proof.
  split; try (vm_compute; congruence).
  - exact demo_io_reliable.
  - vm_compute. split; congruence.
  - vm_compute. split; congruence.
  - intros s Hs. change (1 <= s <= 1) in Hs. unfold EMPTY_FD. simpl. lia.
  - simpl. intros s s' _ _ E. lia.
  - split.
    + repeat constructor; vm_compute; congruence.
    + apply (bool_decide_unpack _). vm_compute. exact I.
    + vm_compute. congruence.
Qed.

Lemma demo_hooks : hooks_ok 1 [] demo_info.
Proof.
  split; [done|]. intros s m k v Hs Hm Hv. assert (s = 1) as -> by lia.
  injection Hm as <-. by rewrite lookup_empty in Hv.
Qed.

Lemma demo_init : sys_init (H0 := demo_io) demo_scfg 1 demo_inputs demo_system.
Proof.
  split.
  - eexists. by split.
  - reflexivity.
  - repeat (apply Forall_cons; split; [|]); try apply Forall_nil_2; simpl;
      (split_and!; [done|done|done|repeat constructor|by vm_compute|exact demo_hooks]).
  - reflexivity.
  - intros [|[|i]] o [= <-]; reflexivity.
Qed.

Lemma demo_free : free_links 1 demo_system.
Proof.
  unfold free_links. simpl. assert (Hf : free_sender 1 demo_ctl); [|by repeat constructor].
  intros s o limit Hid.
  assert (Henv : check_env demo_ctl s 0 ∅ price_9 price_11).
  { split; try reflexivity. intros id ht Hht. by rewrite lookup_empty in Hht. }
  change (1 - 1) with 0. rewrite (check_order_verdict _ _ _ _ _ _ _ _ Henv).
  unfold order_verdict, hook_verdict, price_verdict. rewrite lookup_empty.
  destruct (Z.geb_spec (o_order_id o) limit); [lia|]. case_if; simpl; eauto.
Qed.

(** The first trader sends its order, the exchange receives and commits it. *)
Definition demo_pad : bytes := replicate 4 Init.Byte.x00.
Definition demo_system1 : system :=
  mkSystem [mkLink demo_ctl [] demo_info demo_recv [order_msg demo_pad demo_o1] []; demo_link [demo_o2]] demo_exchange.
Definition demo_system2 : system :=
  mkSystem [demo_link []; demo_link [demo_o2]]
    (mkExchange {[1 := new_StockExchange 1]} {[1 := mkSlidingWindow [demo_o1] [true] 1 0]}).
Definition demo_system3 : system :=
  let told := mkLink demo_ctl [] demo_info demo_recv [] [ack_msg (mkOrderAck 1 1)] in
  mkSystem [told; mkLink demo_ctl [demo_o2] demo_info demo_recv [] [ack_msg (mkOrderAck 1 1)]]
    (mkExchange {[1 := mkSE 1 (mkBook [mkRec 1 price_10 100] []) [] 1 []]}
                {[1 := mkSlidingWindow [demo_o1] [false] 1 0]}).

Lemma demo_sys_run : rtc (sys_step (H0 := demo_io) demo_scfg 1) demo_system demo_system3.
Proof.
  apply rtc_l with demo_system1.
  { change demo_system1 with (mkSystem (<[0%nat := link_sent (demo_link [demo_o1]) [] (order_msg demo_pad demo_o1)]>
      (links demo_system)) (exchange demo_system)).
    eapply sys_send; [reflexivity|reflexivity|reflexivity|vm_compute; reflexivity|reflexivity]. }
  apply rtc_l with demo_system2.
  { change (links demo_system2) with (<[0%nat := link_taken (mkLink demo_ctl [] demo_info demo_recv
      [order_msg demo_pad demo_o1] []) []]> (links demo_system1)).
    change demo_system2 with (mkSystem (<[0%nat := link_taken (mkLink demo_ctl [] demo_info demo_recv
      [order_msg demo_pad demo_o1] []) []]> (links demo_system1)) (exchange demo_system2)).
    eapply sys_receive; [reflexivity|reflexivity|vm_compute; reflexivity]. }
  apply rtc_once.
  pose proof (sys_round (H0 := demo_io) demo_scfg 1 demo_system2 (Some (mkOrderAck 1 1)) (exchange demo_system3)
    (new_StockExchange 1) (mkSE 1 (mkBook [mkRec 1 price_10 100] []) [] 1 [])
    ltac:(reflexivity) ltac:(vm_compute; reflexivity) ltac:(reflexivity)) as Hr.
  exact Hr.
Qed.

(** The system of one stock is correct at every moment.  For any number of traders
    that share the orders of a stock out, and any interleaving of sending,
    receiving, matching and reporting, with the messages as bytes: no process
    faults; the orders the engine was given are the first inputs in the order
    of their ids, each unchanged or cancelled by its trader; the engine is in
    the state, and has produced the trades, that the specification gives for
    them; and every trader's file, when flushed, holds a prefix of these
    trades, the rest of which is on the way in its channel. *)
Theorem system_safe `{HeapLib} `{FileIO} cfg code inputs c0 c :
  env_ok cfg code inputs -> sys_init cfg code inputs c0 -> rtc (sys_step cfg code) c0 c ->
  never_faults cfg code c /\
  exists os, delivers inputs os /\
    (exists st, stock_exchange (exchange c) !! code = Some st /\
       engine_ok st ((spec_run code (mkAbs [] []) os).2) (Z.of_nat (length os) + 1) /\
       produced st = (spec_run code (mkAbs [] []) os).1) /\
    Forall (holds_prefix code ((spec_run code (mkAbs [] []) os).1)) (links c).
Proof.
  intros Hen Hinit Hrun. pose proof (sn_ids _ _ _ _ Hinit) as Hids.
  pose proof (init_inv cfg code inputs c0 Hen Hinit) as Hr.
  pose proof Hen as [Hio Hc Hs HW Ht _ _ _ Hin].
  destruct (run_reachable Hio cfg code _ inputs Hc Hs Ht (proj1 HW) Hin c0 c Hr Hrun) as (a & w & next & items & Hi).
  split; [by eapply inv_never_faults|]. exists (delivered a).
  split; [by eapply flow_delivers, si_flow|]. split; [|by eapply inv_files].
  destruct (er_engine _ _ _ (fi_engine _ _ _ _ _ _ _ _ _ (si_flow _ _ _ _ _ _ _ _ _ Hi))) as (st & Hst & _ & He & _ & _ & Hp).
  rewrite (si_exch _ _ _ _ _ _ _ _ _ Hi) in Hst. by exists st.
Qed.

Lemma system_safe_witness :
  rtc (sys_step (H0 := demo_io) demo_scfg 1) demo_system demo_system3 /\
  never_faults (H0 := demo_io) demo_scfg 1 demo_system3.
Proof.
  split; [exact demo_sys_run|].
  apply (system_safe (H0 := demo_io) demo_scfg 1 demo_inputs demo_system demo_system3);
    [exact demo_env_ok|exact demo_init|exact demo_sys_run].
Defined.

(** The system of one stock gets done.  With traders that wait for no hook, every
    run can be continued to a state in which all orders were committed, all
    channels are empty, and every trader's file, when flushed, reads back as
    exactly the trades of the specification for all orders in the order of
    their ids. *)
Theorem system_completes `{HeapLib} `{FileIO} cfg code inputs c0 c :
  env_ok cfg code inputs -> sys_init cfg code inputs c0 -> free_links code c0 ->
  rtc (sys_step cfg code) c0 c ->
  exists c' os, rtc (sys_step cfg code) c c' /\ delivers inputs os /\ length os = length inputs /\
    Forall (fun l => l_todo l = [] /\ order_chan l = [] /\ trade_chan l = [] /\
      exists r', flush (l_recv l) = Done r' /\
        trader_file r' code = Some ((spec_run code (mkAbs [] []) os).1)) (links c').
Proof.
  intros Hen Hinit Hfree Hrun. pose proof (sn_ids _ _ _ _ Hinit) as Hids.
  pose proof (init_inv cfg code inputs c0 Hen Hinit) as Hr.
  pose proof Hen as [Hio Hc Hs HW Ht _ _ _ Hin].
  destruct (run_reachable Hio cfg code _ inputs Hc Hs Ht (proj1 HW) Hin c0 c Hr Hrun) as (a & w & next & items & Hi).
  assert (Hfree' : free_links code c).
  { clear -Hrun Hfree. induction Hrun as [|c1 c2 c3 Hs _ IH]; [done|]. apply IH.
    unfold free_links. by rewrite (step_controllers cfg code _ _ Hs). }
  destruct (run_to_end cfg code inputs Hen Hids _ _ a c w next items eq_refl eq_refl Hi Hfree')
    as (c' & a' & w' & items' & Hrun' & Hi' & Hempty).
  exists c', (delivered a'). split; [done|]. split; [by eapply flow_delivers, si_flow|].
  destruct (flow_delivered _ _ _ _ _ _ _ _ _ (si_flow _ _ _ _ _ _ _ _ _ Hi')) as (_ & _ & Hl & _). split; [lia|].
  pose proof (inv_files cfg code inputs Hen Hids _ _ _ _ _ Hi') as Hfiles.
  apply Forall_lookup. intros t l Hlk.
  destruct (inv_link _ _ _ _ _ _ _ _ _ _ _ Hi' Hlk) as (x & got & evs & Hx & Hrel).
  assert (todo x = [] /\ out x = []) as [Htodo Hout]
    by (eapply drained_trader; [exact (fi_protocol _ _ _ _ _ _ _ _ _ (si_flow _ _ _ _ _ _ _ _ _ Hi'))|exact Hx]).
  pose proof (proj1 (Forall_lookup _ _) Hempty t l Hlk) as Hchan. simpl in Hchan.
  destruct (proj1 (Forall_lookup _ _) Hfiles t l Hlk) as (got' & evs' & r' & Htr & Hch & Hf & Hfile).
  rewrite Hchan in Hch. destruct evs'; [|done]. rewrite app_nil_r in Htr. subst got'.
  split_and!; [by rewrite <- (lr_todo _ _ _ _ _ _ _ Hrel)| |done|by exists r'].
  pose proof (lr_out _ _ _ _ _ _ _ Hrel) as Ho. rewrite Hout in Ho. by apply Forall2_nil_inv_l in Ho.
Qed.

Lemma system_completes_witness :
  exists c' os, rtc (sys_step (H0 := demo_io) demo_scfg 1) demo_system3 c' /\ length os = 2%nat /\
    Forall (fun l => exists r', flush (H := demo_io) (l_recv l) = Done r' /\
      trader_file r' 1 = Some ((spec_run 1 (mkAbs [] []) os).1)) (links c').
Proof.
  destruct (system_completes (H0 := demo_io) demo_scfg 1 demo_inputs demo_system demo_system3)
    as (c' & os & Hrun & _ & Hlen & Hfiles);
    [exact demo_env_ok|exact demo_init|exact demo_free|exact demo_sys_run|].
  exists c', os. split; [exact Hrun|]. split; [exact Hlen|].
  eapply Forall_impl; [exact Hfiles|]. intros l (_ & _ & _ & Hl). exact Hl.
Defined.
