(* ===== verification/World.v ===== *)
(** * All processes

    Any number of traders and exchanges, all stocks, and every thread that
    takes part in trading, with the queues between the threads of a process
    and the channels between the processes:

    - the controller of a trader ([TraderController::run_all_in_memory]) goes
      through the stocks, collects the orders that may be sent, then puts them
      into the queues of the order senders;
    - an order sender ([TraderOrderSender::run]), one for each exchange, sends
      what is queued;
    - the order receiver of an exchange ([ExchangeOrderReceiver::run]) stores
      orders in the windows of their stocks;
    - the thread of a stock ([StockExchange::run]) takes orders out, matches
      them, and puts the acknowledgement and the trades into the queue of
      the trade sender;
    - the trade sender of an exchange ([ExchangeTradeSender::run]) sends every
      message to one trader after the other;
    - the trade receiver of a trader ([TraderTradeReceiver::run]) handles the
      messages of all exchanges.

    A thread is a function from the state it works on to its next state; a run
    is any interleaving. *)

From stdpp Require Import gmap relations.
From S2P Require Import Prelude Double Bytes Config Types StdHeap DeclBook StockExchange.
From S2P Require Import BlockQueue SlidingWindow Messages Exchange Trader TradeReceiver StockFlow.
#[local] Open Scope Z_scope.

(** Where the controller thread is: before it reads the start of the window of
    the stock with index [s] (the last index stands for the loop that puts the
    orders into the queues), or among the orders of that stock, with
    [order_id_limits]. *)
Inductive controller_pc := Reading (s : Z) | Scanning (s order_id_limits : Z).

#[export] Instance controller_pc_eq_dec : EqDecision controller_pc.
Proof. solve_decision. Defined.

Record trader_proc (Q : Type) := mkTraderProc {
  tp_ctl : TraderController;
  tp_pc : controller_pc;
  order_to_send : list Order;
  tp_info : SharedTradeInfo;
  tp_recv : TraderTradeReceiver;
  tp_queues : list Q;
}.
Arguments mkTraderProc {Q}.
Arguments tp_ctl {Q} t.
Arguments tp_pc {Q} t.
Arguments order_to_send {Q} t.
Arguments tp_info {Q} t.
Arguments tp_recv {Q} t.
Arguments tp_queues {Q} t.

(** An exchange: [ep_pending] are the calls of [put_order_ack] and [put_trade]
    that the thread of a stock has still to do, [ep_sending] is the message the
    trade sender is sending and the next trader to get it. *)
Record exchange_proc (Q : Type) := mkExchangeProc {
  ep_exchange : Exchange;
  ep_pending : gmap Z (list event);
  ep_queue : Q;
  ep_sending : option (bytes * nat);
}.
Arguments mkExchangeProc {Q}.
Arguments ep_exchange {Q} e.
Arguments ep_pending {Q} e.
Arguments ep_queue {Q} e.
Arguments ep_sending {Q} e.

(** The messages on the way between a trader and an exchange. *)
Abbreviation channels := (gmap (nat * nat) (list bytes)).
Definition chan (m : channels) (k : nat * nat) : list bytes := default [] (m !! k).
Definition chan_put (m : channels) (k : nat * nat) (msg : bytes) : channels := <[k := chan m k ++ [msg]]> m.

Record world (Qo Qm : Type) := mkWorld {
  w_traders : list (trader_proc Qo);
  w_exchanges : list (exchange_proc Qm);
  w_orders : channels;
  w_reports : channels;
}.
Arguments mkWorld {Qo Qm}.
Arguments w_traders {Qo Qm} w.
Arguments w_exchanges {Qo Qm} w.
Arguments w_orders {Qo Qm} w.
Arguments w_reports {Qo Qm} w.

Section threads.
Context `{HeapLib} `{FileIO} {Qo Qm : Type} `{Fifo Qo Order} `{Fifo Qm bytes} (cfg : Config).

Definition set_pc (p : trader_proc Qo) (pc : controller_pc) : trader_proc Qo :=
  mkTraderProc (tp_ctl p) pc (order_to_send p) (tp_info p) (tp_recv p) (tp_queues p).
Definition set_queues (p : trader_proc Qo) (qs : list Qo) : trader_proc Qo :=
  mkTraderProc (tp_ctl p) (tp_pc p) (order_to_send p) (tp_info p) (tp_recv p) qs.

(** One step of the controller among the orders of the stock with index [s]:
    the body of the inner loop of [run_all_in_memory]. *)
Definition scan_next (p : trader_proc Qo) (s limit : Z) : outcome (trader_proc Qo) :=
  let tc := tp_ctl p in
  ss_idx ← array_get (next_sorted_struct_idx tc) s;
  structs ← array_get (sorted_order_structs tc) s;
  match structs !! Z.to_nat ss_idx with
  | None => Done (set_pc p (Reading (s + 1)))
  | Some ss =>
      order ← generate_order (stock_num cfg) (oim tc) (s + 1) ss
                (loader_nx_matrix cfg) (loader_ny_matrix cfg) (loader_nz_matrix cfg);
      '(ok, order) ← check_order tc (tp_info p) order limit s;
      if negb ok then Done (set_pc p (Reading (s + 1)))
      else
        l ← array_set (next_sorted_struct_idx tc) s (ss_idx + 1);
        Done (mkTraderProc (mkTraderController (price_limits tc) (hook tc) (sorted_order_structs tc) (oim tc) l)
                (tp_pc p) (order_to_send p ++ [order]) (tp_info p) (tp_recv p) (tp_queues p))
  end.

(** The controller thread: the loop over the stocks, then the loop that puts
    the orders into the queues, then from the beginning. *)
Definition controller_next (p : trader_proc Qo) : attempt (trader_proc Qo) :=
  match tp_pc p with
  | Reading s =>
      if s <? stock_num cfg then
        Ran (start ← get_sliding_window_start (tp_info p) (s + 1);
             limit ← int_add start (sliding_window_size cfg);
             Done (set_pc p (Scanning s limit)))
      else
        match order_to_send p with
        | [] => Ran (Done (set_pc p (Reading 0)))
        | order :: rest =>
            attempt_map (fun qs => mkTraderProc (tp_ctl p) (tp_pc p) rest (tp_info p) (tp_recv p) qs)
              (put_orders cfg (tp_queues p) [order])
        end
  | Scanning s limit => Ran (scan_next p s limit)
  end.

(** [put_order_ack] and [put_trade]. *)
Definition put_event (q : Qm) (ev : event) : attempt Qm :=
  match ev with EAck a => put_order_ack q a | ETrade t => put_trade q t end.

(** What a round of a stock hands to the trade sender: the acknowledgement of
    [comsumeOrder], then the trades of the engine. *)
Definition round_events (ack : option OrderAck) (st st' : StockExchange) : list event :=
  map EAck (option_list ack) ++ map ETrade (drop (length (produced st)) (produced st')).

Definition pending (x : exchange_proc Qm) (code : Z) : list event := default [] (ep_pending x !! code).

(** The thread of a stock: put what is pending, else take the next orders and
    match them. *)
Definition stock_next (code : Z) (x : exchange_proc Qm) : attempt (exchange_proc Qm) :=
  match pending x code with
  | ev :: rest =>
      attempt_map (fun q => mkExchangeProc (ep_exchange x) (<[code := rest]> (ep_pending x)) q (ep_sending x))
        (put_event (ep_queue x) ev)
  | [] =>
      Ran (match stock_exchange (ep_exchange x) !! code with
           | None => Fault NullDeref
           | Some st =>
               '(ack, e) ← stock_round (ep_exchange x) code;
               match stock_exchange e !! code with
               | None => Fault NullDeref
               | Some st' => Done (mkExchangeProc e (<[code := round_events ack st st']> (ep_pending x))
                                     (ep_queue x) (ep_sending x))
               end
           end)
  end.

(** The trade sender: take a message, send it to the traders [0], ..., [n - 1];
    the result has the message and the trader it is sent to. *)
Definition trade_sender_next (n : nat) (x : exchange_proc Qm) : attempt (exchange_proc Qm * option (nat * bytes)) :=
  let set q sending := mkExchangeProc (ep_exchange x) (ep_pending x) q sending in
  match ep_sending x with
  | None => attempt_map (fun '(msg, q) => (set q (Some (msg, 0%nat)), None)) (fifo_take (ep_queue x))
  | Some (msg, idx) =>
      Ran (Done (if (idx <? n)%nat then (set (ep_queue x) (Some (msg, S idx)), Some (idx, msg))
                 else (set (ep_queue x) None, None)))
  end.

(** One step of one thread. *)
Inductive world_step : world Qo Qm -> world Qo Qm -> Prop :=
  | ws_controller w t p p' :
      w_traders w !! t = Some p -> controller_next p = Ran (Done p') ->
      world_step w (mkWorld (<[t := p']> (w_traders w)) (w_exchanges w) (w_orders w) (w_reports w))
  | ws_order_sender w t p e q pad msg q' :
      w_traders w !! t = Some p -> tp_queues p !! e = Some q -> length pad = pod_pad pod_Order ->
      next_order_msg pad q = Ran (Done (msg, q')) ->
      world_step w (mkWorld (<[t := set_queues p (<[e := q']> (tp_queues p))]> (w_traders w)) (w_exchanges w)
                      (chan_put (w_orders w) (t, e) msg) (w_reports w))
  | ws_order_receiver w t e x msg rest ex' :
      w_exchanges w !! e = Some x -> chan (w_orders w) (t, e) = msg :: rest ->
      handle_order_msg cfg (ep_exchange x) msg = Done ex' ->
      world_step w (mkWorld (w_traders w)
                      (<[e := mkExchangeProc ex' (ep_pending x) (ep_queue x) (ep_sending x)]> (w_exchanges w))
                      (<[(t, e) := rest]> (w_orders w)) (w_reports w))
  | ws_stock w e x code x' :
      w_exchanges w !! e = Some x -> is_Some (stock_exchange (ep_exchange x) !! code) ->
      stock_next code x = Ran (Done x') ->
      world_step w (mkWorld (w_traders w) (<[e := x']> (w_exchanges w)) (w_orders w) (w_reports w))
  | ws_trade_sender w e x x' sent :
      w_exchanges w !! e = Some x -> trade_sender_next (length (w_traders w)) x = Ran (Done (x', sent)) ->
      world_step w (mkWorld (w_traders w) (<[e := x']> (w_exchanges w)) (w_orders w)
                      (match sent with
                       | Some (t, msg) => chan_put (w_reports w) (t, e) msg
                       | None => w_reports w
                       end))
  | ws_trade_receiver w t p e msg rest r s :
      w_traders w !! t = Some p -> chan (w_reports w) (t, e) = msg :: rest ->
      handle_msg (tp_recv p) (tp_info p) msg = Done (r, s) ->
      world_step w (mkWorld (<[t := mkTraderProc (tp_ctl p) (tp_pc p) (order_to_send p) s r (tp_queues p)]> (w_traders w))
                      (w_exchanges w) (w_orders w) (<[(t, e) := rest]> (w_reports w))).

(** The next step of no thread is a fault. *)
Definition no_fault {A} (m : attempt A) : Prop := match m with Ran (Fault _) => False | _ => True end.

Record threads_run (w : world Qo Qm) : Prop := {
  tr_controller t p : w_traders w !! t = Some p -> no_fault (controller_next p);
  tr_order_sender t p e q pad : w_traders w !! t = Some p -> tp_queues p !! e = Some q ->
    length pad = pod_pad pod_Order -> no_fault (next_order_msg pad q);
  tr_order_receiver t e x msg rest : w_exchanges w !! e = Some x -> chan (w_orders w) (t, e) = msg :: rest ->
    is_done (handle_order_msg cfg (ep_exchange x) msg) = true;
  tr_stock e x code : w_exchanges w !! e = Some x -> is_Some (stock_exchange (ep_exchange x) !! code) ->
    no_fault (stock_next code x);
  tr_trade_sender e x : w_exchanges w !! e = Some x -> no_fault (trade_sender_next (length (w_traders w)) x);
  tr_trade_receiver t p e msg rest : w_traders w !! t = Some p -> chan (w_reports w) (t, e) = msg :: rest ->
    is_done (handle_msg (tp_recv p) (tp_info p) msg) = true;
}.
End threads.
