(* ===== verification/WorldView.v ===== *)
(** * The flow of a stock in the world of all processes

    The part of a state of [World] that concerns one stock, as a state of
    [Protocol]: the orders of the stock on their way from every trader to the
    exchange (collected, queued, and in the channel) and the reports on their
    way back (pending, queued, being sent, and in the channel).  The invariant
    of the world says that this part satisfies the invariant of the flow of the
    stock ([StockFlow.flow_inv]), for every stock at once. *)

From stdpp Require Import gmap relations.
From S2P Require Import Prelude Double Bytes Config Types StdHeap DeclBook StockExchange.
From S2P Require Import MatchSpec Matching MatchProps OrderedCommit EngineProps.
From S2P Require Import BlockQueue SlidingWindow Messages Exchange Trader TraderProps.
From S2P Require Import TradeReceiver TradeReceiverProps Protocol StockFlow Rules World.
#[local] Open Scope Z_scope.

(** ** What messages carry *)
Definition elems_of {T} (pod : Pod T) (msg : bytes) : list T :=
  match read_elems pod msg with Done l => l | Fault _ => [] end.
Definition orders_in (msgs : list bytes) : list Order := concat (map (elems_of pod_Order) msgs).

Definition events_of (msg : bytes) : list event :=
  match read_code msg with
  | Done (code, _) =>
      if code =? ORDER_ACK_MSG then map EAck (elems_of pod_OrderAck msg)
      else if code =? TRADE_MSG then map (fun ct => ETrade (convert_commtrade_to_trade ct)) (elems_of pod_CommTrade msg)
      else []
  | Fault _ => []
  end.
Definition events_in (msgs : list bytes) : list event := concat (map events_of msgs).

Definition ev_code (ev : event) : Z := match ev with EAck a => a_stk_code a | ETrade t => t_stk_code t end.

(** A report of the stock [code] that can be sent. *)
Definition event_good (code : Z) (ev : event) : Prop :=
  ev_code ev = code /\ event_ok code ev /\ match ev with EAck _ => True | ETrade t => valid_Trade t = true end.

Lemma orders_in_app l l' : orders_in (l ++ l') = orders_in l ++ orders_in l'.
Proof. unfold orders_in. by rewrite map_app, concat_app. Qed.
Lemma events_in_app l l' : events_in (l ++ l') = events_in l ++ events_in l'.
Proof. unfold events_in. by rewrite map_app, concat_app. Qed.

Lemma orders_in_one o msg : is_order_msg o msg -> elems_of pod_Order msg = [o].
Proof.
  intros [Hv (pad & Hpad & ->)]. unfold elems_of, order_msg.
  rewrite read_elems_message; [done|done|by repeat constructor].
Qed.

Lemma events_of_msg code ev : is_int code = true -> event_good code ev -> events_of (event_msg ev) = [ev].
Proof.
  intros Hc (Hcode & Hok & Hv). destruct ev as [a|t]; cbn [event_msg]; unfold events_of, elems_of.
  - destruct Hok as (id & -> & Hid & _). rewrite ack_msg_message, read_code_message by (unfold ORDER_ACK_MSG; lia).
    cbn [Z.eqb Pos.eqb ORDER_ACK_MSG]. rewrite read_elems_message; [done|done|].
    constructor; [|constructor]. split; [done|]. unfold pod_valid. simpl. unfold valid_OrderAck. simpl. by rewrite Hc, Hid.
  - rewrite trade_msg_message, read_code_message by (unfold TRADE_MSG; lia).
    cbn [Z.eqb Pos.eqb ORDER_ACK_MSG TRADE_MSG]. rewrite read_elems_message; [|done|].
    + cbn [map snd]. by rewrite convert_round_trip.
    + constructor; [|constructor]. split; [done|]. by apply valid_convert.
Qed.

(** ** Channels *)
Lemma chan_put_same m k msg : chan (chan_put m k msg) k = chan m k ++ [msg].
Proof. unfold chan, chan_put. by rewrite lookup_insert_eq. Qed.
Lemma chan_put_other m k k' msg : k <> k' -> chan (chan_put m k msg) k' = chan m k'.
Proof. intros Hk. unfold chan, chan_put. by rewrite lookup_insert_ne. Qed.
Lemma chan_set_same (m : channels) k l : chan (<[k := l]> m) k = l.
Proof. unfold chan. by rewrite lookup_insert_eq. Qed.
Lemma chan_set_other (m : channels) k k' l : k <> k' -> chan (<[k := l]> m) k' = chan m k'.
Proof. intros Hk. unfold chan. by rewrite lookup_insert_ne. Qed.

Section view.
Context `{HeapLib} `{FileIO} {Qo Qm : Type} `{Fifo Qo Order} `{Fifo Qm bytes} (cfg : Config).
Implicit Types (w : world Qo Qm) (p : trader_proc Qo) (x : exchange_proc Qm).

(** The exchange of a stock. *)
Definition exch_no (code : Z) : nat := Z.to_nat (code mod exchange_num cfg).

(** The orders a controller has not collected yet. *)
Definition generated (tc : TraderController) (code : Z) (ss : SortStruct) : option Order :=
  match generate_order (stock_num cfg) (oim tc) code ss
          (loader_nx_matrix cfg) (loader_ny_matrix cfg) (loader_nz_matrix cfg) with
  | Done o => Some o
  | Fault _ => None
  end.
Definition structs_at (tc : TraderController) (code : Z) : list SortStruct :=
  default [] (sorted_order_structs tc !! Z.to_nat (code - 1)).
Definition idx_at (tc : TraderController) (code : Z) : Z :=
  default 0 (next_sorted_struct_idx tc !! Z.to_nat (code - 1)).
Definition upcoming (tc : TraderController) (code : Z) : list Order :=
  omap (generated tc code) (drop (Z.to_nat (idx_at tc code)) (structs_at tc code)).

(** The orders of the stock in the channel [ch], in the queue of the order
    sender, and collected. *)
Definition queued (qs : list Qo) (e : nat) : list Order := from_option fifo_contents [] (qs !! e).
Definition on_way (code : Z) (ch : list bytes) (qs : list Qo) (batch : list Order) : list Order :=
  filter (fun o => o_stk_code o = code) (orders_in ch ++ queued qs (exch_no code) ++ batch).

(** The reports of the stock for trader [t]: in the channel [ch], being sent,
    queued and pending. *)
Definition sending_to (t : nat) (sending : option (bytes * nat)) : list event :=
  match sending with
  | Some (msg, i) => if (i <=? t)%nat then events_of msg else []
  | None => []
  end.
Definition reports_to (code : Z) (t : nat) (ch : list bytes) (x : exchange_proc Qm) : list event :=
  filter (fun ev => ev_code ev = code)
    (events_in ch ++ sending_to t (ep_sending x) ++ events_in (fifo_contents (ep_queue x))) ++ pending x code.

Definition reports w (code : Z) (t : nat) : list event :=
  from_option (reports_to code t (chan (w_reports w) (t, exch_no code))) [] (w_exchanges w !! exch_no code).

Definition view_trader w (code : Z) (t : nat) p : trader_st :=
  mkTraderSt (tp_ctl p) (upcoming (tp_ctl p) code) (tp_info p)
    (on_way code (chan (w_orders w) (t, exch_no code)) (tp_queues p) (order_to_send p))
    (acks_of (reports w code t)).

Definition view w (code : Z) (del : list Order) : sys :=
  mkSys (imap (view_trader w code) (w_traders w))
    (from_option ep_exchange (mkExchange ∅ ∅) (w_exchanges w !! exch_no code)) del.

Lemma view_lookup w code del t :
  traders (view w code del) !! t = view_trader w code t <$> w_traders w !! t.
Proof. apply list_lookup_imap. Qed.

(** A list of traders that agrees with the view on the flow. *)
Lemma view_traders (R : trader_st -> trader_st -> Prop) xs w code del :
  length xs = length (w_traders w) ->
  (forall t y p, xs !! t = Some y -> w_traders w !! t = Some p -> R y (view_trader w code t p)) ->
  Forall2 R xs (traders (view w code del)).
Proof.
  intros Hl Hall. apply Forall2_same_length_lookup_2; [simpl; by rewrite length_imap|].
  intros t y z Hy Hz. rewrite view_lookup in Hz. apply fmap_Some in Hz as (p & Hp & ->). eauto.
Qed.

(** ** Well-formed contents *)
Definition order_good (e : nat) (o : Order) : Prop :=
  valid_Order o = true /\ 1 <= o_stk_code o <= stock_num cfg /\ exch_no (o_stk_code o) = e.
Definition order_msg_good (e : nat) (msg : bytes) : Prop := exists o, order_good e o /\ is_order_msg o msg.
Definition event_msg_good (e : nat) (msg : bytes) : Prop :=
  exists code ev, 1 <= code <= stock_num cfg /\ exch_no code = e /\ event_good code ev /\ msg = event_msg ev.

(** What the traders know of their orders. *)
Context (rules : Z -> Z -> order_rule).

(** The shape of a trader: its data can be read, its queues hold orders of
    their exchanges, and the controller scans with a limit that its window
    covers. *)
Record trader_good p : Prop := {
  tg_count : length (tp_queues p) = Z.to_nat (exchange_num cfg);
  tg_queues e q : tp_queues p !! e = Some q -> fifo_ok q /\ Forall (order_good e) (fifo_contents q);
  tg_batch : Forall (fun o => order_good (exch_no (o_stk_code o)) o) (order_to_send p);
  tg_structs code : 1 <= code <= stock_num cfg ->
    (exists l, sorted_order_structs (tp_ctl p) !! Z.to_nat (code - 1) = Some l /\
       Forall (fun ss => is_Some (generated (tp_ctl p) code ss)) l) /\
    exists i, next_sorted_struct_idx (tp_ctl p) !! Z.to_nat (code - 1) = Some i /\ 0 <= i;
  tg_env code : 1 <= code <= stock_num cfg ->
    exists h lo hi, check_env (tp_ctl p) (tp_info p) (code - 1) h lo hi;
  tg_rules code o : 1 <= code <= stock_num cfg -> o ∈ upcoming (tp_ctl p) code ->
    rule_of (tp_ctl p) code (o_order_id o) = rules code (o_order_id o);
  tg_start code : 1 <= code <= stock_num cfg ->
    exists k, get_sliding_window_start (tp_info p) code = Done k /\ 1 <= k;
  tg_pc : match tp_pc p with
          | Reading s => 0 <= s
          | Scanning s limit => 0 <= s < stock_num cfg /\ forall k,
              get_sliding_window_start (tp_info p) (s + 1) = Done k -> limit <= k + sliding_window_size cfg
          end;
}.

(** The shape of the exchange with index [e]. *)
Record exchange_good (e : nat) x : Prop := {
  eg_fifo : fifo_ok (ep_queue x);
  eg_queue : Forall (event_msg_good e) (fifo_contents (ep_queue x));
  eg_sending msg i : ep_sending x = Some (msg, i) -> event_msg_good e msg;
  eg_pending code : Forall (event_good code) (pending x code);
  eg_codes code : is_Some (stock_exchange (ep_exchange x) !! code) ->
    1 <= code <= stock_num cfg /\ exch_no code = e;
}.

(** The trades a trader has handled, and those on the way. *)
Definition trades_done (engine_trades : Z -> list Trade) w (t : nat) p : Prop :=
  exists got, recv_ok (stock_num cfg) got (tp_recv p) /\ hooks_ok (stock_num cfg) got (tp_info p) /\
    forall code, 1 <= code <= stock_num cfg ->
      by_code code got ++ trades_of (reports w code t) = engine_trades code.

(** The flow of a stock: [inputs] are the orders of every stock, [dels] those
    its engine has got, and what is on its way obeys the rules. *)
Definition flows (inputs dels : Z -> list Order) (code : Z) w : Prop := exists win next items,
  flow_inv cfg code (obeys rules dels code) (Z.of_nat (length (inputs code))) (inputs code)
    (view w code (dels code)) win next items.

Record world_inv (inputs dels : Z -> list Order) w : Prop := {
  wi_flow code : 1 <= code <= stock_num cfg -> flows inputs dels code w;
  wi_trades t p : w_traders w !! t = Some p -> trades_done (trades_from dels) w t p;
  wi_traders t p : w_traders w !! t = Some p -> trader_good p;
  wi_exchanges e x : w_exchanges w !! e = Some x -> exchange_good e x;
  wi_orders t e : Forall (order_msg_good e) (chan (w_orders w) (t, e)) /\
    (chan (w_orders w) (t, e) <> [] -> (t < length (w_traders w))%nat);
  wi_reports t e : Forall (event_msg_good e) (chan (w_reports w) (t, e));
  wi_count : length (w_exchanges w) = Z.to_nat (exchange_num cfg);
}.
End view.
