(* ===== verification/WorldInv.v ===== *)
(** * The invariant of the world

    Every step of [World.world_step] keeps [WorldView.world_inv], and no thread
    can reach a fault.  For the stock it is about, a step is a step of the
    protocol or a round of the engine ([StockFlow]); for every other stock, and
    for the steps that only pass something on, nothing changes in the view of
    [WorldView]. *)

From stdpp Require Import gmap relations functions.
From S2P Require Import Prelude Double Bytes Config Types StdHeap DeclBook StockExchange.
From S2P Require Import MatchSpec Matching MatchProps OrderedCommit EngineProps.
From S2P Require Import BlockQueue SlidingWindow Messages Exchange Trader TraderProps.
From S2P Require Import TradeReceiver TradeReceiverProps Protocol StockFlow Rules World WorldView.
#[local] Open Scope Z_scope.

(** What is assumed of the operating system, the configuration and the input. *)
Record world_env `{FileIO} (cfg : Config) (inputs : Z -> list Order) : Prop := {
  we_io : reliable_io;
  we_stocks : 0 <= stock_num cfg <= INT_MAX;
  we_exchanges : 0 < exchange_num cfg;
  we_folder : trade_output_folder cfg <> ""%string;
  we_open code : 1 <= code <= stock_num cfg -> sys_open code <> EMPTY_FD;
  we_inj code code' : 1 <= code <= stock_num cfg -> 1 <= code' <= stock_num cfg ->
    sys_open code = sys_open code' -> code = code';
  we_window : 0 < sliding_window_size cfg <= INT_MAX;
  we_inputs code : 1 <= code <= stock_num cfg -> inputs_ok code (inputs code);
  we_ids code : 1 <= code <= stock_num cfg -> ids_from 0 (inputs code);
  we_total code : 1 <= code <= stock_num cfg ->
    Z.of_nat (length (inputs code)) + sliding_window_size cfg < INT_MAX;
}.

Section inv.
Context `{HeapLib} `{FileIO} {Qo Qm : Type} `{Fifo Qo Order} `{Fifo Qm bytes} (cfg : Config).
Context (rules : Z -> Z -> order_rule) (inputs : Z -> list Order) (Henv : world_env cfg inputs).
Implicit Types (w : world Qo Qm) (p : trader_proc Qo) (x : exchange_proc Qm).

Abbreviation stock code := (1 <= code <= stock_num cfg).
Abbreviation total code := (Z.of_nat (length (inputs code))).
Abbreviation inv := (world_inv cfg rules inputs).

Lemma stock_int code : stock code -> is_int code = true.
Proof using Henv. intros Hc. pose proof (we_stocks _ _ Henv). apply is_int_spec. unfold INT_MIN, INT_MAX in *. lia. Qed.

Lemma stock_total code : stock code -> total code < INT_MAX.
Proof using Henv. intros Hc. pose proof (we_total _ _ Henv code Hc). pose proof (we_window _ _ Henv). lia. Qed.

(** ** States with the same view of a stock *)
Record same_stock (code : Z) w w' : Prop := {
  sk_count : length (w_traders w') = length (w_traders w);
  sk_trader t p p' : w_traders w !! t = Some p -> w_traders w' !! t = Some p' ->
    same_flow code (view_trader cfg w code t p) (view_trader cfg w' code t p');
  sk_buffer : order_buffer (exch (view cfg w' code [])) !! code = order_buffer (exch (view cfg w code [])) !! code;
  sk_engine : stock_exchange (exch (view cfg w' code [])) !! code = stock_exchange (exch (view cfg w code [])) !! code;
}.

Abbreviation flows := (flows cfg rules inputs).
Abbreviation moves := (rule_step (stock_num cfg) rules inputs).

Lemma obeys_sent dels code o0 o : obeys rules dels code o0 o -> sent_as o0 o.
Proof using Type. apply decide_order_sent. Qed.

Lemma same_stock_flows dels code w w' : same_stock code w w' -> flows dels code w -> flows dels code w'.
Proof using Type.
  intros [Hl Ht Hb He] (win & next & items & Hf). exists win, next, items.
  eapply flow_same; [exact Hf| |exact Hb|exact He|done].
  apply view_traders; [simpl; by rewrite length_imap|]. intros t y p' Hy Hp'.
  rewrite view_lookup in Hy. apply fmap_Some in Hy as (p & Hp & ->). eauto.
Qed.

(** The flow after a step of the protocol that [view] agrees with. *)
Lemma view_flows dels code a w' win next items :
  flow_inv cfg code (obeys rules dels code) (total code) (inputs code) a win next items ->
  length (traders a) = length (w_traders w') ->
  (forall t y p', traders a !! t = Some y -> w_traders w' !! t = Some p' ->
     same_flow code y (view_trader cfg w' code t p')) ->
  order_buffer (exch (view cfg w' code [])) !! code = order_buffer (exch a) !! code ->
  stock_exchange (exch (view cfg w' code [])) !! code = stock_exchange (exch a) !! code ->
  dels code = delivered a -> flows dels code w'.
Proof using Type.
  intros Hf Hl Ht Hb He Hd. exists win, next, items. eapply flow_same; [exact Hf| |exact Hb|exact He|exact Hd].
  by apply view_traders.
Qed.

Lemma same_view_flow w w' code t p p' :
  upcoming cfg (tp_ctl p') code = upcoming cfg (tp_ctl p) code ->
  on_way cfg code (chan (w_orders w') (t, exch_no cfg code)) (tp_queues p') (order_to_send p') =
    on_way cfg code (chan (w_orders w) (t, exch_no cfg code)) (tp_queues p) (order_to_send p) ->
  reports cfg w' code t = reports cfg w code t ->
  get_sliding_window_start (tp_info p') code = get_sliding_window_start (tp_info p) code ->
  same_flow code (view_trader cfg w code t p) (view_trader cfg w' code t p').
Proof using Type. intros E1 E2 E3 E4. unfold same_flow. simpl. by rewrite E1, E2, E3, E4. Qed.

Lemma trades_done_same ts w w' t p p' :
  trades_done cfg ts w t p -> tp_recv p' = tp_recv p -> tp_info p' = tp_info p ->
  (forall code, stock code -> trades_of (reports cfg w' code t) = trades_of (reports cfg w code t)) ->
  trades_done cfg ts w' t p'.
Proof using Type.
  intros (got & Hr & Hh & Ht) Er Ei Hrep. exists got. rewrite Er, Ei. split_and!; [done|done|].
  intros code Hc. rewrite Hrep by done. auto.
Qed.

(** The invariant depends on the values of the delivered orders only. *)
Lemma world_inv_ext dels dels' w : inv dels w -> (forall code, dels' code = dels code) -> inv dels' w.
Proof using Type.
  intros [Hf Htr Htg Hex Ho Hr Hn] Hd. split; try done.
  - intros code Hc. destruct (Hf code Hc) as (win & next & items & Hfl). exists win, next, items. rewrite Hd.
    eapply flow_mono; [|exact Hfl]. intros o0 o. apply obeys_grows. intros c. by rewrite Hd.
  - intros t p Hp. destruct (Htr t p Hp) as (got & Hrecv & Hh & Ht). exists got. split_and!; [done|done|].
    intros code Hc. unfold trades_from in *. rewrite Hd. auto.
Qed.

(** ** A step of a controller *)
Abbreviation set_trader w t p' := (mkWorld (<[t := p']> (w_traders w)) (w_exchanges w) (w_orders w) (w_reports w)).

(** Only a trader changes, and not what it knows. *)
Lemma set_trader_inv dels w t p p' :
  inv dels w -> w_traders w !! t = Some p -> tp_recv p' = tp_recv p -> tp_info p' = tp_info p ->
  trader_good cfg rules p' ->
  (forall code, stock code -> flows dels code (set_trader w t p') \/
     upcoming cfg (tp_ctl p') code = upcoming cfg (tp_ctl p) code /\
     on_way cfg code (chan (w_orders w) (t, exch_no cfg code)) (tp_queues p') (order_to_send p') =
       on_way cfg code (chan (w_orders w) (t, exch_no cfg code)) (tp_queues p) (order_to_send p)) ->
  inv dels (set_trader w t p').
Proof using Type.
  intros Hi Hp Er Ei Hg Hflow. pose proof Hi as [Hf Htr Htg Hex Ho Hr Hn].
  split; simpl; try done.
  - intros code Hc. destruct (Hflow code Hc) as [?|[Eup Eway]]; [done|].
    eapply same_stock_flows; [|by apply Hf]. split; simpl; [by rewrite length_insert| |done|done].
    intros t' p1 p1' Ha Ha'. apply list_lookup_insert_Some in Ha' as [(-> & -> & _)|[_ Ha']].
    + assert (p1 = p) as -> by congruence. apply same_view_flow; [done|done|done|by rewrite Ei].
    + assert (p1' = p1) as -> by congruence. done.
  - intros t' p1' [(-> & -> & _)|[_ Ha']]%list_lookup_insert_Some; [|by apply Htr].
    eapply trades_done_same; [by apply Htr|done|done|done].
  - intros t' p1' [(-> & -> & _)|[_ Ha']]%list_lookup_insert_Some; [done|by eapply Htg].
  - intros t' e. rewrite length_insert. apply Ho.
Qed.
Lemma start_int dels w t p code k :
  inv dels w -> w_traders w !! t = Some p -> stock code -> get_sliding_window_start (tp_info p) code = Done k ->
  1 <= k <= total code + 1.
Proof using Type.
  intros Hi Hp Hc Hk. destruct (tg_start _ _ _ (wi_traders _ _ _ _ _ Hi t p Hp) code Hc) as (k' & Hk' & Hle).
  rewrite Hk in Hk'. injection Hk' as <-. split; [done|].
  destruct (wi_flow _ _ _ _ _ Hi code Hc) as (win & next & items & Hf).
  pose proof (fi_protocol _ _ _ _ _ _ _ _ _ Hf) as Hs. pose proof (so_bound _ _ _ _ _ _ _ Hs).
  assert (Hv : traders (view cfg w code (dels code)) !! t = Some (view_trader cfg w code t p)) by by rewrite view_lookup, Hp.
  destruct (to_start _ _ _ _ _ (proj1 (Forall_lookup _ _) (so_traders _ _ _ _ _ _ _ Hs) t _ Hv)) as (k2 & Hk2 & Hch).
  simpl in Hk2. rewrite Hk in Hk2. injection Hk2 as <-. apply ack_chain_le in Hch. lia.
Qed.

(** ** The controller among the orders of a stock *)
Lemma upcoming_at tc code l i :
  sorted_order_structs tc !! Z.to_nat (code - 1) = Some l ->
  next_sorted_struct_idx tc !! Z.to_nat (code - 1) = Some i ->
  upcoming cfg tc code = omap (generated cfg tc code) (drop (Z.to_nat i) l).
Proof using Type. intros Hl Hi. unfold upcoming, structs_at, idx_at. by rewrite Hl, Hi. Qed.

(** The controller after it has taken the order at index [i] of the stock with
    index [s]. *)
Definition advanced (tc : TraderController) (s i : Z) : TraderController :=
  mkTraderController (price_limits tc) (hook tc) (sorted_order_structs tc) (oim tc)
    (<[Z.to_nat s := i + 1]> (next_sorted_struct_idx tc)).

Lemma advanced_upcoming tc s i l ss o :
  0 <= s -> 0 <= i -> sorted_order_structs tc !! Z.to_nat s = Some l -> next_sorted_struct_idx tc !! Z.to_nat s = Some i ->
  l !! Z.to_nat i = Some ss -> generated cfg tc (s + 1) ss = Some o ->
  upcoming cfg tc (s + 1) = o :: upcoming cfg (advanced tc s i) (s + 1) /\
  forall code, stock code -> code <> s + 1 -> upcoming cfg (advanced tc s i) code = upcoming cfg tc code.
Proof using Type.
  intros Hs0 Hi0 Hl Hi Hss Ho. pose proof (lookup_lt_Some _ _ _ Hi). split.
  - rewrite (upcoming_at tc (s + 1) l i), (upcoming_at (advanced tc s i) (s + 1) l (i + 1));
      rewrite ?(Z.add_simpl_r s 1); try done; [|by apply list_lookup_insert_eq].
    rewrite (drop_S l ss) by done. cbn. rewrite Ho. by replace (Z.to_nat (i + 1)) with (S (Z.to_nat i)) by lia.
  - intros code Hc Hne. unfold upcoming, structs_at, idx_at. cbn [sorted_order_structs next_sorted_struct_idx advanced].
    by rewrite list_lookup_insert_ne by lia.
Qed.

Lemma advanced_good p s i o :
  trader_good cfg rules p -> 0 <= s < stock_num cfg -> 0 <= i -> next_sorted_struct_idx (tp_ctl p) !! Z.to_nat s = Some i ->
  order_good cfg (exch_no cfg (o_stk_code o)) o ->
  (forall code, stock code -> upcoming cfg (advanced (tp_ctl p) s i) code ⊆ upcoming cfg (tp_ctl p) code) ->
  trader_good cfg rules (mkTraderProc (advanced (tp_ctl p) s i) (tp_pc p) (order_to_send p ++ [o]) (tp_info p) (tp_recv p) (tp_queues p)).
Proof using Type.
  intros [] Hs Hi0 Hi Ho Hup. pose proof (lookup_lt_Some _ _ _ Hi). split; simpl; try done.
  - apply Forall_app. split; [done|]. by apply Forall_singleton.
  - intros code Hc. destruct (tg_structs code Hc) as [Hl (j & Hj & Hj0)]. split; [exact Hl|].
    destruct (decide (code = s + 1)) as [->|Hne].
    + exists (i + 1). rewrite Z.add_simpl_r. split; [by apply list_lookup_insert_eq|lia].
    + exists j. by rewrite list_lookup_insert_ne by lia.
  - intros code Hc. destruct (tg_env code Hc) as (h & lo & hi & []). by exists h, lo, hi.
  - intros code o' Hc Ho'. by apply tg_rules, Hup.
Qed.

(** What the controller does with the next order of the stock with index [s]. *)
Lemma scan_law p s limit :
  trader_good cfg rules p -> 0 <= s < stock_num cfg ->
  match upcoming cfg (tp_ctl p) (s + 1) with
  | [] => scan_next cfg p s limit = Done (set_pc p (Reading (s + 1)))
  | o :: rest =>
      exists ok o', check_order (tp_ctl p) (tp_info p) o limit s = Done (ok, o') /\
      (if ok then exists i, scan_next cfg p s limit =
           Done (mkTraderProc (advanced (tp_ctl p) s i) (tp_pc p) (order_to_send p ++ [o']) (tp_info p) (tp_recv p) (tp_queues p)) /\
         0 <= i /\ next_sorted_struct_idx (tp_ctl p) !! Z.to_nat s = Some i /\
         upcoming cfg (advanced (tp_ctl p) s i) (s + 1) = rest /\
         (forall code, stock code -> code <> s + 1 ->
            upcoming cfg (advanced (tp_ctl p) s i) code = upcoming cfg (tp_ctl p) code)
       else scan_next cfg p s limit = Done (set_pc p (Reading (s + 1))))
  end.
Proof using Type.
  intros Hg Hs. destruct (tg_structs _ _ _ Hg (s + 1) ltac:(lia)) as ((l & Hl & Hgen) & i & Hi & Hi0).
  destruct (tg_env _ _ _ Hg (s + 1) ltac:(lia)) as (h & lo & hi & Hce).
  rewrite (Z.add_simpl_r s 1) in *. unfold scan_next. cbv zeta.
  rewrite (array_get_ok _ s i), bind_Done, (array_get_ok _ s l), bind_Done by (done || lia).
  destruct (l !! Z.to_nat i) as [ss|] eqn:Hss.
  2:{ rewrite (upcoming_at _ _ l i), drop_ge by (rewrite ?(Z.add_simpl_r s 1); (done || by apply lookup_ge_None)). done. }
  pose proof (proj1 (Forall_lookup _ _) Hgen _ _ Hss) as [o Ho]. cbn beta in Ho.
  destruct (advanced_upcoming (tp_ctl p) s i l ss o) as [-> Hoth]; [lia|done..|].
  unfold generated in Ho.
  destruct (generate_order (stock_num cfg) (oim (tp_ctl p)) (s + 1) ss (loader_nx_matrix cfg)
    (loader_ny_matrix cfg) (loader_nz_matrix cfg)); [|done]. simplify_eq. rewrite bind_Done.
  rewrite (check_order_verdict _ _ _ h lo hi) by done. rewrite bind_Done.
  destruct (verdict_result _ _) as [ok o']. exists ok, o'. split; [done|]. destruct ok; [|done].
  exists i. cbn [negb]. rewrite array_set_ok, bind_Done by (apply lookup_lt_Some in Hi; lia). done.
Qed.
Lemma trader_view_at w t p code del :
  w_traders w !! t = Some p -> traders (view cfg w code del) !! t = Some (view_trader cfg w code t p).
Proof using Type. intros Hp. by rewrite view_lookup, Hp. Qed.

(** An order of the input that is sent. *)
Lemma sent_good dels w t p s o rest o' :
  inv dels w -> w_traders w !! t = Some p -> 0 <= s < stock_num cfg ->
  upcoming cfg (tp_ctl p) (s + 1) = o :: rest -> sent_as o o' ->
  o_stk_code o' = s + 1 /\ order_good cfg (exch_no cfg (s + 1)) o'.
Proof using Henv.
  intros Hi Hp Hs Hup Hsent. assert (Hc : stock (s + 1)) by lia.
  destruct (wi_flow _ _ _ _ _ Hi (s + 1) Hc) as (win & next & items & Hf).
  pose proof (proj1 (Forall_lookup _ _) (fi_todo _ _ _ _ _ _ _ _ _ Hf) t _ (trader_view_at w t p _ _ Hp)) as Hin.
  simpl in Hin. rewrite Hup in Hin.
  destruct (sent_ok (s + 1) (inputs (s + 1)) (we_inputs _ _ Henv _ Hc) o o') as (_ & Hv & Hcd & _);
    [apply Hin; left|done|]. unfold order_good. by rewrite Hcd.
Qed.

Lemma on_way_snoc code ch qs batch o :
  on_way cfg code ch qs (batch ++ [o]) = on_way cfg code ch qs batch ++ (if decide (o_stk_code o = code) then [o] else []).
Proof using Type. unfold on_way. rewrite !filter_app, filter_cons, filter_nil, !app_assoc. by case_decide. Qed.

(** What the controller decides, the rules decide. *)
Lemma flow_volumes dels w code :
  inv dels w -> stock code -> Forall (fun tr => 0 < t_volume tr) (trades_from dels code).
Proof using Henv.
  intros Hi Hc. destruct (wi_flow _ _ _ _ _ Hi code Hc) as (win & next & items & Hf).
  destruct (flow_trades cfg code _ _ _ (stock_int code Hc) (we_inputs _ _ Henv code Hc) (obeys_sent _ code) _ _ _ _ Hf) as [Hg _].
  eapply Forall_impl; [exact Hg|]. by intros tr (_ & _ & ?).
Qed.

Lemma upcoming_rule p code o rest :
  trader_good cfg rules p -> stock code -> upcoming cfg (tp_ctl p) code = o :: rest ->
  rule_of (tp_ctl p) code (o_order_id o) = rules code (o_order_id o).
Proof using Type. intros Hg Hc Hup. apply (tg_rules _ _ _ Hg); [done|]. rewrite Hup. left. Qed.

Lemma check_obeys dels w t p code o rest limit o' :
  inv dels w -> w_traders w !! t = Some p -> stock code -> upcoming cfg (tp_ctl p) code = o :: rest ->
  o_order_id o < limit -> check_order (tp_ctl p) (tp_info p) o limit (code - 1) = Done (true, o') ->
  obeys rules dels code o o'.
Proof using Henv.
  intros Hi Hp Hc Hup Hlim E. pose proof (wi_traders _ _ _ _ _ Hi t p Hp) as Hg.
  destruct (wi_trades _ _ _ _ _ Hi t p Hp) as (got & _ & Hh & Ht).
  destruct (tg_env _ _ _ Hg code Hc) as (h & lo & hi & Hce).
  set (trades := fun c => if decide (stock c) then by_code c got else []).
  assert (Hgrow : grows trades (trades_from dels)).
  { intros c. unfold trades. case_decide as Hs; [|apply prefix_nil]. rewrite <- Ht by done. by eexists. }
  rewrite (check_rule (stock_num cfg) got (tp_info p) trades Hh) with (h := h) (lo := lo) (hi := hi) in E; [|..|done|done].
  - rewrite (upcoming_rule p code o rest Hg Hc Hup) in E.
    destruct (decide_order _ trades o) as [o2|] eqn:Ed; [|done]. injection E as ->. by eapply decide_grows.
  - intros c Hs. unfold trades. by rewrite decide_True.
  - intros c Hs. destruct (Hgrow c) as [ts E2]. pose proof (flow_volumes dels w c Hi Hs) as Hv. rewrite E2 in Hv.
    by apply Forall_app in Hv as [? _].
Qed.

(** A trader takes an order of its stock. *)
Lemma scan_inv dels w t p s limit p' :
  inv dels w -> w_traders w !! t = Some p -> tp_pc p = Scanning s limit -> scan_next cfg p s limit = Done p' ->
  inv dels (set_trader w t p').
Proof using Henv.
  intros Hi Hp Hpc E. pose proof (wi_traders _ _ _ _ _ Hi t p Hp) as Hg.
  pose proof (tg_pc _ _ _ Hg) as Hlim. rewrite Hpc in Hlim. destruct Hlim as [Hs Hlim].
  assert (Hquit : p' = set_pc p (Reading (s + 1)) -> inv dels (set_trader w t p')).
  { intros ->. eapply set_trader_inv; [done|exact Hp|done|done| |by right].
    destruct Hg. split; simpl; (done || lia). }
  pose proof (scan_law p s limit Hg Hs) as Hlaw.
  destruct (upcoming cfg (tp_ctl p) (s + 1)) as [|o rest] eqn:Hup; [by apply Hquit; congruence|].
  destruct Hlaw as (ok & o' & Hcheck & Hlaw). destruct ok; [|by apply Hquit; congruence].
  destruct Hlaw as (i & E' & Hi0 & Hidx & Hrest & Hoth). rewrite E in E'. injection E' as ->.
  destruct (check_order_same _ _ _ _ _ _ Hcheck) as (Eid & Ecode & Hlt).
  assert (Hsent : obeys rules dels (s + 1) o o').
  { eapply check_obeys; [exact Hi|exact Hp|lia|exact Hup|exact Hlt|]. by rewrite (Z.add_simpl_r s 1). }
  destruct (sent_good _ _ _ _ _ _ _ _ Hi Hp Hs Hup (obeys_sent _ _ _ _ Hsent)) as [Hcd Hgood].
  eapply set_trader_inv; [done|exact Hp|done|done| |].
  { apply advanced_good; [done..|by rewrite Hcd|]. intros code Hc. destruct (decide (code = s + 1)) as [->|Hne].
    - rewrite Hrest, Hup. intros y Hy. by right.
    - by rewrite Hoth. }
  intros code Hc. simpl. destruct (decide (code = s + 1)) as [->|Hne].
  - left. destruct (wi_flow _ _ _ _ _ Hi (s + 1) Hc) as (win & next & items & Hf).
    destruct (tg_start _ _ _ Hg (s + 1) Hc) as (k & Hk & _). specialize (Hlim k Hk).
    eapply (view_flows dels (s + 1)); [eapply (flow_send cfg (s + 1) _ _ _ (obeys_sent dels (s + 1)) _ win next items t)| | | | |];
      [exact Hf|by apply trader_view_at|exact Hup|exact Hk|lia|exact Hsent| | |done|done|done].
    { cbn [traders w_traders]. rewrite !length_insert. simpl. by rewrite length_imap. }
    intros t' y p2 Hy Hp2. cbn [w_traders traders] in *. apply list_lookup_insert_Some in Hp2 as [(-> & <- & _)|[Hne Hp2]].
    + rewrite list_lookup_insert_eq in Hy by (simpl; rewrite length_imap; by eapply lookup_lt_Some). simplify_eq.
      unfold same_flow, view_trader. simpl. by rewrite on_way_snoc, decide_True by done.
    + rewrite list_lookup_insert_ne, (trader_view_at w t' p2) in Hy by done. by simplify_eq.
  - right. split; [by apply Hoth|]. rewrite on_way_snoc, decide_False by congruence. apply app_nil_r.
Qed.
(** ** The controller's other steps *)
Lemma exch_no_lt code : (exch_no cfg code < Z.to_nat (exchange_num cfg))%nat.
Proof using Henv.
  pose proof (we_exchanges _ _ Henv). unfold exch_no. pose proof (Z.mod_pos_bound code (exchange_num cfg)). lia.
Qed.

(** Putting an order into the queue of its exchange. *)
Lemma put_one_law p o :
  trader_good cfg rules p -> order_good cfg (exch_no cfg (o_stk_code o)) o ->
  exists q, tp_queues p !! exch_no cfg (o_stk_code o) = Some q /\
    if fifo_full q then put_orders cfg (tp_queues p) [o] = Blocked
    else exists q', put_orders cfg (tp_queues p) [o] = Ran (Done (<[exch_no cfg (o_stk_code o) := q']> (tp_queues p))) /\
      fifo_ok q' /\ fifo_contents q' = fifo_contents q ++ [o].
Proof using Henv.
  intros Hg (_ & Hc & _). pose proof (we_exchanges _ _ Henv).
  pose proof (exch_no_lt (o_stk_code o)) as Hlt. rewrite <- (tg_count _ _ _ Hg) in Hlt.
  destruct (lookup_lt_is_Some_2 _ _ Hlt) as [q Hq]. exists q. split; [done|].
  destruct (tg_queues _ _ _ Hg _ _ Hq) as [Hok _]. pose proof (BlockQueue.put_law q o Hok) as Hput.
  pose proof (Z.mod_pos_bound (o_stk_code o) (exchange_num cfg)).
  cbn [put_orders]. rewrite int_mod_ok by lia. rewrite (array_get_ok _ _ q) by (done || lia).
  destruct (fifo_full q); [by rewrite Hput|]. destruct Hput as (q' & -> & Hok' & Hcont). exists q'.
  rewrite array_set_ok by (unfold exch_no in Hlt; lia). done.
Qed.

(** The queue with an order more and the batch with an order less. *)
Lemma on_way_put code ch qs o rest q q' :
  qs !! exch_no cfg (o_stk_code o) = Some q -> fifo_contents q' = fifo_contents q ++ [o] ->
  on_way cfg code ch (<[exch_no cfg (o_stk_code o) := q']> qs) rest = on_way cfg code ch qs (o :: rest).
Proof using Type.
  intros Hq Hc. unfold on_way, queued. destruct (decide (exch_no cfg code = exch_no cfg (o_stk_code o))) as [Ee|Hne].
  - rewrite Ee, list_lookup_insert_eq, Hq by (by eapply lookup_lt_Some). simpl. rewrite Hc.
    by rewrite <- (app_assoc (fifo_contents q)).
  - rewrite list_lookup_insert_ne by done. rewrite !filter_app, filter_cons_False; [done|congruence].
Qed.

Lemma controller_inv dels w t p :
  inv dels w -> w_traders w !! t = Some p ->
  match controller_next cfg p with
  | Blocked => exists o rest, order_to_send p = o :: rest /\
      from_option fifo_full false (tp_queues p !! exch_no cfg (o_stk_code o)) = true
  | Ran (Fault _) => False
  | Ran (Done p') => inv dels (set_trader w t p')
  end.
Proof using Henv.
  intros Hi Hp. pose proof (wi_traders _ _ _ _ _ Hi t p Hp) as Hg. unfold controller_next.
  destruct (tp_pc p) as [s|s limit] eqn:Hpc.
  - pose proof (tg_pc _ _ _ Hg) as Hs. rewrite Hpc in Hs. destruct (Z.ltb_spec s (stock_num cfg)) as [Hlt|Hge].
    + destruct (tg_start _ _ _ Hg (s + 1) ltac:(lia)) as (k & Hk & Hk1). rewrite Hk, bind_Done.
      pose proof (start_int dels w t p (s + 1) k Hi Hp ltac:(lia) Hk). pose proof (we_total _ _ Henv (s + 1) ltac:(lia)).
      pose proof (we_window _ _ Henv). rewrite int_add_ok, bind_Done by (unfold INT_MIN, INT_MAX in *; lia).
      eapply set_trader_inv; [done|exact Hp|done|done| |by right].
      destruct Hg. split; simpl; try done. split; [lia|]. intros k' Hk'. rewrite Hk in Hk'. injection Hk' as <-. lia.
    + pose proof (tg_batch _ _ _ Hg) as Hb. destruct (order_to_send p) as [|o rest] eqn:Eb.
      { eapply set_trader_inv; [done|exact Hp|done|done| |by right]. destruct Hg. split; simpl; done. }
      apply Forall_cons in Hb as [Ho Hb]. destruct (put_one_law p o Hg Ho) as (q & Hq & Hput).
      destruct (fifo_full q) eqn:Hfull.
      { rewrite Hput. simpl. exists o, rest. by rewrite Hq. }
      destruct Hput as (q' & -> & Hok' & Hcont). simpl. destruct (tg_queues _ _ _ Hg _ _ Hq) as [_ Hqs].
      eapply set_trader_inv; [done|exact Hp|done|done| |].
      * destruct Hg. split; simpl; try done; [by rewrite length_insert|].
        intros e q2 [(<- & <- & _)|[_ Hq2]]%list_lookup_insert_Some; [|by apply tg_queues].
        split; [done|]. rewrite Hcont. apply Forall_app. split; [done|]. by apply Forall_singleton.
      * intros code Hc. right. simpl. split; [done|]. rewrite Eb. by eapply on_way_put.
  - destruct (scan_next cfg p s limit) as [p'|f] eqn:E; [by eapply scan_inv|].
    pose proof (tg_pc _ _ _ Hg) as Hlim. rewrite Hpc in Hlim. destruct Hlim as [Hs _].
    pose proof (scan_law p s limit Hg Hs) as Hlaw. destruct (upcoming cfg (tp_ctl p) (s + 1)); [congruence|].
    destruct Hlaw as ([] & o' & _ & Hlaw); [destruct Hlaw as (i & ? & _)|]; congruence.
Qed.

(** ** The order senders *)
Lemma on_way_send code ch qs batch e q q' o msg :
  qs !! e = Some q -> fifo_contents q = o :: fifo_contents q' -> is_order_msg o msg -> exch_no cfg code = e ->
  on_way cfg code (ch ++ [msg]) (<[e := q']> qs) batch = on_way cfg code ch qs batch.
Proof using Type.
  intros Hq Hc Hm <-. unfold on_way, queued. rewrite orders_in_app. unfold orders_in at 2. simpl.
  rewrite (orders_in_one o) by done. rewrite list_lookup_insert_eq, Hq by (by eapply lookup_lt_Some). simpl. rewrite Hc.
  by rewrite <- !app_assoc.
Qed.

Lemma order_sender_inv dels w t p e q pad :
  inv dels w -> w_traders w !! t = Some p -> tp_queues p !! e = Some q -> length pad = pod_pad pod_Order ->
  match next_order_msg pad q with
  | Blocked => fifo_contents q = []
  | Ran (Fault _) => False
  | Ran (Done (msg, q')) => S (length (fifo_contents q')) = length (fifo_contents q) /\
      inv dels (mkWorld (<[t := set_queues p (<[e := q']> (tp_queues p))]> (w_traders w)) (w_exchanges w)
                  (chan_put (w_orders w) (t, e) msg) (w_reports w))
  end.
Proof using Henv.
  intros Hi Hp Hq Hpad. pose proof Hi as [Hf Htr Htg Hex Ho Hr Hn]. pose proof (Htg t p Hp) as Hg.
  destruct (tg_queues _ _ _ Hg _ _ Hq) as [Hok Hqs]. pose proof (next_order_msg_law pad q Hok) as Hlaw.
  destruct (fifo_contents q) as [|o l] eqn:Ec; [by rewrite Hlaw|].
  destruct Hlaw as (q' & -> & Hok' & Hcont). apply Forall_cons in Hqs as [Hgo Hqs].
  assert (Hm : is_order_msg o (message pod_Order ORDER_MSG [(pad, o)])).
  { split; [apply Hgo|]. by exists pad. }
  split; [simpl; by rewrite Hcont|]. split; simpl.
  - intros code Hc. eapply same_stock_flows; [|by apply Hf]. split; simpl; [by rewrite length_insert| |done|done].
    intros t' p1 p1' Ha [(<- & <- & _)|[Hne Ha']]%list_lookup_insert_Some.
    + assert (p1 = p) as -> by congruence. apply same_view_flow; [done| |done|done]. simpl.
      destruct (decide (exch_no cfg code = e)) as [Ee|Hne].
      * rewrite Ee, chan_put_same. eapply on_way_send; [done| |done|done]. by rewrite Ec, Hcont.
      * rewrite chan_put_other by congruence. unfold on_way, queued. by rewrite list_lookup_insert_ne.
    + assert (p1' = p1) as -> by congruence. apply same_view_flow; [done| |done|done]. simpl.
      rewrite chan_put_other by congruence. done.
  - intros t' p1' [(<- & <- & _)|[_ Ha']]%list_lookup_insert_Some; [|by apply Htr].
    eapply trades_done_same; [by apply Htr|done|done|done].
  - intros t' p1' [(<- & <- & _)|[_ Ha']]%list_lookup_insert_Some; [|by eapply Htg].
    destruct Hg. split; simpl; try done; [by rewrite length_insert|].
    intros e' q2 [(<- & <- & _)|[_ Hq2]]%list_lookup_insert_Some; [|by apply tg_queues].
    by rewrite Hcont.
  - done.
  - intros t' e'. rewrite length_insert. destruct (decide ((t, e) = (t', e'))) as [[= <- <-]|Hne].
    + rewrite chan_put_same. split; [|intros _; by eapply lookup_lt_Some].
      apply Forall_app. split; [apply Ho|]. apply Forall_singleton. by exists o.
    + rewrite chan_put_other by done. apply Ho.
  - done.
  - done.
Qed.
(** ** The order receivers *)
Lemma exchange_at {D} (d : exchange_proc Qm -> D) (d0 : D) (es : list (exchange_proc Qm)) e x x' code :
  es !! e = Some x -> (exch_no cfg code = e -> d x' = d x) ->
  from_option d d0 (<[e := x']> es !! exch_no cfg code) = from_option d d0 (es !! exch_no cfg code).
Proof using Type.
  intros Hx Hd. destruct (decide (exch_no cfg code = e)) as [Ee|Hne].
  - rewrite Ee, list_lookup_insert_eq, Hx by (by eapply lookup_lt_Some). simpl. auto.
  - by rewrite list_lookup_insert_ne.
Qed.

Lemma view_buffer w code del :
  order_buffer (exch (view cfg w code del)) !! code =
    from_option (fun x => order_buffer (ep_exchange x) !! code) None (w_exchanges w !! exch_no cfg code).
Proof using Type. unfold view. simpl. destruct (w_exchanges w !! exch_no cfg code); [done|]. apply lookup_empty. Qed.

Lemma view_engine w code del :
  stock_exchange (exch (view cfg w code del)) !! code =
    from_option (fun x => stock_exchange (ep_exchange x) !! code) None (w_exchanges w !! exch_no cfg code).
Proof using Type. unfold view. simpl. destruct (w_exchanges w !! exch_no cfg code); [done|]. apply lookup_empty. Qed.

Lemma view_exchange w code del x :
  w_exchanges w !! exch_no cfg code = Some x -> exch (view cfg w code del) = ep_exchange x.
Proof using Type. intros Hx. unfold view. simpl. by rewrite Hx. Qed.

Lemma on_way_head code msg ch qs batch o :
  is_order_msg o msg ->
  on_way cfg code (msg :: ch) qs batch =
    (if decide (o_stk_code o = code) then [o] else []) ++ on_way cfg code ch qs batch.
Proof using Type.
  intros Hm. unfold on_way, orders_in. simpl. rewrite (orders_in_one o) by done.
  simpl. rewrite filter_cons. by case_decide.
Qed.
(** An exchange and the channels change, but not what the view of the stock
    has of them. *)
Lemma same_exchange code ts es e x x' os os' rs rs' :
  es !! e = Some x ->
  (exch_no cfg code = e ->
     order_buffer (ep_exchange x') !! code = order_buffer (ep_exchange x) !! code /\
     stock_exchange (ep_exchange x') !! code = stock_exchange (ep_exchange x) !! code) ->
  (forall t, (t < length ts)%nat -> exch_no cfg code = e ->
     reports_to code t (chan rs' (t, e)) x' = reports_to code t (chan rs (t, e)) x) ->
  (forall t, exch_no cfg code <> e -> chan rs' (t, exch_no cfg code) = chan rs (t, exch_no cfg code)) ->
  (forall t, filter (fun o => o_stk_code o = code) (orders_in (chan os' (t, exch_no cfg code))) =
             filter (fun o => o_stk_code o = code) (orders_in (chan os (t, exch_no cfg code)))) ->
  same_stock code (mkWorld ts es os rs) (mkWorld ts (<[e := x']> es) os' rs').
Proof using Type.
  intros Hx Hsame Hrep Hrs Hos. split; [done| | |].
  - simpl. intros t p p' Hp Hp'. assert (p' = p) as -> by congruence. apply same_view_flow; [done| | |done]; simpl.
    + unfold on_way. rewrite !filter_app. by rewrite Hos.
    + unfold reports. simpl. destruct (decide (exch_no cfg code = e)) as [Ee|Hne].
      * rewrite Ee, list_lookup_insert_eq, Hx by (by eapply lookup_lt_Some). simpl.
        apply Hrep; [by eapply lookup_lt_Some|done].
      * rewrite list_lookup_insert_ne, Hrs by done. done.
  - rewrite !view_buffer. eapply exchange_at; [done|]. intros Ee. by destruct (Hsame Ee).
  - rewrite !view_engine. eapply exchange_at; [done|]. intros Ee. by destruct (Hsame Ee).
Qed.

Lemma reports_at ts es e x x' os os' rs rs' code t :
  es !! e = Some x ->
  (exch_no cfg code = e -> reports_to code t (chan rs' (t, e)) x' = reports_to code t (chan rs (t, e)) x) ->
  (exch_no cfg code <> e -> chan rs' (t, exch_no cfg code) = chan rs (t, exch_no cfg code)) ->
  reports cfg (mkWorld ts (<[e := x']> es) os' rs' : world Qo Qm) code t =
  reports cfg (mkWorld ts es os rs : world Qo Qm) code t.
Proof using Type.
  intros Hx Hrep Hrs. unfold reports. simpl. destruct (decide (exch_no cfg code = e)) as [Ee|Hne].
  - rewrite Ee, list_lookup_insert_eq, Hx by (by eapply lookup_lt_Some). simpl. by apply Hrep.
  - by rewrite list_lookup_insert_ne, Hrs.
Qed.

(** A step at an exchange that hands nothing new to the engines. *)
Lemma set_exchange_inv dels ts es os rs e x x' os' rs' :
  inv dels (mkWorld ts es os rs) -> es !! e = Some x ->
  (forall code t, stock code -> (t < length ts)%nat -> exch_no cfg code = e ->
     reports_to code t (chan rs' (t, e)) x' = reports_to code t (chan rs (t, e)) x) ->
  (forall t e', e' <> e -> chan rs' (t, e') = chan rs (t, e')) ->
  (forall code, stock code -> flows dels code (mkWorld ts (<[e := x']> es) os' rs') \/
     (exch_no cfg code = e ->
        order_buffer (ep_exchange x') !! code = order_buffer (ep_exchange x) !! code /\
        stock_exchange (ep_exchange x') !! code = stock_exchange (ep_exchange x) !! code) /\
     (forall t, filter (fun o => o_stk_code o = code) (orders_in (chan os' (t, exch_no cfg code))) =
                filter (fun o => o_stk_code o = code) (orders_in (chan os (t, exch_no cfg code))))) ->
  exchange_good cfg e x' ->
  (forall t e', Forall (order_msg_good cfg e') (chan os' (t, e')) /\ (chan os' (t, e') <> [] -> (t < length ts)%nat)) ->
  (forall t e', Forall (event_msg_good cfg e') (chan rs' (t, e'))) ->
  inv dels (mkWorld ts (<[e := x']> es) os' rs').
Proof using Type.
  intros [Hf Htr Htg Hex Ho Hr Hn] Hx Hrep Hrs Hflow Hgood Ho' Hr'. split; simpl in *; try done.
  - intros code Hc. destruct (Hflow code Hc) as [?|[Hsame Hos]]; [done|].
    eapply same_stock_flows; [|by apply Hf]. apply (same_exchange code ts es e x); auto.
  - intros t p Hp. eapply trades_done_same; [by apply Htr|done|done|]. intros code Hc. f_equal.
    apply (reports_at ts es e x); auto. intros Ee. apply Hrep; [done|by eapply lookup_lt_Some|done].
  - intros e' x2 [(<- & <- & _)|[_ Hx']]%list_lookup_insert_Some; [done|by apply Hex].
  - by rewrite length_insert.
Qed.

Lemma order_receiver_inv dels w t e x msg rest :
  inv dels w -> w_exchanges w !! e = Some x -> chan (w_orders w) (t, e) = msg :: rest ->
  exists ex', handle_order_msg cfg (ep_exchange x) msg = Done ex' /\
    inv dels (mkWorld (w_traders w) (<[e := mkExchangeProc ex' (ep_pending x) (ep_queue x) (ep_sending x)]> (w_exchanges w))
                (<[(t, e) := rest]> (w_orders w)) (w_reports w)).
Proof using Henv.
  intros Hi Hx Hch. pose proof Hi as [Hf _ _ Hex Ho Hr Hn].
  destruct (Ho t e) as [Hmsgs Ht]. rewrite Hch in Hmsgs, Ht. apply Forall_cons in Hmsgs as [(o & (Hv & Hc & He) & Hm) Hmsgs].
  destruct (lookup_lt_is_Some_2 _ _ (Ht ltac:(done))) as [p Hp]. set (c := o_stk_code o) in *.
  destruct (Hf c Hc) as (win & next & items & Hfl).
  assert (Hout : out (view_trader cfg w c t p) = o :: on_way cfg c rest (tp_queues p) (order_to_send p)).
  { simpl. by rewrite He, Hch, (on_way_head _ _ _ _ _ o), decide_True. }
  destruct (flow_receive cfg c _ _ _ (stock_total c Hc) _ win next items t _ o _ Hfl (trader_view_at w t p c _ Hp) Hout)
    as (win' & E & Hfl').
  rewrite (view_exchange w c _ x) in E, Hfl' by (by rewrite He). rewrite (handle_order_msg_one _ _ o) by done.
  eexists. split; [exact E|]. clear E. set (ex' := set_order_buffer _ _) in *.
  destruct w as [ts es os rs]. simpl in *. set (x' := mkExchangeProc _ _ _ _).
  eapply set_exchange_inv; [exact Hi|exact Hx|done|done| | | |done].
  - intros code Hcode. destruct (decide (code = c)) as [->|Hne].
    + left. eapply view_flows; [exact Hfl'| | | | |done].
      * simpl. by rewrite length_insert, length_imap.
      * intros t' y p' Hy Hp'. simpl in *.
        assert (Hrep : reports cfg (mkWorld ts (<[e := x']> es) (<[(t, e) := rest]> os) rs : world Qo Qm) c t' =
          reports cfg (mkWorld ts es os rs : world Qo Qm) c t') by (by eapply reports_at).
        apply list_lookup_insert_Some in Hy as [(<- & <- & _)|[Hne Hy]].
        -- assert (p' = p) as -> by congruence. unfold same_flow. simpl. by rewrite Hrep, He, chan_set_same.
        -- rewrite list_lookup_imap, Hp' in Hy. injection Hy as <-. apply same_view_flow; [done| |done|done].
           simpl. by rewrite He, chan_set_other by congruence.
      * rewrite view_buffer. simpl. by rewrite He, list_lookup_insert_eq by (by eapply lookup_lt_Some).
      * rewrite view_engine. simpl. by rewrite He, list_lookup_insert_eq by (by eapply lookup_lt_Some).
    + right. split; [intros _; simpl; by rewrite lookup_insert_ne|].
      intros t'. destruct (decide ((t', exch_no cfg code) = (t, e))) as [E|Hk]; [|by rewrite chan_set_other].
      rewrite E, chan_set_same, Hch. unfold orders_in. simpl. rewrite (orders_in_one o) by done. simpl.
      by rewrite filter_cons_False.
  - destruct (Hex e x Hx). by split.
  - intros t' e'. destruct (decide ((t, e) = (t', e'))) as [[= <- <-]|Hne].
    + rewrite chan_set_same. split; [done|]. intros _. by eapply lookup_lt_Some.
    + rewrite chan_set_other by done. apply Ho.
Qed.
(** ** The threads of the stocks *)
Lemma pending_insert m code code' l e (q : Qm) sd :
  pending (mkExchangeProc e (<[code := l]> m) q sd) code' = if decide (code' = code) then l else default [] (m !! code').
Proof using Type.
  unfold pending. simpl. case_decide as Hd; [subst; by rewrite lookup_insert_eq|by rewrite lookup_insert_ne].
Qed.

(** Putting a pending report into the queue of the trade sender. *)
Lemma put_event_inv dels w e x code ev rest :
  inv dels w -> w_exchanges w !! e = Some x -> stock code -> exch_no cfg code = e -> pending x code = ev :: rest ->
  if fifo_full (ep_queue x) then stock_next code x = Blocked
  else exists q', fifo_contents q' = fifo_contents (ep_queue x) ++ [event_msg ev] /\
    let x' := mkExchangeProc (ep_exchange x) (<[code := rest]> (ep_pending x)) q' (ep_sending x) in
    stock_next code x = Ran (Done x') /\
    inv dels (mkWorld (w_traders w) (<[e := x']> (w_exchanges w)) (w_orders w) (w_reports w)).
Proof using Henv.
  intros Hi Hx Hc He Hpend. pose proof Hi as [Hf _ _ Hex Ho Hr Hn]. destruct (Hex e x Hx) as [Hok Hq Hs Hp Hcodes].
  unfold stock_next. rewrite Hpend.
  replace (put_event (ep_queue x) ev) with (fifo_put (ep_queue x) (event_msg ev)) by (by destruct ev).
  pose proof (BlockQueue.put_law (ep_queue x) (event_msg ev) Hok) as Hput.
  destruct (fifo_full (ep_queue x)); [by rewrite Hput|]. destruct Hput as (q' & -> & Hok' & Hcont).
  exists q'. split; [done|]. cbv zeta. split; [done|]. set (x' := mkExchangeProc _ _ _ _).
  pose proof (Hp code) as Hgood. rewrite Hpend in Hgood. apply Forall_cons in Hgood as [Hev Hgood].
  destruct w as [ts es os rs]. simpl in *.
  eapply set_exchange_inv; [exact Hi|exact Hx| |done|by right| |done|done].
  - intros code' t Hc' _ He'. unfold reports_to, x'. rewrite pending_insert by done. simpl. rewrite Hcont, events_in_app.
    unfold events_in at 3. simpl. rewrite (events_of_msg code) by (by auto using stock_int). simpl.
    rewrite !filter_app, filter_cons, filter_nil. destruct Hev as (Hev & _).
    case_decide as Hd; case_decide as Hd'; try (congruence || done).
    + assert (code' = code) as -> by congruence. rewrite Hpend, <- !app_assoc. done.
    + by rewrite app_nil_r.
  - split; unfold x'; simpl; try done.
    + rewrite Hcont. apply Forall_app. split; [done|]. apply Forall_singleton. by exists code, ev.
    + intros code'. rewrite pending_insert by done. case_decide; [by subst|apply Hp].
Qed.

(** A round of a stock. *)
Definition round_world w (e : nat) (code : Z) (x : exchange_proc Qm) (ack : option OrderAck) (st st' : StockExchange) (ex' : Exchange) :=
  mkWorld (w_traders w)
    (<[e := mkExchangeProc ex' (<[code := round_events ack st st']> (ep_pending x)) (ep_queue x) (ep_sending x)]> (w_exchanges w))
    (w_orders w) (w_reports w).

Lemma reports_more w (code : Z) (t : nat) x x' evs :
  w_exchanges w !! exch_no cfg code = Some x -> ep_queue x' = ep_queue x -> ep_sending x' = ep_sending x ->
  pending x' code = pending x code ++ evs ->
  reports cfg (mkWorld (w_traders w) (<[exch_no cfg code := x']> (w_exchanges w)) (w_orders w) (w_reports w)) code t =
  reports cfg w code t ++ evs.
Proof using Type.
  intros Hx Eq Es Ep. unfold reports. simpl. rewrite list_lookup_insert_eq, Hx by (by eapply lookup_lt_Some). simpl.
  unfold reports_to. by rewrite Eq, Es, Ep, app_assoc.
Qed.

Lemma round_step dels w e x code win next items :
  inv dels w -> w_exchanges w !! e = Some x -> stock code -> exch_no cfg code = e -> pending x code = [] ->
  flow_inv cfg code (obeys rules dels code) (total code) (inputs code) (view cfg w code (dels code)) win next items ->
  exists os x', stock_next code x = Ran (Done x') /\ (is_Some (items !! next) -> os <> []) /\
    (exists dels', rtc moves dels dels' /\ forall c, dels' c = (<[code := dels code ++ os]> dels) c) /\
    inv (<[code := dels code ++ os]> dels)
      (mkWorld (w_traders w) (<[e := x']> (w_exchanges w)) (w_orders w) (w_reports w)).
Proof using Henv.
  intros Hi Hx Hc He Hpend Hfl. pose proof Hi as [Hf Htr Htg Hex Ho Hr Hn]. destruct (Hex e x Hx) as [Hok Hq Hs Hp Hcodes].
  destruct (flow_round cfg code _ _ _ (stock_int code Hc) (stock_total code Hc) (we_inputs _ _ Henv code Hc) (obeys_sent dels code) _ win next items Hfl)
    as (os & ack & st & st' & ts & win' & items' & Hst & E & Hts & Etr & Hprod & Hack & Hfl' & Hne).
  rewrite (view_exchange w code _ x) in * by (by rewrite He). cbn [delivered view] in *.
  unfold stock_next. rewrite Hpend, Hst, E, bind_Done. cbn [stock_exchange]. rewrite lookup_insert_eq.
  exists os. eexists. split; [done|]. split; [exact Hne|]. split.
  { apply deliver_run; [done|]. intros k o Hk.
    apply (flow_at cfg code _ _ _ (we_inputs _ _ Henv code Hc) (obeys_sent dels code) _ win' _ items' _ o (we_ids _ _ Henv code Hc) Hfl').
    cbn [delivered]. by rewrite lookup_app_r, Nat.add_sub_swap, Nat.sub_diag by lia. }
  set (ex' := mkExchange _ _) in *. set (x' := mkExchangeProc _ _ _ _).
  assert (Hevs : round_events ack st st' = map EAck (option_list ack) ++ map ETrade ts).
  { unfold round_events. by rewrite Hts, drop_app_length. }
  assert (Hpend' : pending x' code = pending x code ++ round_events ack st st').
  { unfold x'. by rewrite pending_insert, decide_True, Hpend by done. }
  assert (Hother : forall code', code' <> code -> pending x' code' = pending x code').
  { intros code' Hne'. unfold x'. by rewrite pending_insert, decide_False by done. }
  set (w' := mkWorld _ _ _ _).
  assert (Hrep : forall code' t, code' <> code -> reports cfg w' code' t = reports cfg w code' t).
  { intros code' t Hne'. unfold w', reports. simpl. eapply exchange_at; [done|]. intros _.
    unfold reports_to. by rewrite Hother. }
  assert (Hrepc : forall t, reports cfg w' code t = reports cfg w code t ++ round_events ack st st').
  { intros t. unfold w'. rewrite <- He. apply (reports_more w code t x); [by rewrite He|done..]. }
  assert (Hmono : forall c o0 o, obeys rules dels c o0 o -> obeys rules (<[code := dels code ++ os]> dels) c o0 o).
  { intros c o0 o. apply obeys_grows, insert_grows. }
  split; try done.
  - intros code' Hc'. destruct (decide (code' = code)) as [->|Hne'].
    + eapply view_flows; [eapply flow_mono; [apply Hmono|exact Hfl']| | | | |by rewrite fn_lookup_insert].
      * unfold w'. simpl. by rewrite length_map, length_imap.
      * intros t y p Hy Hp'. simpl in Hy. rewrite list_lookup_fmap, list_lookup_imap in Hy.
        unfold w' in Hp'. simpl in Hp'. rewrite Hp' in Hy. injection Hy as <-. unfold same_flow. simpl.
        rewrite Hrepc, acks_of_app, Hevs, acks_of_app, acks_of_acks, acks_of_trades, app_nil_r. done.
      * unfold w'. rewrite view_buffer. simpl. rewrite He, list_lookup_insert_eq by (by eapply lookup_lt_Some). done.
      * unfold w'. rewrite view_engine. simpl. rewrite He, list_lookup_insert_eq by (by eapply lookup_lt_Some). done.
    + destruct (Hf code' Hc') as (win2 & next2 & items2 & Hfl2).
      eapply same_stock_flows; [|exists win2, next2, items2; rewrite fn_lookup_insert_ne by done; eapply flow_mono; [apply Hmono|exact Hfl2]].
      destruct w as [trs es os' rs]. apply (same_exchange code' trs es e x); try done.
      * intros _. simpl. by rewrite !lookup_insert_ne.
      * intros t _ _. unfold reports_to. by rewrite Hother.
  - intros t p Hp'. destruct (Htr t p Hp') as (got & Hrecv & Hh & Ht). exists got. split_and!; [done|done|].
    intros code' Hc'. unfold trades_from in *. destruct (decide (code' = code)) as [->|Hne'].
    + rewrite fn_lookup_insert, Etr, <- Ht by done.
      by rewrite Hrepc, trades_of_app, Hevs, trades_of_app, trades_of_acks, trades_of_trades, <- app_assoc.
    + rewrite fn_lookup_insert_ne, Hrep by done. auto.
  - intros e' x2 [(<- & <- & _)|[_ Hx']]%list_lookup_insert_Some; [|by apply Hex].
    split; try done; simpl.
    + intros code'. destruct (decide (code' = code)) as [->|Hne']; [|by rewrite Hother].
      rewrite Hpend', Hpend, Hevs, app_nil_l. apply Forall_app. split.
      * destruct ack as [y|]; [|constructor]. apply Forall_singleton. pose proof (Hack y eq_refl) as Hy.
        split; [|done]. by destruct Hy as (id & -> & _).
      * destruct (flow_trades cfg code _ _ _ (stock_int code Hc) (we_inputs _ _ Henv code Hc) (obeys_sent _ code) _ _ _ _ Hfl') as [Hg _].
        cbn [delivered] in Hg. rewrite Etr in Hg. apply Forall_app in Hg as [_ Hg].
        apply Forall_map. eapply Forall_impl; [exact Hg|]. intros tr (Hv & Hcd & _). done.
    + intros code'. destruct (decide (code' = code)) as [->|Hne']; [done|]. rewrite lookup_insert_ne by done. apply Hcodes.
  - simpl. by rewrite length_insert.
Qed.

Lemma stock_round_inv dels w e x code win next items :
  inv dels w -> w_exchanges w !! e = Some x -> stock code -> exch_no cfg code = e -> pending x code = [] ->
  flow_inv cfg code (obeys rules dels code) (total code) (inputs code) (view cfg w code (dels code)) win next items ->
  exists dels' x', stock_next code x = Ran (Done x') /\ rtc moves dels dels' /\
    (is_Some (items !! next) -> dels' code <> dels code) /\
    inv dels' (mkWorld (w_traders w) (<[e := x']> (w_exchanges w)) (w_orders w) (w_reports w)).
Proof using Henv.
  intros Hi Hx Hc He Hpend Hfl.
  destruct (round_step dels w e x code win next items) as (os & x' & E & Hne & (dels' & Hr & Hd) & Hi'); [done..|].
  exists dels', x'. split; [done|]. split; [done|]. split; [|by eapply world_inv_ext].
  intros Hit Ed. apply Hne in Hit. rewrite Hd, fn_lookup_insert in Ed. destruct os; [done|].
  apply (f_equal length) in Ed. rewrite length_app in Ed. simpl in Ed. lia.
Qed.

(** ** The trade senders *)
Lemma trade_sender_inv dels w e x :
  inv dels w -> w_exchanges w !! e = Some x ->
  match trade_sender_next (length (w_traders w)) x with
  | Blocked => fifo_contents (ep_queue x) = [] /\ ep_sending x = None
  | Ran (Fault _) => False
  | Ran (Done (x', sent)) =>
      inv dels (mkWorld (w_traders w) (<[e := x']> (w_exchanges w)) (w_orders w)
        (match sent with Some (t, msg) => chan_put (w_reports w) (t, e) msg | None => w_reports w end))
  end.
Proof using Henv.
  intros Hi Hx. pose proof Hi as [Hf _ _ Hex Ho Hr Hn]. destruct (Hex e x Hx) as [Hok Hq Hs Hp Hcodes].
  destruct w as [ts es os rs]. simpl in *. unfold trade_sender_next.
  destruct (ep_sending x) as [[msg idx]|] eqn:Hsend.
  - specialize (Hs msg idx eq_refl). destruct (Nat.ltb_spec idx (length ts)) as [Hlt|Hge].
    + eapply set_exchange_inv; [exact Hi|exact Hx| | |by right| |done|].
      * intros code t Hc Ht He. unfold reports_to. cbn [ep_sending ep_queue]. rewrite Hsend. unfold sending_to.
        f_equal. f_equal. destruct (decide (t = idx)) as [->|Hne].
        -- rewrite chan_put_same, events_in_app, (proj2 (Nat.leb_gt (S idx) idx)), Nat.leb_refl by lia.
           unfold events_in at 2. simpl. by rewrite app_nil_r, <- app_assoc.
        -- rewrite chan_put_other by congruence. do 2 f_equal.
           destruct (Nat.leb_spec idx t), (Nat.leb_spec (S idx) t); (done || lia).
      * intros t e' Hne. by rewrite chan_put_other by congruence.
      * split; simpl; try done. intros ? ? [= <- <-]. done.
      * intros t e'. destruct (decide ((idx, e) = (t, e'))) as [[= <- <-]|Hne]; [|by rewrite chan_put_other].
        rewrite chan_put_same. apply Forall_app. split; [done|]. by apply Forall_singleton.
    + eapply set_exchange_inv; [exact Hi|exact Hx| |done|by right| |done|done]; [|by split].
      intros code t Hc Ht He. unfold reports_to. simpl. rewrite Hsend. simpl.
      by rewrite (proj2 (Nat.leb_gt idx t)) by lia.
  - pose proof (BlockQueue.take_law (ep_queue x) Hok) as Htake.
    destruct (fifo_contents (ep_queue x)) as [|msg l] eqn:Ec; [by rewrite Htake|].
    destruct Htake as (q' & -> & Hok' & Hcont). simpl. apply Forall_cons in Hq as [Hm Hq].
    eapply set_exchange_inv; [exact Hi|exact Hx| |done|by right| |done|done].
    + intros code t Hc Ht He. unfold reports_to. simpl. rewrite Hsend, Ec, Hcont. simpl. done.
    + split; simpl; rewrite ?Hcont; try done. intros ? ? [= <- <-]. done.
Qed.

(** ** The trade receivers *)
Lemma update_start_inv s code new s' :
  update_sliding_window_start s code new = Done s' ->
  hooked_trade s' = hooked_trade s /\
  (exists k, get_sliding_window_start s code = Done k /\ k <= new) /\ get_sliding_window_start s' code = Done new /\
  forall code', 1 <= code' <= INT_MAX -> code' <> code -> get_sliding_window_start s' code' = get_sliding_window_start s code'.
Proof using Type.
  unfold update_sliding_window_start, get_sliding_window_start. intros E.
  apply bind_done in E as (i & Ei & E). apply bind_done in E as (old & Eold & E).
  apply bind_done in E as ([] & Hle & E). apply bind_done in E as (l & El & E). simplify_eq. simpl.
  destruct (new >=? old) eqn:Hge; [|done]. apply Z.geb_le in Hge.
  apply array_get_inv in Eold as [Hi0 Hold]. pose proof (lookup_lt_Some _ _ _ Hold).
  rewrite array_set_ok in El by lia. simplify_eq. rewrite Ei, !bind_Done.
  split_and!; [done| | |].
  - exists old. split; [by apply array_get_ok|done].
  - apply array_get_ok; [done|]. by apply list_lookup_insert_eq.
  - intros code' Hc' Hne. rewrite int_sub_ok, !bind_Done by (unfold INT_MIN, INT_MAX in *; lia).
    unfold int_sub, chk_int in Ei. case_if; [|done]. simplify_eq. unfold array_get.
    destruct (Z.ltb_spec (code' - 1) 0); [lia|]. by rewrite list_lookup_insert_ne by lia.
Qed.

Lemma same_hooks_volume s s' code k :
  same_hooks s s' -> (exists v, get_hooked_volume s code k = Done v) -> exists v, get_hooked_volume s' code k = Done v.
Proof using Type.
  unfold get_hooked_volume. intros Hsame [v E]. apply bind_done in E as (i & -> & E). apply bind_done in E as (m & Hm & E).
  rewrite bind_Done. apply array_get_inv in Hm as [Hi Hm]. destruct (Hsame (Z.to_nat i) k) as [Hs _].
  rewrite Hm in Hs. simpl in Hs. destruct (m !! k) eqn:Ek; [|done]. destruct Hs as [v' Hv']; [eauto|].
  apply bind_Some in Hv' as (m' & Hm' & Hv'). exists v'. rewrite (array_get_ok _ _ m'), bind_Done by done. by rewrite Hv'.
Qed.

(** The report [ev] arrives at trader [t]: what else is on the way. *)
Abbreviation heard w t e p r s rest :=
  (mkWorld (<[t := mkTraderProc (tp_ctl p) (tp_pc p) (order_to_send p) s r (tp_queues p)]> (w_traders w))
     (w_exchanges w) (w_orders w) (<[(t, e) := rest]> (w_reports w))).

Lemma heard_good p r s :
  trader_good cfg rules p -> same_hooks (tp_info p) s ->
  (forall code, stock code -> exists k k', get_sliding_window_start (tp_info p) code = Done k /\
     get_sliding_window_start s code = Done k' /\ k <= k') ->
  trader_good cfg rules (mkTraderProc (tp_ctl p) (tp_pc p) (order_to_send p) s r (tp_queues p)).
Proof using Type.
  intros [] Hh Hs. split; simpl; try done.
  - intros code Hc. destruct (tg_env code Hc) as (h & lo & hi & []). exists h, lo, hi. split; try done.
    intros id ht Hid. eapply same_hooks_volume; [done|]. by eapply ce_targets.
  - intros code Hc. destruct (Hs code Hc) as (k & k' & Hk & Hk' & Hle). exists k'. split; [done|].
    destruct (tg_start code Hc) as (k2 & Hk2 & ?). rewrite Hk in Hk2. injection Hk2 as <-. lia.
  - destruct (tp_pc p) as [|s0 limit]; [done|]. destruct tg_pc as [Hs0 Hl]. split; [done|]. intros k Hk.
    destruct (Hs (s0 + 1)) as (k1 & k' & Hk1 & Hk' & Hle); [lia|]. specialize (Hl k1 Hk1).
    rewrite Hk in Hk'. injection Hk' as <-. lia.
Qed.

Lemma heard_reports w t e p r s rest ev code x :
  w_exchanges w !! e = Some x -> chan (w_reports w) (t, e) = event_msg ev :: rest -> event_good code ev ->
  stock code -> exch_no cfg code = e ->
  (forall code' t', code' <> code \/ t' <> t -> reports cfg (heard w t e p r s rest) code' t' = reports cfg w code' t') /\
  reports cfg w code t = ev :: reports cfg (heard w t e p r s rest) code t.
Proof using Henv.
  intros Hx Hch Hev Hc He. split.
  - intros code' t' Hne. unfold reports. simpl. destruct (w_exchanges w !! exch_no cfg code') as [x'|] eqn:Hx'; [|done].
    simpl. unfold reports_to. f_equal. destruct (decide ((t, e) = (t', exch_no cfg code'))) as [[= -> Ee]|Hk].
    + rewrite <- Ee, chan_set_same, Hch. unfold events_in at 3. simpl. rewrite (events_of_msg code) by auto using stock_int.
      simpl. rewrite filter_cons_False; [done|]. destruct Hev as (-> & _). destruct Hne; congruence.
    + by rewrite chan_set_other.
  - unfold reports. simpl. rewrite He, Hx. simpl. unfold reports_to. rewrite chan_set_same, Hch.
    unfold events_in at 1. simpl. rewrite (events_of_msg code) by auto using stock_int. simpl.
    rewrite filter_cons_True; [done|]. by destruct Hev.
Qed.
Lemma heard_inv dels w t e p r s rest ev code x :
  inv dels w -> w_traders w !! t = Some p -> w_exchanges w !! e = Some x ->
  chan (w_reports w) (t, e) = event_msg ev :: rest -> event_good code ev -> stock code -> exch_no cfg code = e ->
  trader_good cfg rules (mkTraderProc (tp_ctl p) (tp_pc p) (order_to_send p) s r (tp_queues p)) ->
  (forall code', stock code' -> code' <> code ->
     get_sliding_window_start s code' = get_sliding_window_start (tp_info p) code') ->
  flows dels code (heard w t e p r s rest) ->
  trades_done cfg (trades_from dels) (heard w t e p r s rest) t
    (mkTraderProc (tp_ctl p) (tp_pc p) (order_to_send p) s r (tp_queues p)) ->
  inv dels (heard w t e p r s rest).
Proof using Henv.
  intros Hi Hp Hx Hch Hev Hc He Hgood Hstart Hflow Htd. pose proof Hi as [Hf Htr Htg Hex Ho Hr Hn].
  destruct (heard_reports w t e p r s rest ev code x Hx Hch Hev Hc He) as [Hrep _].
  split; simpl; try done.
  - intros code' Hc'. destruct (decide (code' = code)) as [->|Hne]; [done|].
    eapply same_stock_flows; [|by apply Hf]. split; simpl; [by rewrite length_insert| |done|done].
    intros t' p1 p1' Ha [(<- & <- & _)|[_ Ha']]%list_lookup_insert_Some.
    + assert (p1 = p) as -> by congruence. apply same_view_flow; [done|done| |by apply Hstart]. apply Hrep. by left.
    + assert (p1' = p1) as -> by congruence. apply same_view_flow; [done|done| |done]. apply Hrep. by left.
  - intros t' p1 [(<- & <- & _)|[Hne Ha]]%list_lookup_insert_Some; [done|].
    eapply trades_done_same; [by apply Htr|done|done|]. intros code' _. f_equal. apply Hrep. by right.
  - intros t' p1 [(<- & <- & _)|[Hne Ha]]%list_lookup_insert_Some; [done|by eapply Htg].
  - intros t' e'. rewrite length_insert. apply Ho.
  - intros t' e'. destruct (decide ((t, e) = (t', e'))) as [[= <- <-]|Hk]; [|by rewrite chan_set_other].
    rewrite chan_set_same. pose proof (Hr t e) as Hall. rewrite Hch in Hall. by apply Forall_cons in Hall as [_ ?].
Qed.

(** An acknowledgement. *)
Lemma heard_ack dels w t e p rest id code x :
  inv dels w -> w_traders w !! t = Some p -> w_exchanges w !! e = Some x ->
  chan (w_reports w) (t, e) = ack_msg (mkOrderAck code id) :: rest -> event_good code (EAck (mkOrderAck code id)) ->
  stock code -> exch_no cfg code = e ->
  exists s, handle_msg (tp_recv p) (tp_info p) (ack_msg (mkOrderAck code id)) = Done (tp_recv p, s) /\
    inv dels (heard w t e p (tp_recv p) s rest).
Proof using Henv.
  intros Hi Hp Hx Hch Hev Hc He. pose proof Hi as [Hf Htr Htg _ _ _ _]. pose proof (proj2 (we_stocks _ _ Henv)) as Hstocks.
  destruct (Hf code Hc) as (win & next & items & Hfl).
  destruct (heard_reports w t e p (tp_recv p) (tp_info p) rest (EAck (mkOrderAck code id)) code x Hx Hch Hev Hc He) as [_ Hrep].
  set (w0 := heard w t e p (tp_recv p) (tp_info p) rest) in *.
  assert (Hq : ackq (view_trader cfg w code t p) = mkOrderAck code id :: acks_of (reports cfg w0 code t)) by by simpl; rewrite Hrep.
  destruct (flow_ack cfg code _ _ _ _ win next items t _ _ _ Hfl (trader_view_at w t p code _ Hp) Hq) as (s & E & Hfl').
  simpl in E. destruct Hev as (Hcd & (id' & [= <-] & Hid & Hlt) & Hv).
  rewrite handle_ack_msg, E, bind_Done by auto using stock_int. exists s. split; [done|].
  destruct (update_start_inv _ _ _ _ E) as (Hhook & (k & Hk & Hle) & Hk' & Hother).
  destruct (heard_reports w t e p (tp_recv p) s rest (EAck (mkOrderAck code id)) code x Hx Hch) as [Hrep1 Hrep2];
    [by split; [|split; [exists id|]]|done|done|].
  eapply (heard_inv _ _ _ _ _ _ _ _ (EAck (mkOrderAck code id)) code x); [done|done|done|exact Hch| |done|done| | | |].
  - split; [done|]. split; [by exists id|done].
  - apply heard_good; [by eapply Htg|intros i k0; by rewrite Hhook|]. intros code' Hc'.
    destruct (decide (code' = code)) as [->|Hne]; [by exists k, (id + 1)|].
    destruct (tg_start _ _ _ (Htg t p Hp) code' Hc') as (k1 & Hk1 & _). exists k1, k1. split_and!; [done| |done].
    rewrite Hother by (done || lia). done.
  - intros code' Hc' Hne. apply Hother; [lia|done].
  - eapply view_flows; [exact Hfl'| | | | |done]; [simpl; by rewrite !length_insert, length_imap| |done|done].
    intros t' y p' Hy Hp'. cbn [traders w_traders] in *. apply list_lookup_insert_Some in Hp' as [(<- & <- & _)|[Hne Hp']].
    + rewrite list_lookup_insert_eq in Hy by (simpl; rewrite length_imap; by eapply lookup_lt_Some). injection Hy as <-.
      done.
    + rewrite list_lookup_insert_ne, (trader_view_at w t' p') in Hy by done. injection Hy as <-.
      apply same_view_flow; [done|done| |done]. apply Hrep1. by right.
  - destruct (Htr t p Hp) as (got & Hrecv & Hhooks & Ht). exists got. split; [done|]. split; [by eapply update_start_hooks|].
    intros code' Hc'. rewrite <- Ht by done. f_equal. destruct (decide (code' = code)) as [->|Hne].
    + by rewrite Hrep2.
    + rewrite Hrep1 by (by left). done.
Qed.

(** A trade. *)
Lemma heard_trade dels w t e p rest tr code x :
  inv dels w -> w_traders w !! t = Some p -> w_exchanges w !! e = Some x ->
  chan (w_reports w) (t, e) = trade_msg tr :: rest -> event_good code (ETrade tr) ->
  stock code -> exch_no cfg code = e ->
  exists r s, handle_msg (tp_recv p) (tp_info p) (trade_msg tr) = Done (r, s) /\
    inv dels (heard w t e p r s rest).
Proof using Henv.
  intros Hi Hp Hx Hch Hev Hc He. pose proof Hi as [Hf Htr Htg _ _ _ _]. pose proof (proj2 (we_stocks _ _ Henv)) as Hstocks.
  destruct (Hf code Hc) as (win & next & items & Hfl).
  destruct (flow_trades cfg code _ _ _ (stock_int code Hc) (we_inputs _ _ Henv code Hc) (obeys_sent _ code) _ _ _ _ Hfl) as [_ Hcount].
  cbn [delivered view] in Hcount. fold (trades_from dels code) in Hcount.
  destruct (Htr t p Hp) as (got & Hrecv & Hhooks & Ht). pose proof Hev as (Hcd & _ & Hv). simpl in Hcd.
  assert (Hlen : (length (by_code code got) < length (trades_from dels code))%nat).
  { rewrite <- Ht by done. rewrite length_app.
    destruct (heard_reports w t e p (tp_recv p) (tp_info p) rest (ETrade tr) code x Hx Hch Hev Hc He) as [_ ->]. simpl. lia. }
  rewrite handle_trade_msg by done.
  destruct (process_trade_law (we_io _ _ Henv) (stock_num cfg) got (tp_recv p) (tp_info p) tr Hrecv Hhooks)
    as (r & s & E & Hr' & Hh' & Hs & Hsame); [by rewrite Hcd|done|rewrite Hcd; unfold INT_MAX in *; lia|].
  exists r, s. split; [done|].
  destruct (heard_reports w t e p r s rest (ETrade tr) code x Hx Hch Hev Hc He) as [Hrep1 Hrep2].
  assert (Hstart : forall code', get_sliding_window_start s code' = get_sliding_window_start (tp_info p) code').
  { intros code'. unfold get_sliding_window_start. by rewrite Hs. }
  eapply (heard_inv _ _ _ _ _ _ _ _ (ETrade tr) code x); [done|done|done|exact Hch|exact Hev|done|done| |by intros; apply Hstart| |].
  - apply heard_good; [by eapply Htg|done|]. intros code' Hc'.
    destruct (tg_start _ _ _ (Htg t p Hp) code' Hc') as (k & Hk & _). exists k, k. by rewrite Hstart.
  - eapply same_stock_flows; [|by apply Hf]. split; simpl; [by rewrite length_insert| |done|done].
    intros t' p1 p1' Ha [(<- & <- & _)|[Hne Ha']]%list_lookup_insert_Some.
    + assert (p1 = p) as -> by congruence. unfold same_flow. simpl. by rewrite Hrep2, Hstart.
    + assert (p1' = p1) as -> by congruence. apply same_view_flow; [done|done| |done]. apply Hrep1. by right.
  - exists (got ++ [tr]). split; [done|]. split; [done|]. intros code' Hc'. rewrite <- Ht by done.
    destruct (decide (code' = code)) as [->|Hne].
    + rewrite Hrep2, <- Hcd, by_code_same, <- app_assoc. done.
    + rewrite by_code_other by congruence. rewrite Hrep1 by (by left). done.
Qed.

Lemma trade_receiver_inv dels w t e p msg rest :
  inv dels w -> w_traders w !! t = Some p -> chan (w_reports w) (t, e) = msg :: rest ->
  exists r s, handle_msg (tp_recv p) (tp_info p) msg = Done (r, s) /\ inv dels (heard w t e p r s rest).
Proof using Henv.
  intros Hi Hp Hch. pose proof (wi_reports _ _ _ _ _ Hi t e) as Hall. rewrite Hch in Hall.
  apply Forall_cons in Hall as [(code & ev & Hc & He & Hev & ->) _].
  destruct (lookup_lt_is_Some_2 (w_exchanges w) e) as [x Hx].
  { rewrite (wi_count _ _ _ _ _ Hi), <- He. apply exch_no_lt. }
  destruct ev as [a|tr]; cbn [event_msg] in *; [|by eapply heard_trade].
  pose proof Hev as (_ & (id & -> & _) & _). destruct (heard_ack dels w t e p rest id code x) as (s & E & Hi'); [done..|].
  by exists (tp_recv p), s.
Qed.

(** ** Every step *)
Lemma stock_inv dels w e x code :
  inv dels w -> w_exchanges w !! e = Some x -> is_Some (stock_exchange (ep_exchange x) !! code) ->
  match stock_next code x with
  | Blocked => pending x code <> [] /\ fifo_full (ep_queue x) = true
  | Ran (Fault _) => False
  | Ran (Done x') => exists dels', rtc moves dels dels' /\ inv dels'
      (mkWorld (w_traders w) (<[e := x']> (w_exchanges w)) (w_orders w) (w_reports w))
  end.
Proof using Henv.
  intros Hi Hx Hst. destruct (eg_codes _ _ _ (wi_exchanges _ _ _ _ _ Hi e x Hx) code Hst) as [Hc He].
  destruct (pending x code) as [|ev rest] eqn:Hp.
  - destruct (wi_flow _ _ _ _ _ Hi code Hc) as (win & next & items & Hfl).
    destruct (stock_round_inv dels w e x code win next items) as (dels' & x' & -> & Hr & _ & Hi'); [done..|]. by exists dels'.
  - pose proof (put_event_inv dels w e x code ev rest Hi Hx Hc He Hp) as Hput.
    destruct (fifo_full (ep_queue x)); [by rewrite Hput|]. destruct Hput as (q' & _ & -> & Hi').
    by exists dels.
Qed.

(** Every step is a run of the rules. *)
Lemma step_inv dels w w' :
  inv dels w -> world_step cfg w w' -> exists dels', rtc moves dels dels' /\ inv dels' w'.
Proof using Henv.
  assert (Hsame : forall w', inv dels w' -> exists dels', rtc moves dels dels' /\ inv dels' w') by eauto using rtc_refl.
  intros Hi Hs. destruct Hs as [w t p p' Hp E|w t p e q pad msg q' Hp Hq Hpad E|w t e x msg rest ex' Hx Hch E
    |w e x code x' Hx Hst E|w e x x' sent Hx E|w t p e msg rest r s Hp Hch E].
  - pose proof (controller_inv dels w t p Hi Hp) as Hc. rewrite E in Hc. auto.
  - pose proof (order_sender_inv dels w t p e q pad Hi Hp Hq Hpad) as Hc. rewrite E in Hc. apply Hsame, Hc.
  - destruct (order_receiver_inv dels w t e x msg rest Hi Hx Hch) as (ex2 & E2 & Hi').
    rewrite E in E2. injection E2 as <-. auto.
  - pose proof (stock_inv dels w e x code Hi Hx Hst) as Hc. by rewrite E in Hc.
  - pose proof (trade_sender_inv dels w e x Hi Hx) as Hc. rewrite E in Hc. auto.
  - destruct (trade_receiver_inv dels w t e p msg rest Hi Hp Hch) as (r2 & s2 & E2 & Hi').
    rewrite E in E2. injection E2 as <- <-. auto.
Qed.

Lemma run_inv dels w w' :
  inv dels w -> rtc (world_step cfg) w w' -> exists dels', rtc moves dels dels' /\ inv dels' w'.
Proof using Henv.
  intros Hi Hr. revert dels Hi. induction Hr as [w|w w1 w2 Hs Hr IH]; intros dels Hi; [by exists dels|].
  destruct (step_inv dels w w1 Hi Hs) as (d1 & Hr1 & Hi1). destruct (IH d1 Hi1) as (d2 & Hr2 & Hi2).
  exists d2. split; [by etransitivity|done].
Qed.

Lemma inv_threads dels w : inv dels w -> threads_run cfg w.
Proof using Henv.
  intros Hi. split.
  - intros t p Hp. pose proof (controller_inv dels w t p Hi Hp) as Hc. by destruct (controller_next cfg p) as [|[]].
  - intros t p e q pad Hp Hq Hpad. pose proof (order_sender_inv dels w t p e q pad Hi Hp Hq Hpad) as Hc.
    by destruct (next_order_msg pad q) as [|[[]|]].
  - intros t e x msg rest Hx Hch. by destruct (order_receiver_inv dels w t e x msg rest Hi Hx Hch) as (? & -> & _).
  - intros e x code Hx Hst. pose proof (stock_inv dels w e x code Hi Hx Hst) as Hc. by destruct (stock_next code x) as [|[]].
  - intros e x Hx. pose proof (trade_sender_inv dels w e x Hi Hx) as Hc.
    by destruct (trade_sender_next (length (w_traders w)) x) as [|[[]|]].
  - intros t p e msg rest Hp Hch. by destruct (trade_receiver_inv dels w t e p msg rest Hi Hp Hch) as (? & ? & -> & _).
Qed.
End inv.
