(* ===== verification/WorldProps.v ===== *)
(** * Safety of all processes

    From the state the constructors leave, no run of any threads can reach a
    fault, the engine of every stock gets the stock's orders in the order of
    their ids, and the file of a trader holds a prefix of the trades that the
    specification of the engine makes of them: for all stocks, traders and
    exchanges at once. *)

From stdpp Require Import gmap relations functions.
From S2P Require Import Prelude Double Bytes Config Types StdHeap DeclBook StockExchange.
From S2P Require Import MatchSpec Matching MatchProps OrderedCommit EngineProps.
From S2P Require Import BlockQueue SlidingWindow Messages Exchange ExchangeProps Trader TraderProps.
From S2P Require Import TradeReceiver TradeReceiverProps Protocol StockFlow Rules World WorldView WorldInv.
#[local] Open Scope Z_scope.

Section init.
Context `{HeapLib} `{FileIO} {Qo Qm : Type} `{Fifo Qo Order} `{Fifo Qm bytes} (cfg : Config).
Implicit Types (w : world Qo Qm) (p : trader_proc Qo) (x : exchange_proc Qm).

Abbreviation stock code := (1 <= code <= stock_num cfg).

(** A trader after its construction and the loading of its data. *)
Record trader_ready p : Prop := {
  td_pc : tp_pc p = Reading 0;
  td_batch : order_to_send p = [];
  td_recv : new_TraderTradeReceiver cfg = Done (tp_recv p);
  td_hooks : hooks_ok (stock_num cfg) [] (tp_info p);
  td_start code : stock code -> get_sliding_window_start (tp_info p) code = Done 1;
  td_count : length (tp_queues p) = Z.to_nat (exchange_num cfg);
  td_queues : Forall (fun q => fifo_ok q /\ fifo_contents q = []) (tp_queues p);
  td_matrix : matrix_ok cfg (oim (tp_ctl p));
  td_structs code : stock code -> exists l, sorted_order_structs (tp_ctl p) !! Z.to_nat (code - 1) = Some l /\
    Forall (struct_ok cfg (code - 1)) l /\ StronglySorted (fun a b => ss_order_id a <= ss_order_id b) l /\
    next_sorted_struct_idx (tp_ctl p) !! Z.to_nat (code - 1) = Some 0;
  td_env code : stock code -> exists h lo hi, check_env (tp_ctl p) (tp_info p) (code - 1) h lo hi;
}.

(** The exchange with index [e] after its construction. *)
Record exchange_ready (e : nat) x : Prop := {
  ed_new : new_Exchange (set_partition_idx (Z.of_nat e) cfg) = Done (ep_exchange x);
  ed_pending : ep_pending x = ∅;
  ed_queue : fifo_ok (ep_queue x) /\ fifo_contents (ep_queue x) = [];
  ed_sending : ep_sending x = None;
}.

(** The state after the construction of all processes: the orders of every
    stock, with the ids 1, 2, ..., are distributed over the traders. *)
Record world_init (inputs : Z -> list Order) w : Prop := {
  wn_traders t p : w_traders w !! t = Some p -> trader_ready p;
  wn_exchanges e x : w_exchanges w !! e = Some x -> exchange_ready e x;
  wn_count : length (w_exchanges w) = Z.to_nat (exchange_num cfg);
  wn_orders : w_orders w = ∅;
  wn_reports : w_reports w = ∅;
  wn_inputs code : stock code -> concat (map (fun p => upcoming cfg (tp_ctl p) code) (w_traders w)) ≡ₚ inputs code;
}.

(** What the traders know of their orders: the rule of an order is that of the
    trader who has it. *)
Definition owns p (code id : Z) : bool := existsb (fun o => o_order_id o =? id) (upcoming cfg (tp_ctl p) code).
Definition rules_of w (code id : Z) : order_rule :=
  match find (fun p => owns p code id) (w_traders w) with
  | Some p => rule_of (tp_ctl p) code id
  | None => mkRule None dzero dzero
  end.

(** The orders of every stock as they are when the rules have come to their end,
    and the trades of the engine for them. *)
Definition final_orders (inputs : Z -> list Order) w : Z -> list Order := settled (stock_num cfg) (rules_of w) inputs.
Definition final_trades (inputs : Z -> list Order) w : Z -> list Trade := trades_from (final_orders inputs w).

(** The controller of a ready trader can generate its orders, and they come in
    the order of their ids. *)
Lemma ready_generated p code l :
  trader_ready p -> stock code -> Forall (struct_ok cfg (code - 1)) l ->
  Forall (fun ss => exists o, generated cfg (tp_ctl p) code ss = Some o /\ o_order_id o = ss_order_id ss) l.
Proof using Type.
  intros Hr Hc Hl. eapply Forall_impl; [exact Hl|]. intros ss Hss.
  destruct (generate_order_ok cfg (oim (tp_ctl p)) (code - 1) ss (td_matrix _ Hr) Hss) as (d & ty & pr & v & E & _).
  unfold generated. rewrite (Z.sub_simpl_r code 1) in E. rewrite E. by eexists.
Qed.

Lemma omap_generated_cons tc code ss o l :
  generated cfg tc code ss = Some o ->
  omap (generated cfg tc code) (ss :: l) = o :: omap (generated cfg tc code) l.
Proof using Type. intros Ho. cbn. by rewrite Ho. Qed.

Lemma generated_sorted p code l :
  StronglySorted (fun a b => ss_order_id a <= ss_order_id b) l ->
  Forall (fun ss => exists o, generated cfg (tp_ctl p) code ss = Some o /\ o_order_id o = ss_order_id ss) l ->
  NoDup (map o_order_id (omap (generated cfg (tp_ctl p) code) l)) ->
  StronglySorted (fun o1 o2 => o_order_id o1 < o_order_id o2) (omap (generated cfg (tp_ctl p) code) l).
Proof using Type.
  induction 1 as [|ss l Hs IH Hall]; intros Hg Hnd; [constructor|].
  apply Forall_cons in Hg as [(o & Ho & Hid) Hg]. 
  rewrite (omap_generated_cons _ _ _ o) in Hnd |- * by done. cbn [map] in Hnd.
  apply NoDup_cons in Hnd as [Hnew Hnd]. constructor; [by apply IH|].
  apply Forall_forall. intros o' Ho'. assert (Hin : o_order_id o' ∈ map o_order_id (omap (generated cfg (tp_ctl p) code) l))
    by by apply list_elem_of_fmap_2.
  apply list_elem_of_omap in Ho' as (ss' & Hss' & Ho'). rewrite Forall_forall in Hall, Hg.
  destruct (Hg ss' Hss') as (o2 & Ho2 & Hid'). rewrite Ho' in Ho2. injection Ho2 as <-.
  pose proof (Hall ss' Hss'). assert (o_order_id o' <> o_order_id o) by congruence. lia.
Qed.

Lemma ready_good rules p :
  trader_ready p ->
  (forall code o, stock code -> o ∈ upcoming cfg (tp_ctl p) code ->
     rule_of (tp_ctl p) code (o_order_id o) = rules code (o_order_id o)) ->
  trader_good cfg rules p.
Proof using Type.
  intros Hr Hrules. pose proof Hr as []. split.
  - done.
  - intros e q Hq. pose proof (proj1 (Forall_lookup _ _) td_queues0 e q Hq) as [? ->]. by split; [|constructor].
  - rewrite td_batch0. constructor.
  - intros code Hc. destruct (td_structs0 code Hc) as (l & Hl & Hs & _ & Hi). split; [|by exists 0].
    exists l. split; [done|]. eapply Forall_impl; [by apply (ready_generated p)|]. intros ss (o & Ho & _). eauto.
  - done.
  - done.
  - intros code Hc. exists 1. split; [by apply td_start0|lia].
  - by rewrite td_pc0.
Qed.

Lemma empty_chan k : chan ∅ k = [].
Proof using Type. unfold chan. by rewrite lookup_empty. Qed.

(** The view of a stock at the beginning. *)
Lemma init_view inputs w code t p :
  world_init inputs w -> w_traders w !! t = Some p ->
  view_trader cfg w code t p = mkTraderSt (tp_ctl p) (upcoming cfg (tp_ctl p) code) (tp_info p) [] [].
Proof using Type.
  intros Hi Hp. pose proof (wn_traders _ _ Hi t p Hp) as Hr. unfold view_trader. f_equal.
  - rewrite (wn_orders _ _ Hi), empty_chan, (td_batch _ Hr). unfold on_way. rewrite app_nil_r. unfold queued.
    destruct (tp_queues p !! exch_no cfg code) as [q|] eqn:Eq; [|done].
    pose proof (proj1 (Forall_lookup _ _) (td_queues _ Hr) _ q Eq) as [_ E]. simpl. by rewrite E.
  - unfold reports. destruct (w_exchanges w !! exch_no cfg code) as [x|] eqn:Ex; [|done]. simpl.
    destruct (wn_exchanges _ _ Hi _ x Ex) as [_ Hpd [_ Hq] Hs]. rewrite (wn_reports _ _ Hi). unfold reports_to.
    rewrite empty_chan, Hq, Hs. unfold pending. by rewrite Hpd.
Qed.

Lemma init_reports inputs w code t :
  world_init inputs w -> reports cfg w code t = [].
Proof using Type.
  intros Hi. unfold reports. destruct (w_exchanges w !! exch_no cfg code) as [x|] eqn:Ex; [|done]. simpl.
  destruct (wn_exchanges _ _ Hi _ x Ex) as [_ Hpd [_ Hq] Hs]. rewrite (wn_reports _ _ Hi). unfold reports_to.
  rewrite empty_chan, Hq, Hs. unfold pending. by rewrite Hpd.
Qed.

Context (inputs : Z -> list Order) (Henv : world_env cfg inputs).

(** The exchange of a stock has its window and its engine. *)
Lemma init_exchange w e x :
  world_init inputs w -> w_exchanges w !! e = Some x ->
  forall code, (stock code /\ exch_no cfg code = e <-> is_Some (stock_exchange (ep_exchange x) !! code)) /\
    (stock code -> exch_no cfg code = e -> stock_exchange (ep_exchange x) !! code = Some (new_StockExchange code) /\
      exists win, order_buffer (ep_exchange x) !! code = Some win /\ stock_window code win 0 ∅ /\
        capacity_ win = sliding_window_size cfg).
Proof using Henv.
  intros Hi Hx code. pose proof (we_exchanges _ _ Henv). pose proof (we_stocks _ _ Henv).
  pose proof (lookup_lt_Some _ _ _ Hx) as Hlt. rewrite (wn_count _ _ Hi) in Hlt.
  destruct (new_Exchange_spec (set_partition_idx (Z.of_nat e) cfg)) as (ex & E & Hspec);
    [done|apply (we_window _ _ Henv)|simpl; lia|].
  rewrite (ed_new _ _ (wn_exchanges _ _ Hi e x Hx)) in E. injection E as <-.
  destruct (Hspec code) as (Hiff & Hengine & Hwin & Hdom). simpl in Hiff.
  assert (He : code mod exchange_num cfg = Z.of_nat e <-> exch_no cfg code = e).
  { unfold exch_no. pose proof (Z.mod_pos_bound code (exchange_num cfg)). lia. }
  rewrite He in Hiff. split.
  - rewrite Hiff. split; [intros Hs; by rewrite (proj1 Hengine Hs)|].
    exact Hdom.
  - intros Hc Hc'. assert (Hs : is_Some (order_buffer (ep_exchange x) !! code)) by (apply Hiff; done).
    split; [by apply Hengine|]. destruct Hs as [win Hw]. exists win. split; [done|by apply Hwin].
Qed.
Lemma init_pool w code :
  world_init inputs w ->
  pool (traders (view cfg w code [])) = concat (map (fun p => upcoming cfg (tp_ctl p) code) (w_traders w)).
Proof using Type.
  intros Hi. unfold pool. f_equal. apply list_eq. intros t. rewrite !list_lookup_fmap, view_lookup.
  destruct (w_traders w !! t) as [p|] eqn:Hp; [|done]. cbn [fmap option_fmap option_map]. f_equal.
  rewrite (init_view inputs w code t p Hi Hp). apply app_nil_r.
Qed.

Lemma init_sorted w t p code :
  world_init inputs w -> w_traders w !! t = Some p -> stock code ->
  upcoming cfg (tp_ctl p) code ⊆ inputs code /\
  StronglySorted (fun o1 o2 => o_order_id o1 < o_order_id o2) (upcoming cfg (tp_ctl p) code).
Proof using Henv.
  intros Hi Hp Hc. pose proof (wn_traders _ _ Hi t p Hp) as Hr.
  pose proof (wn_inputs _ _ Hi code Hc) as Hin. split.
  - intros o Ho. rewrite <- Hin. apply list_elem_of_In, in_concat. exists (upcoming cfg (tp_ctl p) code).
    rewrite <- !list_elem_of_In. split; [|done]. apply list_elem_of_fmap. exists p. split; [done|].
    by apply list_elem_of_lookup_2 with t.
  - destruct (td_structs _ Hr code Hc) as (l & Hl & Hs & Hsort & Hidx).
    pose proof (ready_generated p code l Hr Hc Hs) as Hg.
    pose proof (io_ids _ _ (we_inputs _ _ Henv code Hc)) as Hnd. rewrite <- Hin in Hnd.
    rewrite <- (take_drop_middle (w_traders w) t p Hp), map_app, concat_app in Hnd. simpl in Hnd.
    rewrite !map_app in Hnd. apply NoDup_app in Hnd as (_ & _ & Hnd). apply NoDup_app in Hnd as (Hnd & _ & _).
    revert Hnd. unfold upcoming, structs_at, idx_at. rewrite Hl, Hidx. simpl. rewrite drop_0. by apply generated_sorted.
Qed.

(** The orders of a stock have one owner. *)
Lemma rules_of_owner w t p code o :
  world_init inputs w -> stock code -> w_traders w !! t = Some p -> o ∈ upcoming cfg (tp_ctl p) code ->
  rule_of (tp_ctl p) code (o_order_id o) = rules_of w code (o_order_id o).
Proof using Henv.
  intros Hi Hc Hp Ho. unfold rules_of.
  assert (Hown : forall p', owns p' code (o_order_id o) = true <-> o_order_id o ∈ map o_order_id (upcoming cfg (tp_ctl p') code)).
  { intros p'. unfold owns. rewrite existsb_exists, list_elem_of_fmap. split.
    - intros (o' & Ho' & E). exists o'. rewrite list_elem_of_In. split; [lia|done].
    - intros (o' & E & Ho'). exists o'. rewrite <- list_elem_of_In. split; [done|lia]. }
  destruct (find (fun p => owns p code (o_order_id o)) (w_traders w)) as [p'|] eqn:Ef.
  - apply find_some in Ef as [Hp' Hown'%Hown]. apply list_elem_of_In, list_elem_of_lookup in Hp' as [t' Hp'].
    enough (t' = t) as -> by congruence.
    pose proof (io_ids _ _ (we_inputs _ _ Henv code Hc)) as Hnd. rewrite <- (wn_inputs _ _ Hi code Hc) in Hnd.
    rewrite concat_map, map_map in Hnd.
    eapply (nodup_concat _ t' t); [exact Hnd|by rewrite list_lookup_fmap, Hp'|by rewrite list_lookup_fmap, Hp|exact Hown'|].
    by apply list_elem_of_fmap_2.
  - exfalso. pose proof (find_none _ _ Ef p) as Hn. cbv beta in Hn.
    rewrite (proj2 (Hown p)) in Hn by by apply list_elem_of_fmap_2. specialize (Hn ltac:(by eapply list_elem_of_In, list_elem_of_lookup_2)). done.
Qed.

(** Orders without hooks are all final. *)
Lemma final_orders_all w code :
  world_init inputs w -> stock code ->
  (forall t p o, w_traders w !! t = Some p -> o ∈ upcoming cfg (tp_ctl p) code ->
     rule_hook (rule_of (tp_ctl p) code (o_order_id o)) = None) ->
  length (final_orders inputs w code) = length (inputs code).
Proof using Henv.
  intros Hi Hc Hno. destruct (settled_end (stock_num cfg) (rules_of w) inputs) as (Hr & Hs & _).
  eapply stuck_no_hooks; [eapply run_ruled; [exact Hr|apply start_ruled]|exact Hs|exact Hc|].
  intros id. unfold rules_of. destruct (find _ _) as [p|] eqn:Ef; [|done].
  apply find_some in Ef as [[t Hp]%list_elem_of_In%list_elem_of_lookup Hown].
  apply existsb_exists in Hown as (o & Ho & E). replace id with (o_order_id o) by lia.
  eapply Hno; [exact Hp|]. by apply list_elem_of_In.
Qed.

Lemma world_start_inv w : world_init inputs w -> world_inv cfg (rules_of w) inputs (fun _ => []) w.
Proof using Henv.
  intros Hi. pose proof (we_exchanges _ _ Henv). split.
  - intros code Hc. pose proof (we_inputs _ _ Henv code Hc) as Hin.
    destruct (lookup_lt_is_Some_2 (w_exchanges w) (exch_no cfg code)) as [x Hx].
    { rewrite (wn_count _ _ Hi). by apply (exch_no_lt cfg inputs Henv). }
    destruct (init_exchange w _ x Hi Hx code) as [_ Hex]. destruct (Hex Hc eq_refl) as (Hengine & win & Hwin).
    assert (Htr : forall t y, traders (view cfg w code []) !! t = Some y -> exists p, w_traders w !! t = Some p /\
      y = mkTraderSt (tp_ctl p) (upcoming cfg (tp_ctl p) code) (tp_info p) [] []).
    { intros t y Hy. rewrite view_lookup in Hy. apply fmap_Some in Hy as (p & Hp & ->). exists p. split; [done|].
      by apply (init_view inputs). }
    destruct (flow_start cfg code (obeys (rules_of w) (fun _ => []) code) (Z.of_nat (length (inputs code))) (inputs code) (view cfg w code []) (Nat2Z.is_nonneg _))
      as [w0 Hf]; [| | |by exists w0, 0, ∅].
    + split; rewrite ?init_pool, ?(wn_inputs _ _ Hi code Hc) by done.
      * exists win. by rewrite (view_exchange cfg w code [] x).
      * apply Forall_lookup. intros t y Hy. destruct (Htr t y Hy) as (p & Hp & ->). simpl.
        destruct (init_sorted w t p code Hi Hp Hc) as [Hsub Hsort].
        split_and!; [by apply (td_start _ (wn_traders _ _ Hi t p Hp))|done|done|done|].
        apply Forall_forall. intros o Ho. apply Hsub in Ho. split.
        -- by apply (proj1 (Forall_forall _ _) (io_orders _ _ Hin)).
        -- apply list_elem_of_lookup in Ho as [i Ho]. pose proof (lookup_lt_Some _ _ _ Ho).
           pose proof (we_ids _ _ Henv code Hc i o Ho). lia.
      * apply Hin.
      * intros id Hid. rewrite (wn_inputs _ _ Hi code Hc), ids_from_seq by (by apply (we_ids _ _ Henv)). apply elem_of_seqZ. lia.
      * done.
    + by rewrite (view_exchange cfg w code [] x).
    + apply Forall_lookup. intros t y Hy. destruct (Htr t y Hy) as (p & Hp & ->). simpl.
      by apply (init_sorted w t p code).
  - intros t p Hp. pose proof (wn_traders _ _ Hi t p Hp) as Hr. exists [].
    destruct (new_receiver_ok (stock_num cfg) cfg (we_folder _ _ Henv) eq_refl (we_open _ _ Henv) (we_inj _ _ Henv))
      as (r & Er & Hrok). rewrite (td_recv _ Hr) in Er. injection Er as <-.
    split_and!; [done|apply Hr|]. intros code Hc. by rewrite (init_reports inputs).
  - intros t p Hp. apply ready_good; [by eapply wn_traders|]. intros code o Hc Ho. by eapply rules_of_owner.
  - intros e x Hx. destruct (wn_exchanges _ _ Hi e x Hx) as [_ Hpd [Hok Hq] Hs]. split.
    + done.
    + rewrite Hq. constructor.
    + by rewrite Hs.
    + intros code. unfold pending. rewrite Hpd, lookup_empty. constructor.
    + intros code Hst. by apply (init_exchange w e x Hi Hx code).
  - intros t e. rewrite (wn_orders _ _ Hi), empty_chan. split; [constructor|done].
  - intros t e. rewrite (wn_reports _ _ Hi), empty_chan. constructor.
  - apply Hi.
Qed.

(** ** What can be read off the invariant *)
Context (rules : Z -> Z -> order_rule).

(** Of the stock [code], with [os] delivered: what the engine has made of them,
    and that every trader has a prefix of it in its file. *)
Record stock_done w (code : Z) (os : list Order) : Prop := {
  sd_delivers : delivers (inputs code) os;
  sd_engine : exists x, w_exchanges w !! exch_no cfg code = Some x /\ engine_rel code (ep_exchange x) os;
  sd_files t p : w_traders w !! t = Some p -> exists r' got rest, flush (tp_recv p) = Done r' /\
    trader_file r' code = Some got /\ got ++ rest = (spec_run code (mkAbs [] []) os).1;
}.
Lemma inv_file dels w code t p :
  world_inv cfg rules inputs dels w -> stock code -> w_traders w !! t = Some p ->
  exists r' got, flush (tp_recv p) = Done r' /\ trader_file r' code = Some got /\
    got ++ trades_of (reports cfg w code t) = trades_from dels code.
Proof using Henv.
  intros Hi Hc Hp. destruct (wi_flow _ _ _ _ _ Hi code Hc) as (win & next & items & Hf).
  assert (Hint : is_int code = true) by by eapply stock_int.
  destruct (wi_trades _ _ _ _ _ Hi t p Hp) as (got & Hr & _ & Ht).
  destruct (flush_law (we_io _ _ Henv) (stock_num cfg) got (tp_recv p) Hr) as (r' & Hfl & Hfile).
  destruct (Hfile code Hc) as (fd & Hfd & _ & Hcont).
  exists r', (by_code code got). split; [done|]. split; [|by apply Ht].
  unfold trader_file. rewrite Hfd. simpl. rewrite Hcont. simpl. f_equal.
  destruct (flow_trades cfg code _ _ _ Hint (we_inputs _ _ Henv code Hc) (obeys_sent rules dels code) _ _ _ _ Hf) as [Hg _].
  cbn [delivered view] in Hg. fold (trades_from dels code) in Hg. rewrite <- Ht in Hg by done.
  apply Forall_app in Hg as [Hg _]. apply read_trades_data; [|rewrite trades_data_length; lia].
  eapply Forall_impl; [exact Hg|]. by intros tr (? & _).
Qed.

Lemma inv_done dels w code :
  world_inv cfg rules inputs dels w -> stock code -> stock_done w code (dels code).
Proof using Henv.
  intros Hi Hc. destruct (wi_flow _ _ _ _ _ Hi code Hc) as (win & next & items & Hf).
  destruct (lookup_lt_is_Some_2 (w_exchanges w) (exch_no cfg code)) as [x Hx].
  { rewrite (wi_count _ _ _ _ _ Hi). by apply (exch_no_lt cfg inputs Henv). }
  pose proof (fi_engine _ _ _ _ _ _ _ _ _ Hf) as He. rewrite (view_exchange cfg w code _ x Hx) in He. split.
  - by apply (flow_delivers cfg code _ _ (inputs code) (we_inputs _ _ Henv code Hc) (obeys_sent rules dels code)
      (view cfg w code (dels code)) win next items (we_ids _ _ Henv code Hc) eq_refl).
  - by exists x.
  - intros t p Hp. destruct (inv_file dels w code t p Hi Hc Hp) as (r' & got & ? & ? & ?). by eexists _, got, _.
Qed.

(** When all orders were delivered, the traders have none left. *)
Lemma done_upcoming dels w code t p :
  world_inv cfg rules inputs dels w -> stock code -> length (dels code) = length (inputs code) ->
  w_traders w !! t = Some p -> upcoming cfg (tp_ctl p) code = [].
Proof using Type.
  intros Hi Hc Hlen Hp. destruct (wi_flow _ _ _ _ _ Hi code Hc) as (win & next & items & Hf).
  destruct (flow_delivered cfg code _ _ _ _ win next items Hf) as (_ & _ & Hn & _). cbn [delivered view] in Hn.
  assert (next = Z.of_nat (length (inputs code))) as -> by lia.
  by destruct (drained_trader _ _ _ _ _ _ _ _ (fi_protocol _ _ _ _ _ _ _ _ _ Hf) (trader_view_at cfg w t p code _ Hp)).
Qed.
End init.

(** Safety of the whole program.  The processes start with the orders of
    every stock, with the ids 1, 2, ..., distributed over any number of traders
    in any way; then any number of steps of any threads are interleaved:
    controllers, order senders, order receivers, stocks, trade senders and
    trade receivers.  The next step of no thread is a fault; every engine has
    got the first orders of its stock, in the order of their ids, as their
    traders sent them, and is in the state, with the trades, that the
    specification of the engine gives for them; and the file that any trader
    would leave for the stock holds the first of these trades. *)
Theorem world_safe `{HeapLib} `{FileIO} {Qo Qm : Type} `{Fifo Qo Order} `{Fifo Qm bytes}
    (cfg : Config) (inputs : Z -> list Order) (w0 w : world Qo Qm) :
  world_env cfg inputs -> world_init cfg inputs w0 -> rtc (world_step cfg) w0 w ->
  threads_run cfg w /\
  forall code, 1 <= code <= stock_num cfg -> exists os,
    stock_done cfg inputs w code os /\ os `prefix_of` final_orders cfg inputs w0 code.
Proof.
  intros Henv Hi Hrun. pose proof (world_start_inv cfg inputs Henv w0 Hi) as Hinv.
  destruct (run_inv cfg (rules_of cfg w0) inputs Henv _ w0 w Hinv Hrun) as (dels & Hr & Hinv').
  split; [by eapply inv_threads|]. intros code Hc. exists (dels code).
  split; [by eapply inv_done|]. by apply (settled_end (stock_num cfg) (rules_of cfg w0) inputs).
Qed.

(** ** Two traders, two exchanges, two stocks

    Stock 1 has the orders 1 and 3 at the first trader and 2 at the second,
    stock 2 the orders 1 and 2 at the first trader.  These wait for trades of
    stock 1: order 1 for the first, whose volume is going to be too high for it,
    order 2 for the second, which never comes. *)
Definition demo_wcfg : Config := {|
  data_folder := ""; trade_output_folder := "out"; network_config_file := "";
  partition_idx := 0; sliding_window_size := 1; stock_num := 2;
  trader_num := 2; exchange_num := 2;
  loader_nx_matrix := 2; loader_ny_matrix := 1; loader_nz_matrix := 2; load_mode := 2;
  traders_addr := []; exchanges_addr := []; trader_port2exchange_port := [] |}.

Definition demo_matrix : OrderInfoMatrix :=
  mkOrderInfoMatrix [1; -1; 1; 1] [0; 0; 0; 0] (replicate 4 price_10) [100; 60; 5; 5].
Definition demo_whook : gmap Z HookTarget := {[1 := mkHookTarget 1 1 50; 2 := mkHookTarget 1 2 50]}.
Definition demo_wctl (structs1 structs2 : list SortStruct) : TraderController :=
  mkTraderController [[price_9; price_9]; [price_11; price_11]] [∅; demo_whook] [structs1; structs2] demo_matrix [0; 0].
Definition demo_wctl1 : TraderController :=
  demo_wctl [mkSortStruct 1 (set_coor 0 0 0); mkSortStruct 3 (set_coor 0 0 1)] [mkSortStruct 1 (set_coor 1 0 0); mkSortStruct 2 (set_coor 1 0 1)].
Definition demo_wctl2 : TraderController := demo_wctl [mkSortStruct 2 (set_coor 0 0 0)] [].

Definition demo_queue {A} (d : A) : Ring.BlockQueue A := Ring.mkBlockQueue [d] 1 0 0 0.
Definition demo_wtrader (tc : TraderController) : trader_proc (Ring.BlockQueue Order) :=
  mkTraderProc tc (Reading 0) [] (mkSharedTradeInfo [1; 1] [{[1 := -1; 2 := -1]}; ∅])
    (mkReceiver {[1 := 101; 2 := 102]} {[1 := []; 2 := []]} {[1 := 1; 2 := 1]} {[101 := []; 102 := []]})
    [demo_queue Order_init; demo_queue Order_init].
Definition demo_wexchange (code : Z) : exchange_proc (Ring.BlockQueue bytes) :=
  mkExchangeProc (mkExchange {[code := new_StockExchange code]} {[code := mkSlidingWindow [Order_init] [false] 1 0]})
    ∅ (demo_queue []) None.

(** The exchange with index 0 has stock 2. *)
Definition demo_world : world (Ring.BlockQueue Order) (Ring.BlockQueue bytes) :=
  mkWorld [demo_wtrader demo_wctl1; demo_wtrader demo_wctl2] [demo_wexchange 2; demo_wexchange 1] ∅ ∅.

Definition demo_winputs (code : Z) : list Order :=
  if code =? 1 then [mkOrder 1 1 1 0 price_10 100; mkOrder 1 2 1 0 price_10 100; mkOrder 1 3 (-1) 0 price_10 60]
  else if code =? 2 then [mkOrder 2 1 1 0 price_10 5; mkOrder 2 2 1 0 price_10 5] else [].

Lemma two_stocks code : 1 <= code <= stock_num demo_wcfg -> code = 1 \/ code = 2.
Proof. change (stock_num demo_wcfg) with 2. lia. Qed.

Lemma demo_world_env : world_env (H := demo_io) demo_wcfg demo_winputs.
Proof.
  split.
  - exact demo_io_reliable.
  - vm_compute. split; congruence.
  - done.
  - done.
  - intros code Hc. change (stock_num demo_wcfg) with 2 in Hc. unfold EMPTY_FD. simpl. lia.
  - simpl. intros s s' _ _ E. lia.
  - vm_compute. split; congruence.
  - intros code [->| ->]%two_stocks; split;
      [repeat constructor; vm_compute; congruence|apply (bool_decide_unpack _); vm_compute; exact I|vm_compute; congruence
      |repeat constructor; vm_compute; congruence|apply (bool_decide_unpack _); vm_compute; exact I|vm_compute; congruence].
  - intros code [->| ->]%two_stocks [|[|[|i]]] o [= <-]; reflexivity.
  - intros code [->| ->]%two_stocks; vm_compute; reflexivity.
Qed.

Lemma demo_queue_ok {A} (d : A) : fifo_ok (demo_queue d) /\ fifo_contents (demo_queue d) = [].
Proof. split; [|done]. split; simpl; (done || lia). Qed.

Lemma demo_trader_ready s1 s2 :
  Forall (struct_ok demo_wcfg 0) s1 -> Forall (struct_ok demo_wcfg 1) s2 ->
  StronglySorted (fun a b => ss_order_id a <= ss_order_id b) s1 ->
  StronglySorted (fun a b => ss_order_id a <= ss_order_id b) s2 ->
  trader_ready (H0 := demo_io) demo_wcfg (demo_wtrader (demo_wctl s1 s2)).
Proof.
  intros H1 H2 Hs1 Hs2. split; try done.
  - split; [done|]. assert (Hnone : forall k, hook_value [] k = -1) by (intros k; unfold hook_value; by case_if).
    intros code m k v [->| ->]%two_stocks Hm Hv; injection Hm as <-; [|by rewrite lookup_empty in Hv].
    rewrite Hnone. by apply lookup_insert_Some in Hv as [[_ <-]|[_ [_ <-]%lookup_singleton_Some]].
  - by intros code [->| ->]%two_stocks.
  - repeat (apply Forall_cons; split; [apply demo_queue_ok|]). apply Forall_nil_2.
  - intros code [->| ->]%two_stocks; [by exists s1|by exists s2].
  - intros code [->| ->]%two_stocks; [exists ∅, price_9, price_11|exists demo_whook, price_9, price_11]; split; try reflexivity.
    + intros id ht Hht. by rewrite lookup_empty in Hht.
    + intros id ht Hht. unfold demo_whook in Hht.
      apply lookup_insert_Some in Hht as [[_ <-]|[_ [_ <-]%lookup_singleton_Some]]; by eexists.
Qed.

Lemma demo_world_init : world_init (H0 := demo_io) demo_wcfg demo_winputs demo_world.
Proof.
  split; try done.
  - intros [|[|t]] p [= <-]; apply demo_trader_ready; repeat constructor; try (vm_compute; congruence).
  - intros [|[|e]] x [= <-]; split; try done; apply demo_queue_ok.
  - intros code [->| ->]%two_stocks; vm_compute; [|reflexivity]. apply perm_skip, perm_swap.
Qed.

(** The first controller collects the order that the window covers and no hook
    holds back, and puts it into its queue; the order sender sends it. *)
Definition demo_next (p : trader_proc (Ring.BlockQueue Order)) : trader_proc (Ring.BlockQueue Order) :=
  match controller_next demo_wcfg p with Ran (Done p') => p' | _ => p end.
Definition demo_at (p : trader_proc (Ring.BlockQueue Order)) : world (Ring.BlockQueue Order) (Ring.BlockQueue bytes) :=
  mkWorld [p; demo_wtrader demo_wctl2] [demo_wexchange 2; demo_wexchange 1] ∅ ∅.
Definition demo_collected : trader_proc (Ring.BlockQueue Order) := Nat.iter 6 demo_next (demo_wtrader demo_wctl1).
Definition demo_world1 : world (Ring.BlockQueue Order) (Ring.BlockQueue bytes) :=
  mkWorld [set_queues demo_collected [demo_queue Order_init; Ring.mkBlockQueue [mkOrder 1 1 1 0 price_10 100] 1 0 0 0];
           demo_wtrader demo_wctl2]
    [demo_wexchange 2; demo_wexchange 1]
    {[(0, 1)%nat := [order_msg (replicate 4 Init.Byte.x00) (mkOrder 1 1 1 0 price_10 100)]]} ∅.

Lemma demo_controller p :
  controller_next demo_wcfg p = Ran (Done (demo_next p)) ->
  world_step (H0 := demo_io) demo_wcfg (demo_at p) (demo_at (demo_next p)).
Proof. intros E. exact (ws_controller (H0 := demo_io) demo_wcfg (demo_at p) 0 p (demo_next p) eq_refl E). Qed.

Lemma demo_world_run : rtc (world_step (H0 := demo_io) demo_wcfg) demo_world demo_world1.
Proof.
  assert (Hctl : forall k, (k < 6)%nat -> let p := Nat.iter k demo_next (demo_wtrader demo_wctl1) in
    controller_next demo_wcfg p = Ran (Done (demo_next p))).
  { intros k Hk. do 6 (destruct k as [|k]; [vm_compute; reflexivity|]). lia. }
  change demo_world with (demo_at (demo_wtrader demo_wctl1)).
  transitivity (demo_at demo_collected).
  - unfold demo_collected.
    assert (Hrun : forall n, (n <= 6)%nat -> rtc (world_step (H0 := demo_io) demo_wcfg)
      (demo_at (demo_wtrader demo_wctl1)) (demo_at (Nat.iter n demo_next (demo_wtrader demo_wctl1)))).
    { induction n as [|n IH]; intros Hn; [done|]. eapply rtc_r; [apply IH; lia|]. apply demo_controller, Hctl. lia. }
    by apply Hrun.
  - apply rtc_once.
    exact (ws_order_sender (H0 := demo_io) demo_wcfg (demo_at demo_collected) 0 demo_collected 1
      (Ring.mkBlockQueue [mkOrder 1 1 1 0 price_10 100] 1 0 0 1) (replicate 4 Init.Byte.x00) _ _ eq_refl eq_refl eq_refl eq_refl).
Qed.

Lemma world_safe_witness :
  rtc (world_step (H0 := demo_io) demo_wcfg) demo_world demo_world1 /\
  threads_run (H0 := demo_io) demo_wcfg demo_world1 /\
  exists os, stock_done (H0 := demo_io) demo_wcfg demo_winputs demo_world1 1 os /\
    os `prefix_of` final_orders demo_wcfg demo_winputs demo_world 1.
Proof.
  split; [exact demo_world_run|].
  destruct (world_safe (H0 := demo_io) demo_wcfg demo_winputs demo_world demo_world1) as [Ht Hs];
    [exact demo_world_env|exact demo_world_init|exact demo_world_run|].
  split; [exact Ht|]. apply Hs. vm_compute. split; congruence.
Defined.
