(* ===== verification/WorldLive.v ===== *)
(** * Progress of all processes

    From every reachable state some continuation delivers the final orders of
    all stocks ([WorldProps.final_orders]; an order whose hook is never decided
    and those behind it wait for ever) and all reports to all traders.  What is on its way weighs the more
    the farther it has to go ([load]); every thread that has something to pass
    on makes the load smaller.  When nothing is on its way, a stock that is not
    done either has its next order in the window, or a trader has it as its
    next order, and its controller comes round to it ([drive]). *)

From stdpp Require Import gmap relations functions.
From S2P Require Import Prelude Double Bytes Config Types StdHeap DeclBook StockExchange.
From S2P Require Import MatchSpec Matching MatchProps OrderedCommit EngineProps.
From S2P Require Import BlockQueue SlidingWindow Messages Exchange Trader TraderProps.
From S2P Require Import TradeReceiver TradeReceiverProps Protocol StockFlow Rules World WorldView WorldInv WorldProps.
#[local] Open Scope Z_scope.

Section live.
Context `{HeapLib} `{FileIO} {Qo Qm : Type}.
Context {Fo : Fifo Qo Order} {Fm : Fifo Qm bytes} {Ro : RoomyFifo Qo Order} {Rm : RoomyFifo Qm bytes} (cfg : Config).
Implicit Types (w : world Qo Qm) (p : trader_proc Qo) (x : exchange_proc Qm).

Abbreviation stock code := (1 <= code <= stock_num cfg).

(** ** What the runs keep: room in the queues *)
Record world_roomy w : Prop := {
  wr_orders t p e q : w_traders w !! t = Some p -> tp_queues p !! e = Some q -> has_room q;
  wr_reports e x : w_exchanges w !! e = Some x -> has_room (ep_queue x);
}.

Lemma put_one_step (qs qs' : list Qo) o :
  put_orders cfg qs [o] = Ran (Done qs') ->
  exists e q q', qs !! e = Some q /\ fifo_put q o = Ran (Done q') /\ qs' = <[e := q']> qs.
Proof using Type.
  cbn [put_orders]. destruct (int_mod (o_stk_code o) (exchange_num cfg)) as [idx|]; [|done].
  destruct (array_get qs idx) as [q|] eqn:Eq; [|done]. apply array_get_inv in Eq as [_ Eq].
  destruct (fifo_put q o) as [|[q'|]] eqn:Ep; [done| |done]. unfold array_set.
  destruct ((0 <=? idx) && _); [|done]. intros [= <-]. by exists (Z.to_nat idx), q, q'.
Qed.

Lemma next_msg_step pad (q q' : Qo) msg :
  next_order_msg pad q = Ran (Done (msg, q')) -> exists o, fifo_poll q = Done (Some o, q').
Proof using Type.
  unfold next_order_msg. rewrite (batch_loop_first 99).
  destruct (fifo_poll q) as [[[o|] q2]|]; [|done|done]. intros [= _ <-]. by exists o.
Qed.

(** What a step of a controller does to its queues. *)
Lemma Ran_inj {A} (m m' : outcome A) : Ran m = Ran m' -> m = m'.
Proof using Type. by intros [= ->]. Qed.

Lemma controller_step p p' :
  controller_next cfg p = Ran (Done p') ->
  tp_queues p' = tp_queues p \/
  exists e q q' o, tp_queues p !! e = Some q /\ fifo_put q o = Ran (Done q') /\ tp_queues p' = <[e := q']> (tp_queues p).
Proof using Type.
  unfold controller_next. destruct (tp_pc p) as [s|s limit].
  - destruct (s <? stock_num cfg).
    { intros E%Ran_inj. apply bind_done in E as (k & _ & E). apply bind_done in E as (l & _ & E). simplify_eq. by left. }
    destruct (order_to_send p) as [|o rest]; [intros [= <-]; by left|].
    destruct (put_orders cfg (tp_queues p) [o]) as [|[qs|]] eqn:E; [done| |done]. simpl. intros [= <-].
    right. apply put_one_step in E as (e & q & q' & Hq & Hput & ->). by exists e, q, q', o.
  - unfold scan_next. intros E%Ran_inj. apply bind_done in E as (i & _ & E). apply bind_done in E as (l & _ & E).
    destruct (l !! Z.to_nat i); [|simplify_eq; by left].
    apply bind_done in E as (o & _ & E). apply bind_done in E as ([ok o'] & _ & E).
    destruct ok; simpl in E; [|simplify_eq; by left].
    apply bind_done in E as (l2 & _ & E). simplify_eq. by left.
Qed.

Lemma roomy_set (qs : list Qo) (e e' : nat) q q' q2 l :
  (forall e q, qs !! e = Some q -> has_room q) -> qs !! e = Some q -> fifo_step q l q' ->
  <[e := q']> qs !! e' = Some q2 -> has_room q2.
Proof using Type.
  intros Hall Hq Hs [(<- & <- & _)|[_ Hq2]]%list_lookup_insert_Some; [|by eapply Hall].
  eapply has_room_step; [exact Hs|]. by eapply Hall.
Qed.

Lemma step_roomy w w' : world_step cfg w w' -> world_roomy w -> world_roomy w'.
Proof using Type.
  intros Hs [Ho Hr].
  destruct Hs as [w t p p' Hp E|w t p e q pad msg q' Hp Hq Hpad E|w t e x msg rest ex' Hx Hch E
    |w e x code x' Hx Hst E|w e x x' sent Hx E|w t p e msg rest r s Hp Hch E]; split; simpl; try done.
  - intros t' p1 e q [(<- & <- & _)|[_ Ha]]%list_lookup_insert_Some Hq; [|by eapply Ho].
    apply controller_step in E as [E|(e1 & q1 & q1' & o & Hq1 & Hput & E)]; rewrite E in Hq; [by eapply Ho|].
    eapply (roomy_set (tp_queues p)); [by intros; eapply Ho|exact Hq1|by eapply step_put|exact Hq].
  - intros t' p1 e' q1 [(<- & <- & _)|[_ Ha]]%list_lookup_insert_Some Hq1; [|by eapply Ho]. simpl in Hq1.
    apply next_msg_step in E as [o E].
    eapply (roomy_set (tp_queues p)); [by intros; eapply Ho|exact Hq|by eapply step_poll|exact Hq1].
  - intros e' x1 [(<- & <- & _)|[_ Ha]]%list_lookup_insert_Some; [by apply (Hr _ _ Hx)|by eapply Hr].
  - intros e' x1 [(<- & <- & _)|[_ Ha]]%list_lookup_insert_Some; [|by eapply Hr].
    unfold stock_next in E. destruct (pending x code) as [|ev rest].
    + apply Ran_inj in E. destruct (stock_exchange (ep_exchange x) !! code); [|done].
      apply bind_done in E as ([ack ex] & _ & E). destruct (stock_exchange ex !! code); simplify_eq. by apply (Hr _ _ Hx).
    + replace (put_event (ep_queue x) ev) with (fifo_put (ep_queue x) (event_msg ev)) in E by (by destruct ev).
      destruct (fifo_put (ep_queue x) (event_msg ev)) as [|[q'|]] eqn:Ep; simplify_eq/=.
      eapply has_room_step; [by eapply step_put|]. by eapply Hr.
  - intros e' x1 [(<- & <- & _)|[_ Ha]]%list_lookup_insert_Some; [|by eapply Hr].
    unfold trade_sender_next in E. destruct (ep_sending x) as [[msg idx]|].
    + destruct (idx <? _)%nat; simplify_eq; by apply (Hr _ _ Hx).
    + destruct (fifo_take (ep_queue x)) as [|[[m q']|]] eqn:Et; simplify_eq/=.
      eapply has_room_step; [by eapply step_take|]. by eapply Hr.
  - intros t' p1 e' q1 [(<- & <- & _)|[_ Ha]]%list_lookup_insert_Some Hq1; by eapply Ho.
Qed.

Lemma run_roomy w w' : rtc (world_step cfg) w w' -> world_roomy w -> world_roomy w'.
Proof using Type. intros Hr. induction Hr; eauto using step_roomy. Qed.

Lemma run_count w w' : rtc (world_step cfg) w w' -> length (w_traders w') = length (w_traders w).
Proof using Type.
  intros Hr. induction Hr as [|w w1 w2 Hs Hr IH]; [done|]. rewrite IH. destruct Hs; simpl; rewrite ?length_insert; done.
Qed.

(** ** The load *)
Definition codes : list Z := seqZ 1 (stock_num cfg).

Definition trader_load p : nat :=
  sum_list_with (fun code => 4 * length (upcoming cfg (tp_ctl p) code))%nat codes +
  3 * length (order_to_send p) + sum_list_with (fun q => 2 * length (fifo_contents q))%nat (tp_queues p).

(** With [n] traders a message has [2 * n + 1] steps in the trade sender. *)
Definition exchange_load (n : nat) x : nat :=
  sum_list_with (fun code => (2 * n + 4) * length (pending x code))%nat codes +
  (2 * n + 3) * length (fifo_contents (ep_queue x)) +
  match ep_sending x with Some (_, i) => S (2 * (n - i)) | None => 0 end.

Definition channel_keys w : list (nat * nat) :=
  cprod (seq 0 (length (w_traders w))) (seq 0 (Z.to_nat (exchange_num cfg))).
Definition channel_load w : nat :=
  sum_list_with (fun k => length (chan (w_orders w) k) + length (chan (w_reports w) k))%nat (channel_keys w).

Definition load w : nat :=
  sum_list_with trader_load (w_traders w) +
  sum_list_with (exchange_load (length (w_traders w))) (w_exchanges w) + channel_load w.

Lemma codes_stock code : stock code <-> code ∈ codes.
Proof using Type. unfold codes. rewrite elem_of_seqZ. lia. Qed.

Lemma codes_nodup : NoDup codes.
Proof using Type. apply NoDup_seqZ. Qed.

Lemma channel_keys_elem w t e :
  (t, e) ∈ channel_keys w <-> (t < length (w_traders w))%nat /\ (e < Z.to_nat (exchange_num cfg))%nat.
Proof using Type. unfold channel_keys. rewrite list_elem_of_cprod, !elem_of_seq. simpl. lia. Qed.

Lemma channel_keys_nodup w : NoDup (channel_keys w).
Proof using Type.
  apply NoDup_bind; [| |apply NoDup_seq].
  - intros t1 t2 k _ _ (e1 & -> & _)%list_elem_of_fmap (e2 & [= ->] & _)%list_elem_of_fmap. done.
  - intros t _. apply NoDup_fmap; [intros e1 e2; congruence|apply NoDup_seq].
Qed.

(** One channel gets [a] messages more and [b] messages less. *)
Lemma channel_load_change w w' t e a b :
  length (w_traders w') = length (w_traders w) -> (t < length (w_traders w))%nat -> (e < Z.to_nat (exchange_num cfg))%nat ->
  (forall k, k <> (t, e) -> chan (w_orders w') k = chan (w_orders w) k /\ chan (w_reports w') k = chan (w_reports w) k) ->
  (length (chan (w_orders w') (t, e)) + length (chan (w_reports w') (t, e)) + b =
   length (chan (w_orders w) (t, e)) + length (chan (w_reports w) (t, e)) + a)%nat ->
  (channel_load w' + b = channel_load w + a)%nat.
Proof using Type.
  intros Hl Ht He Hother Hab. unfold channel_load.
  replace (channel_keys w') with (channel_keys w) by (unfold channel_keys; by rewrite Hl).
  pose proof (sum_list_change (fun k => length (chan (w_orders w') k) + length (chan (w_reports w') k))%nat
    (fun k => length (chan (w_orders w) k) + length (chan (w_reports w) k))%nat (channel_keys w) (t, e)
    (channel_keys_nodup w) ltac:(by apply channel_keys_elem)) as Hs.
  cbv beta in Hs. specialize (Hs ltac:(intros k Hk; by destruct (Hother k Hk) as [-> ->])). lia.
Qed.

Context (rules : Z -> Z -> order_rule) (inputs : Z -> list Order) (Henv : world_env cfg inputs).
Abbreviation inv := (world_inv cfg rules inputs).
Abbreviation moves := (rule_step (stock_num cfg) rules inputs).

(** ** Steps that make the load smaller *)
Abbreviation remaining := (undelivered (stock_num cfg) inputs).

(** A run leads to a state that is closer to the end. *)
Definition better dels w : Prop :=
  exists w' dels', rtc (world_step cfg) w w' /\ rtc moves dels dels' /\ inv dels' w' /\
    ((remaining dels' < remaining dels)%nat \/ dels' = dels /\ (load w' < load w)%nat).

Lemma better_step dels w w' : world_step cfg w w' -> inv dels w' -> (load w' < load w)%nat -> better dels w.
Proof using Type. intros Hs Hi Hl. exists w', dels. split; [by apply rtc_once|]. auto using rtc_refl. Qed.

Lemma better_run dels w w' : rtc (world_step cfg) w w' -> better dels w' -> (load w' <= load w)%nat -> better dels w.
Proof using Type.
  intros Hr (w2 & d2 & Hr2 & Hm & Hi2 & Hd) Hl. exists w2, d2. split; [by etransitivity|]. split_and!; [done|done|].
  destruct Hd as [?|[-> ?]]; [by left|right; split; [done|lia]].
Qed.

(** A message waits in a trade channel. *)
Lemma report_better dels w t e :
  inv dels w -> (t < length (w_traders w))%nat -> (e < Z.to_nat (exchange_num cfg))%nat ->
  chan (w_reports w) (t, e) <> [] -> better dels w.
Proof using Henv.
  intros Hi Ht He Hch. destruct (chan (w_reports w) (t, e)) as [|msg rest] eqn:Ec; [done|].
  destruct (lookup_lt_is_Some_2 _ _ Ht) as [p Hp].
  destruct (trade_receiver_inv cfg rules inputs Henv dels w t e p msg rest Hi Hp Ec) as (r & s & E & Hi').
  eapply better_step; [by eapply ws_trade_receiver|exact Hi'|]. unfold load. simpl.
  rewrite length_insert. match goal with |- context [channel_load ?w'] => set (w2 := w') end.
  pose proof (channel_load_change w w2 t e 0 1) as Hc. unfold w2 in Hc. simpl in Hc. rewrite length_insert in Hc.
  rewrite chan_set_same, Ec in Hc.
  specialize (Hc eq_refl Ht He ltac:(intros k Hk; split; [done|by apply chan_set_other]) ltac:(simpl; lia)).
  pose proof (sum_list_insert trader_load _ _ _ (mkTraderProc (tp_ctl p) (tp_pc p) (order_to_send p) s r (tp_queues p)) Hp) as Hs.
  assert (Hload : trader_load (mkTraderProc (tp_ctl p) (tp_pc p) (order_to_send p) s r (tp_queues p)) = trader_load p) by done.
  fold w2 in Hc. unfold w2 in *. lia.
Qed.

(** A message waits in an order channel. *)
Lemma order_better dels w t e :
  inv dels w -> (e < Z.to_nat (exchange_num cfg))%nat -> chan (w_orders w) (t, e) <> [] -> better dels w.
Proof using Henv.
  intros Hi He Hch. destruct (chan (w_orders w) (t, e)) as [|msg rest] eqn:Ec; [done|].
  assert (Ht : (t < length (w_traders w))%nat) by (apply (wi_orders _ _ _ _ _ Hi t e); by rewrite Ec).
  rewrite <- (wi_count _ _ _ _ _ Hi) in He. destruct (lookup_lt_is_Some_2 _ _ He) as [x Hx].
  rewrite (wi_count _ _ _ _ _ Hi) in He.
  destruct (order_receiver_inv cfg rules inputs Henv dels w t e x msg rest Hi Hx Ec) as (ex' & E & Hi').
  eapply better_step; [by eapply ws_order_receiver|exact Hi'|]. unfold load. cbn [w_traders w_exchanges].
  match goal with |- context [channel_load ?w'] => set (w2 := w') end.
  pose proof (channel_load_change w w2 t e 0 1) as Hc. unfold w2 in Hc. cbn [w_traders w_orders w_reports] in Hc.
  rewrite chan_set_same, Ec in Hc.
  specialize (Hc eq_refl Ht He ltac:(intros k Hk; split; [by apply chan_set_other|done]) ltac:(simpl; lia)).
  pose proof (sum_list_insert (exchange_load (length (w_traders w))) _ _ _
    (mkExchangeProc ex' (ep_pending x) (ep_queue x) (ep_sending x)) Hx) as Hs.
  assert (Hload : exchange_load (length (w_traders w)) (mkExchangeProc ex' (ep_pending x) (ep_queue x) (ep_sending x)) =
    exchange_load (length (w_traders w)) x) by done.
  fold w2 in Hc. unfold w2 in *. lia.
Qed.
(** An exchange changes and the channels of trades get [a] messages. *)
Lemma exchange_better dels w e x x' rs :
  let w' := mkWorld (w_traders w) (<[e := x']> (w_exchanges w)) (w_orders w) rs in
  world_step cfg w w' -> inv dels w' -> w_exchanges w !! e = Some x ->
  (exchange_load (length (w_traders w)) x' + channel_load w' <
   exchange_load (length (w_traders w)) x + channel_load w)%nat -> better dels w.
Proof using Type.
  intros w' Hs Hi Hx Hlt. eapply better_step; [exact Hs|exact Hi|]. unfold load, w' in *. cbn [w_traders w_exchanges].
  pose proof (sum_list_insert (exchange_load (length (w_traders w))) _ _ _ x' Hx). lia.
Qed.

(** The trade sender has a message, or one in its queue. *)
Lemma trade_sender_better dels w e x :
  inv dels w -> w_exchanges w !! e = Some x ->
  ep_sending x <> None \/ fifo_contents (ep_queue x) <> [] -> better dels w.
Proof using Henv.
  intros Hi Hx Hmore. pose proof (trade_sender_inv cfg rules inputs Henv dels w e x Hi Hx) as Hlaw.
  destruct (trade_sender_next (length (w_traders w)) x) as [|[[x' sent]|]] eqn:E; [|eapply exchange_better|done].
  { destruct Hlaw as [? ?]. by destruct Hmore. }
  1: by eapply ws_trade_sender. 1: exact Hlaw. 1: exact Hx.
  assert (He : (e < Z.to_nat (exchange_num cfg))%nat).
  { rewrite <- (wi_count _ _ _ _ _ Hi). by eapply lookup_lt_Some. }
  unfold trade_sender_next in E. destruct (ep_sending x) as [[msg idx]|] eqn:Es.
  - apply Ran_inj in E. destruct (Nat.ltb_spec idx (length (w_traders w))) as [Hlt|Hge]; simplify_eq.
    + pose proof (channel_load_change w
        (mkWorld (w_traders w) (<[e := mkExchangeProc (ep_exchange x) (ep_pending x) (ep_queue x) (Some (msg, S idx))]> (w_exchanges w))
           (w_orders w) (chan_put (w_reports w) (idx, e) msg)) idx e 1 0) as Hc.
      cbn [w_traders w_orders w_reports] in Hc. rewrite chan_put_same, length_app in Hc.
      specialize (Hc eq_refl Hlt He ltac:(intros k Hk; split; [done|by apply chan_put_other]) ltac:(simpl; lia)).
      unfold exchange_load. rewrite Es. cbn [ep_pending ep_queue ep_sending]. unfold pending in *. cbn [ep_pending]. lia.
    + unfold exchange_load. rewrite Es. unfold pending. cbn [ep_pending ep_queue ep_sending].
      change (channel_load (mkWorld (w_traders w) _ (w_orders w) (w_reports w))) with (channel_load w). lia.
  - pose proof (BlockQueue.take_law (ep_queue x) (eg_fifo _ _ _ (wi_exchanges _ _ _ _ _ Hi e x Hx))) as Ht.
    destruct (fifo_contents (ep_queue x)) as [|msg l] eqn:Ec; [by rewrite Ht in E|].
    destruct Ht as (q' & Et & _ & Hcont). rewrite Et in E. simplify_eq/=.
    unfold exchange_load. rewrite Es, Ec. unfold pending. cbn [ep_pending ep_queue ep_sending length].
    change (channel_load (mkWorld (w_traders w) _ (w_orders w) (w_reports w))) with (channel_load w). lia.
Qed.

(** A stock has reports to put, and there is room for them. *)
Lemma pending_better dels w e x code :
  inv dels w -> w_exchanges w !! e = Some x -> stock code -> exch_no cfg code = e -> has_room (ep_queue x) ->
  fifo_contents (ep_queue x) = [] -> pending x code <> [] -> better dels w.
Proof using Henv.
  intros Hi Hx Hc He Hroom Hempty Hp. destruct (pending x code) as [|ev rest] eqn:Ep; [done|].
  pose proof (put_event_inv cfg rules inputs Henv dels w e x code ev rest Hi Hx Hc He Ep) as Hput.
  rewrite has_room_empty in Hput by (done || by eapply eg_fifo, wi_exchanges).
  destruct Hput as (q' & Hcont & E & Hi'). cbv zeta in E, Hi'.
  destruct (wi_flow _ _ _ _ _ Hi code Hc) as (win & next & items & Hfl).
  destruct (er_engine _ _ _ (fi_engine _ _ _ _ _ _ _ _ _ Hfl)) as (st & Hst & _).
  rewrite (view_exchange cfg w code _ x) in Hst by (by rewrite He).
  eapply exchange_better; [eapply ws_stock; [exact Hx|by exists st|exact E]|exact Hi'|exact Hx|].
  change (channel_load (mkWorld (w_traders w) _ (w_orders w) (w_reports w))) with (channel_load w).
  unfold exchange_load. cbn [ep_queue ep_sending]. rewrite Hcont, length_app, Hempty. cbn [length].
  pose proof (sum_list_change
    (fun c => (2 * length (w_traders w) + 4) * length (pending (mkExchangeProc (ep_exchange x) (<[code:=rest]> (ep_pending x)) q' (ep_sending x)) c))%nat
    (fun c => (2 * length (w_traders w) + 4) * length (pending x c))%nat codes code codes_nodup ltac:(by apply codes_stock)) as Hs.
  cbv beta in Hs. rewrite pending_insert, decide_True, Ep in Hs by done. cbn [length] in Hs.
  specialize (Hs ltac:(intros j Hj; by rewrite pending_insert, decide_False by done)). lia.
Qed.

(** A trader changes, and the channels of orders. *)
Lemma trader_better dels w t p p' os :
  let w' := mkWorld (<[t := p']> (w_traders w)) (w_exchanges w) os (w_reports w) in
  world_step cfg w w' -> inv dels w' -> w_traders w !! t = Some p ->
  (trader_load p' + channel_load w' < trader_load p + channel_load w)%nat -> better dels w.
Proof using Type.
  intros w' Hs Hi Hp Hlt. eapply better_step; [exact Hs|exact Hi|]. unfold load, w' in *. cbn [w_traders w_exchanges].
  pose proof (sum_list_insert trader_load _ _ _ p' Hp). rewrite length_insert. lia.
Qed.

(** An order sender has something to send. *)
Lemma order_sender_better dels w t p e q :
  inv dels w -> w_traders w !! t = Some p -> tp_queues p !! e = Some q -> fifo_contents q <> [] -> better dels w.
Proof using Henv.
  intros Hi Hp Hq Hne. set (pad := replicate (pod_pad pod_Order) Init.Byte.x00).
  assert (Hpad : length pad = pod_pad pod_Order) by apply length_replicate.
  pose proof (order_sender_inv cfg rules inputs Henv dels w t p e q pad Hi Hp Hq Hpad) as Hlaw.
  destruct (next_order_msg pad q) as [|[[msg q']|]] eqn:E; [done| |done]. destruct Hlaw as [Hlen Hi'].
  eapply trader_better; [by eapply ws_order_sender|exact Hi'|exact Hp|].
  assert (He : (e < Z.to_nat (exchange_num cfg))%nat).
  { rewrite <- (tg_count _ _ _ (wi_traders _ _ _ _ _ Hi t p Hp)). by eapply lookup_lt_Some. }
  pose proof (channel_load_change w
    (mkWorld (<[t:=set_queues p (<[e:=q']> (tp_queues p))]> (w_traders w)) (w_exchanges w) (chan_put (w_orders w) (t, e) msg) (w_reports w))
    t e 1 0) as Hc.
  cbn [w_traders w_orders w_reports] in Hc. rewrite chan_put_same, length_app, length_insert in Hc.
  specialize (Hc eq_refl ltac:(by eapply lookup_lt_Some) He ltac:(intros k Hk; split; [by apply chan_put_other|done]) ltac:(simpl; lia)).
  unfold trader_load. simpl. pose proof (sum_list_insert (fun q => 2 * length (fifo_contents q))%nat _ _ _ q' Hq). simpl in *. lia.
Qed.
(** ** The controllers *)

(** The state after a step of a controller that moves nothing. *)
Definition next_pc p (pc : controller_pc) : Prop :=
  match tp_pc p with
  | Reading s =>
      if s <? stock_num cfg
      then exists k, get_sliding_window_start (tp_info p) (s + 1) = Done k /\ pc = Scanning s (k + sliding_window_size cfg)
      else pc = Reading 0
  | Scanning s _ => pc = Reading (s + 1)
  end.

Definition queues_empty p : Prop :=
  Forall (fun q => fifo_contents q = [] /\ has_room q) (tp_queues p).

Lemma set_trader_better dels w t p p' :
  inv dels w -> w_traders w !! t = Some p -> controller_next cfg p = Ran (Done p') ->
  (trader_load p' < trader_load p)%nat -> better dels w.
Proof using Henv.
  intros Hi Hp E Hlt. pose proof (controller_inv cfg rules inputs Henv dels w t p Hi Hp) as Hlaw. rewrite E in Hlaw.
  eapply trader_better; [by eapply ws_controller|exact Hlaw|exact Hp|]. cbn [w_traders].
  enough (channel_load (mkWorld (<[t:=p']> (w_traders w)) (w_exchanges w) (w_orders w) (w_reports w)) = channel_load w) by lia.
  unfold channel_load, channel_keys. cbn [w_traders w_orders w_reports]. by rewrite length_insert.
Qed.

(** Collecting an order. *)
Lemma scan_load p s i o o' :
  0 <= s < stock_num cfg -> upcoming cfg (tp_ctl p) (s + 1) = o :: upcoming cfg (advanced (tp_ctl p) s i) (s + 1) ->
  (forall code, stock code -> code <> s + 1 ->
     upcoming cfg (advanced (tp_ctl p) s i) code = upcoming cfg (tp_ctl p) code) ->
  (trader_load (mkTraderProc (advanced (tp_ctl p) s i) (tp_pc p) (order_to_send p ++ [o']) (tp_info p) (tp_recv p) (tp_queues p))
     < trader_load p)%nat.
Proof using Type.
  intros Hs Hup Hoth. unfold trader_load. cbn [tp_ctl order_to_send tp_queues]. rewrite length_app. cbn [length].
  assert (Hc : s + 1 ∈ codes) by (apply codes_stock; lia).
  pose proof (sum_list_change (fun code => if decide (stock code) then 4 * length (upcoming cfg (advanced (tp_ctl p) s i) code) else 0)%nat
    (fun code => if decide (stock code) then 4 * length (upcoming cfg (tp_ctl p) code) else 0)%nat codes (s + 1) codes_nodup Hc) as Hsum.
  cbv beta in Hsum. rewrite !decide_True in Hsum by lia. rewrite Hup in Hsum. cbn [length] in Hsum.
  specialize (Hsum ltac:(intros j Hj; case_decide; [by rewrite Hoth|done])).
  rewrite (sum_list_same (fun code => 4 * length (upcoming cfg (tp_ctl p) code))%nat
    (fun code => if decide (stock code) then 4 * length (upcoming cfg (tp_ctl p) code) else 0)%nat codes).
  2:{ intros j Hj. rewrite decide_True; [done|by apply codes_stock]. }
  rewrite (sum_list_same (fun code => 4 * length (upcoming cfg (advanced (tp_ctl p) s i) code))%nat
    (fun code => if decide (stock code) then 4 * length (upcoming cfg (advanced (tp_ctl p) s i) code) else 0)%nat codes).
  2:{ intros j Hj. rewrite decide_True; [done|by apply codes_stock]. }
  lia.
Qed.

Lemma controller_moves dels w t p :
  inv dels w -> w_traders w !! t = Some p -> queues_empty p ->
  better dels w \/ exists pc, controller_next cfg p = Ran (Done (set_pc p pc)) /\ next_pc p pc /\
    (forall s, tp_pc p = Reading s -> stock_num cfg <= s -> order_to_send p = []).
Proof using Henv.
  intros Hi Hp Hq. pose proof (wi_traders _ _ _ _ _ Hi t p Hp) as Hg.
  pose proof (controller_inv cfg rules inputs Henv dels w t p Hi Hp) as Hlaw.
  pose proof (tg_pc _ _ _ Hg) as Hpc. unfold next_pc. destruct (tp_pc p) as [s|s limit] eqn:Epc.
  - destruct (Z.ltb_spec s (stock_num cfg)) as [Hlt|Hge].
    + right. destruct (tg_start _ _ _ Hg (s + 1) ltac:(lia)) as (k & Hk & Hk1).
      pose proof (start_int cfg rules inputs dels w t p (s + 1) k Hi Hp ltac:(lia) Hk).
      pose proof (we_total _ _ Henv (s + 1) ltac:(lia)). pose proof (we_window _ _ Henv).
      exists (Scanning s (k + sliding_window_size cfg)). split; [|split; [by exists k|intros s' [= <-]; lia]].
      unfold controller_next. rewrite Epc, (proj2 (Z.ltb_lt _ _)), Hk, bind_Done by done.
      by rewrite int_add_ok, bind_Done by (unfold INT_MIN, INT_MAX in *; lia).
    + destruct (order_to_send p) as [|o rest] eqn:Eb.
      { right. exists (Reading 0). split; [|by split]. unfold controller_next. by rewrite Epc, (proj2 (Z.ltb_ge _ _)), Eb by done. }
      left. destruct (controller_next cfg p) as [|[p'|]] eqn:E; [|eapply set_trader_better; [done|done|exact E|]|done].
      { destruct Hlaw as (o' & rest' & [= <- <-] & Hfull).
        destruct (tp_queues p !! exch_no cfg (o_stk_code o)) as [q|] eqn:Eq; [|done]. simpl in Hfull.
        destruct (proj1 (Forall_lookup _ _) Hq _ q Eq) as [Hnil Hroom].
        rewrite has_room_empty in Hfull; [done|by apply (tg_queues _ _ _ Hg _ _ Eq)|done|done]. }
      pose proof (tg_batch _ _ _ Hg) as Hb. rewrite Eb in Hb. apply Forall_cons in Hb as [Ho _].
      unfold controller_next in E. rewrite Epc, (proj2 (Z.ltb_ge _ _)), Eb in E by done.
      destruct (put_one_law cfg rules inputs Henv p o Hg Ho) as (q & Eq & Hput).
      destruct (fifo_full q); [by rewrite Hput in E|]. destruct Hput as (q' & Eput & _ & Hcont). rewrite Eput in E.
      simplify_eq/=. unfold trader_load. cbn [tp_ctl order_to_send tp_queues]. rewrite Eb. cbn [length].
      pose proof (sum_list_insert (fun q => 2 * length (fifo_contents q))%nat _ _ _ q' Eq) as Hsum. simpl in Hsum.
      rewrite Hcont, length_app in Hsum. simpl in *. lia.
  - destruct Hpc as [Hs _]. pose proof (scan_law cfg rules p s limit Hg Hs) as Hscan. unfold controller_next in *. rewrite Epc in *.
    assert (Hquit : scan_next cfg p s limit = Done (set_pc p (Reading (s + 1))) -> exists pc,
      Ran (scan_next cfg p s limit) = Ran (Done (set_pc p pc)) /\ pc = Reading (s + 1) /\
      (forall s', Scanning s limit = Reading s' -> stock_num cfg <= s' -> order_to_send p = [])).
    { intros ->. by exists (Reading (s + 1)). }
    destruct (upcoming cfg (tp_ctl p) (s + 1)) as [|o rest] eqn:Hup; [right; auto|].
    destruct Hscan as ([] & o' & _ & Hscan); [|right; auto]. destruct Hscan as (i & E & _ & _ & Hrest & Hoth).
    left. eapply set_trader_better; [done|exact Hp|unfold controller_next; rewrite Epc, E; done|].
    eapply scan_load; [done|by rewrite Hup, Hrest|done].
Qed.

Abbreviation moved w t p pc :=
  (mkWorld (<[t := set_pc p pc]> (w_traders w)) (w_exchanges w) (w_orders w) (w_reports w)).

Lemma load_set_pc w t p pc : w_traders w !! t = Some p -> load (moved w t p pc) = load w.
Proof using Type.
  intros Hp. unfold load. cbn [w_traders w_exchanges].
  pose proof (sum_list_insert trader_load _ _ _ (set_pc p pc) Hp) as Hsum. rewrite length_insert.
  replace (trader_load (set_pc p pc)) with (trader_load p) in Hsum by done.
  enough (channel_load (moved w t p pc) = channel_load w) by lia.
  unfold channel_load, channel_keys. cbn [w_traders w_orders w_reports]. by rewrite length_insert.
Qed.

Lemma moved_lookup w t p pc : w_traders w !! t = Some p -> w_traders (moved w t p pc) !! t = Some (set_pc p pc).
Proof using Type. intros Hp. simpl. apply list_lookup_insert_eq. by eapply lookup_lt_Some. Qed.

(** How many steps the controller is away from reading the start of the stock
    with index [s0]. *)
Definition reading_distance (s0 s : Z) : Z :=
  if s <=? s0 then 2 * (s0 - s) else 2 * Z.max 0 (stock_num cfg - s) + 1 + 2 * s0.
Definition distance (s0 : Z) (pc : controller_pc) : Z :=
  match pc with Reading s => reading_distance s0 s | Scanning s _ => reading_distance s0 (s + 1) + 1 end.

Lemma next_pc_closer s0 p pc :
  0 <= s0 <= stock_num cfg -> trader_good cfg rules p -> next_pc p pc -> tp_pc p <> Reading s0 ->
  0 <= distance s0 pc < distance s0 (tp_pc p).
Proof using Type.
  intros Hs0 Hg Hn Hne. pose proof (tg_pc _ _ _ Hg) as Hpc. unfold next_pc in Hn. unfold distance, reading_distance.
  destruct (tp_pc p) as [s|s limit].
  - assert (s <> s0) by congruence. destruct (Z.ltb_spec s (stock_num cfg)).
    + destruct Hn as (k & _ & ->). destruct (Z.leb_spec (s + 1) s0), (Z.leb_spec s s0); lia.
    + subst pc. destruct (Z.leb_spec 0 s0), (Z.leb_spec s s0); lia.
  - subst pc. destruct (Z.leb_spec (s + 1) s0); lia.
Qed.

(** A controller comes round to the stock with index [s0], unless there was
    something to pass on before. *)
Lemma drive dels w t p s0 :
  inv dels w -> w_traders w !! t = Some p -> queues_empty p -> 0 <= s0 <= stock_num cfg ->
  better dels w \/
  rtc (world_step cfg) w (moved w t p (Reading s0)) /\ inv dels (moved w t p (Reading s0)).
Proof using Henv.
  intros Hi Hp Hq Hs0. remember (Z.to_nat (distance s0 (tp_pc p))) as d eqn:Ed. revert w p Hi Hp Hq Ed.
  induction (lt_wf d) as [d _ IH]. intros w p Hi Hp Hq Ed.
  destruct (decide (tp_pc p = Reading s0)) as [Epc|Hne].
  { right. enough (moved w t p (Reading s0) = w) as -> by done.
    destruct w as [ts es os rs]. simpl in *. f_equal. apply list_insert_id. rewrite Hp. f_equal.
    destruct p. simpl in *. by subst. }
  destruct (controller_moves dels w t p Hi Hp Hq) as [?|(pc & E & Hn & _)]; [by left|].
  pose proof (controller_inv cfg rules inputs Henv dels w t p Hi Hp) as Hi1. rewrite E in Hi1.
  set (w1 := mkWorld _ _ _ _) in Hi1.
  assert (Hs : world_step cfg w w1) by by eapply ws_controller.
  assert (Hp1 : w_traders w1 !! t = Some (set_pc p pc)).
  { by apply moved_lookup. }
  pose proof (next_pc_closer s0 p pc Hs0 (wi_traders _ _ _ _ _ Hi t p Hp) Hn Hne) as Hd.
  destruct (IH (Z.to_nat (distance s0 pc)) ltac:(lia) w1 (set_pc p pc) Hi1 Hp1 Hq eq_refl) as [Hb|[Hr Hi2]].
  - left. eapply better_run; [by apply rtc_once|exact Hb|]. unfold w1; by rewrite load_set_pc.
  - right. unfold w1 in *. cbn [w_traders w_exchanges w_orders w_reports] in *. rewrite list_insert_insert_eq in Hr, Hi2.
    split; [by eapply rtc_l|exact Hi2].
Qed.

(** Collected orders go into the queues. *)
Lemma batch_better dels w t p :
  inv dels w -> w_traders w !! t = Some p -> queues_empty p -> order_to_send p <> [] -> better dels w.
Proof using Henv.
  intros Hi Hp Hq Hb. pose proof (proj1 (we_stocks _ _ Henv)).
  destruct (drive dels w t p (stock_num cfg) Hi Hp Hq) as [?|[Hr Hi1]]; [lia|done|].
  eapply better_run; [exact Hr| |by rewrite load_set_pc].
  destruct (controller_moves dels _ t (set_pc p (Reading (stock_num cfg))) Hi1 (moved_lookup w t p _ Hp) Hq)
    as [?|(pc & _ & _ & Hnil)]; [done|].
  by destruct Hb; apply (Hnil (stock_num cfg)).
Qed.

(** Nothing is on its way. *)
Record quiet w : Prop := {
  qu_channels t e : (t < length (w_traders w))%nat -> (e < Z.to_nat (exchange_num cfg))%nat ->
    chan (w_orders w) (t, e) = [] /\ chan (w_reports w) (t, e) = [];
  qu_senders e x : w_exchanges w !! e = Some x -> ep_sending x = None /\ fifo_contents (ep_queue x) = [];
  qu_pending code x : stock code -> w_exchanges w !! exch_no cfg code = Some x -> pending x code = [];
  qu_traders t p : w_traders w !! t = Some p -> queues_empty p /\ order_to_send p = [];
}.

Lemma quiet_or_better dels w : inv dels w -> world_roomy w -> better dels w \/ quiet w.
Proof using Henv.
  intros Hi Hroom.
  destruct (decide (Forall (fun k => length (chan (w_reports w) k) = 0%nat /\ length (chan (w_orders w) k) = 0%nat) (channel_keys w)))
    as [Hch|Hch].
  2:{ apply not_Forall_Exists in Hch; [|apply _]. apply Exists_exists in Hch as ([t e] & [Ht He]%channel_keys_elem & Hk).
    unfold compose in Hk. left. destruct (chan (w_reports w) (t, e)) eqn:Er; [|apply (report_better dels w t e); [done|done|exact He|by rewrite Er]].
    destruct (chan (w_orders w) (t, e)) eqn:Eo; [by destruct Hk|]. apply (order_better dels w t e); [done|done|by rewrite Eo]. }
  destruct (decide (Forall (fun x => ep_sending x = None /\ length (fifo_contents (ep_queue x)) = 0%nat) (w_exchanges w)))
    as [Hse|Hse].
  2:{ apply not_Forall_Exists in Hse; [|apply _]. apply Exists_exists in Hse as (x & [e Hx]%list_elem_of_lookup & Hk).
    unfold compose in Hk. left. eapply trade_sender_better; [done|exact Hx|].
    destruct (ep_sending x); [by left|]. right. intros E. rewrite E in Hk. by destruct Hk. }
  rewrite Forall_lookup in Hse.
  assert (Hsend : forall e x, w_exchanges w !! e = Some x -> ep_sending x = None /\ fifo_contents (ep_queue x) = []).
  { intros e x Hx. destruct (Hse e x Hx) as [? ?%nil_length_inv]. done. }
  destruct (decide (Forall (fun code => length (from_option (fun x => pending x code) [] (w_exchanges w !! exch_no cfg code)) = 0%nat) codes))
    as [Hpe|Hpe].
  2:{ apply not_Forall_Exists in Hpe; [|apply _]. apply Exists_exists in Hpe as (code & Hc%codes_stock & Hk).
    unfold compose in Hk. left. destruct (w_exchanges w !! exch_no cfg code) as [x|] eqn:Hx; [|done]. simpl in Hk.
    destruct (Hsend _ x Hx) as [_ Hnil].
    eapply pending_better; [done|exact Hx|done|done|by eapply wr_reports|done|]. intros E. by rewrite E in Hk. }
  destruct (decide (Forall (fun p => Forall (fun q => length (fifo_contents q) = 0%nat) (tp_queues p)) (w_traders w)))
    as [Hqu|Hqu].
  2:{ apply not_Forall_Exists in Hqu; [|apply _]. apply Exists_exists in Hqu as (p & [t Hp]%list_elem_of_lookup & Hk).
    unfold compose in Hk. apply not_Forall_Exists in Hk; [|apply _]. apply Exists_exists in Hk as (q & [e Hq]%list_elem_of_lookup & Hk).
    unfold compose in Hk. left. eapply order_sender_better; [done|exact Hp|exact Hq|]. intros E. by rewrite E in Hk. }
  assert (Hempty : forall t p, w_traders w !! t = Some p -> queues_empty p).
  { intros t p Hp. apply Forall_lookup. intros e q Hq. split; [|by eapply wr_orders].
    apply nil_length_inv. exact (proj1 (Forall_lookup _ _) (proj1 (Forall_lookup _ _) Hqu t p Hp) e q Hq). }
  destruct (decide (Forall (fun p => length (order_to_send p) = 0%nat) (w_traders w))) as [Hba|Hba].
  2:{ apply not_Forall_Exists in Hba; [|apply _]. apply Exists_exists in Hba as (p & [t Hp]%list_elem_of_lookup & Hk).
    unfold compose in Hk. left. eapply batch_better; [done|exact Hp|by eapply Hempty|]. intros E. by rewrite E in Hk. }
  right. split.
  - intros t e Ht He. destruct (proj1 (Forall_forall _ _) Hch (t, e)) as [?%nil_length_inv ?%nil_length_inv]; [|done].
    by apply channel_keys_elem.
  - done.
  - intros code x Hc Hx. apply codes_stock in Hc. pose proof (proj1 (Forall_forall _ _) Hpe code Hc) as Hk. cbv beta in Hk.
    rewrite Hx in Hk. by apply nil_length_inv.
  - intros t p Hp. split; [by eapply Hempty|]. apply nil_length_inv. by apply (proj1 (Forall_lookup _ _) Hba t p Hp).
Qed.

Lemma quiet_view w code t p :
  quiet w -> stock code -> w_traders w !! t = Some p -> reports cfg w code t = [] /\ out (view_trader cfg w code t p) = [].
Proof using Henv.
  intros Hq Hc Hp. pose proof (lookup_lt_Some _ _ _ Hp) as Ht.
  destruct (qu_channels _ Hq t (exch_no cfg code) Ht (exch_no_lt cfg inputs Henv code)) as [Ho Hr].
  destruct (qu_traders _ Hq t p Hp) as [Hqs Hb]. split.
  - unfold reports. destruct (w_exchanges w !! exch_no cfg code) as [x|] eqn:Hx; [|done]. simpl.
    destruct (qu_senders _ Hq _ x Hx) as [Hs Hc']. unfold reports_to. by rewrite Hr, Hs, Hc', (qu_pending _ Hq code x Hc Hx).
  - simpl. unfold on_way, queued. rewrite Ho, Hb. destruct (tp_queues p !! exch_no cfg code) as [q|] eqn:Eq; [|done].
    destruct (proj1 (Forall_lookup _ _) Hqs _ q Eq) as [E _]. simpl. by rewrite E.
Qed.
(** A round of a stock that has its next order. *)
Lemma round_better dels w code win next items :
  inv dels w -> quiet w -> stock code ->
  flow_inv cfg code (obeys rules dels code) (Z.of_nat (length (inputs code))) (inputs code) (view cfg w code (dels code)) win next items ->
  next < Z.of_nat (length (inputs code)) -> is_Some (items !! next) -> better dels w.
Proof using Henv.
  intros Hi Hq Hc Hfl Hlt Hitem.
  destruct (flow_delivered cfg code _ _ _ _ win next items Hfl) as (_ & _ & Hlen & _). cbn [delivered view] in Hlen.
  destruct (lookup_lt_is_Some_2 (w_exchanges w) (exch_no cfg code)) as [x Hx].
  { rewrite (wi_count _ _ _ _ _ Hi). by apply (exch_no_lt cfg inputs Henv). }
  destruct (stock_round_inv cfg rules inputs Henv dels w _ x code win next items Hi Hx Hc eq_refl (qu_pending _ Hq code x Hc Hx) Hfl)
    as (dels' & x' & E & Hm & Hne & Hi').
  destruct (er_engine _ _ _ (fi_engine _ _ _ _ _ _ _ _ _ Hfl)) as (st & Hst & _).
  rewrite (view_exchange cfg w code _ x Hx) in Hst.
  eexists _, dels'. split; [apply rtc_once; eapply ws_stock; [exact Hx|by exists st|exact E]|]. split_and!; [done|exact Hi'|]. left.
  inversion Hm as [Ed|? d1 ? Hs Hm1]; [subst; by destruct (Hne Hitem)|]. subst.
  apply step_undelivered in Hs. apply run_undelivered in Hm1. lia.
Qed.

(** When all reports have arrived the controllers decide by the trades of the
    engines. *)
Lemma quiet_check dels w code t p h rest limit :
  inv dels w -> quiet w -> stock code -> w_traders w !! t = Some p ->
  upcoming cfg (tp_ctl p) code = h :: rest -> o_order_id h < limit ->
  check_order (tp_ctl p) (tp_info p) h limit (code - 1) =
    Done (match decide_order (rules code (o_order_id h)) (trades_from dels) h with
          | Some o => (true, o)
          | None => (false, h)
          end).
Proof using Henv.
  intros Hi Hq Hc Hp Hup Hlim. pose proof (wi_traders _ _ _ _ _ Hi t p Hp) as Hg.
  destruct (wi_trades _ _ _ _ _ Hi t p Hp) as (got & _ & Hh & Ht). destruct (tg_env _ _ _ Hg code Hc) as (hk & lo & hi & Hce).
  rewrite <- (upcoming_rule cfg rules p code h rest Hg Hc Hup).
  eapply (check_rule (stock_num cfg) got); [exact Hh| | |exact Hce|done].
  - intros c Hs. rewrite <- Ht by done. destruct (quiet_view w c t p Hq Hs Hp) as [-> _]. apply app_nil_r.
  - intros c Hs. by apply (flow_volumes cfg rules inputs Henv dels w).
Qed.

(** A trader whose window covers its next order of the stock, when that is
    decided. *)
Lemma send_better dels w code t p h rest k o2 :
  inv dels w -> quiet w -> stock code -> w_traders w !! t = Some p ->
  upcoming cfg (tp_ctl p) code = h :: rest -> get_sliding_window_start (tp_info p) code = Done k ->
  o_order_id h < k + sliding_window_size cfg ->
  decide_order (rules code (o_order_id h)) (trades_from dels) h = Some o2 -> better dels w.
Proof using Henv.
  intros Hi Hq Hc Hp Hup Hk Hlim Hdec.
  pose proof (quiet_check dels w code t p h rest _ Hi Hq Hc Hp Hup Hlim) as Hcheck2. rewrite Hdec in Hcheck2.
  destruct (qu_traders _ Hq t p Hp) as [Hqs _].
  destruct (drive dels w t p (code - 1) Hi Hp Hqs) as [?|[Hr Hi1]]; [lia|done|].
  eapply better_run; [exact Hr| |by rewrite load_set_pc].
  set (p1 := set_pc p (Reading (code - 1))) in *. set (w1 := moved w t p (Reading (code - 1))) in *.
  assert (Hp1 : w_traders w1 !! t = Some p1) by by apply moved_lookup.
  destruct (controller_moves dels w1 t p1 Hi1 Hp1 Hqs) as [?|(pc & E & Hn & _)]; [done|].
  unfold next_pc, p1 in Hn. cbn [tp_pc set_pc tp_info] in Hn. rewrite (proj2 (Z.ltb_lt _ _)) in Hn by lia.
  rewrite (Z.sub_add 1 code) in Hn. destruct Hn as (k' & Hk' & ->). rewrite Hk in Hk'. injection Hk' as <-.
  pose proof (controller_inv cfg rules inputs Henv dels w1 t p1 Hi1 Hp1) as Hi2. rewrite E in Hi2.
  eapply better_run; [apply rtc_once; eapply ws_controller; [exact Hp1|exact E]| |by rewrite load_set_pc].
  set (w2 := moved w1 t p1 _) in *. set (p2 := set_pc p1 _) in *.
  assert (Hp2 : w_traders w2 !! t = Some p2) by by apply moved_lookup.
  assert (Hs : 0 <= code - 1 < stock_num cfg) by lia.
  pose proof (scan_law cfg rules p2 (code - 1) (k + sliding_window_size cfg) (wi_traders _ _ _ _ _ Hi2 t p2 Hp2) Hs) as Hscan.
  rewrite (Z.sub_add 1 code) in Hscan. change (upcoming cfg (tp_ctl p2) code) with (upcoming cfg (tp_ctl p) code) in Hscan.
  rewrite Hup in Hscan. destruct Hscan as (ok & o' & Hcheck & Hscan).
  change (tp_ctl p2) with (tp_ctl p) in *. change (tp_info p2) with (tp_info p) in *. rewrite Hcheck2 in Hcheck. injection Hcheck as <- <-.
  destruct Hscan as (i & Escan & _ & _ & Hrest & Hoth).
  eapply set_trader_better; [exact Hi2|exact Hp2|unfold controller_next; simpl; rewrite Escan; reflexivity|].
  apply (scan_load p2 (code - 1) i h o2 Hs); rewrite ?(Z.sub_add 1 code).
  - change (tp_ctl p2) with (tp_ctl p). by rewrite Hup, Hrest.
  - exact Hoth.
Qed.

(** A stock whose next order is decided. *)
Lemma stock_better dels w code o :
  inv dels w -> quiet w -> stock code -> next_order rules inputs dels code = Some o -> better dels w.
Proof using Henv.
  intros Hi Hq Hc (o0 & Ho0 & Hdec)%bind_Some. destruct (wi_flow _ _ _ _ _ Hi code Hc) as (win & next & items & Hfl).
  destruct (flow_delivered cfg code _ _ _ _ win next items Hfl) as (_ & _ & Hlen & Hb). cbn [delivered view] in Hlen.
  assert (Hlt : next < Z.of_nat (length (inputs code))) by (apply lookup_lt_Some in Ho0; lia).
  destruct (next_action cfg code _ _ win next items (fi_protocol _ _ _ _ _ _ _ _ _ Hfl) Hlt)
    as [Hitem|(t & x & Hx & Hact)]; [by eapply round_better|].
  pose proof (proj1 (Forall_lookup _ _) (fi_todo _ _ _ _ _ _ _ _ _ Hfl) t x Hx) as Hin.
  rewrite view_lookup in Hx. apply fmap_Some in Hx as (p & Hp & ->).
  destruct (quiet_view w code t p Hq Hc Hp) as [Hrep Hout].
  destruct Hact as [?|[Hack|(Hk & h & rest & Htodo & Hh)]]; [done|by cbn [ackq view_trader] in Hack; rewrite Hrep in Hack|].
  assert (h = o0) as ->.
  { assert (Hh' : h ∈ inputs code) by (apply Hin; rewrite Htodo; left). apply list_elem_of_lookup in Hh' as [i Hi'].
    pose proof (we_ids _ _ Henv code Hc i h Hi'). replace i with (length (dels code)) in Hi' by lia. congruence. }
  eapply send_better; [done|done|done|exact Hp|exact Htodo|exact Hk| |exact Hdec].
  pose proof (we_window _ _ Henv). lia.
Qed.

Lemma run_to_quiet dels w :
  inv dels w -> world_roomy w ->
  exists w' dels', rtc (world_step cfg) w w' /\ rtc moves dels dels' /\ inv dels' w' /\ quiet w' /\
    stuck (stock_num cfg) rules inputs dels'.
Proof using Henv.
  remember (remaining dels) as a eqn:Ea. remember (load w) as b eqn:Eb. revert b dels w Ea Eb.
  induction (lt_wf a) as [a _ IHa]. intros b. induction (lt_wf b) as [b _ IHb].
  intros dels w Ea Eb Hi Hroom.
  assert (Hgo : better dels w -> exists w' dels', rtc (world_step cfg) w w' /\ rtc moves dels dels' /\ inv dels' w' /\ quiet w' /\
    stuck (stock_num cfg) rules inputs dels').
  { intros (w1 & d1 & Hr & Hm & Hi1 & Hd). pose proof (run_roomy w w1 Hr Hroom) as Hroom1.
    enough (exists w' dels', rtc (world_step cfg) w1 w' /\ rtc moves d1 dels' /\ inv dels' w' /\ quiet w' /\
      stuck (stock_num cfg) rules inputs dels') as (w' & d' & Hr' & Hm' & ?).
    { exists w', d'. split; [by etransitivity|]. split; [by etransitivity|done]. }
    destruct Hd as [Hd|[-> Hd]].
    - by eapply (IHa (remaining d1)); [lia|reflexivity|reflexivity|..].
    - by eapply (IHb (load w1)); [lia|done|reflexivity|..]. }
  destruct (quiet_or_better dels w Hi Hroom) as [?|Hq]; [by apply Hgo|].
  destruct (decide (Forall (fun code => next_order rules inputs dels code = None) codes)) as [Hall|Hnot].
  - exists w, dels. split_and!; try done. intros code Hc. apply codes_stock in Hc.
    exact (proj1 (Forall_forall _ _) Hall code Hc).
  - apply not_Forall_Exists in Hnot; [|intros code; apply _]. apply Exists_exists in Hnot as (code & Hc%codes_stock & Hne).
    unfold compose in Hne. destruct (next_order rules inputs dels code) as [o|] eqn:En; [|done]. apply Hgo. by eapply stock_better.
Qed.
End live.

(** The whole program gets done.  If the queues have room for at least one
    element, then every run, whatever the threads did, can be continued to a
    state in which the engine of every stock has got the final orders of the
    stock, those to which the rules of hooks and prices lead, and for every
    trader and every stock the file the trader leaves reads back as exactly the
    trades that the specification of the engine makes of them. *)
Theorem world_completes `{HeapLib} `{FileIO} {Qo Qm : Type} {Fo : Fifo Qo Order} {Fm : Fifo Qm bytes}
    {Ro : RoomyFifo Qo Order} {Rm : RoomyFifo Qm bytes}
    (cfg : Config) (inputs : Z -> list Order) (w0 w : world Qo Qm) :
  world_env cfg inputs -> world_init cfg inputs w0 -> world_roomy w0 -> rtc (world_step cfg) w0 w ->
  exists w', rtc (world_step cfg) w w' /\
    forall code, 1 <= code <= stock_num cfg ->
      stock_done cfg inputs w' code (final_orders cfg inputs w0 code) /\
      forall t p, w_traders w' !! t = Some p -> exists r', flush (tp_recv p) = Done r' /\
        trader_file r' code = Some (final_trades cfg inputs w0 code).
Proof.
  intros Henv Hi Hroom Hrun. set (rules := rules_of cfg w0).
  destruct (run_inv cfg rules inputs Henv _ w0 w (world_start_inv cfg inputs Henv w0 Hi) Hrun) as (dels & Hm & Hinv).
  destruct (run_to_quiet cfg rules inputs Henv dels w Hinv (run_roomy cfg w0 w Hrun Hroom)) as (w' & d' & Hr & Hm' & Hinv' & Hq & Hstuck).
  destruct (settled_end (stock_num cfg) rules inputs) as (_ & _ & Hend).
  destruct (Hend d') as [_ Hfin]; [by etransitivity|]. specialize (Hfin Hstuck).
  assert (Hinv2 : world_inv cfg rules inputs (final_orders cfg inputs w0) w').
  { eapply world_inv_ext; [exact Hinv'|]. intros code. by rewrite Hfin. }
  exists w'. split; [done|]. intros code Hc. split; [by eapply inv_done|]. intros t p Hp.
  destruct (quiet_view cfg inputs Henv w' code t p Hq Hc Hp) as [Hrep _].
  destruct (inv_file cfg inputs Henv rules _ w' code t p Hinv2 Hc Hp) as (r' & got & Hfl & Hfile & Ht).
  rewrite Hrep, app_nil_r in Ht. subst got. by exists r'.
Qed.

Lemma demo_world_roomy : world_roomy demo_world.
Proof.
  split.
  - by intros [|[|t]] p [|[|e]] q [= <-] [= <-].
  - by intros [|[|e]] x [= <-].
Qed.

Lemma world_completes_witness :
  exists w', rtc (world_step (H0 := demo_io) demo_wcfg) demo_world1 w' /\
    forall t p, w_traders w' !! t = Some p ->
      exists r', flush (H := demo_io) (tp_recv p) = Done r' /\
        trader_file r' 1 = Some (final_trades demo_wcfg demo_winputs demo_world 1).
Proof.
  destruct (world_completes (H0 := demo_io) demo_wcfg demo_winputs demo_world demo_world1)
    as (w' & Hr & Hall);
    [exact demo_world_env|exact demo_world_init|exact demo_world_roomy|exact demo_world_run|].
  exists w'. split; [exact Hr|].
  destruct (Hall 1) as [_ Hfiles]; [vm_compute; split; congruence|]. exact Hfiles.
Defined.
