(* ===== verification/Processes.v ===== *)
(** * Processes, one operation of a thread at a time

    [World] lets a thread do in one step what takes several operations on
    shared objects: an order sender takes an order and sends it, a receiver
    receives a message and handles it, the thread of a stock empties its
    window.  Here each of these is a step of its own, and the consoles take
    part:

    - an order sender takes an order from its queue, then sends the message
      under its [send_lock];
    - a receiver receives a message under its [recv_lock], then handles it;
    - the thread of a stock polls its window again and again
      ([Exchange::comsumeOrder]), while the order receiver may fill it;
    - a console runs [stops], [stopr] and [restart] ([src/trader.cpp],
      [src/exchange.cpp]), one lock after the other; it spins on a lock that
      is taken, whoever holds it.

    The locks of the senders and receivers are spin locks.  A thread that sends
    or receives holds its lock within one step; only the console keeps one. *)

From stdpp Require Import gmap relations.
From S2P Require Import Prelude Double Bytes Config Types StdHeap DeclBook StockExchange.
From S2P Require Import BlockQueue SlidingWindow Messages Exchange Trader TradeReceiver StockFlow World.
#[local] Open Scope Z_scope.

(** ** The consoles *)

(** What a console does to the locks of its process. *)
Inductive lock_op := LockSender (i : nat) | LockReceiver | UnlockSender (i : nat) | UnlockReceiver.

(** The commands that concern them. *)
Inductive pause_cmd := Stops | Stopr | Restart.

(** [TraderController::stop_sender], [stop_receiver] and [restart], for [n]
    order senders. *)
Definition trader_ops (n : nat) (cmd : pause_cmd) : list lock_op :=
  match cmd with
  | Stops => map LockSender (seq 0 n)
  | Stopr => [LockReceiver]
  | Restart => map UnlockSender (seq 0 n) ++ [UnlockReceiver]
  end.

(** [stop_network_sender], [stop_network_receiver] and [restart_network] of the
    exchange, which has one sender. *)
Definition exchange_ops (cmd : pause_cmd) : list lock_op :=
  match cmd with
  | Stops => [LockSender 0]
  | Stopr => [LockReceiver]
  | Restart => [UnlockReceiver; UnlockSender 0]
  end.

(** A console with the rest of its command, and the locks it can take. *)
Record console := mkConsole {
  console_todo : list lock_op;
  sender_locks : list bool;
  receiver_lock : bool;
}.

Definition sender_locked (c : console) (i : nat) : bool := default false (sender_locks c !! i).

(** One step of a console: the next command [cmd], or the next lock. *)
Definition console_next (ops : pause_cmd -> list lock_op) (cmd : pause_cmd) (c : console) : attempt console :=
  match console_todo c with
  | [] => Ran (Done (mkConsole (ops cmd) (sender_locks c) (receiver_lock c)))
  | LockSender i :: rest =>
      wait_until (negb (sender_locked c i)) (Done (mkConsole rest (<[i := true]> (sender_locks c)) (receiver_lock c)))
  | LockReceiver :: rest =>
      wait_until (negb (receiver_lock c)) (Done (mkConsole rest (sender_locks c) true))
  | UnlockSender i :: rest => Ran (Done (mkConsole rest (<[i := false]> (sender_locks c)) (receiver_lock c)))
  | UnlockReceiver :: rest => Ran (Done (mkConsole rest (sender_locks c) false))
  end.

(** ** What threads have in their hands *)

(** In a trader: the message of every order sender that has built one and not
    sent it, and the message, with its exchange, that the trade receiver has
    received and not handled. *)
Record trader_threads := mkTraderThreads {
  unsent : gmap nat bytes;
  received : option (nat * bytes);
  trader_console : console;
}.

(** In an exchange: for every stock whose thread is inside [comsumeOrder] the
    orders it has taken, and the message, with its trader, that the order
    receiver has received and not handled. *)
Record exchange_threads := mkExchangeThreads {
  taking : gmap Z (list Order);
  arrived : option (nat * bytes);
  exchange_console : console;
}.

Record processes (Qo Qm : Type) := mkProcesses {
  pr_world : world Qo Qm;
  pr_traders : list trader_threads;
  pr_exchanges : list exchange_threads;
}.
Arguments mkProcesses {Qo Qm}.
Arguments pr_world {Qo Qm} p.
Arguments pr_traders {Qo Qm} p.
Arguments pr_exchanges {Qo Qm} p.

Definition set_unsent (y : trader_threads) (e : nat) (held : option bytes) : trader_threads :=
  mkTraderThreads (partial_alter (fun _ => held) e (unsent y)) (received y) (trader_console y).
Definition set_received (y : trader_threads) (m : option (nat * bytes)) : trader_threads :=
  mkTraderThreads (unsent y) m (trader_console y).
Definition set_trader_console (y : trader_threads) (c : console) : trader_threads :=
  mkTraderThreads (unsent y) (received y) c.
Definition set_taking (z : exchange_threads) (code : Z) (tk : option (list Order)) : exchange_threads :=
  mkExchangeThreads (partial_alter (fun _ => tk) code (taking z)) (arrived z) (exchange_console z).
Definition set_arrived (z : exchange_threads) (m : option (nat * bytes)) : exchange_threads :=
  mkExchangeThreads (taking z) m (exchange_console z).
Definition set_exchange_console (z : exchange_threads) (c : console) : exchange_threads :=
  mkExchangeThreads (taking z) (arrived z) c.

(** The orders the thread of a stock has taken. *)
Definition taken (z : exchange_threads) (code : Z) : list Order := default [] (taking z !! code).

Section steps.
Context `{HeapLib} `{FileIO} {Qo Qm : Type} `{Fifo Qo Order} `{Fifo Qm bytes} (cfg : Config).

(** An order sender with the message [held]: build the next one, or send it.
    The last result is the message sent. *)
Definition order_sender_next (pad : bytes) (held : option bytes) (locked : bool) (q : Qo)
    : attempt (option bytes * Qo * option bytes) :=
  match held with
  | None => attempt_map (fun '(msg, q) => (Some msg, q, None)) (next_order_msg pad q)
  | Some msg => wait_until (negb locked) (Done (None, q, Some msg))
  end.

(** The thread of the stock [code] with the orders [tk] taken: put what is
    pending; else poll once, and when nothing comes acknowledge the last order
    and match all. *)
Definition stock_thread_next (code : Z) (tk : option (list Order)) (x : exchange_proc Qm)
    : attempt (option (list Order) * exchange_proc Qm) :=
  match pending x code with
  | ev :: rest =>
      attempt_map (fun q => (tk, mkExchangeProc (ep_exchange x) (<[code := rest]> (ep_pending x)) q (ep_sending x)))
        (put_event (ep_queue x) ev)
  | [] =>
      let orders := default [] tk in
      Ran ('(res, w) ← poll (default (mkSlidingWindow [] [] 0 0) (order_buffer (ep_exchange x) !! code));
           let e := set_order_buffer (ep_exchange x) (<[code := w]> (order_buffer (ep_exchange x))) in
           match res with
           | Some order => Done (Some (orders ++ [order]), mkExchangeProc e (ep_pending x) (ep_queue x) (ep_sending x))
           | None =>
               let ack := option_map (fun order => mkOrderAck code (o_order_id order)) (last orders) in
               match stock_exchange e !! code with
               | None => Fault NullDeref
               | Some st =>
                   st' ← receive_all st orders;
                   Done (None, mkExchangeProc (set_stock_exchange e (<[code := st']> (stock_exchange e)))
                                 (<[code := round_events ack st st']> (ep_pending x)) (ep_queue x) (ep_sending x))
               end
           end)
  end.

(** The trade sender: it sends under its [send_lock]. *)
Definition paused_sender_next (n : nat) (locked : bool) (x : exchange_proc Qm)
    : attempt (exchange_proc Qm * option (nat * bytes)) :=
  match ep_sending x with
  | Some (_, idx) => if (idx <? n)%nat && locked then Blocked else trade_sender_next n x
  | None => trade_sender_next n x
  end.

(** One step of one thread. *)
Inductive process_step : processes Qo Qm -> processes Qo Qm -> Prop :=
  | ps_controller w ys zs t p p' :
      w_traders w !! t = Some p -> controller_next cfg p = Ran (Done p') ->
      process_step (mkProcesses w ys zs)
        (mkProcesses (mkWorld (<[t := p']> (w_traders w)) (w_exchanges w) (w_orders w) (w_reports w)) ys zs)
  | ps_order_sender w ys zs t p y e q pad held q' sent :
      w_traders w !! t = Some p -> ys !! t = Some y -> tp_queues p !! e = Some q -> length pad = pod_pad pod_Order ->
      order_sender_next pad (unsent y !! e) (sender_locked (trader_console y) e) q = Ran (Done (held, q', sent)) ->
      process_step (mkProcesses w ys zs)
        (mkProcesses (mkWorld (<[t := set_queues p (<[e := q']> (tp_queues p))]> (w_traders w)) (w_exchanges w)
                        (match sent with Some msg => chan_put (w_orders w) (t, e) msg | None => w_orders w end)
                        (w_reports w))
           (<[t := set_unsent y e held]> ys) zs)
  | ps_trade_arrives w ys zs t y e msg rest :
      ys !! t = Some y -> received y = None -> receiver_lock (trader_console y) = false ->
      chan (w_reports w) (t, e) = msg :: rest ->
      process_step (mkProcesses w ys zs)
        (mkProcesses (mkWorld (w_traders w) (w_exchanges w) (w_orders w) (<[(t, e) := rest]> (w_reports w)))
           (<[t := set_received y (Some (e, msg))]> ys) zs)
  | ps_trade_handled w ys zs t p y e msg r s :
      w_traders w !! t = Some p -> ys !! t = Some y -> received y = Some (e, msg) ->
      handle_msg (tp_recv p) (tp_info p) msg = Done (r, s) ->
      process_step (mkProcesses w ys zs)
        (mkProcesses (mkWorld (<[t := mkTraderProc (tp_ctl p) (tp_pc p) (order_to_send p) s r (tp_queues p)]> (w_traders w))
                        (w_exchanges w) (w_orders w) (w_reports w))
           (<[t := set_received y None]> ys) zs)
  | ps_order_arrives w ys zs t e z msg rest :
      zs !! e = Some z -> arrived z = None -> receiver_lock (exchange_console z) = false ->
      chan (w_orders w) (t, e) = msg :: rest ->
      process_step (mkProcesses w ys zs)
        (mkProcesses (mkWorld (w_traders w) (w_exchanges w) (<[(t, e) := rest]> (w_orders w)) (w_reports w))
           ys (<[e := set_arrived z (Some (t, msg))]> zs))
  | ps_order_handled w ys zs t e x z msg ex' :
      w_exchanges w !! e = Some x -> zs !! e = Some z -> arrived z = Some (t, msg) ->
      handle_order_msg cfg (ep_exchange x) msg = Done ex' ->
      process_step (mkProcesses w ys zs)
        (mkProcesses (mkWorld (w_traders w)
                        (<[e := mkExchangeProc ex' (ep_pending x) (ep_queue x) (ep_sending x)]> (w_exchanges w))
                        (w_orders w) (w_reports w))
           ys (<[e := set_arrived z None]> zs))
  | ps_stock w ys zs e x z code tk x' :
      w_exchanges w !! e = Some x -> zs !! e = Some z -> is_Some (stock_exchange (ep_exchange x) !! code) ->
      stock_thread_next code (taking z !! code) x = Ran (Done (tk, x')) ->
      process_step (mkProcesses w ys zs)
        (mkProcesses (mkWorld (w_traders w) (<[e := x']> (w_exchanges w)) (w_orders w) (w_reports w))
           ys (<[e := set_taking z code tk]> zs))
  | ps_trade_sender w ys zs e x z x' sent :
      w_exchanges w !! e = Some x -> zs !! e = Some z ->
      paused_sender_next (length (w_traders w)) (sender_locked (exchange_console z) 0) x = Ran (Done (x', sent)) ->
      process_step (mkProcesses w ys zs)
        (mkProcesses (mkWorld (w_traders w) (<[e := x']> (w_exchanges w)) (w_orders w)
                        (match sent with Some (t, msg) => chan_put (w_reports w) (t, e) msg | None => w_reports w end))
           ys zs)
  | ps_trader_console w ys zs t y cmd c :
      ys !! t = Some y ->
      console_next (trader_ops (length (sender_locks (trader_console y)))) cmd (trader_console y) = Ran (Done c) ->
      process_step (mkProcesses w ys zs) (mkProcesses w (<[t := set_trader_console y c]> ys) zs)
  | ps_exchange_console w ys zs e z cmd c :
      zs !! e = Some z -> console_next exchange_ops cmd (exchange_console z) = Ran (Done c) ->
      process_step (mkProcesses w ys zs) (mkProcesses w ys (<[e := set_exchange_console z c]> zs)).

(** The next step of no thread is a fault. *)
Record processes_run (f : processes Qo Qm) : Prop := {
  pr_run_controller t p : w_traders (pr_world f) !! t = Some p -> no_fault (controller_next cfg p);
  pr_run_order_sender t p y e q pad : w_traders (pr_world f) !! t = Some p -> pr_traders f !! t = Some y ->
    tp_queues p !! e = Some q -> length pad = pod_pad pod_Order ->
    no_fault (order_sender_next pad (unsent y !! e) (sender_locked (trader_console y) e) q);
  pr_run_trade_handled t p y e msg : w_traders (pr_world f) !! t = Some p -> pr_traders f !! t = Some y ->
    received y = Some (e, msg) -> is_done (handle_msg (tp_recv p) (tp_info p) msg) = true;
  pr_run_order_handled t e x z msg : w_exchanges (pr_world f) !! e = Some x -> pr_exchanges f !! e = Some z ->
    arrived z = Some (t, msg) -> is_done (handle_order_msg cfg (ep_exchange x) msg) = true;
  pr_run_stock e x z code : w_exchanges (pr_world f) !! e = Some x -> pr_exchanges f !! e = Some z ->
    is_Some (stock_exchange (ep_exchange x) !! code) -> no_fault (stock_thread_next code (taking z !! code) x);
  pr_run_trade_sender e x z : w_exchanges (pr_world f) !! e = Some x -> pr_exchanges f !! e = Some z ->
    no_fault (paused_sender_next (length (w_traders (pr_world f))) (sender_locked (exchange_console z) 0) x);
  pr_run_trader_console t y cmd : pr_traders f !! t = Some y ->
    no_fault (console_next (trader_ops (length (sender_locks (trader_console y)))) cmd (trader_console y));
  pr_run_exchange_console e z cmd : pr_exchanges f !! e = Some z ->
    no_fault (console_next exchange_ops cmd (exchange_console z));
}.
End steps.

(** ** The start *)
Definition console_ready (n : nat) : console := mkConsole [] (replicate n false) false.

Definition threads_ready {Qo Qm} (cfg : Config) (w : world Qo Qm) : processes Qo Qm :=
  mkProcesses w (map (fun _ => mkTraderThreads ∅ None (console_ready (Z.to_nat (exchange_num cfg)))) (w_traders w))
    (map (fun _ => mkExchangeThreads ∅ None (console_ready 1)) (w_exchanges w)).
