(* ===== verification/ProcessesSim.v ===== *)
(** * Every run of the processes is a run of the world

    What a thread of [Processes] has in its hands is put back: a message an
    order sender has not sent yet counts as sent, a message a receiver has not
    handled as not received, and the orders a stock has taken as still in its
    window.  With this view every step of [Processes.process_step] is a step of
    [World.world_step] or changes nothing, so that what [WorldProps] shows of
    the world holds of the processes. *)

From stdpp Require Import gmap relations.
From S2P Require Import Prelude Double Bytes Config Types StdHeap DeclBook StockExchange.
From S2P Require Import MatchSpec Matching MatchProps OrderedCommit EngineProps.
From S2P Require Import BlockQueue SlidingWindow Messages Exchange Trader TraderProps.
From S2P Require Import TradeReceiver TradeReceiverProps Protocol StockFlow Rules World WorldView WorldInv WorldProps Processes.
#[local] Open Scope Z_scope.

(** ** Polling a window in pieces *)
Lemma poll_all_polls fuel (w w1 : SlidingWindow Order) os :
  polls w os w1 -> poll w1 = Done (None, w1) ->
  poll_all fuel w = Done (os, w1) \/ poll_all fuel w = Fault OutOfFuel.
Proof.
  revert w fuel. induction os as [|o os IH]; intros w [|fuel] Hp Hn; cbn [poll_all]; try (by right).
  - simpl in Hp. subst. rewrite Hn, bind_Done. by left.
  - destruct Hp as (w2 & Ho & Hp). rewrite Ho, bind_Done.
    destruct (IH w2 fuel Hp Hn) as [-> | ->]; [left|right]; done.
Qed.

(** The windows of the exchange before and after some orders were taken. *)
Definition window_behind (before : option (SlidingWindow Order)) (os : list Order)
    (now : option (SlidingWindow Order)) : Prop :=
  match before, now with
  | Some w, Some w1 => polls w os w1
  | None, None => os = []
  | _, _ => False
  end.

(** ** The view *)
Definition arrived_at (z : exchange_threads) (t : nat) : list bytes :=
  match arrived z with Some (t', msg) => if decide (t' = t) then [msg] else [] | None => [] end.
Definition received_at (y : trader_threads) (e : nat) : list bytes :=
  match received y with Some (e', msg) => if decide (e' = e) then [msg] else [] | None => [] end.
Definition unsent_at (y : trader_threads) (e : nat) : list bytes := option_list (unsent y !! e).

Definition held {A} (l : list A) (k : nat) (h : A -> list bytes) : list bytes := from_option h [] (l !! k).

Lemma held_insert {A} (l : list A) k a k' h :
  (k < length l)%nat -> held (<[k := a]> l) k' h = if decide (k' = k) then h a else held l k' h.
Proof.
  intros Hk. unfold held. case_decide as Hd; [subst; by rewrite list_lookup_insert_eq|by rewrite list_lookup_insert_ne].
Qed.

Lemma held_at {A} (l : list A) k a h : l !! k = Some a -> held l k h = h a.
Proof. unfold held. by intros ->. Qed.

(** An update that leaves what is held alone. *)
Lemma held_same {A} (l : list A) k a a' k' h : l !! k = Some a -> h a' = h a -> held (<[k := a']> l) k' h = held l k' h.
Proof.
  intros Hk Hh. rewrite held_insert by (by eapply lookup_lt_Some). case_decide; [subst|done]. by rewrite (held_at _ _ a), Hh.
Qed.

Section sim.
Context `{HeapLib} `{FileIO} {Qo Qm : Type} `{Fifo Qo Order} `{Fifo Qm bytes} (cfg : Config).
Implicit Types (w : world Qo Qm) (p : trader_proc Qo) (x : exchange_proc Qm) (f : processes Qo Qm).
Implicit Types (y : trader_threads) (z : exchange_threads).

Record exchange_behind z x x' : Prop := {
  eb_pending : ep_pending x' = ep_pending x;
  eb_queue : ep_queue x' = ep_queue x;
  eb_sending : ep_sending x' = ep_sending x;
  eb_stocks : stock_exchange (ep_exchange x') = stock_exchange (ep_exchange x);
  eb_windows code : window_behind (order_buffer (ep_exchange x') !! code) (taken z code)
                      (order_buffer (ep_exchange x) !! code);
  eb_idle code : is_Some (taking z !! code) -> pending x code = [];
  eb_taking code : is_Some (taking z !! code) -> is_Some (stock_exchange (ep_exchange x) !! code);
  eb_one_sender : length (sender_locks (exchange_console z)) = 1%nat;
}.

Record simulates f w : Prop := {
  sm_traders : w_traders w = w_traders (pr_world f);
  sm_orders t e : chan (w_orders w) (t, e) =
    held (pr_exchanges f) e (fun z => arrived_at z t) ++ chan (w_orders (pr_world f)) (t, e) ++
    held (pr_traders f) t (fun y => unsent_at y e);
  sm_reports t e : chan (w_reports w) (t, e) =
    held (pr_traders f) t (fun y => received_at y e) ++ chan (w_reports (pr_world f)) (t, e);
  sm_exchanges e x z : w_exchanges (pr_world f) !! e = Some x -> pr_exchanges f !! e = Some z ->
    exists x', w_exchanges w !! e = Some x' /\ exchange_behind z x x';
  sm_senders t y e : pr_traders f !! t = Some y -> is_Some (unsent y !! e) -> (e < Z.to_nat (exchange_num cfg))%nat;
  sm_count_t : length (pr_traders f) = length (w_traders w);
  sm_count_e : length (pr_exchanges f) = length (w_exchanges w) /\
    length (w_exchanges (pr_world f)) = length (w_exchanges w);
}.

(** A change at one exchange, and one at a trader. *)
Lemma sim_exchange w ys zs w' e x x1 z1 x1' os os' rs rs' :
  simulates (mkProcesses w ys zs) w' -> w_exchanges w !! e = Some x -> exchange_behind z1 x1 x1' ->
  (forall t e', chan os' (t, e') = held (<[e := z1]> zs) e' (fun z => arrived_at z t) ++ chan os (t, e') ++
     held ys t (fun y => unsent_at y e')) ->
  (forall t e', chan rs' (t, e') = held ys t (fun y => received_at y e') ++ chan rs (t, e')) ->
  simulates (mkProcesses (mkWorld (w_traders w) (<[e := x1]> (w_exchanges w)) os rs) ys (<[e := z1]> zs))
    (mkWorld (w_traders w') (<[e := x1']> (w_exchanges w')) os' rs').
Proof.
  intros [Ht _ _ Hex Hsd Hct [Hce Hce']] Hx Hb Hos Hrs. simpl in *. pose proof (lookup_lt_Some _ _ _ Hx).
  split; simpl; try done; [|by rewrite !length_insert].
  intros e' x2 z2 [(<- & <- & _)|[Hne Hx2]]%list_lookup_insert_Some Hz2.
  - rewrite list_lookup_insert_eq in Hz2 by lia. injection Hz2 as <-. exists x1'.
    by rewrite list_lookup_insert_eq by lia.
  - rewrite list_lookup_insert_ne in Hz2 by done. rewrite list_lookup_insert_ne by done. by apply Hex.
Qed.

Lemma sim_trader w ys zs w' t y1 ts os os' rs rs' :
  simulates (mkProcesses w ys zs) w' -> length ts = length (w_traders w) ->
  (forall e, is_Some (unsent y1 !! e) -> (e < Z.to_nat (exchange_num cfg))%nat) ->
  (forall t' e, chan os' (t', e) = held zs e (fun z => arrived_at z t') ++ chan os (t', e) ++
     held (<[t := y1]> ys) t' (fun y => unsent_at y e)) ->
  (forall t' e, chan rs' (t', e) = held (<[t := y1]> ys) t' (fun y => received_at y e) ++ chan rs (t', e)) ->
  simulates (mkProcesses (mkWorld ts (w_exchanges w) os rs) (<[t := y1]> ys) zs)
    (mkWorld ts (w_exchanges w') os' rs').
Proof.
  intros [Ht _ _ Hex Hsd Hct [Hce Hce']] Hts Hy1 Hos Hrs. simpl in *. split; simpl; try done.
  - intros t' y e [(<- & <- & _)|[_ Hy]]%list_lookup_insert_Some; [apply Hy1|by eapply Hsd].
  - by rewrite length_insert, Hts, <- Ht.
Qed.
Context (rules : Z -> Z -> order_rule) (inputs : Z -> list Order) (Henv : world_env cfg inputs).

Abbreviation inv := (world_inv cfg rules inputs).
Abbreviation moves := (rule_step (stock_num cfg) rules inputs).
Abbreviation wrun := (rtc (world_step cfg)).

(** ** The receiver of orders *)

(** The slot of the next order to arrive is free. *)
Lemma next_order_slot dels w t e x msg rest :
  inv dels w -> w_exchanges w !! e = Some x -> chan (w_orders w) (t, e) = msg :: rest ->
  exists o win i win', is_order_msg o msg /\ order_buffer (ep_exchange x) !! o_stk_code o = Some win /\
    int_sub (o_order_id o) 1 = Done (o_order_id o - 1) /\
    int_mod (o_order_id o - 1) (sliding_window_size cfg) = Done i /\ to_size i = i /\ put win o i = Done win'.
Proof using Henv.
  intros Hi Hx Hch. pose proof Hi as [Hf _ _ _ Ho _ _]. destruct (Ho t e) as [Hmsgs Ht].
  rewrite Hch in Hmsgs, Ht. apply Forall_cons in Hmsgs as [(o & (Hv & Hc & He) & Hm) _].
  destruct (lookup_lt_is_Some_2 _ _ (Ht ltac:(done))) as [p Hp]. set (c := o_stk_code o) in *.
  destruct (Hf c Hc) as (win & next & items & Hfl). pose proof (fi_protocol _ _ _ _ _ _ _ _ _ Hfl) as Hok.
  assert (Hout : out (view_trader cfg w c t p) = o :: on_way cfg c rest (tp_queues p) (order_to_send p)).
  { simpl. by rewrite He, Hch, (on_way_head _ _ _ _ _ _ o), decide_True. }
  pose proof (trader_view_at cfg w t p c (dels c) Hp) as Hview.
  edestruct receive_slot as (Es & Em & Ez & _ & win' & Hput); [apply (stock_total cfg inputs Henv c Hc)|apply (we_window _ _ Henv)|exact Hok|exact Hview|exact Hout|].
  pose proof (so_window _ _ _ _ _ _ _ Hok) as Hw. rewrite (view_exchange cfg w c _ x) in Hw by (by rewrite He).
  by eexists o, win, _, win'.
Qed.

(** Storing an order in a free slot. *)
Lemma receive_put ex o win i win' :
  order_buffer ex !! o_stk_code o = Some win -> int_sub (o_order_id o) 1 = Done (o_order_id o - 1) ->
  int_mod (o_order_id o - 1) (sliding_window_size cfg) = Done i -> to_size i = i -> put win o i = Done win' ->
  receiveOrder cfg ex o = Done (set_order_buffer ex (<[o_stk_code o := win']> (order_buffer ex))).
Proof using Type.
  intros Hw Es Em Ez Hput. unfold receiveOrder. by rewrite Es, bind_Done, Em, bind_Done, Hw, Ez, Hput.
Qed.

Lemma order_handled_law dels w ys zs w' t e x z msg :
  inv dels w' -> simulates (mkProcesses w ys zs) w' ->
  w_exchanges w !! e = Some x -> zs !! e = Some z -> arrived z = Some (t, msg) ->
  exists ex' w1', handle_order_msg cfg (ep_exchange x) msg = Done ex' /\ world_step cfg w' w1' /\
    simulates (mkProcesses (mkWorld (w_traders w)
                 (<[e := mkExchangeProc ex' (ep_pending x) (ep_queue x) (ep_sending x)]> (w_exchanges w))
                 (w_orders w) (w_reports w))
               ys (<[e := set_arrived z None]> zs)) w1'.
Proof using Henv.
  intros Hi Hs Hx Hz Ha. pose proof Hs as [_ Hos Hrs Hex _ _ _]. simpl in *.
  destruct (Hex e x z Hx Hz) as (x' & Hx' & [Ep Eq Esd Est Hwin Hidle Htk0 Hone]).
  pose proof (Hos t e) as Hch. rewrite (held_at _ _ z) in Hch by done. unfold arrived_at in Hch.
  rewrite Ha, decide_True in Hch by done. simpl in Hch.
  destruct (next_order_slot dels w' t e x' msg _ Hi Hx' Hch) as (o & win & i & win' & Hm & Hw & Es & Em & Ez & Hput).
  set (c := o_stk_code o) in *. pose proof (Hwin c) as Hb. rewrite Hw in Hb. simpl in Hb.
  destruct (order_buffer (ep_exchange x) !! c) as [w1|] eqn:Hw1; [|done].
  destruct (put_after_polls _ _ _ _ _ _ Hb Hput) as (w1' & Hput1 & Hb').
  eexists _, _. rewrite (handle_order_msg_one _ _ o), (receive_put _ o w1 i w1') by done.
  split; [done|]. split.
  { eapply (ws_order_receiver cfg w' t e x'); [done|exact Hch|].
    rewrite (handle_order_msg_one _ _ o), (receive_put _ o win i win') by done. done. }
  eapply sim_exchange; [exact Hs|exact Hx| | |exact Hrs].
  - split; simpl; try done. intros code. change (taken (set_arrived z None) code) with (taken z code). fold c.
    destruct (decide (code = c)) as [->|]; [by rewrite !lookup_insert_eq|]. rewrite !lookup_insert_ne by done. apply Hwin.
  - intros t' e'. rewrite held_insert by (by eapply lookup_lt_Some). case_decide as Hd.
    + subst e'. unfold arrived_at at 1. simpl. destruct (decide (t' = t)) as [->|Hne]; [by rewrite chan_set_same|].
      rewrite chan_set_other, Hos, (held_at _ _ z) by (done || congruence). unfold arrived_at. rewrite Ha.
      by rewrite decide_False by done.
    + rewrite chan_set_other by congruence. apply Hos.
Qed.

(** ** The threads of the stocks *)

(** A step of the thread of [code] that leaves the messages alone. *)
Lemma sim_stock w ys zs w' e x z code tk x1 x1' :
  simulates (mkProcesses w ys zs) w' -> w_exchanges w !! e = Some x -> zs !! e = Some z ->
  exchange_behind (set_taking z code tk) x1 x1' ->
  simulates (mkProcesses (mkWorld (w_traders w) (<[e := x1]> (w_exchanges w)) (w_orders w) (w_reports w))
               ys (<[e := set_taking z code tk]> zs))
    (mkWorld (w_traders w') (<[e := x1']> (w_exchanges w')) (w_orders w') (w_reports w')).
Proof using Type.
  intros Hs Hx Hz Hb. pose proof Hs as [_ Hos Hrs _ _ _ _]. eapply sim_exchange; [exact Hs|exact Hx|done| |exact Hrs].
  intros t e'. rewrite (held_same zs e z) by done. apply Hos.
Qed.

Lemma taken_set z code tk code' :
  taken (set_taking z code tk) code' = if decide (code' = code) then default [] tk else taken z code'.
Proof using Type.
  unfold taken, set_taking. simpl. case_decide as Hd; [subst; by rewrite lookup_partial_alter_eq|].
  by rewrite lookup_partial_alter_ne.
Qed.

Lemma taking_set_ne z code tk code' : code' <> code -> taking (set_taking z code tk) !! code' = taking z !! code'.
Proof using Type. intros Hne. unfold set_taking. simpl. by rewrite lookup_partial_alter_ne. Qed.

Lemma set_taking_same z code : set_taking z code (taking z !! code) = z.
Proof using Type.
  destruct z as [m a c]. unfold set_taking. simpl. f_equal. apply map_eq. intros code'.
  destruct (decide (code' = code)) as [->|]; [by rewrite lookup_partial_alter_eq|by rewrite lookup_partial_alter_ne].
Qed.

(** A report is put into the queue of the trade sender. *)
Lemma stock_puts dels w ys zs w' e x z code ev rest :
  inv dels w' -> simulates (mkProcesses w ys zs) w' ->
  w_exchanges w !! e = Some x -> zs !! e = Some z -> is_Some (stock_exchange (ep_exchange x) !! code) ->
  pending x code = ev :: rest ->
  match stock_thread_next code (taking z !! code) x with
  | Blocked => True
  | Ran (Fault _) => False
  | Ran (Done (tk, x1)) => exists w1', wrun w' w1' /\
      simulates (mkProcesses (mkWorld (w_traders w) (<[e := x1]> (w_exchanges w)) (w_orders w) (w_reports w))
                 ys (<[e := set_taking z code tk]> zs)) w1'
  end.
Proof using Henv.
  intros Hi Hs Hx Hz Hst Hp. pose proof Hs as [_ _ _ Hex _ _ _]. simpl in Hex.
  destruct (Hex e x z Hx Hz) as (x' & Hx' & [Ep Eq Esd Est Hwin Hidle Htk0 Hone]). rewrite <- Est in Hst.
  pose proof (tr_stock cfg _ (inv_threads cfg rules inputs Henv dels w' Hi) e x' code Hx' Hst) as Hno.
  assert (Hp' : pending x' code = ev :: rest) by (unfold pending; by rewrite Ep).
  pose proof (fun x1' => ws_stock cfg w' e x' code x1' Hx' Hst) as Hstep.
  unfold stock_next in Hno, Hstep. unfold stock_thread_next. rewrite Hp', Eq in *. rewrite Hp.
  destruct (put_event (ep_queue x) ev) as [|[q|fl]]; simpl in *; try done.
  eexists. split; [by eapply rtc_once, Hstep|]. eapply sim_stock; [exact Hs|exact Hx|exact Hz|].
  rewrite set_taking_same. split; simpl; try done; [by rewrite Ep|].
  intros code' Htk. rewrite pending_insert. case_decide as Hd; [|by apply Hidle].
  subst code'. specialize (Hidle code Htk). congruence.
Qed.

(** The coarse round that corresponds to the end of [comsumeOrder]. *)
Lemma round_finished x' (win w1 : SlidingWindow Order) os code st :
  pending x' code = [] -> order_buffer (ep_exchange x') !! code = Some win -> polls win os w1 ->
  poll w1 = Done (None, w1) -> stock_exchange (ep_exchange x') !! code = Some st ->
  no_fault (stock_next code x') ->
  exists st', receive_all st os = Done st' /\
    let e := set_order_buffer (ep_exchange x') (<[code := w1]> (order_buffer (ep_exchange x'))) in
    let ack := option_map (fun order => mkOrderAck code (o_order_id order)) (last os) in
    stock_next code x' = Ran (Done (mkExchangeProc (set_stock_exchange e (<[code := st']> (stock_exchange e)))
      (<[code := round_events ack st st']> (ep_pending x')) (ep_queue x') (ep_sending x'))).
Proof using Type.
  intros Hp Hw Hpolls Hnone Hst. unfold stock_next, stock_round, comsumeOrder. rewrite Hp, Hst, Hw. cbn [from_option id].
  destruct (poll_all_polls (S (length (avaliable_ win))) win w1 os Hpolls Hnone) as [E|E]; rewrite E; [|done].
  rewrite !bind_Done. cbn [set_order_buffer stock_exchange]. rewrite Hst.
  destruct (receive_all st os) as [st'|]; [|done]. rewrite !bind_Done. cbn [set_stock_exchange stock_exchange].
  rewrite lookup_insert_eq. intros _. by exists st'.
Qed.

Lemma stock_polls dels w ys zs w' e x z code :
  inv dels w' -> simulates (mkProcesses w ys zs) w' ->
  w_exchanges w !! e = Some x -> zs !! e = Some z -> is_Some (stock_exchange (ep_exchange x) !! code) ->
  pending x code = [] ->
  exists tk x1 w1', stock_thread_next code (taking z !! code) x = Ran (Done (tk, x1)) /\ wrun w' w1' /\
    simulates (mkProcesses (mkWorld (w_traders w) (<[e := x1]> (w_exchanges w)) (w_orders w) (w_reports w))
               ys (<[e := set_taking z code tk]> zs)) w1'.
Proof using Henv.
  intros Hi Hs Hx Hz Hst Hp. pose proof Hs as [_ _ _ Hex _ _ _]. simpl in Hex.
  destruct (Hex e x z Hx Hz) as (x' & Hx' & [Ep Eq Esd Est Hwin Hidle Htk0 Hone]). rewrite <- Est in Hst.
  pose proof (tr_stock cfg _ (inv_threads cfg rules inputs Henv dels w' Hi) e x' code Hx' Hst) as Hno.
  pose proof (ws_stock cfg w' e x' code) as Hstep.
  destruct (eg_codes _ _ _ (wi_exchanges _ _ _ _ _ Hi e x' Hx') code Hst) as [Hc He].
  destruct (wi_flow _ _ _ _ _ Hi code Hc) as (win & next & items & Hfl).
  pose proof (fi_protocol _ _ _ _ _ _ _ _ _ Hfl) as Hok. pose proof (so_window _ _ _ _ _ _ _ Hok) as Hw.
  rewrite (view_exchange cfg w' code _ x') in Hw by (by rewrite He).
  pose proof (Hwin code) as Hb. rewrite Hw in Hb. simpl in Hb.
  destruct (order_buffer (ep_exchange x) !! code) as [w1|] eqn:Hw1; [|done].
  destruct (polls_ok _ _ _ _ _ (sw_ok _ _ _ _ (so_stock_window _ _ _ _ _ _ _ Hok)) Hb) as (next1 & items1 & Hok1).
  pose proof (poll_law w1 next1 items1 Hok1) as Hpoll. unfold stock_thread_next. rewrite Hp, Hw1. cbn [from_option id].
  fold (taken z code). destruct (items1 !! next1) as [o|].
  - destruct Hpoll as (w2 & E & _ & _). rewrite E, bind_Done.
    assert (Ew : mkWorld (w_traders w') (<[e := x']> (w_exchanges w')) (w_orders w') (w_reports w') = w')
      by (rewrite list_insert_id by done; by destruct w').
    eexists _, _, w'. split; [done|]. split; [done|]. rewrite <- Ew.
    eapply sim_stock; [exact Hs|exact Hx|exact Hz|]. split; simpl; try done.
    + intros code'. rewrite taken_set. case_decide as Hd; [|rewrite lookup_insert_ne by done; apply Hwin].
      subst code'. rewrite lookup_insert_eq, Hw. simpl. by eapply polls_snoc.
    + intros code' Htk. unfold pending in *. simpl. destruct (decide (code' = code)) as [->|Hne]; [done|].
      rewrite lookup_partial_alter_ne in Htk by done. by apply Hidle.
    + intros code' Htk. destruct (decide (code' = code)) as [->|Hne]; [by rewrite <- Est|].
      rewrite lookup_partial_alter_ne in Htk by done. by apply Htk0.
  - destruct Hpoll as [E _]. rewrite E, bind_Done. cbn [set_order_buffer stock_exchange].
    destruct Hst as [st Hst]. assert (Hp' : pending x' code = []) by (unfold pending in *; by rewrite Ep).
    destruct (round_finished x' win w1 (taken z code) code st Hp' Hw Hb E Hst Hno) as (st' & Er & En).
    rewrite <- Est, Hst, Er, bind_Done. eexists _, _, _. split; [done|].
    split; [eapply rtc_once, Hstep; [done|by eexists|exact En]|].
    eapply sim_stock; [exact Hs|exact Hx|exact Hz|]. split; simpl; try done.
    + by rewrite Ep.
    + intros code'. rewrite taken_set. case_decide as Hd; [subst; by rewrite !lookup_insert_eq|].
      rewrite !lookup_insert_ne by done. apply Hwin.
    + intros code' Htk. rewrite pending_insert. destruct (decide (code' = code)) as [->|Hne].
      { rewrite lookup_partial_alter_eq in Htk. by destruct Htk. }
      rewrite lookup_partial_alter_ne in Htk by done. by apply Hidle.
    + intros code' Htk. destruct (decide (code' = code)) as [->|Hne]; [by rewrite lookup_insert_eq|].
      rewrite lookup_partial_alter_ne in Htk by done. rewrite lookup_insert_ne, Est by done. by apply Htk0.
Qed.
(** ** The other threads *)
Lemma eta_world w : mkWorld (w_traders w) (w_exchanges w) (w_orders w) (w_reports w) = w.
Proof using Type. by destruct w. Qed.

Lemma controller_law dels w ys zs w' t p :
  inv dels w' -> simulates (mkProcesses w ys zs) w' -> w_traders w !! t = Some p ->
  match controller_next cfg p with
  | Blocked => True
  | Ran (Fault _) => False
  | Ran (Done p') => exists w1', wrun w' w1' /\
      simulates (mkProcesses (mkWorld (<[t := p']> (w_traders w)) (w_exchanges w) (w_orders w) (w_reports w)) ys zs) w1'
  end.
Proof using Henv.
  intros Hi [Ht Hos Hrs Hex Hct Hce] Hp. simpl in *. rewrite <- Ht in Hp.
  pose proof (tr_controller cfg _ (inv_threads cfg rules inputs Henv dels w' Hi) t p Hp) as Hno.
  destruct (controller_next cfg p) as [|[p'|]] eqn:E; try done.
  eexists. split; [eapply rtc_once, (ws_controller cfg w' t p p' Hp E)|].
  split; simpl; rewrite ?length_insert; try done. by rewrite Ht.
Qed.

Lemma order_sender_law dels w ys zs w' t p y e q pad :
  inv dels w' -> simulates (mkProcesses w ys zs) w' ->
  w_traders w !! t = Some p -> ys !! t = Some y -> tp_queues p !! e = Some q -> length pad = pod_pad pod_Order ->
  match order_sender_next pad (unsent y !! e) (sender_locked (trader_console y) e) q with
  | Blocked => True
  | Ran (Fault _) => False
  | Ran (Done (held, q', sent)) => exists w1', wrun w' w1' /\
      simulates (mkProcesses (mkWorld (<[t := set_queues p (<[e := q']> (tp_queues p))]> (w_traders w)) (w_exchanges w)
                   (match sent with Some msg => chan_put (w_orders w) (t, e) msg | None => w_orders w end) (w_reports w))
                 (<[t := set_unsent y e held]> ys) zs) w1'
  end.
Proof using Henv.
  intros Hi Hs Hp Hy Hq Hpad. pose proof Hs as [Ht Hos Hrs _ Hsd _ _]. simpl in *. pose proof Hp as Hp'. rewrite <- Ht in Hp'.
  assert (Hrs' : forall t' e' m, chan (w_reports w') (t', e') =
    held (<[t := set_unsent y e m]> ys) t' (fun y => received_at y e') ++ chan (w_reports w) (t', e')).
  { intros t' e' m. by rewrite (held_same ys t y) by done. }
  assert (Hsd' : forall m e', is_Some (unsent (set_unsent y e m) !! e') -> (e' < Z.to_nat (exchange_num cfg))%nat).
  { intros m e'. unfold set_unsent. simpl. destruct (decide (e' = e)) as [->|Hne].
    - intros _. rewrite <- (tg_count _ _ _ (wi_traders _ _ _ _ _ Hi t p Hp')). by eapply lookup_lt_Some.
    - rewrite lookup_partial_alter_ne by done. by apply (Hsd t). }
  pose proof (lookup_lt_Some _ _ _ Hy) as Hlt. unfold order_sender_next. destruct (unsent y !! e) as [msg|] eqn:Eu.
  - unfold wait_until. destruct (negb _); [|done]. exists w'. split; [done|]. rewrite <- (eta_world w'), Ht.
    rewrite (list_insert_id (tp_queues p)), (list_insert_id (w_traders w)) by (done || by destruct p).
    eapply sim_trader; [exact Hs|done|apply Hsd'| |by intros; apply Hrs'].
    intros t' e'. rewrite held_insert by done. unfold unsent_at at 1. simpl. rewrite Hos.
    destruct (decide (t' = t)) as [->|Hne]; [|by rewrite chan_put_other by congruence].
    rewrite (held_at ys _ y) by done. unfold unsent_at. destruct (decide (e' = e)) as [->|Hne].
    + by rewrite chan_put_same, lookup_partial_alter_eq, Eu, app_nil_r.
    + by rewrite chan_put_other, lookup_partial_alter_ne by congruence.
  - pose proof (tr_order_sender cfg _ (inv_threads cfg rules inputs Henv dels w' Hi) t p e q pad Hp' Hq Hpad) as Hno.
    destruct (next_order_msg pad q) as [|[[msg q']|]] eqn:E; simpl in *; try done.
    eexists. split; [eapply rtc_once, (ws_order_sender cfg w' t p e q pad msg q' Hp' Hq Hpad E)|]. rewrite Ht.
    eapply sim_trader; [exact Hs|by rewrite length_insert|apply Hsd'| |by intros; apply Hrs'].
    intros t' e'. rewrite held_insert by done. unfold unsent_at at 1. simpl.
    destruct (decide (t' = t)) as [->|Hne]; [|by rewrite chan_put_other by congruence].
    pose proof (Hos t e') as Hch. rewrite (held_at ys _ y) in Hch by done. unfold unsent_at in Hch.
    destruct (decide (e' = e)) as [->|Hne].
    + rewrite chan_put_same, lookup_partial_alter_eq, Hch, Eu. simpl. by rewrite app_nil_r, <- app_assoc.
    + by rewrite chan_put_other, lookup_partial_alter_ne, Hch by congruence.
Qed.

Lemma trade_handled_law dels w ys zs w' t p y e msg :
  inv dels w' -> simulates (mkProcesses w ys zs) w' ->
  w_traders w !! t = Some p -> ys !! t = Some y -> received y = Some (e, msg) ->
  exists r s w1', handle_msg (tp_recv p) (tp_info p) msg = Done (r, s) /\ world_step cfg w' w1' /\
    simulates (mkProcesses
      (mkWorld (<[t := mkTraderProc (tp_ctl p) (tp_pc p) (order_to_send p) s r (tp_queues p)]> (w_traders w))
         (w_exchanges w) (w_orders w) (w_reports w))
      (<[t := set_received y None]> ys) zs) w1'.
Proof using Henv.
  intros Hi Hs Hp Hy Hr. pose proof Hs as [Ht Hos Hrs _ _ _ _]. simpl in *. pose proof Hp as Hp'. rewrite <- Ht in Hp'.
  pose proof (Hrs t e) as Hch. rewrite (held_at ys _ y) in Hch by done. unfold received_at in Hch.
  rewrite Hr, decide_True in Hch by done. simpl in Hch.
  destruct (trade_receiver_inv cfg rules inputs Henv dels w' t e p msg _ Hi Hp' Hch) as (r & s & E & _).
  eexists r, s, _. split; [done|]. split; [by eapply ws_trade_receiver|]. rewrite Ht.
  eapply sim_trader; [exact Hs|by rewrite length_insert|intros; by eapply (sm_senders _ _ Hs t y)| |].
  - intros t' e'. by rewrite (held_same ys t y) by done.
  - intros t' e'. rewrite held_insert by (by eapply lookup_lt_Some). unfold received_at at 1. simpl.
    destruct (decide (t' = t)) as [->|Hne].
    + destruct (decide (e' = e)) as [->|Hne]; [by rewrite chan_set_same|].
      rewrite chan_set_other, Hrs, (held_at ys _ y) by (done || congruence). unfold received_at.
      by rewrite Hr, decide_False by done.
    + by rewrite chan_set_other by congruence.
Qed.

Lemma trade_sender_law dels w ys zs w' e x z :
  inv dels w' -> simulates (mkProcesses w ys zs) w' -> w_exchanges w !! e = Some x -> zs !! e = Some z ->
  match paused_sender_next (length (w_traders w)) (sender_locked (exchange_console z) 0) x with
  | Blocked => True
  | Ran (Fault _) => False
  | Ran (Done (x1, sent)) => exists w1', wrun w' w1' /\
      simulates (mkProcesses (mkWorld (w_traders w) (<[e := x1]> (w_exchanges w)) (w_orders w)
                   (match sent with Some (t, msg) => chan_put (w_reports w) (t, e) msg | None => w_reports w end)) ys zs) w1'
  end.
Proof using Henv.
  intros Hi Hs Hx Hz. pose proof Hs as [Ht Hos Hrs Hex _ _ _]. simpl in *.
  destruct (Hex e x z Hx Hz) as (x' & Hx' & Hb).
  pose proof (tr_trade_sender cfg _ (inv_threads cfg rules inputs Henv dels w' Hi) e x' Hx') as Hno.
  assert (Hgo : match trade_sender_next (length (w_traders w)) x with
    | Blocked => True
    | Ran (Fault _) => False
    | Ran (Done (x1, sent)) => exists w1', wrun w' w1' /\
        simulates (mkProcesses (mkWorld (w_traders w) (<[e := x1]> (w_exchanges w)) (w_orders w)
          (match sent with Some (t, msg) => chan_put (w_reports w) (t, e) msg | None => w_reports w end)) ys zs) w1'
    end); [|unfold paused_sender_next; destruct (ep_sending x) as [[msg idx]|]; [by destruct (_ && _)|done]].
  pose proof (fun x1' sent => ws_trade_sender cfg w' e x' x1' sent Hx') as Hstep.
  destruct Hb as [Ep Eq Esd Est Hwin Hidle Htk0 Hone].
  rewrite Ht in *. unfold trade_sender_next in *. rewrite Eq, Esd in *.
  assert (Hbehind : forall q sd, exchange_behind z (mkExchangeProc (ep_exchange x) (ep_pending x) q sd)
    (mkExchangeProc (ep_exchange x') (ep_pending x') q sd)) by (intros; by split).
  assert (Hput : forall q sd sent, simulates
    (mkProcesses (mkWorld (w_traders w) (<[e := mkExchangeProc (ep_exchange x) (ep_pending x) q sd]> (w_exchanges w)) (w_orders w)
       (match sent with Some (t, msg) => chan_put (w_reports w) (t, e) msg | None => w_reports w end)) ys zs)
    (mkWorld (w_traders w) (<[e := mkExchangeProc (ep_exchange x') (ep_pending x') q sd]> (w_exchanges w')) (w_orders w')
       (match sent with Some (t, msg) => chan_put (w_reports w') (t, e) msg | None => w_reports w' end))).
  { intros q sd sent. rewrite <- (list_insert_id zs e z) by done. rewrite <- Ht at 2.
    eapply sim_exchange; [exact Hs|exact Hx|apply Hbehind| |].
    - rewrite list_insert_id by done. exact Hos.
    - intros t e'. destruct sent as [[t' msg]|]; [|apply Hrs]. destruct (decide ((t', e) = (t, e'))) as [[= -> ->]|Hne].
      + by rewrite !chan_put_same, Hrs, <- app_assoc.
      + by rewrite !chan_put_other. }
  destruct (ep_sending x) as [[msg idx]|].
  - destruct (idx <? _)%nat; simpl in *; eexists; (split; [eapply rtc_once, Hstep; reflexivity|]).
    + apply (Hput _ _ (Some (idx, msg))).
    + apply (Hput _ _ None).
  - destruct (fifo_take (ep_queue x)) as [|[[msg q]|]]; simpl in *; try done.
    eexists. split; [eapply rtc_once, Hstep; reflexivity|]. apply (Hput _ _ None).
Qed.
(** ** Every step *)

(** Steps that change nothing in the world: a message is received, and a
    console goes on. *)
Lemma trade_arrives_sim w ys zs w' t y e msg rest :
  simulates (mkProcesses w ys zs) w' -> ys !! t = Some y -> received y = None ->
  chan (w_reports w) (t, e) = msg :: rest ->
  simulates (mkProcesses (mkWorld (w_traders w) (w_exchanges w) (w_orders w) (<[(t, e) := rest]> (w_reports w)))
    (<[t := set_received y (Some (e, msg))]> ys) zs) w'.
Proof using Type.
  intros Hs Hy Hr Hch. pose proof Hs as [Ht Hos Hrs _ _ _ _]. simpl in *. rewrite <- (eta_world w'), Ht.
  eapply sim_trader; [exact Hs|done|intros; by eapply (sm_senders _ _ Hs t y)| |].
  - intros t' e'. by rewrite (held_same ys t y) by done.
  - intros t' e'. rewrite held_insert by (by eapply lookup_lt_Some). unfold received_at at 1. simpl. rewrite Hrs.
    destruct (decide (t' = t)) as [->|Hne]; [|by rewrite chan_set_other by congruence].
    rewrite (held_at ys _ y) by done. unfold received_at. rewrite Hr. destruct (decide (e = e')) as [<-|Hne].
    + by rewrite chan_set_same, Hch.
    + by rewrite chan_set_other by congruence.
Qed.

Lemma order_arrives_sim w ys zs w' t e z msg rest :
  simulates (mkProcesses w ys zs) w' -> zs !! e = Some z -> arrived z = None ->
  chan (w_orders w) (t, e) = msg :: rest ->
  simulates (mkProcesses (mkWorld (w_traders w) (w_exchanges w) (<[(t, e) := rest]> (w_orders w)) (w_reports w))
    ys (<[e := set_arrived z (Some (t, msg))]> zs)) w'.
Proof using Type.
  intros Hs Hz Ha Hch. pose proof Hs as [Ht Hos Hrs Hex _ Hct [Hce Hce']]. simpl in *.
  assert (He : is_Some (w_exchanges w !! e)).
  { apply lookup_lt_is_Some. rewrite Hce', <- Hce. by eapply lookup_lt_Some. }
  destruct He as [x Hx]. destruct (Hex e x z Hx Hz) as (x' & Hx' & [Ep Eq Esd Est Hwin Hidle Htk0 Hone]).
  rewrite <- (eta_world w'), <- (list_insert_id (w_exchanges w) e x), <- (list_insert_id (w_exchanges w') e x') by done.
  eapply sim_exchange; [exact Hs|exact Hx|by split| |exact Hrs].
  intros t' e'. rewrite held_insert by (by eapply lookup_lt_Some). unfold arrived_at at 1. simpl. rewrite Hos.
  destruct (decide (e' = e)) as [->|Hne]; [|by rewrite chan_set_other by congruence].
  rewrite (held_at zs _ z) by done. unfold arrived_at. rewrite Ha. destruct (decide (t = t')) as [<-|Hne].
  - by rewrite chan_set_same, Hch.
  - by rewrite chan_set_other by congruence.
Qed.

Lemma trader_console_sim w ys zs w' t y c :
  simulates (mkProcesses w ys zs) w' -> ys !! t = Some y ->
  simulates (mkProcesses w (<[t := set_trader_console y c]> ys) zs) w'.
Proof using Type.
  intros [Ht Hos Hrs Hex Hsd Hct Hce] Hy. split; simpl in *; rewrite ?length_insert; try done.
  - intros t' e. by rewrite (held_same ys t y) by done.
  - intros t' e. by rewrite (held_same ys t y) by done.
  - intros t' y' e [(<- & <- & _)|[_ Hy']]%list_lookup_insert_Some; [exact (Hsd t y e Hy)|by eapply Hsd].
Qed.

Lemma console_senders ops cmd c c' : console_next ops cmd c = Ran (Done c') -> length (sender_locks c') = length (sender_locks c).
Proof using Type.
  unfold console_next, wait_until. destruct (console_todo c) as [|[i| |i|] rest]; try case_match; intros E; simplify_eq;
    simpl; by rewrite ?length_insert.
Qed.

Lemma exchange_console_sim w ys zs w' e z c :
  simulates (mkProcesses w ys zs) w' -> zs !! e = Some z ->
  length (sender_locks c) = length (sender_locks (exchange_console z)) ->
  simulates (mkProcesses w ys (<[e := set_exchange_console z c]> zs)) w'.
Proof using Type.
  intros [Ht Hos Hrs Hex Hsd Hct Hce] Hz Hlen. split; simpl in *; rewrite ?length_insert; try done.
  - intros t e'. by rewrite (held_same zs e z) by done.
  - intros e' x z' Hx [(<- & <- & _)|[_ Hz']]%list_lookup_insert_Some; [|by apply Hex].
    destruct (Hex e x z Hx Hz) as (x' & Hx' & [? ? ? ? ? ? ? ?]). exists x'. split; [done|]. split; try done. simpl. by rewrite Hlen.
Qed.

Lemma sim_step dels f w' f1 :
  inv dels w' -> simulates f w' -> process_step cfg f f1 -> exists w1', wrun w' w1' /\ simulates f1 w1'.
Proof using Henv.
  intros Hi Hs Hstep. destruct Hstep as [w ys zs t p p' Hp E|w ys zs t p y e q pad hd q' sent Hp Hy Hq Hpad E
    |w ys zs t y e msg rest Hy Hr _ Hch|w ys zs t p y e msg r s Hp Hy Hr E|w ys zs t e z msg rest Hz Ha _ Hch
    |w ys zs t e x z msg ex' Hx Hz Ha E|w ys zs e x z code tk x' Hx Hz Hst E|w ys zs e x z x' sent Hx Hz E
    |w ys zs t y cmd c Hy _|w ys zs e z cmd c Hz E].
  - pose proof (controller_law dels w ys zs w' t p Hi Hs Hp) as Hl. by rewrite E in Hl.
  - pose proof (order_sender_law dels w ys zs w' t p y e q pad Hi Hs Hp Hy Hq Hpad) as Hl. by rewrite E in Hl.
  - exists w'. split; [done|]. by apply trade_arrives_sim.
  - destruct (trade_handled_law dels w ys zs w' t p y e msg Hi Hs Hp Hy Hr) as (r' & s' & w1' & E' & Hw & Hs').
    rewrite E in E'. injection E' as <- <-. exists w1'. split; [by apply rtc_once|done].
  - exists w'. split; [done|]. by apply order_arrives_sim.
  - destruct (order_handled_law dels w ys zs w' t e x z msg Hi Hs Hx Hz Ha) as (ex2 & w1' & E' & Hw & Hs').
    rewrite E in E'. injection E' as <-. exists w1'. split; [by apply rtc_once|done].
  - destruct (pending x code) as [|ev rest] eqn:Hp.
    + destruct (stock_polls dels w ys zs w' e x z code Hi Hs Hx Hz Hst Hp) as (tk2 & x2 & w1' & E' & Hw & Hs').
      rewrite E in E'. injection E' as <- <-. by exists w1'.
    + pose proof (stock_puts dels w ys zs w' e x z code ev rest Hi Hs Hx Hz Hst Hp) as Hl. by rewrite E in Hl.
  - pose proof (trade_sender_law dels w ys zs w' e x z Hi Hs Hx Hz) as Hl. by rewrite E in Hl.
  - exists w'. split; [done|]. by apply trader_console_sim.
  - exists w'. split; [done|]. eapply exchange_console_sim; [done|done|by eapply console_senders].
Qed.

Lemma sim_run dels f w' f1 :
  inv dels w' -> simulates f w' -> rtc (process_step cfg) f f1 ->
  exists w1' dels', wrun w' w1' /\ rtc moves dels dels' /\ simulates f1 w1' /\ inv dels' w1'.
Proof using Henv.
  intros Hi Hs Hr. revert dels w' Hi Hs. induction Hr as [f|f f1 f2 Hstep Hr IH]; intros dels w' Hi Hs.
  - by exists w', dels.
  - destruct (sim_step dels f w' f1 Hi Hs Hstep) as (w1' & Hw & Hs1).
    destruct (run_inv cfg rules inputs Henv dels w' w1' Hi Hw) as (dels1 & Hm & Hi1).
    destruct (IH dels1 w1' Hi1 Hs1) as (w2' & dels2 & Hw2 & Hm2 & ? & ?). exists w2', dels2.
    split_and!; [by etransitivity|by etransitivity|done..].
Qed.

Lemma console_no_fault ops cmd c : no_fault (console_next ops cmd c).
Proof using Type.
  unfold console_next. destruct (console_todo c) as [|[i| |i|] rest]; try done; unfold wait_until; by case_match.
Qed.

Lemma sim_no_fault dels f w' : inv dels w' -> simulates f w' -> processes_run cfg f.
Proof using Henv.
  intros Hi Hs. destruct f as [w ys zs]. split; simpl.
  - intros t p Hp. pose proof (controller_law dels w ys zs w' t p Hi Hs Hp) as Hl. by destruct controller_next as [|[]].
  - intros t p y e q pad Hp Hy Hq Hpad. pose proof (order_sender_law dels w ys zs w' t p y e q pad Hi Hs Hp Hy Hq Hpad) as Hl.
    by destruct order_sender_next as [|[]].
  - intros t p y e msg Hp Hy Hr.
    destruct (trade_handled_law dels w ys zs w' t p y e msg Hi Hs Hp Hy Hr) as (r & s & w1' & -> & _). done.
  - intros t e x z msg Hx Hz Ha.
    destruct (order_handled_law dels w ys zs w' t e x z msg Hi Hs Hx Hz Ha) as (ex' & w1' & -> & _). done.
  - intros e x z code Hx Hz Hst. destruct (pending x code) as [|ev rest] eqn:Hp.
    + by destruct (stock_polls dels w ys zs w' e x z code Hi Hs Hx Hz Hst Hp) as (tk & x1 & w1' & -> & _).
    + pose proof (stock_puts dels w ys zs w' e x z code ev rest Hi Hs Hx Hz Hst Hp) as Hl.
      by destruct stock_thread_next as [|[]].
  - intros e x z Hx Hz. pose proof (trade_sender_law dels w ys zs w' e x z Hi Hs Hx Hz) as Hl.
    by destruct paused_sender_next as [|[]].
  - intros. apply console_no_fault.
  - intros. apply console_no_fault.
Qed.

(** ** The start, and what can be read off *)
Lemma sim_start w : simulates (threads_ready cfg w) w.
Proof using Type.
  assert (Hno : forall A B (l : list A) k (g : A -> B) h, (forall a, h (g a) = []) -> held (map g l) k h = []).
  { intros A B l k g h Hh. unfold held. rewrite list_lookup_fmap. destruct (l !! k); simpl; [apply Hh|done]. }
  split; simpl; rewrite ?length_map; try done.
  - intros t e. rewrite !Hno by done. by rewrite app_nil_r.
  - intros t e. by rewrite Hno.
  - intros e x z Hx Hz. rewrite list_lookup_fmap, Hx in Hz. injection Hz as <-. exists x. split; [done|].
    split; try done.
    + intros code. unfold taken. simpl. rewrite lookup_empty. unfold window_behind. by destruct (_ !! code).
    + intros code. simpl. rewrite lookup_empty. by intros [? ?].
    + intros code. simpl. rewrite lookup_empty. by intros [? ?].
  - intros t y e Hy. rewrite list_lookup_fmap in Hy. destruct (w_traders w !! t); [|done]. injection Hy as <-.
    simpl. rewrite lookup_empty. by intros [? ?].
Qed.

Lemma sim_stock_done f w' code os :
  simulates f w' -> stock_done cfg inputs w' code os -> stock_done cfg inputs (pr_world f) code os.
Proof using Type.
  intros [Ht _ _ Hex _ _ [Hce Hce']] [Hd (x' & Hx' & Heng) Hf]. split; [done| |by rewrite <- Ht].
  destruct (lookup_lt_is_Some_2 (w_exchanges (pr_world f)) (exch_no cfg code)) as [x Hx].
  { rewrite Hce'. by eapply lookup_lt_Some. }
  destruct (lookup_lt_is_Some_2 (pr_exchanges f) (exch_no cfg code)) as [z Hz].
  { rewrite Hce. by eapply lookup_lt_Some. }
  exists x. split; [done|]. destruct (Hex _ x z Hx Hz) as (x2 & Hx2 & Hb). assert (x2 = x') as -> by congruence.
  destruct Heng as [Heng]. split. by rewrite <- (eb_stocks _ _ _ Hb).
Qed.
End sim.
