(* ===== verification/ProcessesLive.v ===== *)
(** * The processes get everything done

    From every state whose consoles wait for a command, the processes can be
    brought to rest: the consoles restart what was stopped, messages in hand
    are sent or handled, and the stocks empty their windows.  At rest the
    processes are in a state of the world ([ProcessesSim]), and every step of
    the world is a few steps of the processes, so that [WorldLive] applies. *)

From stdpp Require Import gmap relations.
From S2P Require Import Prelude Double Bytes Config Types StdHeap DeclBook StockExchange.
From S2P Require Import MatchSpec Matching MatchProps OrderedCommit EngineProps.
From S2P Require Import BlockQueue SlidingWindow Messages Exchange Trader TraderProps.
From S2P Require Import TradeReceiver TradeReceiverProps Protocol StockFlow Rules World WorldView WorldInv WorldProps WorldLive.
From S2P Require Import Processes ProcessesSim.
#[local] Open Scope Z_scope.

(** ** Consoles *)
Definition console_idle (c : console) : Prop := console_todo c = [].
Definition all_unlocked (c : console) : bool := forallb negb (sender_locks c) && negb (receiver_lock c).

Lemma unlocked_sender c i : all_unlocked c = true -> sender_locked c i = false.
Proof.
  intros [Hl _]%andb_true_iff. unfold sender_locked. destruct (sender_locks c !! i) as [b|] eqn:E; [|done]. simpl.
  rewrite forallb_forall in Hl. specialize (Hl b). apply list_elem_of_lookup_2, list_elem_of_In in E.
  by destruct b; [specialize (Hl E)|].
Qed.

Lemma unlocked_receiver c : all_unlocked c = true -> receiver_lock c = false.
Proof. intros [_ Hl]%andb_true_iff. by apply negb_true_iff in Hl. Qed.

(** One step of a console whose commands depend on its locks. *)
Definition console_step (ops : console -> pause_cmd -> list lock_op) (c c' : console) : Prop :=
  exists cmd, console_next (ops c) cmd c = Ran (Done c').

(** Unlocking the senders from [i] on. *)
Lemma unlock_senders ops n i l r rest :
  exists l', rtc (console_step ops) (mkConsole (map UnlockSender (seq i n) ++ rest) l r) (mkConsole rest l' r) /\
    length l' = length l /\ (forall j, (i <= j < i + n)%nat -> l' !! j <> Some true) /\
    (forall j, l !! j <> Some true -> l' !! j <> Some true).
Proof.
  revert i l. induction n as [|n IH]; intros i l.
  - exists l. split_and!; [done|done|lia|done].
  - destruct (IH (S i) (<[i := false]> l)) as (l' & Hr & Hlen & Hnew & Hold). exists l'.
    assert (Hset : forall j, l !! j <> Some true \/ j = i -> <[i := false]> l !! j <> Some true).
    { intros j Hj. destruct (decide (j = i)) as [->|Hne].
      - intros [(_ & ? & _)|[? _]]%list_lookup_insert_Some; done.
      - rewrite list_lookup_insert_ne by done. by destruct Hj. }
    split; [eapply rtc_l; [by exists Restart|exact Hr]|]. split; [by rewrite Hlen, length_insert|]. split.
    + intros j Hj. destruct (decide (j = i)) as [->|]; [|apply Hnew; lia]. apply Hold, Hset. by right.
    + intros j Hj. apply Hold, Hset. by left.
Qed.

Lemma unlocked_all l : (forall j, (j < length l)%nat -> l !! j <> Some true) -> forallb negb l = true.
Proof.
  intros Hl. apply forallb_forall. intros b [j Hj]%list_elem_of_In%list_elem_of_lookup.
  specialize (Hl j (lookup_lt_Some _ _ _ Hj)). by destruct b.
Qed.

(** The command [restart] unlocks everything. *)
Lemma trader_restarts c : console_idle c ->
  let ops c := trader_ops (length (sender_locks c)) in
  exists c', rtc (console_step ops) c c' /\ console_idle c' /\ all_unlocked c' = true.
Proof.
  destruct c as [td l r]. unfold console_idle. simpl. intros ->. set (ops := fun c => trader_ops (length (sender_locks c))).
  destruct (unlock_senders ops (length l) 0 l r [UnlockReceiver]) as (l' & Hr & Hlen & Hnew & _).
  exists (mkConsole [] l' false). split.
  - eapply rtc_l; [by exists Restart|]. etransitivity; [exact Hr|]. apply rtc_once. by exists Restart.
  - split; [done|]. unfold all_unlocked. simpl. rewrite unlocked_all; [done|]. intros j Hj. apply Hnew. lia.
Qed.

Lemma exchange_restarts c : console_idle c -> length (sender_locks c) = 1%nat ->
  exists c', rtc (console_step (fun _ => exchange_ops)) c c' /\ console_idle c' /\ all_unlocked c' = true /\
    length (sender_locks c') = 1%nat.
Proof.
  destruct c as [td [|b [|]] r]; unfold console_idle; simpl; try done. intros -> _.
  exists (mkConsole [] [false] false). split; [|done].
  eapply rtc_l; [by exists Restart|]. eapply rtc_l; [by exists Restart|]. apply rtc_once. by exists Restart.
Qed.

Section live.
Context `{HeapLib} `{FileIO} {Qo Qm : Type} `{Fifo Qo Order} `{Fifo Qm bytes} (cfg : Config).
Implicit Types (w v : world Qo Qm) (p : trader_proc Qo) (x : exchange_proc Qm) (f : processes Qo Qm).
Implicit Types (y : trader_threads) (z : exchange_threads).

Abbreviation step := (process_step cfg).

(** ** Emptying the window of a stock *)

(** An exchange whose stock [code] has matched [orders], taken from a window
    that is [win] now. *)
Definition finished x (code : Z) (win : SlidingWindow Order) (orders : list Order) (st st' : StockExchange) : exchange_proc Qm :=
  let e := set_order_buffer (ep_exchange x) (<[code := win]> (order_buffer (ep_exchange x))) in
  let ack := option_map (fun order => mkOrderAck code (o_order_id order)) (last orders) in
  mkExchangeProc (set_stock_exchange e (<[code := st']> (stock_exchange e)))
    (<[code := round_events ack st st']> (ep_pending x)) (ep_queue x) (ep_sending x).

Abbreviation at_exchange w e x := (mkWorld (w_traders w) (<[e := x]> (w_exchanges w)) (w_orders w) (w_reports w)).

Lemma drain fuel w ys zs e x z code (win win' : SlidingWindow Order) os st st' :
  w_exchanges w !! e = Some x -> zs !! e = Some z -> pending x code = [] ->
  order_buffer (ep_exchange x) !! code = Some win -> poll_all fuel win = Done (os, win') ->
  stock_exchange (ep_exchange x) !! code = Some st -> receive_all st (taken z code ++ os) = Done st' ->
  rtc step (mkProcesses w ys zs)
    (mkProcesses (at_exchange w e (finished x code win' (taken z code ++ os) st st')) ys
       (<[e := set_taking z code None]> zs)).
Proof using Type.
  revert w zs x z win os. induction fuel as [|fuel IH]; intros w zs x z win os Hx Hz Hp Hw E Hst Er; [done|].
  cbn [poll_all] in E. apply bind_done in E as ([res win1] & Epoll & E).
  assert (Hnext : forall tk x', stock_thread_next code (taking z !! code) x = Ran (Done (tk, x')) ->
    step (mkProcesses w ys zs) (mkProcesses (at_exchange w e x') ys (<[e := set_taking z code tk]> zs))).
  { intros tk x' En. by eapply ps_stock; [exact Hx|exact Hz|eexists; exact Hst|exact En]. }
  unfold stock_thread_next in Hnext. rewrite Hp, Hw in Hnext. cbn [from_option id] in Hnext.
  fold (taken z code) in Hnext. rewrite Epoll, bind_Done in Hnext. destruct res as [o|].
  - apply bind_done in E as ([os' win2] & E & Eo). injection Eo as <- <-.
    set (x1 := mkExchangeProc (set_order_buffer (ep_exchange x) (<[code := win1]> (order_buffer (ep_exchange x))))
      (ep_pending x) (ep_queue x) (ep_sending x)) in *.
    set (z1 := set_taking z code (Some (taken z code ++ [o]))) in *.
    assert (Htk : taken z1 code = taken z code ++ [o]) by (unfold z1; by rewrite taken_set, decide_True).
    eapply rtc_l; [by apply Hnext|]. clear Hnext.
    pose proof (lookup_lt_Some _ _ _ Hx). pose proof (lookup_lt_Some _ _ _ Hz).
    assert (IH' := IH (at_exchange w e x1) (<[e := z1]> zs) x1 z1 win1 os').
    rewrite Htk, <- app_assoc in IH'. simpl in IH'. rewrite !list_insert_insert_eq in IH'.
    assert (Ef : finished x1 code win2 (taken z code ++ o :: os') st st' = finished x code win2 (taken z code ++ o :: os') st st').
    { unfold finished, x1. simpl. by rewrite insert_insert_eq. }
    assert (Ez : set_taking z1 code None = set_taking z code None).
    { unfold z1, set_taking. simpl. f_equal. apply map_eq. intros code'.
      destruct (decide (code' = code)) as [->|]; [by rewrite !lookup_partial_alter_eq|by rewrite !lookup_partial_alter_ne]. }
    rewrite Ef, Ez in IH'. apply IH'; try done.
    + by rewrite list_lookup_insert_eq.
    + by rewrite list_lookup_insert_eq.
    + unfold x1. simpl. by rewrite lookup_insert_eq.
  - injection E as <- <-. rewrite app_nil_r in *. apply rtc_once, Hnext. cbn [set_order_buffer stock_exchange].
    by rewrite Hst, Er, bind_Done.
Qed.

(** What a round of the world does, in one piece. *)
Lemma round_parts x code x' :
  pending x code = [] -> stock_next code x = Ran (Done x') ->
  exists win fuel os win' st st', order_buffer (ep_exchange x) !! code = Some win /\
    poll_all fuel win = Done (os, win') /\ stock_exchange (ep_exchange x) !! code = Some st /\
    receive_all st os = Done st' /\ x' = finished x code win' os st st'.
Proof using Type.
  intros Hp. unfold stock_next, stock_round, comsumeOrder. rewrite Hp. intros E%Ran_inj.
  destruct (stock_exchange (ep_exchange x) !! code) as [st|] eqn:Hst; [|done].
  destruct (order_buffer (ep_exchange x) !! code) as [win|] eqn:Hw; [|done]. cbn [from_option id] in E.
  apply bind_done in E as ([ack ex] & E & Ex). apply bind_done in E as ([[os ack'] ex1] & E & Er).
  apply bind_done in E as ([os' win'] & E & Eo). injection Eo as <- <- <-.
  cbn [set_order_buffer stock_exchange] in Er. rewrite Hst in Er.
  apply bind_done in Er as (st' & Er & Eo). injection Eo as <- <-.
  cbn [set_stock_exchange stock_exchange] in Ex. rewrite lookup_insert_eq in Ex. injection Ex as <-.
  by eexists win, _, os', win', st, st'.
Qed.

(** The rest of a window that was polled in part. *)
Lemma poll_all_rest fuel (win win1 win2 : SlidingWindow Order) tk os :
  polls win tk win1 -> poll_all fuel win = Done (os, win2) ->
  exists fuel' os', poll_all fuel' win1 = Done (os', win2) /\ os = tk ++ os'.
Proof using Type.
  revert win fuel os. induction tk as [|o tk IH]; intros win fuel os Hp E.
  - simpl in Hp. subst. by exists fuel, os.
  - destruct Hp as (w1 & Ho & Hp). destruct fuel as [|fuel]; [done|]. cbn [poll_all] in E.
    rewrite Ho, bind_Done in E. apply bind_done in E as ([os1 w2] & E & Eo). injection Eo as <- <-.
    destruct (IH w1 fuel os1 Hp E) as (fuel' & os' & E' & ->). by exists fuel', os'.
Qed.

(** ** Processes at rest *)
Record trader_rests y : Prop := {
  tr_unsent : unsent y = ∅;
  tr_received : received y = None;
  tr_console : console_idle (trader_console y) /\ all_unlocked (trader_console y) = true;
}.
Record exchange_rests z : Prop := {
  xr_taking : taking z = ∅;
  xr_arrived : arrived z = None;
  xr_console : console_idle (exchange_console z) /\ all_unlocked (exchange_console z) = true;
}.
Definition at_rest (ys : list trader_threads) (zs : list exchange_threads) : Prop :=
  Forall trader_rests ys /\ Forall exchange_rests zs.

(** The worlds that processes at rest can stand for: they differ in the
    representation of the channels at most. *)
Record same_world v w : Prop := {
  sw_traders : w_traders w = w_traders v;
  sw_exchanges : w_exchanges w = w_exchanges v;
  sw_orders k : chan (w_orders w) k = chan (w_orders v) k;
  sw_reports k : chan (w_reports w) k = chan (w_reports v) k;
}.

Lemma held_rest {A} (P : A -> Prop) (l : list A) k h :
  Forall P l -> (forall a, P a -> h a = []) -> held l k h = [].
Proof using Type.
  intros Hl Hh. unfold held. destruct (l !! k) as [a|] eqn:E; [|done]. simpl. apply Hh. by eapply Forall_lookup_1.
Qed.

Lemma rest_same v ys zs w : at_rest ys zs -> simulates cfg (mkProcesses v ys zs) w -> same_world v w.
Proof using Type.
  intros [Hy Hz] [Ht Hos Hrs Hex _ Hct [Hce Hce']]. simpl in *. split; [done| | |].
  - apply list_eq. intros e. destruct (w_exchanges v !! e) as [x|] eqn:Hx.
    + destruct (lookup_lt_is_Some_2 zs e) as [z Hze]. { rewrite Hce, <- Hce'. by eapply lookup_lt_Some. }
      destruct (Hex e x z Hx Hze) as (x' & -> & [Ep Eq Esd Est Hwin _ _ _]). f_equal.
      destruct x as [[sx ob] pd q sd], x' as [[sx' ob'] pd' q' sd']. simpl in *. subst. do 2 f_equal.
      apply map_eq. intros code. specialize (Hwin code). unfold taken in Hwin.
      rewrite (xr_taking z), lookup_empty in Hwin by by eapply Forall_lookup_1.
      unfold window_behind in Hwin. simpl in Hwin. by destruct (ob' !! code), (ob !! code); subst.
    + apply lookup_ge_None in Hx. apply lookup_ge_None. lia.
  - intros [t e]. rewrite Hos, (held_rest exchange_rests), (held_rest trader_rests); try done.
    + by rewrite app_nil_r.
    + intros y Hyr. unfold unsent_at. by rewrite (tr_unsent _ Hyr), lookup_empty.
    + intros z Hzr. unfold arrived_at. by rewrite (xr_arrived _ Hzr).
  - intros [t e]. rewrite Hrs, (held_rest trader_rests); try done.
    intros y Hyr. unfold received_at. by rewrite (tr_received _ Hyr).
Qed.
(** ** The steps of the world, taken by processes at rest *)
Lemma set_unsent_back y e m : trader_rests y -> set_unsent (set_unsent y e m) e None = y.
Proof using Type.
  intros Hy. pose proof (tr_unsent _ Hy) as Hu. destruct y as [u r c]. unfold set_unsent. simpl in *. subst. f_equal.
  apply map_eq. intros e'. rewrite lookup_empty.
  destruct (decide (e' = e)) as [->|]; [by rewrite lookup_partial_alter_eq|by rewrite !lookup_partial_alter_ne].
Qed.

Lemma set_received_back y m : trader_rests y -> set_received (set_received y m) None = y.
Proof using Type. intros [_ Hr _]. destruct y. simpl in *. by subst. Qed.

Lemma set_arrived_back z m : exchange_rests z -> set_arrived (set_arrived z m) None = z.
Proof using Type. intros [_ Ha _]. destruct z. simpl in *. by subst. Qed.

Lemma set_taking_none z code : exchange_rests z -> set_taking z code None = z.
Proof using Type.
  intros [Ht _ _]. rewrite <- (set_taking_same z code) at 2. by rewrite Ht, lookup_empty.
Qed.

(** Every thread has its process. *)
Definition counts v (ys : list trader_threads) (zs : list exchange_threads) : Prop :=
  length ys = length (w_traders v) /\ length zs = length (w_exchanges v).

Lemma rest_trader v ys zs t p : at_rest ys zs -> counts v ys zs -> w_traders v !! t = Some p ->
  exists y, ys !! t = Some y /\ trader_rests y.
Proof using Type.
  intros [Hy _] [Hc _] Hp. destruct (lookup_lt_is_Some_2 ys t) as [y Hyt]; [rewrite Hc; by eapply lookup_lt_Some|].
  exists y. split; [done|]. by eapply Forall_lookup_1.
Qed.

Lemma rest_exchange v ys zs e x : at_rest ys zs -> counts v ys zs -> w_exchanges v !! e = Some x ->
  exists z, zs !! e = Some z /\ exchange_rests z.
Proof using Type.
  intros [_ Hz] [_ Hc] Hx. destruct (lookup_lt_is_Some_2 zs e) as [z Hze]; [rewrite Hc; by eapply lookup_lt_Some|].
  exists z. split; [done|]. by eapply Forall_lookup_1.
Qed.

(** An order sender builds a message and sends it. *)
Lemma rest_sends v ys zs t p e q pad msg q' :
  at_rest ys zs -> counts v ys zs -> w_traders v !! t = Some p -> tp_queues p !! e = Some q ->
  length pad = pod_pad pod_Order -> next_order_msg pad q = Ran (Done (msg, q')) ->
  rtc step (mkProcesses v ys zs)
    (mkProcesses (mkWorld (<[t := set_queues p (<[e := q']> (tp_queues p))]> (w_traders v)) (w_exchanges v)
       (chan_put (w_orders v) (t, e) msg) (w_reports v)) ys zs).
Proof using Type.
  intros Hr Hc Hp Hq Hpad E. destruct (rest_trader v ys zs t p Hr Hc Hp) as (y & Hy & Hyr).
  pose proof (tr_unsent _ Hyr) as Hu. destruct (tr_console _ Hyr) as [_ Hfree].
  pose proof (lookup_lt_Some _ _ _ Hy). pose proof (lookup_lt_Some _ _ _ Hp). pose proof (lookup_lt_Some _ _ _ Hq).
  eapply rtc_l.
  { apply (ps_order_sender cfg v ys zs t p y e q pad (Some msg) q' None); [done..|].
    unfold order_sender_next. by rewrite Hu, lookup_empty, E. }
  set (p1 := set_queues p (<[e := q']> (tp_queues p))). set (y1 := set_unsent y e (Some msg)).
  apply rtc_once.
  assert (Hs := ps_order_sender cfg (mkWorld (<[t := p1]> (w_traders v)) (w_exchanges v) (w_orders v) (w_reports v))
    (<[t := y1]> ys) zs t p1 y1 e q' pad None q' (Some msg)). simpl in Hs.
  assert (Ep : set_queues p1 (<[e := q']> (<[e := q']> (tp_queues p))) = p1).
  { unfold p1, set_queues. simpl. by rewrite list_insert_insert_eq. }
  assert (Ey : set_unsent y1 e None = y) by by apply set_unsent_back.
  rewrite !list_insert_insert_eq in Hs. rewrite list_insert_insert_eq in Ep. rewrite Ep, Ey in Hs.
  rewrite (list_insert_id ys t y) in Hs by done. apply Hs; try done.
  - by rewrite list_lookup_insert_eq.
  - by rewrite list_lookup_insert_eq.
  - by rewrite list_lookup_insert_eq.
  - unfold order_sender_next, y1, set_unsent. simpl. rewrite lookup_partial_alter_eq.
    by rewrite unlocked_sender.
Qed.

(** The order receiver receives a message and handles it. *)
Lemma rest_orders v ys zs t e x msg rest ex' :
  at_rest ys zs -> counts v ys zs -> w_exchanges v !! e = Some x -> chan (w_orders v) (t, e) = msg :: rest ->
  handle_order_msg cfg (ep_exchange x) msg = Done ex' ->
  rtc step (mkProcesses v ys zs)
    (mkProcesses (mkWorld (w_traders v)
       (<[e := mkExchangeProc ex' (ep_pending x) (ep_queue x) (ep_sending x)]> (w_exchanges v))
       (<[(t, e) := rest]> (w_orders v)) (w_reports v)) ys zs).
Proof using Type.
  intros Hr Hc Hx Hch E. destruct (rest_exchange v ys zs e x Hr Hc Hx) as (z & Hz & Hzr).
  destruct (xr_console _ Hzr) as [_ Hfree]. pose proof (lookup_lt_Some _ _ _ Hz).
  eapply rtc_l; [by apply (ps_order_arrives cfg v ys zs t e z msg rest); [|apply Hzr|apply unlocked_receiver|]|].
  apply rtc_once.
  assert (Hs := ps_order_handled cfg (mkWorld (w_traders v) (w_exchanges v) (<[(t, e) := rest]> (w_orders v)) (w_reports v))
    ys (<[e := set_arrived z (Some (t, msg))]> zs) t e x (set_arrived z (Some (t, msg))) msg ex' Hx).
  rewrite list_insert_insert_eq, set_arrived_back, (list_insert_id zs e z) in Hs by done. apply Hs; try done.
  by rewrite list_lookup_insert_eq.
Qed.

(** The trade receiver receives a message and handles it. *)
Lemma rest_trades v ys zs t p e msg rest r s :
  at_rest ys zs -> counts v ys zs -> w_traders v !! t = Some p -> chan (w_reports v) (t, e) = msg :: rest ->
  handle_msg (tp_recv p) (tp_info p) msg = Done (r, s) ->
  rtc step (mkProcesses v ys zs)
    (mkProcesses (mkWorld (<[t := mkTraderProc (tp_ctl p) (tp_pc p) (order_to_send p) s r (tp_queues p)]> (w_traders v))
       (w_exchanges v) (w_orders v) (<[(t, e) := rest]> (w_reports v))) ys zs).
Proof using Type.
  intros Hr Hc Hp Hch E. destruct (rest_trader v ys zs t p Hr Hc Hp) as (y & Hy & Hyr).
  destruct (tr_console _ Hyr) as [_ Hfree]. pose proof (lookup_lt_Some _ _ _ Hy).
  eapply rtc_l; [by apply (ps_trade_arrives cfg v ys zs t y e msg rest); [|apply Hyr|apply unlocked_receiver|]|].
  apply rtc_once.
  assert (Hs := ps_trade_handled cfg (mkWorld (w_traders v) (w_exchanges v) (w_orders v) (<[(t, e) := rest]> (w_reports v)))
    (<[t := set_received y (Some (e, msg))]> ys) zs t p (set_received y (Some (e, msg))) e msg r s Hp).
  rewrite list_insert_insert_eq, set_received_back, (list_insert_id ys t y) in Hs by done. apply Hs; try done.
  by rewrite list_lookup_insert_eq.
Qed.

(** The thread of a stock puts a report, or does a whole round. *)
Lemma rest_stock v ys zs e x code x' :
  at_rest ys zs -> counts v ys zs -> w_exchanges v !! e = Some x -> is_Some (stock_exchange (ep_exchange x) !! code) ->
  stock_next code x = Ran (Done x') ->
  rtc step (mkProcesses v ys zs) (mkProcesses (at_exchange v e x') ys zs).
Proof using Type.
  intros Hr Hc Hx Hst E. destruct (rest_exchange v ys zs e x Hr Hc Hx) as (z & Hz & Hzr).
  destruct (pending x code) as [|ev rest] eqn:Hp.
  - destruct (round_parts x code x' Hp E) as (win & fuel & os & win' & st & st' & Hw & Ea & Hst' & Er & ->).
    assert (Htk : taken z code = []) by (unfold taken; by rewrite (xr_taking _ Hzr), lookup_empty).
    assert (Hd := drain fuel v ys zs e x z code win win' os st st' Hx Hz Hp Hw Ea Hst').
    rewrite Htk, set_taking_none, (list_insert_id zs e z) in Hd by done. by apply Hd.
  - apply rtc_once. assert (Hs := ps_stock cfg v ys zs e x z code None x' Hx Hz Hst).
    rewrite set_taking_none, (list_insert_id zs e z) in Hs by done. apply Hs. clear Hs.
    rewrite (xr_taking _ Hzr), lookup_empty. unfold stock_next in E. unfold stock_thread_next. rewrite Hp in *.
    destruct (put_event (ep_queue x) ev) as [|[q|]]; simpl in *; try done. by injection E as <-.
Qed.

Lemma back_step v ys zs w w1 :
  at_rest ys zs -> counts v ys zs -> same_world v w -> world_step cfg w w1 ->
  exists v1, rtc step (mkProcesses v ys zs) (mkProcesses v1 ys zs) /\ same_world v1 w1 /\ counts v1 ys zs.
Proof using Type.
  intros Hr Hc [Ht He Ho Hrep] Hs. pose proof Hc as [Hc1 Hc2].
  destruct Hs as [w t p p' Hp E|w t p e q pad msg q' Hp Hq Hpad E|w t e x msg rest ex' Hx Hch E
    |w e x code x' Hx Hst E|w e x x' sent Hx E|w t p e msg rest r s Hp Hch E].
  - rewrite Ht in *. eexists. split; [by eapply rtc_once, ps_controller|]. split; [by split|].
    split; simpl; by rewrite ?length_insert.
  - rewrite Ht in *. eexists. split; [by eapply (rest_sends v ys zs t p e q pad)|].
    split; [|split; simpl; by rewrite ?length_insert]. split; simpl; try done. intros k.
    destruct (decide ((t, e) = k)) as [<-|Hne]; [by rewrite !chan_put_same, Ho|by rewrite !chan_put_other].
  - rewrite He in *. rewrite Ho in Hch. eexists. split; [by eapply (rest_orders v ys zs t e x msg rest ex')|].
    split; [|split; simpl; by rewrite ?length_insert]. split; simpl; try done. intros k.
    destruct (decide ((t, e) = k)) as [<-|Hne]; [by rewrite !chan_set_same|by rewrite !chan_set_other].
  - rewrite He in *. eexists. split; [by eapply (rest_stock v ys zs e x code x')|]. split; [by split|].
    split; simpl; by rewrite ?length_insert.
  - rewrite He, Ht in *. destruct (rest_exchange v ys zs e x Hr Hc Hx) as (z & Hz & Hzr).
    eexists. split; [|split].
    + eapply rtc_once, (ps_trade_sender cfg v ys zs e x z x' sent); [done|done|].
      rewrite unlocked_sender by apply (xr_console _ Hzr). unfold paused_sender_next.
      destruct (ep_sending x) as [[msg idx]|] eqn:Es; [|done]. by rewrite andb_false_r.
    + split; simpl; try done. intros k. destruct sent as [[t msg]|]; [|done].
      destruct (decide ((t, e) = k)) as [<-|Hne]; [by rewrite !chan_put_same, Hrep|by rewrite !chan_put_other].
    + split; simpl; by rewrite ?length_insert.
  - rewrite Ht in *. rewrite Hrep in Hch. eexists. split; [by eapply (rest_trades v ys zs t p e msg rest r s)|].
    split; [|split; simpl; by rewrite ?length_insert]. split; simpl; try done. intros k.
    destruct (decide ((t, e) = k)) as [<-|Hne]; [by rewrite !chan_set_same|by rewrite !chan_set_other].
Qed.

Lemma back_run v ys zs w w1 :
  at_rest ys zs -> counts v ys zs -> same_world v w -> rtc (world_step cfg) w w1 ->
  exists v1, rtc step (mkProcesses v ys zs) (mkProcesses v1 ys zs) /\ same_world v1 w1.
Proof using Type.
  intros Hr Hc Hw Hrun. revert v Hc Hw. induction Hrun as [w|w w1 w2 Hs Hrun IH]; intros v Hc Hw; [by exists v|].
  destruct (back_step v ys zs w w1 Hr Hc Hw Hs) as (v1 & Hv & Hw1 & Hc1). destruct (IH v1 Hc1 Hw1) as (v2 & Hv2 & ?).
  exists v2. split; [by etransitivity|done].
Qed.
(** ** Coming to rest *)
Definition idle (ys : list trader_threads) (zs : list exchange_threads) : Prop :=
  Forall (fun y => console_idle (trader_console y)) ys /\ Forall (fun z => console_idle (exchange_console z)) zs.

(** What is still to be sent, handled, matched or unlocked. *)
Definition trader_busy y : nat :=
  (size (unsent y) + (if received y is Some _ then 1 else 0) + (if all_unlocked (trader_console y) then 0 else 1))%nat.
Definition exchange_busy z : nat :=
  (size (taking z) + (if arrived z is Some _ then 1 else 0) + (if all_unlocked (exchange_console z) then 0 else 1))%nat.
Definition busy (ys : list trader_threads) (zs : list exchange_threads) : nat :=
  (sum_list_with trader_busy ys + sum_list_with exchange_busy zs)%nat.

Lemma sum_zero {A} (h : A -> nat) l :
  Forall (fun a => h a = 0%nat) l \/ exists i a, l !! i = Some a /\ (0 < h a)%nat.
Proof using Type.
  induction l as [|a l IH]; [by left|]. destruct (h a) as [|n] eqn:Ea.
  - destruct IH as [?|(i & b & ? & ?)]; [left; by constructor|right]. by exists (S i), b.
  - right. exists 0%nat, a. split; [done|lia].
Qed.

Lemma busy_rests ys zs : idle ys zs ->
  at_rest ys zs \/ (exists t y, ys !! t = Some y /\ (0 < trader_busy y)%nat) \/
  (exists e z, zs !! e = Some z /\ (0 < exchange_busy z)%nat).
Proof using Type.
  intros [Hy Hz]. destruct (sum_zero trader_busy ys) as [Hy0|?]; [|by right; left].
  destruct (sum_zero exchange_busy zs) as [Hz0|?]; [|by right; right]. left. split.
  - apply Forall_lookup. intros t y Ht. pose proof (Forall_lookup_1 _ _ _ _ Hy Ht). pose proof (Forall_lookup_1 _ _ _ _ Hy0 Ht) as Hb.
    cbn beta in *. unfold trader_busy in Hb. split.
    + apply map_size_empty_iff. lia.
    + destruct (received y); [lia|done].
    + split; [done|]. destruct (all_unlocked _); [done|lia].
  - apply Forall_lookup. intros e z He. pose proof (Forall_lookup_1 _ _ _ _ Hz He). pose proof (Forall_lookup_1 _ _ _ _ Hz0 He) as Hb.
    cbn beta in *. unfold exchange_busy in Hb. split.
    + apply map_size_empty_iff. lia.
    + destruct (arrived z); [lia|done].
    + split; [done|]. destruct (all_unlocked _); [done|lia].
Qed.

(** A run to a state with less to do. *)
Definition calmer w ys zs : Prop := exists w1 ys1 zs1,
  rtc step (mkProcesses w ys zs) (mkProcesses w1 ys1 zs1) /\ idle ys1 zs1 /\ (busy ys1 zs1 < busy ys zs)%nat.

Lemma calmer_trader w w1 ys zs t y y1 :
  idle ys zs -> ys !! t = Some y -> console_idle (trader_console y1) -> (trader_busy y1 < trader_busy y)%nat ->
  rtc step (mkProcesses w ys zs) (mkProcesses w1 (<[t := y1]> ys) zs) -> calmer w ys zs.
Proof using Type.
  intros [Hi1 Hi2] Hy Hc Hb Hr. exists w1, (<[t := y1]> ys), zs. split; [done|]. split.
  - split; [by apply Forall_insert|done].
  - unfold busy. pose proof (sum_list_insert trader_busy ys t y y1 Hy). lia.
Qed.

Lemma calmer_exchange w w1 ys zs e z z1 :
  idle ys zs -> zs !! e = Some z -> console_idle (exchange_console z1) -> (exchange_busy z1 < exchange_busy z)%nat ->
  rtc step (mkProcesses w ys zs) (mkProcesses w1 ys (<[e := z1]> zs)) -> calmer w ys zs.
Proof using Type.
  intros [Hi1 Hi2] Hz Hc Hb Hr. exists w1, ys, (<[e := z1]> zs). split; [done|]. split.
  - split; [done|by apply Forall_insert].
  - unfold busy. pose proof (sum_list_insert exchange_busy zs e z z1 Hz). lia.
Qed.

(** The steps of a console are steps of its process. *)
Lemma trader_console_run w ys zs t y c :
  ys !! t = Some y -> rtc (console_step (fun c => trader_ops (length (sender_locks c)))) (trader_console y) c ->
  rtc step (mkProcesses w ys zs) (mkProcesses w (<[t := set_trader_console y c]> ys) zs).
Proof using Type.
  intros Hy Hr. remember (trader_console y) as c0 eqn:Ec. revert ys y Hy Ec.
  induction Hr as [c|c c1 c2 [cmd Hs] Hr IH]; intros ys y Hy ->.
  - replace (set_trader_console y (trader_console y)) with y by (by destruct y). by rewrite list_insert_id.
  - eapply rtc_l; [by eapply ps_trader_console|].
    assert (IH' := IH (<[t := set_trader_console y c1]> ys) (set_trader_console y c1)).
    rewrite list_insert_insert_eq in IH'. apply IH'; [|done]. apply list_lookup_insert_eq. by eapply lookup_lt_Some.
Qed.

Lemma exchange_console_run w ys zs e z c :
  zs !! e = Some z -> rtc (console_step (fun _ => exchange_ops)) (exchange_console z) c ->
  rtc step (mkProcesses w ys zs) (mkProcesses w ys (<[e := set_exchange_console z c]> zs)).
Proof using Type.
  intros Hz Hr. remember (exchange_console z) as c0 eqn:Ec. revert zs z Hz Ec.
  induction Hr as [c|c c1 c2 [cmd Hs] Hr IH]; intros zs z Hz ->.
  - replace (set_exchange_console z (exchange_console z)) with z by (by destruct z). by rewrite list_insert_id.
  - eapply rtc_l; [by eapply ps_exchange_console|].
    assert (IH' := IH (<[e := set_exchange_console z c1]> zs) (set_exchange_console z c1)).
    rewrite list_insert_insert_eq in IH'. apply IH'; [|done]. apply list_lookup_insert_eq. by eapply lookup_lt_Some.
Qed.

Context (rules : Z -> Z -> order_rule) (inputs : Z -> list Order) (Henv : world_env cfg inputs).

Abbreviation inv := (world_inv cfg rules inputs).
Abbreviation moves := (rule_step (stock_num cfg) rules inputs).
Abbreviation sim := (simulates cfg).

Lemma sim_trader_at w ys zs w' t y : sim (mkProcesses w ys zs) w' -> ys !! t = Some y -> exists p, w_traders w !! t = Some p.
Proof using Type.
  intros [Ht _ _ _ _ Hct _] Hy. simpl in *. apply lookup_lt_is_Some_2. rewrite <- Ht, <- Hct. by eapply lookup_lt_Some.
Qed.

Lemma sim_exchange_at w ys zs w' e z : sim (mkProcesses w ys zs) w' -> zs !! e = Some z -> exists x, w_exchanges w !! e = Some x.
Proof using Type.
  intros [_ _ _ _ _ _ [Hce Hce']] Hz. simpl in *. apply lookup_lt_is_Some_2. rewrite Hce', <- Hce. by eapply lookup_lt_Some.
Qed.

Lemma trader_calms dels w ys zs w' t y :
  inv dels w' -> sim (mkProcesses w ys zs) w' -> idle ys zs -> ys !! t = Some y -> (0 < trader_busy y)%nat ->
  calmer w ys zs.
Proof using Henv.
  intros Hi Hs Hid Hy Hb. pose proof (Forall_lookup_1 _ _ _ _ (proj1 Hid) Hy) as Hc. cbn beta in Hc.
  destruct (sim_trader_at _ _ _ _ _ _ Hs Hy) as [p Hp].
  destruct (all_unlocked (trader_console y)) eqn:Hu; [destruct (received y) as [[e msg]|] eqn:Hr|].
  - destruct (trade_handled_law cfg rules inputs Henv dels w ys zs w' t p y e msg Hi Hs Hp Hy Hr) as (r & s & _ & E & _).
    eapply calmer_trader; [done|exact Hy| | |eapply rtc_once, ps_trade_handled; done]; [done|].
    unfold trader_busy. simpl. rewrite Hr. lia.
  - unfold trader_busy in Hb. rewrite Hr, Hu in Hb.
    destruct (map_choose (unsent y)) as (e & msg & He); [intros E; rewrite E, map_size_empty in Hb; lia|].
    assert (Hp' : w_traders w' !! t = Some p) by (by rewrite (sm_traders _ _ _ Hs)).
    destruct (lookup_lt_is_Some_2 (tp_queues p) e) as [q Hq].
    { rewrite (tg_count _ _ _ (wi_traders _ _ _ _ _ Hi t p Hp')). eapply (sm_senders _ _ _ Hs t y); [done|by eexists]. }
    eapply calmer_trader; [done|exact Hy| | |eapply rtc_once,
      (ps_order_sender cfg w ys zs t p y e q (replicate (pod_pad pod_Order) Init.Byte.x00) None q (Some msg))]; try done.
    + unfold trader_busy, set_unsent. cbn [unsent received trader_console]. rewrite Hr, Hu.
      change (partial_alter (fun _ => None) e (unsent y)) with (delete e (unsent y)).
      rewrite map_size_delete_Some by done. lia.
    + unfold order_sender_next. by rewrite He, unlocked_sender.
  - destruct (trader_restarts _ Hc) as (c & Hr & Hc' & Hu').
    eapply calmer_trader; [done|exact Hy| | |by eapply trader_console_run]; [done|].
    unfold trader_busy. simpl. rewrite Hu, Hu'. lia.
Qed.

Lemma exchange_calms dels w ys zs w' e z :
  inv dels w' -> sim (mkProcesses w ys zs) w' -> idle ys zs -> zs !! e = Some z -> (0 < exchange_busy z)%nat ->
  calmer w ys zs.
Proof using Henv.
  intros Hi Hs Hid Hz Hb. pose proof (Forall_lookup_1 _ _ _ _ (proj2 Hid) Hz) as Hc. cbn beta in Hc.
  destruct (sim_exchange_at _ _ _ _ _ _ Hs Hz) as [x Hx].
  destruct (sm_exchanges _ _ _ Hs e x z Hx Hz) as (x' & Hx' & [Ep Eq Esd Est Hwin Hidle Htk Hone]).
  destruct (all_unlocked (exchange_console z)) eqn:Hu; [destruct (arrived z) as [[t msg]|] eqn:Ha|].
  - destruct (order_handled_law cfg rules inputs Henv dels w ys zs w' t e x z msg Hi Hs Hx Hz Ha) as (ex' & _ & E & _).
    eapply calmer_exchange; [done|exact Hz| | |eapply rtc_once, ps_order_handled; done]; [done|].
    unfold exchange_busy. simpl. rewrite Ha. lia.
  - unfold exchange_busy in Hb. rewrite Ha, Hu in Hb.
    destruct (map_choose (taking z)) as (code & tk & Hcode); [intros E; rewrite E, map_size_empty in Hb; lia|].
    assert (Hp : pending x code = []) by (apply Hidle; by eexists).
    assert (Hp' : pending x' code = []) by (unfold pending in *; by rewrite Ep).
    assert (Hst : is_Some (stock_exchange (ep_exchange x') !! code)) by (rewrite Est; apply Htk; by eexists).
    pose proof (stock_inv cfg rules inputs Henv dels w' e x' code Hi Hx' Hst) as Hround.
    destruct (stock_next code x') as [|[x2|]] eqn:En; [by destruct Hround| |done].
    destruct (round_parts x' code x2 Hp' En) as (win & fuel & os & win' & st & st' & Hw & Ea & Hst' & Er & _).
    pose proof (Hwin code) as Hb'. rewrite Hw in Hb'. simpl in Hb'.
    destruct (order_buffer (ep_exchange x) !! code) as [w1|] eqn:Hw1; [|done]. rewrite Est in Hst'.
    destruct (poll_all_rest fuel win w1 win' _ os Hb' Ea) as (fuel' & os' & Ea' & ->).
    eapply calmer_exchange; [done|exact Hz| | |eapply (drain fuel' w ys zs e x z code w1 win' os' st st'); done]; [done|].
    unfold exchange_busy, set_taking. cbn [taking arrived exchange_console]. rewrite Ha, Hu.
    change (partial_alter (fun _ => None) code (taking z)) with (delete code (taking z)).
    rewrite map_size_delete_Some by (by eexists). lia.
  - destruct (exchange_restarts _ Hc Hone) as (c & Hr & Hc' & Hu' & _).
    eapply calmer_exchange; [done|exact Hz| | |by eapply exchange_console_run]; [done|].
    unfold exchange_busy. simpl. rewrite Hu, Hu'. lia.
Qed.

Lemma come_to_rest dels w ys zs w' :
  inv dels w' -> sim (mkProcesses w ys zs) w' -> idle ys zs ->
  exists w1 ys1 zs1, rtc step (mkProcesses w ys zs) (mkProcesses w1 ys1 zs1) /\ at_rest ys1 zs1.
Proof using Henv.
  remember (busy ys zs) as n eqn:En. revert dels w ys zs w' En.
  induction n as [n IH] using lt_wf_ind. intros dels w ys zs w' -> Hi Hs Hid.
  assert (Hgo : calmer w ys zs -> exists w1 ys1 zs1,
    rtc step (mkProcesses w ys zs) (mkProcesses w1 ys1 zs1) /\ at_rest ys1 zs1).
  { intros (w1 & ys1 & zs1 & Hr & Hid1 & Hb).
    destruct (sim_run cfg rules inputs Henv dels _ w' _ Hi Hs Hr) as (w1' & dels1 & _ & _ & Hs1 & Hi1).
    destruct (IH _ Hb dels1 w1 ys1 zs1 w1' eq_refl Hi1 Hs1 Hid1) as (w2 & ys2 & zs2 & Hr2 & Hrest).
    exists w2, ys2, zs2. split; [by etransitivity|done]. }
  destruct (busy_rests ys zs Hid) as [Hr|[(t & y & Hy & Hb)|(e & z & Hz & Hb)]].
  - by exists w, ys, zs.
  - by eapply Hgo, trader_calms.
  - by eapply Hgo, exchange_calms.
Qed.
End live.
