(* ===== verification/ProcessesProps.v ===== *)
(** * Properties of the processes

    What holds of every interleaving of single operations of the threads, with
    consoles that stop and restart senders and receivers at any time. *)

From stdpp Require Import gmap relations.
From S2P Require Import Prelude Double Bytes Config Types StdHeap DeclBook StockExchange.
From S2P Require Import MatchSpec Matching MatchProps OrderedCommit EngineProps.
From S2P Require Import BlockQueue SlidingWindow Messages Exchange Trader TraderProps.
From S2P Require Import TradeReceiver TradeReceiverProps Protocol StockFlow Rules World WorldView WorldInv WorldProps WorldLive.
From S2P Require Import Processes ProcessesSim ProcessesLive.
#[local] Open Scope Z_scope.

(** C1: Safety of the whole program.  The processes start with the orders of
    every stock, with the ids 1, 2, ..., distributed over any number of traders
    in any way; then any number of steps are interleaved, each of them one
    operation of one thread: controllers, order senders, order receivers,
    stocks, trade senders, trade receivers, and consoles that stop and restart
    senders and receivers.  The next step of no thread is a fault; every engine
    has got the first orders of its stock, in the order of their ids, as their
    traders sent them, and is in the state, with the trades, that the
    specification of the engine gives for them; the file that any trader would
    leave for the stock holds the first of these trades; and these orders are
    the first of the final orders of the stock, which depend on the input, the
    hooks and the price limits alone and on no interleaving. *)
Theorem processes_safe `{HeapLib} `{FileIO} {Qo Qm : Type} `{Fifo Qo Order} `{Fifo Qm bytes}
    (cfg : Config) (inputs : Z -> list Order) (w0 : world Qo Qm) (f : processes Qo Qm) :
  world_env cfg inputs -> world_init cfg inputs w0 -> rtc (process_step cfg) (threads_ready cfg w0) f ->
  processes_run cfg f /\
  forall code, 1 <= code <= stock_num cfg -> exists os,
    stock_done cfg inputs (pr_world f) code os /\ os `prefix_of` final_orders cfg inputs w0 code.
Proof.
  intros Henv Hi Hrun. set (rules := rules_of cfg w0). pose proof (world_start_inv cfg inputs Henv w0 Hi) as Hinv.
  destruct (sim_run cfg rules inputs Henv _ _ w0 f Hinv (sim_start cfg w0) Hrun) as (w & dels & _ & Hm & Hs & Hinv').
  split; [by eapply sim_no_fault|]. intros code Hc. exists (dels code).
  split; [by eapply sim_stock_done, inv_done|]. by apply (settled_end (stock_num cfg) rules inputs).
Qed.

(** C2: The whole program gets done, and always in the same way.  If the queues
    have room for at least one element, then every run, whatever the threads
    did and whatever the consoles stopped, can be continued from any state in
    which no console is in the middle of a command: to a state in which the
    engine of every stock has got exactly the final orders of the stock, those
    to which the rules of hooks and prices lead from the input, and for every
    trader and every stock the file the trader leaves reads back as exactly the
    trades that the specification of the engine makes of them. *)
Theorem processes_complete `{HeapLib} `{FileIO} {Qo Qm : Type} {Fo : Fifo Qo Order} {Fm : Fifo Qm bytes}
    {Ro : RoomyFifo Qo Order} {Rm : RoomyFifo Qm bytes}
    (cfg : Config) (inputs : Z -> list Order) (w0 : world Qo Qm) (f : processes Qo Qm) :
  world_env cfg inputs -> world_init cfg inputs w0 -> world_roomy w0 ->
  rtc (process_step cfg) (threads_ready cfg w0) f -> idle (pr_traders f) (pr_exchanges f) ->
  exists f', rtc (process_step cfg) f f' /\
    forall code, 1 <= code <= stock_num cfg ->
      stock_done cfg inputs (pr_world f') code (final_orders cfg inputs w0 code) /\
      forall t p, w_traders (pr_world f') !! t = Some p -> exists r', flush (tp_recv p) = Done r' /\
        trader_file r' code = Some (final_trades cfg inputs w0 code).
Proof.
  intros Henv Hi Hroom Hrun Hid. set (rules := rules_of cfg w0). pose proof (world_start_inv cfg inputs Henv w0 Hi) as Hinv.
  destruct (sim_run cfg rules inputs Henv _ _ w0 f Hinv (sim_start cfg w0) Hrun) as (w & dels & Hw & _ & Hs & Hinv').
  destruct f as [v ys zs].
  destruct (come_to_rest cfg rules inputs Henv dels v ys zs w Hinv' Hs Hid) as (v1 & ys1 & zs1 & Hr1 & Hrest).
  destruct (sim_run cfg rules inputs Henv _ _ w _ Hinv' Hs Hr1) as (w1 & dels1 & Hw1 & _ & Hs1 & Hinv1).
  destruct (world_completes cfg inputs w0 w1 Henv Hi Hroom) as (w2 & Hw2 & Hall); [by etransitivity|].
  pose proof (rest_same cfg _ _ _ _ Hrest Hs1) as Hsame.
  assert (Hc : counts v1 ys1 zs1).
  { destruct Hs1 as [_ _ _ _ _ Hct [Hce Hce']]. simpl in *. split; [by rewrite Hct, (sw_traders _ _ Hsame)|by rewrite Hce, Hce']. }
  destruct (back_run cfg v1 ys1 zs1 w1 w2 Hrest Hc Hsame Hw2) as (v2 & Hr2 & Hsame2).
  exists (mkProcesses v2 ys1 zs1). split; [by etransitivity|]. cbn [pr_world]. intros code Hcode.
  destruct (Hall code Hcode) as [[Hd He Hf] Hfiles]. rewrite (sw_traders _ _ Hsame2) in Hfiles, Hf.
  rewrite (sw_exchanges _ _ Hsame2) in He. by split; [split|].
Qed.

(** ** A run with a stopped trader

    The processes of [WorldProps]: the console of the first trader stops its
    senders, the controller takes its first step. *)
Definition demo_stopped : trader_threads := mkTraderThreads ∅ None (mkConsole [] [true; true] false).
Definition demo_processes : processes (Ring.BlockQueue Order) (Ring.BlockQueue bytes) :=
  mkProcesses (demo_at (demo_next (demo_wtrader demo_wctl1)))
    [demo_stopped; mkTraderThreads ∅ None (console_ready 2)]
    [mkExchangeThreads ∅ None (console_ready 1); mkExchangeThreads ∅ None (console_ready 1)].

Lemma demo_processes_run :
  rtc (process_step (H0 := demo_io) demo_wcfg) (threads_ready demo_wcfg demo_world) demo_processes.
Proof.
  set (zs := [mkExchangeThreads ∅ None (console_ready 1); mkExchangeThreads ∅ None (console_ready 1)]).
  set (ys := fun c => [mkTraderThreads ∅ None c; mkTraderThreads ∅ None (console_ready 2)]).
  assert (Hcon : forall c c' cmd, console_next (trader_ops (length (sender_locks c))) cmd c = Ran (Done c') ->
    process_step (H0 := demo_io) demo_wcfg (mkProcesses demo_world (ys c) zs) (mkProcesses demo_world (ys c') zs)).
  { intros c c' cmd E.
    exact (ps_trader_console (H0 := demo_io) demo_wcfg demo_world (ys c) zs 0 (mkTraderThreads ∅ None c) cmd c' eq_refl E). }
  change (threads_ready demo_wcfg demo_world) with (mkProcesses demo_world (ys (console_ready 2)) zs).
  eapply rtc_l; [apply (Hcon _ (mkConsole [LockSender 0; LockSender 1] [false; false] false) Stops); reflexivity|].
  eapply rtc_l; [apply (Hcon _ (mkConsole [LockSender 1] [true; false] false) Stops); reflexivity|].
  eapply rtc_l; [apply (Hcon _ (mkConsole [] [true; true] false) Stops); reflexivity|].
  apply rtc_once.
  refine (ps_controller (H0 := demo_io) demo_wcfg demo_world (ys (mkConsole [] [true; true] false)) zs 0
    (demo_wtrader demo_wctl1) (demo_next (demo_wtrader demo_wctl1)) eq_refl _).
  vm_compute. reflexivity.
Qed.

Lemma processes_safe_witness :
  rtc (process_step (H0 := demo_io) demo_wcfg) (threads_ready demo_wcfg demo_world) demo_processes /\
  processes_run (H0 := demo_io) demo_wcfg demo_processes /\
  exists os, stock_done (H0 := demo_io) demo_wcfg demo_winputs (pr_world demo_processes) 1 os /\
    os `prefix_of` final_orders demo_wcfg demo_winputs demo_world 1.
Proof.
  split; [exact demo_processes_run|].
  destruct (processes_safe (H0 := demo_io) demo_wcfg demo_winputs demo_world demo_processes) as [Ht Hs];
    [exact demo_world_env|exact demo_world_init|exact demo_processes_run|].
  split; [exact Ht|]. apply Hs. vm_compute. split; congruence.
Defined.

(** Stock 1 ends with one trade; of stock 2 the first order is cancelled, since
    that trade has a higher volume than its hook allows, and the second waits
    for ever. *)
Lemma processes_complete_witness :
  exists f', rtc (process_step (H0 := demo_io) demo_wcfg) demo_processes f' /\
    (exists os, stock_done (H0 := demo_io) demo_wcfg demo_winputs (pr_world f') 2 os /\
       map o_type os = [-1]) /\
    forall t p, w_traders (pr_world f') !! t = Some p ->
      exists r', flush (H := demo_io) (tp_recv p) = Done r' /\
        trader_file r' 1 = Some [mkTrade 1 1 3 price_10 60].
Proof.
  destruct (processes_complete (H0 := demo_io) demo_wcfg demo_winputs demo_world demo_processes)
    as (f' & Hr & Hall);
    [exact demo_world_env|exact demo_world_init|exact demo_world_roomy|exact demo_processes_run
    |split; repeat constructor|].
  exists f'. split; [exact Hr|]. split.
  - destruct (Hall 2) as [Hd _]; [vm_compute; split; congruence|].
    exists (final_orders demo_wcfg demo_winputs demo_world 2). split; [exact Hd|]. vm_compute. reflexivity.
  - destruct (Hall 1) as [_ Hfiles]; [vm_compute; split; congruence|].
    assert (E : final_trades demo_wcfg demo_winputs demo_world 1 = [mkTrade 1 1 3 price_10 60])
      by (vm_compute; reflexivity).
    rewrite E in Hfiles. exact Hfiles.
Defined.
