(* ===== verification/Loader.v ===== *)
(** * Loading the orders ([src/common/loader.hpp], [TraderController::load_data]
    of [src/trader/trader_controller.cpp])

    The input matrices are HDF5 files.  The HDF5 library is third-party code;
    [HDF5] is the interface the loader uses of it.  Everything the loader does
    with the data (the index arithmetic, the split by stock, the sort, the
    hooks, the price limits, the cache files and the in-memory matrices) is
    translated. *)

From stdpp Require Import gmap pretty.
From S2P Require Import Prelude Double Bytes Config Types Trader.
#[local] Open Scope Z_scope.

(** ** File names *)

(** [enum matrix_idx]. *)
Definition order_id_idx : Z := 0.
Definition direction_idx : Z := 1.
Definition type_idx : Z := 2.
Definition price_idx : Z := 3.
Definition volume_idx : Z := 4.
Definition num_matrix : Z := 5.

(** The globals of the loader. *)
Record LoaderNames := mkLoaderNames {
  hook_fname : string;
  INPUT_FILE_NAME : list (list string);
  CACHE_FILE_NAME : list (list string);
  loader_inited : bool;
}.

Definition loader_uninited : LoaderNames := mkLoaderNames "" [] [] false.

Definition init_loader (cfg : Config) : LoaderNames := {|
  hook_fname := data_folder cfg +:+ "hook.h5";
  INPUT_FILE_NAME :=
    [[data_folder cfg +:+ "order_id1.h5"; data_folder cfg +:+ "direction1.h5";
      data_folder cfg +:+ "type1.h5"; data_folder cfg +:+ "price1.h5";
      data_folder cfg +:+ "volume1.h5"];
     [data_folder cfg +:+ "order_id2.h5"; data_folder cfg +:+ "direction2.h5";
      data_folder cfg +:+ "type2.h5"; data_folder cfg +:+ "price2.h5";
      data_folder cfg +:+ "volume2.h5"]];
  CACHE_FILE_NAME :=
    [[trade_output_folder cfg +:+ "order_id1.mat"; trade_output_folder cfg +:+ "direction1.mat";
      trade_output_folder cfg +:+ "type1.mat"; trade_output_folder cfg +:+ "price1.mat";
      trade_output_folder cfg +:+ "volume1.mat"];
     [trade_output_folder cfg +:+ "order_id2.mat"; trade_output_folder cfg +:+ "direction2.mat";
      trade_output_folder cfg +:+ "type2.mat"; trade_output_folder cfg +:+ "price2.mat";
      trade_output_folder cfg +:+ "volume2.mat"]];
  loader_inited := true;
|}.

Definition get_input_fname (L : LoaderNames) (part idx : Z) : outcome string :=
  names ← array_get (INPUT_FILE_NAME L) part;
  array_get names idx.

Definition get_cache_fname (L : LoaderNames) (part idx : Z) : outcome string :=
  names ← array_get (CACHE_FILE_NAME L) part;
  array_get names idx.

(** [get_cache_fname(partition, i) + "-" + std::to_string(t)]. *)
Definition stock_cache_fname (L : LoaderNames) (part idx t : Z) : outcome string :=
  name ← get_cache_fname L part idx;
  Done (name +:+ "-" +:+ pretty t).

Definition DATASET_NAME : list string := ["order_id"; "direction"; "type"; "price"; "volume"].
Definition PREV_CLOSE_DATASET : string := "prev_close".
Definition HOOK_DATASET : string := "hook".

(** ** The HDF5 library

    [h5_rank f d] is the rank of dataset [d] of file [f]; opening a file or a
    dataset that does not exist throws ([None]).  Reading selects a block of
    the dataset ([count] elements from [offset] on, in each dimension) and
    copies it into a buffer with the shape [count]; the result is the buffer
    in row-major order, or [None] when the library throws. *)
Class HDF5 := {
  h5_rank : string -> string -> option Z;
  h5_read_int : string -> string -> list Z -> list Z -> option (list Z);
  h5_read_double : string -> string -> list Z -> list Z -> option (list double);
}.

(** The number of elements of a block. *)
Definition block_size (count : list Z) : Z := foldr Z.mul 1 count.

(** What the library documents: a read fills the whole buffer, with values of
    the element type. *)
Class HDF5Laws (H : HDF5) : Prop := {
  h5_read_int_size f d count offset l :
    h5_read_int f d count offset = Some l -> Z.of_nat (length l) = block_size count;
  h5_read_int_range f d count offset l :
    h5_read_int f d count offset = Some l -> Forall (fun z => is_int z = true) l;
  h5_read_double_size f d count offset l :
    h5_read_double f d count offset = Some l -> Z.of_nat (length l) = block_size count;
  h5_read_double_range f d count offset l :
    h5_read_double f d count offset = Some l -> Forall (fun x => valid_double x = true) l;
}.

(** An exception of the library. *)
Definition or_throw {A} (o : option A) : outcome A :=
  match o with Some a => Done a | None => Fault Thrown end.

(** The files of the cache, by name. *)
Abbreviation filesystem := (gmap string bytes).

Section loader.
Context `{HDF5}.

(** [num_data *= count[i]]: the product is taken in [hsize_t] (64 bits) and
    converted back to [int]. *)
Definition num_data_of (count : list Z) : Z :=
  foldl (fun num_data c => to_signed32 (to_size (num_data * c) mod 2 ^ 32)) 1 count.

(** [load_matrix_from_file]; [dataset_read] is the overload for [T].  The
    block is selected with the same offset in the buffer, whose shape is
    [count]: another offset than 0 leaves the buffer, and the read throws.  A
    buffer smaller than what is read overflows. *)
Definition load_matrix_from_file {T}
    (dataset_read : string -> string -> list Z -> list Z -> option (list T))
    (L : LoaderNames) (fname dataset_name : string) (rank : Z) (count offset : list Z)
    : outcome (list T) :=
  _ ← cassert (loader_inited L);
  let num_data := num_data_of (take (Z.to_nat rank) count) in
  _ ← (if num_data <? 0 then Fault Thrown else Done tt);
  dataset_rank ← or_throw (h5_rank fname dataset_name);
  _ ← cassert (dataset_rank =? rank);
  _ ← (if forallb (Z.eqb 0) offset then Done tt else Fault Thrown);
  data_read ← or_throw (dataset_read fname dataset_name count offset);
  if Z.of_nat (length data_read) <=? num_data then Done data_read else Fault OutOfBounds.

(** [load_single_data_from_file]: one element of a matrix. *)
Definition load_single_data_from_file {T}
    (dataset_read : string -> string -> list Z -> list Z -> option (list T))
    (L : LoaderNames) (part idx coor : Z) : outcome T :=
  fname ← get_input_fname L part idx;
  name ← array_get DATASET_NAME idx;
  data_read ← or_throw (dataset_read fname name [1; 1; 1] [get_x coor; get_y coor; get_z coor]);
  array_get data_read 0.

(** ** [load_order_id_from_file] *)

(** The body of the three loops: the order at (x, y, z) goes to the row of
    its stock. *)
Definition place_order_id (cfg : Config) (data_read : list Z) (x y z : Z)
    (order_id : list (list SortStruct)) : outcome (list (list SortStruct)) :=
  row ← int_mod x (stock_num cfg);
  q ← int_div x (stock_num cfg);
  column ← matrix_index q y z (loader_ny_matrix cfg) (loader_nz_matrix cfg);
  i ← matrix_index x y z (loader_ny_matrix cfg) (loader_nz_matrix cfg);
  id ← array_get data_read i;
  array_update order_id row (fun l => array_set l column (mkSortStruct id (set_coor x y z))).

(** The three loops. *)
Definition split_order_ids (cfg : Config) (data_read : list Z) (order_id : list (list SortStruct))
    : outcome (list (list SortStruct)) :=
  for_lt (loader_nx_matrix cfg) (fun x =>
    for_lt (loader_ny_matrix cfg) (fun y =>
      for_lt (loader_nz_matrix cfg) (fun z => place_order_id cfg data_read x y z))) order_id.

(** [std::sort] with [operator<].  The order is total on the values of
    [SortStruct], so the sorted arrangement is unique and the algorithm does
    not matter. *)
Definition SortStruct_le (a b : SortStruct) : Prop := SortStruct_lt b a = false.
#[global] Instance SortStruct_le_dec : RelDecision SortStruct_le.
Proof. intros a b. unfold SortStruct_le. apply _. Defined.
Definition sort_structs (l : list SortStruct) : list SortStruct := merge_sort SortStruct_le l.

(** [NX * NY * NZ / stock_num]. *)
Definition orders_per_stock (cfg : Config) : outcome Z :=
  a ← int_mul (loader_nx_matrix cfg) (loader_ny_matrix cfg);
  b ← int_mul a (loader_nz_matrix cfg);
  int_div b (stock_num cfg).

Definition load_order_id_from_file (cfg : Config) (L : LoaderNames) (part : Z)
    : outcome (list (list SortStruct)) :=
  fname ← get_input_fname L part order_id_idx;
  data_read ← load_matrix_from_file h5_read_int L fname "order_id" 3
    [loader_nx_matrix cfg; loader_ny_matrix cfg; loader_nz_matrix cfg] [0; 0; 0];
  n ← orders_per_stock cfg;
  row ← vec_new n (mkSortStruct 0 0);
  order_id ← vec_new (stock_num cfg) row;
  order_id ← split_order_ids cfg data_read order_id;
  for_lt (stock_num cfg) (fun t order_id =>
    array_update order_id t (fun l => Done (sort_structs l))) order_id.

(** ** [load_hook] *)

Definition hook_maps : Type := (list (gmap Z HookTarget)) * (list (gmap Z Z)).

(** The body of the two loops. *)
Definition add_hook (data_read : list Z) (x y : Z) (st : hook_maps) : outcome hook_maps :=
  let '(hook, hooked_trade) := st in
  stock_id ← int_mod x 10;
  let i := x * (100 * 4) + y * 4 in
  self_order_id ← array_get data_read i;
  target_stk_code ← array_get data_read (i + 1);
  target_trade_idx ← array_get data_read (i + 2);
  a ← array_get data_read (i + 3);
  hook ← array_update hook stock_id (fun m =>
    Done (<[self_order_id := mkHookTarget target_stk_code target_trade_idx a]> m));
  k ← int_sub target_stk_code 1;
  hooked_trade ← array_update hooked_trade k (fun m => Done (<[target_trade_idx := -1]> m));
  Done (hook, hooked_trade).

Definition load_hook (cfg : Config) (L : LoaderNames) : outcome hook_maps :=
  data_read ← load_matrix_from_file h5_read_int L (hook_fname L) HOOK_DATASET 3
    [10; 100; 4] [0; 0; 0];
  hook ← vec_new (stock_num cfg) ∅;
  hooked_trade ← vec_new (stock_num cfg) ∅;
  for_lt 10 (fun x => for_lt 100 (fun y => add_hook data_read x y)) (hook, hooked_trade).

(** ** [load_prev_close] *)

(** [0.1], the double nearest to it. *)
Definition double_0_1 : double := S754_finite false 7205759403792794 (-56).

Definition set_price_limit (data_read : list double) (t : Z) (price_limits : list (list double))
    : outcome (list (list double)) :=
  d ← array_get data_read t;
  price_limits ← array_update price_limits 0 (fun l => array_set l t (dsub d (dmul d double_0_1)));
  array_update price_limits 1 (fun l => array_set l t (dadd d (dmul d double_0_1))).

Definition load_prev_close (cfg : Config) (L : LoaderNames) (part : Z)
    : outcome (list (list double)) :=
  fname ← get_input_fname L part price_idx;
  data_read ← load_matrix_from_file h5_read_double L fname PREV_CLOSE_DATASET 1
    [stock_num cfg] [0];
  for_lt (stock_num cfg) (set_price_limit data_read) (replicate 2 (replicate 10 dzero)).

(** ** [TraderController::load_data] *)

(** One matrix: [load_matrix_from_file<T>(get_input_fname(part, idx),
    DATASET_NAME[idx], RANK, count, offset)]. *)
Definition load_input {T}
    (dataset_read : string -> string -> list Z -> list Z -> option (list T))
    (cfg : Config) (L : LoaderNames) (idx : Z) : outcome (list T) :=
  fname ← get_input_fname L (partition_idx cfg) idx;
  name ← array_get DATASET_NAME idx;
  load_matrix_from_file dataset_read L fname name 3
    [loader_nx_matrix cfg; loader_ny_matrix cfg; loader_nz_matrix cfg] [0; 0; 0].

(** The four matrices besides the order ids. *)
Definition load_matrices (cfg : Config) (L : LoaderNames) : outcome OrderInfoMatrix :=
  d ← load_input h5_read_int cfg L direction_idx;
  t ← load_input h5_read_int cfg L type_idx;
  p ← load_input h5_read_double cfg L price_idx;
  v ← load_input h5_read_int cfg L volume_idx;
  Done (mkOrderInfoMatrix d t p v).

(** The writes of the order with index [i] of stock [t] into the five cache
    files of the stock, in the order of [matrix_idx]. *)
Definition dump_order (cfg : Config) (sorted_order_id : list (list SortStruct))
    (m : OrderInfoMatrix) (t i : Z) (ofs : list (list bytes)) : outcome (list (list bytes)) :=
  row ← array_get sorted_order_id t;
  ss ← array_get row i;
  let x := get_x (ss_coor ss) in
  let y := get_y (ss_coor ss) in
  let z := get_z (ss_coor ss) in
  _ ← cassert (in_range x (loader_nx_matrix cfg) && in_range y (loader_ny_matrix cfg)
                 && in_range z (loader_nz_matrix cfg));
  r ← int_mod x (stock_num cfg);
  _ ← cassert (t =? r);
  k ← matrix_index x y z (loader_ny_matrix cfg) (loader_nz_matrix cfg);
  d ← array_get (direction_matrix m) k;
  ty ← array_get (type_matrix m) k;
  p ← array_get (price_matrix m) k;
  v ← array_get (volume_matrix m) k;
  let write idx (bs : bytes) (fs : list bytes) := array_update fs idx (fun f => Done (f ++ bs)) in
  array_update ofs t (fun fs =>
    fs ← write order_id_idx (store_int (ss_order_id ss)) fs;
    fs ← write direction_idx (store_int d) fs;
    fs ← write type_idx (store_int ty) fs;
    fs ← write price_idx (store_double p) fs;
    write volume_idx (store_int v) fs).

(** The two loops that write; the streams are opened empty. *)
Definition dump_orders (cfg : Config) (sorted_order_id : list (list SortStruct))
    (m : OrderInfoMatrix) : outcome (list (list bytes)) :=
  num_order ← orders_per_stock cfg;
  ofs ← vec_new (stock_num cfg) (replicate (Z.to_nat num_matrix) []);
  for_lt (stock_num cfg) (fun t =>
    for_lt num_order (fun i => dump_order cfg sorted_order_id m t i)) ofs.

(** What the streams leave in the file system when they are closed. *)
Definition save_streams (cfg : Config) (L : LoaderNames) (ofs : list (list bytes))
    (fs : filesystem) : outcome filesystem :=
  for_lt (stock_num cfg) (fun t =>
    for_lt num_matrix (fun i fs =>
      name ← stock_cache_fname L (partition_idx cfg) i t;
      row ← array_get ofs t;
      contents ← array_get row i;
      Done (<[name := contents]> fs))) fs.

(** The fields of a controller before [load_data]. *)
Definition new_TraderController (cfg : Config) : outcome TraderController :=
  next ← vec_new (stock_num cfg) 0;
  Done (mkTraderController [] [] [] (mkOrderInfoMatrix [] [] [] []) next).

(** [load_data]; the result is the controller, the map of hooked trades that
    its constructor hands to [SharedTradeInfo], and the file system. *)
Definition load_data (cfg : Config) (tc : TraderController) (fs : filesystem)
    : outcome (TraderController * list (gmap Z Z) * filesystem) :=
  let L := init_loader cfg in
  price_limits ← load_prev_close cfg L (partition_idx cfg);
  '(hook, hooked_trade) ← load_hook cfg L;
  let tc1 := mkTraderController price_limits hook (sorted_order_structs tc) (oim tc)
               (next_sorted_struct_idx tc) in
  if load_mode cfg =? 0 then
    sorted_order_id ← load_order_id_from_file cfg L (partition_idx cfg);
    m ← load_matrices cfg L;
    ofs ← dump_orders cfg sorted_order_id m;
    fs ← save_streams cfg L ofs fs;
    Done (tc1, hooked_trade, fs)
  else if load_mode cfg =? 2 then
    sorted_order_structs ← load_order_id_from_file cfg L (partition_idx cfg);
    m ← load_matrices cfg L;
    Done (mkTraderController price_limits hook sorted_order_structs m (next_sorted_struct_idx tc),
          hooked_trade, fs)
  else Done (tc1, hooked_trade, fs).

(** The data part of the constructor: load, then share the hooked trades. *)
Definition init_TraderController (cfg : Config) (fs : filesystem)
    : outcome (TraderController * SharedTradeInfo * filesystem) :=
  tc ← new_TraderController cfg;
  '(tc, hooked_trade, fs) ← load_data cfg tc fs;
  Done (tc, new_SharedTradeInfo cfg hooked_trade, fs).
End loader.
