(* ===== verification/LoaderProps.v ===== *)
(** * Properties of the loader

    The order ids are split by stock without losing or duplicating an order,
    every row is sorted, and what the loader leaves in the controller meets
    the conditions under which the trader runs without a failing assertion. *)

From stdpp Require Import gmap.
From S2P Require Import Prelude Double Bytes Config Types Trader TraderProps Loader.
#[local] Open Scope Z_scope.

(** ** Loading a matrix *)
Section matrix.
Context `{HH : HDF5} (laws : HDF5Laws HH).

Lemma num_data_step n c : 0 <= n * c <= INT_MAX -> to_signed32 (to_size (n * c) mod 2 ^ 32) = n * c.
Proof.
  unfold INT_MAX. intros Hn. rewrite to_size_small by lia. unfold to_signed32.
  rewrite Z.mod_small by lia. destruct (Z.ltb_spec (n * c) (2 ^ 31)); lia.
Qed.

Lemma num_data_3 a b c :
  0 < a -> 0 < b -> 0 < c -> a * b * c <= INT_MAX -> num_data_of [a; b; c] = a * b * c.
Proof.
  intros. unfold num_data_of. cbn [foldl].
  assert (0 < a * b) by nia. assert (a <= a * b) by nia. assert (a * b <= a * b * c) by nia.
  rewrite (num_data_step 1 a) by lia. rewrite (num_data_step (1 * a) b) by lia.
  rewrite num_data_step by lia. lia.
Qed.

(** A read of a matrix with the configured dimensions that the library does
    not refuse. *)
Lemma load_matrix_ok {T} (read : string -> string -> list Z -> list Z -> option (list T))
    L fname ds a b c data :
  loader_inited L = true -> 0 < a -> 0 < b -> 0 < c -> a * b * c <= INT_MAX ->
  h5_rank fname ds = Some 3 -> read fname ds [a; b; c] [0; 0; 0] = Some data ->
  Z.of_nat (length data) = block_size [a; b; c] ->
  load_matrix_from_file read L fname ds 3 [a; b; c] [0; 0; 0] = Done data.
Proof.
  intros HL Ha Hb Hc Hfit Hrank Hread Hlen. unfold load_matrix_from_file.
  rewrite HL. cbn [cassert]. rewrite bind_Done. change (Z.to_nat 3) with 3%nat. cbn [take]. cbv zeta.
  rewrite num_data_3 by done.
  assert (0 < a * b) by nia. assert (0 < a * b * c) by nia.
  destruct (Z.ltb_spec (a * b * c) 0); [lia|]. rewrite bind_Done, Hrank. cbn [or_throw]. rewrite bind_Done.
  cbn [Z.eqb Pos.eqb cassert forallb andb]. rewrite !bind_Done, Hread. cbn [or_throw]. rewrite bind_Done, Hlen.
  unfold block_size. cbn [foldr]. destruct (Z.leb_spec (a * (b * (c * 1))) (a * b * c)); [done|lia].
Qed.
End matrix.

(** ** The dimensions the loader needs

    Ten bits hold a coordinate, an [int] the number of orders, and the number
    of stocks divides the first dimension. *)
Record dims_ok (cfg : Config) : Prop := {
  dk_nx : 0 < loader_nx_matrix cfg <= 1024;
  dk_ny : 0 < loader_ny_matrix cfg <= 1024;
  dk_nz : 0 < loader_nz_matrix cfg <= 1024;
  dk_stocks : 0 < stock_num cfg;
  dk_divides : loader_nx_matrix cfg mod stock_num cfg = 0;
  dk_fits : loader_nx_matrix cfg * loader_ny_matrix cfg * loader_nz_matrix cfg <= INT_MAX;
}.

(** The orders of a plane. *)
Definition plane (cfg : Config) : Z := loader_ny_matrix cfg * loader_nz_matrix cfg.
(** The planes of a stock. *)
Definition planes_per_stock (cfg : Config) : Z := loader_nx_matrix cfg / stock_num cfg.
(** The orders of a stock. *)
Definition stock_orders (cfg : Config) : Z := planes_per_stock cfg * plane cfg.

(** The order at plane [x], position [w] of the plane. *)
Definition cell (cfg : Config) (data : list Z) (x w : Z) : SortStruct :=
  mkSortStruct (default 0 (data !! Z.to_nat (x * plane cfg + w)))
    (set_coor x (w / loader_nz_matrix cfg) (w mod loader_nz_matrix cfg)).

(** The orders of stock [t] in the order of the matrix: its planes are [t],
    [t + stock_num], [t + 2 * stock_num] and so on. *)
Definition stock_cells (cfg : Config) (data : list Z) (t : Z) : list SortStruct :=
  map (fun k => let k := Z.of_nat k in
                cell cfg data (k / plane cfg * stock_num cfg + t) (k mod plane cfg))
    (seq 0 (Z.to_nat (stock_orders cfg))).

Section split.
Context (cfg : Config) (dk : dims_ok cfg).

Lemma dims_facts :
  0 < plane cfg /\ loader_nx_matrix cfg = planes_per_stock cfg * stock_num cfg /\
  0 < planes_per_stock cfg /\ loader_nx_matrix cfg * plane cfg <= INT_MAX /\
  0 < stock_orders cfg <= loader_nx_matrix cfg * plane cfg /\
  loader_nx_matrix cfg * plane cfg = stock_orders cfg * stock_num cfg.
Proof.
  destruct dk as [Hx Hy Hz Hs Hd Hf]. unfold plane, planes_per_stock, stock_orders, planes_per_stock, plane.
  pose proof (Z.div_mod (loader_nx_matrix cfg) (stock_num cfg) ltac:(lia)) as E. rewrite Hd in E.
  assert (0 < loader_ny_matrix cfg * loader_nz_matrix cfg) by nia.
  assert (0 < loader_nx_matrix cfg / stock_num cfg) by nia.
  set (q := loader_nx_matrix cfg / stock_num cfg) in *.
  set (M := loader_ny_matrix cfg * loader_nz_matrix cfg) in *.
  assert (Ex : loader_nx_matrix cfg = q * stock_num cfg) by lia.
  split_and!; [lia|lia|lia|nia|nia|nia|]. rewrite Ex. ring.
Qed.

Lemma orders_per_stock_ok : orders_per_stock cfg = Done (stock_orders cfg).
Proof.
  pose proof dims_facts as (HM & Ex & Hq & Hf & Hn & En).
  destruct dk as [Hx Hy Hz Hs Hd Hfit]. unfold orders_per_stock.
  assert (Hint : forall v, 0 <= v <= 2147483647 -> INT_MIN <= v <= INT_MAX)
    by (unfold INT_MIN, INT_MAX; lia).
  assert (E3 : loader_nx_matrix cfg * loader_ny_matrix cfg * loader_nz_matrix cfg
    = stock_orders cfg * stock_num cfg) by (rewrite <- En; unfold plane; ring).
  assert (0 < loader_nx_matrix cfg * loader_ny_matrix cfg) by nia.
  unfold INT_MAX in *.
  rewrite (int_mul_ok (loader_nx_matrix cfg)), bind_Done by (apply Hint; nia).
  rewrite int_mul_ok, bind_Done by (apply Hint; nia).
  rewrite E3, int_div_ok; [|unfold INT_MAX; nia|lia]. by rewrite Z.div_mul by lia.
Qed.

(** The rows have the right shape, and the cells placed so far are right:
    those with a linear index below [n]. *)
Record placed (data : list Z) (n : Z) (rows : list (list SortStruct)) : Prop := {
  pl_rows : Z.of_nat (length rows) = stock_num cfg;
  pl_cols row : row ∈ rows -> Z.of_nat (length row) = stock_orders cfg;
  pl_cells x w :
    0 <= x < loader_nx_matrix cfg -> 0 <= w < plane cfg -> x * plane cfg + w < n ->
    exists row, rows !! Z.to_nat (x mod stock_num cfg) = Some row /\
      row !! Z.to_nat (x / stock_num cfg * plane cfg + w) = Some (cell cfg data x w);
}.

(** Where a cell goes, and that two cells do not meet. *)
Lemma cell_column x w :
  0 <= x < loader_nx_matrix cfg -> 0 <= w < plane cfg ->
  0 <= x mod stock_num cfg < stock_num cfg /\ 0 <= x / stock_num cfg < planes_per_stock cfg /\
  0 <= x / stock_num cfg * plane cfg + w < stock_orders cfg.
Proof.
  pose proof dims_facts as (HM & Ex & Hq & _). intros Hx Hw.
  destruct dk as [_ _ _ Hs _ _].
  pose proof (Z.mod_pos_bound x (stock_num cfg) Hs).
  assert (0 <= x / stock_num cfg) by (apply Z.div_pos; lia).
  assert (x / stock_num cfg < planes_per_stock cfg) by (apply Z.div_lt_upper_bound; lia).
  unfold stock_orders. split_and!; try lia; nia.
Qed.

Lemma mixed_radix_inj M a b v w :
  0 <= v < M -> 0 <= w < M -> a * M + v = b * M + w -> a = b /\ v = w.
Proof. intros Hv Hw E. assert (a = b) by nia. subst. lia. Qed.

Lemma cell_distinct x w x' w' :
  0 <= x < loader_nx_matrix cfg -> 0 <= w < plane cfg ->
  0 <= x' < loader_nx_matrix cfg -> 0 <= w' < plane cfg ->
  x mod stock_num cfg = x' mod stock_num cfg ->
  x / stock_num cfg * plane cfg + w = x' / stock_num cfg * plane cfg + w' -> x = x' /\ w = w'.
Proof.
  intros Hx Hw Hx' Hw' Em Ec. apply mixed_radix_inj in Ec as [Eq ->]; [|done..]. split; [|done].
  destruct dk as [_ _ _ Hs _ _].
  rewrite (Z.div_mod x (stock_num cfg)), (Z.div_mod x' (stock_num cfg)) by lia. by rewrite Em, Eq.
Qed.

Lemma place_order_id_step data x y z rows :
  Z.of_nat (length data) = loader_nx_matrix cfg * plane cfg ->
  0 <= x < loader_nx_matrix cfg -> 0 <= y < loader_ny_matrix cfg -> 0 <= z < loader_nz_matrix cfg ->
  placed data (x * plane cfg + y * loader_nz_matrix cfg + z) rows ->
  exists rows', place_order_id cfg data x y z rows = Done rows' /\
    placed data (x * plane cfg + y * loader_nz_matrix cfg + z + 1) rows'.
Proof.
  intros Hdata Hx Hy Hz [Hr Hc Hcells].
  pose proof dims_facts as (HM & Ex & Hq & Hf & Hn & En).
  pose proof dk as [Dx Dy Dz Hs Hd Hfit]. set (w := y * loader_nz_matrix cfg + z).
  assert (Hw : 0 <= w < plane cfg) by (unfold w, plane; nia).
  pose proof (cell_column x w Hx Hw) as (Hrow & Hqx & Hcol).
  unfold place_order_id. rewrite int_mod_ok, bind_Done by lia.
  rewrite int_div_ok, bind_Done by (unfold INT_MAX; lia).
  destruct (matrix_index_ok (x / stock_num cfg) y z (planes_per_stock cfg) (loader_ny_matrix cfg)
    (loader_nz_matrix cfg)) as [E1 _]; [done..|unfold stock_orders, plane in *; lia|].
  rewrite E1, bind_Done.
  destruct (matrix_index_ok x y z (loader_nx_matrix cfg) (loader_ny_matrix cfg)
    (loader_nz_matrix cfg)) as [E2 Hi]; [done..|]. rewrite E2, bind_Done.
  fold (plane cfg) in *.
  replace (x * plane cfg + y * loader_nz_matrix cfg + z) with (x * plane cfg + w) in * by (unfold w; lia).
  replace (x / stock_num cfg * plane cfg + y * loader_nz_matrix cfg + z)
    with (x / stock_num cfg * plane cfg + w) by (unfold w; lia).
  destruct (array_get_total data (x * plane cfg + w)) as (oid & Hid & ->); [lia|]. rewrite bind_Done.
  destruct (lookup_lt_is_Some_2 rows (Z.to_nat (x mod stock_num cfg))) as [row Hlook]; [lia|].
  assert (Hlen : Z.of_nat (length row) = stock_orders cfg)
    by (apply Hc; by eapply list_elem_of_lookup_2).
  erewrite array_update_ok; [|lia|done|by apply array_set_ok; lia].
  assert (Ecell : mkSortStruct oid (set_coor x y z) = cell cfg data x w).
  { unfold cell. rewrite Hid. cbn [from_option id]. f_equal.
    replace (w / loader_nz_matrix cfg) with y
      by (unfold w; rewrite Z.div_add_l, (Z.div_small z) by lia; lia).
    replace (w mod loader_nz_matrix cfg) with z; [done|].
    unfold w. rewrite Z.add_comm, Z.mod_add, Z.mod_small by lia. done. }
  rewrite Ecell. eexists. split; [done|]. split.
  - by rewrite length_insert.
  - intros r Hin. apply list_elem_of_lookup in Hin as [k Hk].
    destruct (decide (k = Z.to_nat (x mod stock_num cfg))) as [->|Hne].
    + rewrite list_lookup_insert_eq in Hk by lia. injection Hk as <-. by rewrite length_insert.
    + rewrite list_lookup_insert_ne in Hk by done. apply Hc. by eapply list_elem_of_lookup_2.
  - intros x' w' Hx' Hw' Hlt. pose proof (cell_column x' w' Hx' Hw') as (Hrow' & Hqx' & Hcol').
    destruct (decide (x' * plane cfg + w' = x * plane cfg + w)) as [Eq|Hne].
    { apply mixed_radix_inj in Eq as [-> ->]; [|done..].
      eexists. rewrite list_lookup_insert_eq by lia. split; [done|].
      rewrite list_lookup_insert_eq by lia. done. }
    destruct (Hcells x' w' Hx' Hw') as (row' & Hlook' & Hcell'); [lia|].
    destruct (decide (x' mod stock_num cfg = x mod stock_num cfg)) as [Em|Hm].
    + rewrite Em in Hlook'. rewrite Hlook in Hlook'. injection Hlook' as <-.
      rewrite Em. eexists. rewrite list_lookup_insert_eq by lia. split; [done|].
      rewrite list_lookup_insert_ne; [done|]. intros Eq.
      destruct (cell_distinct x w x' w') as [-> ->]; [done..|lia|]. done.
    + exists row'. rewrite list_lookup_insert_ne by lia. done.
Qed.

Lemma split_order_ids_spec data rows :
  Z.of_nat (length data) = loader_nx_matrix cfg * plane cfg -> placed data 0 rows ->
  exists rows', split_order_ids cfg data rows = Done rows' /\
    placed data (loader_nx_matrix cfg * plane cfg) rows'.
Proof.
  intros Hdata H0. pose proof dk as [Dx Dy Dz _ _ _]. unfold split_order_ids.
  apply (for_lt_inv (fun x => placed data (x * plane cfg))); [lia|done|].
  intros x rows1 Hx H1.
  destruct (for_lt_inv (fun y => placed data (x * plane cfg + y * loader_nz_matrix cfg))
    (loader_ny_matrix cfg) (fun y => for_lt (loader_nz_matrix cfg) (fun z => place_order_id cfg data x y z)) rows1)
    as (rows2 & E2 & H2); [lia|by rewrite Z.add_0_r| |].
  - intros y rows2 Hy H2.
    destruct (for_lt_inv (fun z => placed data (x * plane cfg + y * loader_nz_matrix cfg + z))
      (loader_nz_matrix cfg) (fun z => place_order_id cfg data x y z) rows2)
      as (rows3 & E3 & H3); [lia|by rewrite Z.add_0_r| |].
    + intros z rows3 Hz H3. rewrite Z.add_assoc. by apply place_order_id_step.
    + exists rows3. split; [done|].
      by replace (x * plane cfg + (y + 1) * loader_nz_matrix cfg)
        with (x * plane cfg + y * loader_nz_matrix cfg + loader_nz_matrix cfg) by lia.
  - exists rows2. split; [done|]. by replace ((x + 1) * plane cfg)
      with (x * plane cfg + loader_ny_matrix cfg * loader_nz_matrix cfg) by (unfold plane; lia).
Qed.

(** Once every cell is placed, row [t] is the orders of stock [t]. *)
Lemma placed_row data rows t :
  placed data (loader_nx_matrix cfg * plane cfg) rows -> 0 <= t < stock_num cfg ->
  rows !! Z.to_nat t = Some (stock_cells cfg data t).
Proof.
  intros [Hr Hc Hcells] Ht. pose proof dims_facts as (HM & Ex & Hq & Hf & Hn & En).
  destruct (lookup_lt_is_Some_2 rows (Z.to_nat t)) as [row Hlook]; [lia|]. rewrite Hlook. f_equal.
  assert (Hlen : Z.of_nat (length row) = stock_orders cfg)
    by (apply Hc; by eapply list_elem_of_lookup_2).
  apply list_eq. intros k. unfold stock_cells. rewrite list_lookup_fmap.
  destruct (decide (k < Z.to_nat (stock_orders cfg))%nat) as [Hk|Hk].
  - rewrite lookup_seq_lt by done. cbn [fmap option_fmap option_map]. rewrite Nat.add_0_l.
    set (q := Z.of_nat k / plane cfg). set (w := Z.of_nat k mod plane cfg).
    assert (Hw : 0 <= w < plane cfg) by (apply Z.mod_pos_bound; lia).
    assert (Hdiv : Z.of_nat k = plane cfg * q + w) by (apply Z.div_mod; lia).
    assert (Hq' : 0 <= q < planes_per_stock cfg).
    { split; [apply Z.div_pos; lia|]. apply Z.div_lt_upper_bound; [lia|]. unfold stock_orders in *. lia. }
    assert (E1 : (q * stock_num cfg + t) mod stock_num cfg = t)
      by (rewrite Z.add_comm, Z.mod_add by lia; by apply Z.mod_small).
    assert (E2 : (q * stock_num cfg + t) / stock_num cfg = q)
      by (rewrite Z.div_add_l, Z.div_small by lia; lia).
    destruct (Hcells (q * stock_num cfg + t) w) as (row' & Hl & Hcell); [nia|done| |].
    { assert (q * stock_num cfg + t < loader_nx_matrix cfg) by nia. nia. }
    rewrite E1, Hlook in Hl. injection Hl as <-. rewrite E2 in Hcell.
    replace (Z.to_nat (q * plane cfg + w)) with k in Hcell by lia. done.
  - rewrite lookup_ge_None_2 by lia. by rewrite lookup_seq_ge by lia.
Qed.

Lemma placed_init data n :
  n <= 0 -> placed data n (replicate (Z.to_nat (stock_num cfg)) (replicate (Z.to_nat (stock_orders cfg)) (mkSortStruct 0 0))).
Proof.
  pose proof dims_facts as (HM & _ & _ & _ & Hn & _). pose proof dk as [_ _ _ Hs _ _]. intros Hle. split.
  - rewrite length_replicate. lia.
  - intros row Hin. apply elem_of_replicate in Hin as [-> _]. rewrite length_replicate. lia.
  - intros x w Hx Hw Hlt. nia.
Qed.

(** Every order of the matrix is a cell of its stock. *)
Lemma stock_cells_complete data x y z oid :
  0 <= x < loader_nx_matrix cfg -> 0 <= y < loader_ny_matrix cfg -> 0 <= z < loader_nz_matrix cfg ->
  data !! Z.to_nat (x * (loader_ny_matrix cfg * loader_nz_matrix cfg) + y * loader_nz_matrix cfg + z) = Some oid ->
  mkSortStruct oid (set_coor x y z) ∈ stock_cells cfg data (x mod stock_num cfg).
Proof.
  intros Hx Hy Hz Hoid. pose proof dk as [Dx Dy Dz Hs _ _].
  pose proof dims_facts as (HM & _). set (w := y * loader_nz_matrix cfg + z).
  assert (Hw : 0 <= w < plane cfg) by (unfold w, plane; nia).
  pose proof (cell_column x w Hx Hw) as (Hrow & Hqx & Hcol).
  apply list_elem_of_fmap. exists (Z.to_nat (x / stock_num cfg * plane cfg + w)).
  split; [|apply elem_of_seq; lia]. cbv zeta. rewrite Z2Nat.id by lia.
  rewrite Z.div_add_l, (Z.div_small w) by lia.
  replace ((x / stock_num cfg + 0) * stock_num cfg + x mod stock_num cfg) with x
    by (pose proof (Z.div_mod x (stock_num cfg)); lia).
  rewrite (Z.add_comm _ w), Z.mod_add, (Z.mod_small w) by lia. unfold cell. f_equal.
  - replace (x * plane cfg + w)
      with (x * (loader_ny_matrix cfg * loader_nz_matrix cfg) + y * loader_nz_matrix cfg + z)
      by (unfold w, plane; lia). by rewrite Hoid.
  - unfold w. rewrite Z.div_add_l, (Z.div_small z), Z.add_0_r by lia.
    by rewrite (Z.add_comm _ z), Z.mod_add, (Z.mod_small z) by lia.
Qed.

(** The coordinates of a cell of stock [t]. *)
Lemma stock_cells_struct_ok data t : 0 <= t < stock_num cfg -> Forall (struct_ok cfg t) (stock_cells cfg data t).
Proof.
  intros Ht. pose proof dims_facts as (HM & Ex & Hq & Hf & Hn & En).
  pose proof dk as [Dx Dy Dz Hs _ _].
  apply Forall_forall. intros ss Hin. unfold stock_cells in Hin.
  apply list_elem_of_fmap in Hin as (k & -> & Hk). apply elem_of_seq in Hk.
  cbv zeta. set (q := Z.of_nat k / plane cfg). set (w := Z.of_nat k mod plane cfg).
  assert (Hw : 0 <= w < plane cfg) by (apply Z.mod_pos_bound; lia).
  assert (Hdiv : Z.of_nat k = plane cfg * q + w) by (apply Z.div_mod; lia).
  assert (Hq' : 0 <= q < planes_per_stock cfg).
  { split; [apply Z.div_pos; lia|]. apply Z.div_lt_upper_bound; [lia|]. unfold stock_orders in *. lia. }
  assert (Hx : 0 <= q * stock_num cfg + t < loader_nx_matrix cfg) by nia.
  pose proof (Z.mod_pos_bound w (loader_nz_matrix cfg) ltac:(lia)).
  assert (Hy : 0 <= w / loader_nz_matrix cfg < loader_ny_matrix cfg).
  { split; [apply Z.div_pos; lia|]. apply Z.div_lt_upper_bound; [lia|]. unfold plane in *. lia. }
  unfold cell. destruct (get_set_coor (q * stock_num cfg + t) (w / loader_nz_matrix cfg) (w mod loader_nz_matrix cfg))
    as (Gx & Gy & Gz).
  rewrite (Z.mod_small (q * stock_num cfg + t)) in Gx by lia.
  rewrite (Z.mod_small (w / loader_nz_matrix cfg)) in Gy by lia.
  rewrite (Z.mod_small (w mod loader_nz_matrix cfg)) in Gz by lia.
  split; cbn [ss_coor]; rewrite ?Gx, ?Gy, ?Gz; [lia..|].
  rewrite Z.add_comm, Z.mod_add by lia. by apply Z.mod_small.
Qed.
End split.

(** ** The sort *)
#[global] Instance SortStruct_le_total : Total SortStruct_le.
Proof.
  intros [i c] [j d]. unfold SortStruct_le, SortStruct_lt. cbn [ss_order_id ss_coor].
  destruct (Z.eqb_spec i j), (Z.eqb_spec j i); cbn [negb]; rewrite ?Z.ltb_ge; lia.
Qed.

#[global] Instance SortStruct_le_trans : Transitive SortStruct_le.
Proof.
  intros [i c] [j d] [k e]. unfold SortStruct_le, SortStruct_lt. cbn [ss_order_id ss_coor].
  destruct (Z.eqb_spec j i), (Z.eqb_spec k j), (Z.eqb_spec k i); cbn [negb]; rewrite ?Z.ltb_ge; lia.
Qed.

#[global] Instance SortStruct_le_antisymm : AntiSymm (=) SortStruct_le.
Proof.
  intros [i c] [j d]. unfold SortStruct_le, SortStruct_lt. cbn [ss_order_id ss_coor].
  destruct (Z.eqb_spec j i), (Z.eqb_spec i j); cbn [negb]; rewrite ?Z.ltb_ge; intros;
    try (exfalso; lia). subst. f_equal. lia.
Qed.

(** Any sorted arrangement of the elements is the one of the model. *)
Lemma sort_structs_unique l l' :
  l' ≡ₚ l -> StronglySorted SortStruct_le l' -> l' = sort_structs l.
Proof.
  intros Hp Hs. apply (StronglySorted_unique SortStruct_le); [done| |].
  - apply (StronglySorted_merge_sort SortStruct_le).
  - unfold sort_structs. by rewrite merge_sort_Permutation.
Qed.

Lemma sort_structs_sorted l : StronglySorted SortStruct_le (sort_structs l).
Proof. apply (StronglySorted_merge_sort SortStruct_le). Qed.

Lemma sort_structs_perm l : sort_structs l ≡ₚ l.
Proof. apply merge_sort_Permutation. Qed.

(** The loop that sorts the rows. *)
Lemma sort_rows_spec (s : Z) (rows : list (list SortStruct)) :
  0 <= s -> Z.of_nat (length rows) = s ->
  for_lt s (fun t rows => array_update rows t (fun l => Done (sort_structs l))) rows
    = Done (map sort_structs rows).
Proof.
  intros Hs Hlen.
  destruct (for_lt_inv (fun t rs => rs = map sort_structs (take (Z.to_nat t) rows) ++ drop (Z.to_nat t) rows)
    s (fun t rows => array_update rows t (fun l => Done (sort_structs l))) rows) as (rs & E & ->);
    [done|done| |].
  - intros t rs Ht ->. destruct (lookup_lt_is_Some_2 rows (Z.to_nat t)) as [row Hrow]; [lia|].
    pose proof (lookup_lt_Some _ _ _ Hrow).
    assert (El : length (map sort_structs (take (Z.to_nat t) rows)) = Z.to_nat t)
      by (rewrite length_map, length_take; lia).
    erewrite array_update_ok; [|lia| |done].
    2:{ rewrite lookup_app_r by lia. rewrite El, Nat.sub_diag, lookup_drop, Nat.add_0_r. done. }
    eexists. split; [done|]. rewrite insert_app_r_alt by lia. rewrite El, Nat.sub_diag.
    replace (Z.to_nat (t + 1)) with (S (Z.to_nat t)) by lia.
    rewrite (take_S_r _ _ _ Hrow), map_app, <- app_assoc. f_equal.
    by rewrite (drop_S _ _ _ Hrow).
  - rewrite E. rewrite take_ge, drop_ge, app_nil_r by lia. done.
Qed.

(** ** Loading the order ids *)
Section order_ids.
Context `{HH : HDF5} (laws : HDF5Laws HH) (cfg : Config) (dk : dims_ok cfg).

Lemma load_order_id_spec L part fname data :
  loader_inited L = true -> get_input_fname L part order_id_idx = Done fname ->
  h5_rank fname "order_id" = Some 3 ->
  h5_read_int fname "order_id" [loader_nx_matrix cfg; loader_ny_matrix cfg; loader_nz_matrix cfg] [0; 0; 0]
    = Some data ->
  exists rows, load_order_id_from_file cfg L part = Done rows /\
    Z.of_nat (length rows) = stock_num cfg /\
    forall t, 0 <= t < stock_num cfg -> rows !! Z.to_nat t = Some (sort_structs (stock_cells cfg data t)).
Proof.
  intros HL Hname Hrank Hread. pose proof dk as [Dx Dy Dz Hs Hd Hfit].
  pose proof (dims_facts cfg dk) as (HM & Ex & Hq & Hf & Hn & En).
  pose proof (h5_read_int_size _ _ _ _ _ Hread) as Hlen.
  unfold load_order_id_from_file. rewrite Hname, bind_Done.
  rewrite (load_matrix_ok h5_read_int L fname "order_id" _ _ _ data), bind_Done by (done || lia).
  rewrite orders_per_stock_ok, bind_Done by done.
  unfold vec_new. destruct (Z.ltb_spec (stock_orders cfg) 0); [lia|]. rewrite bind_Done.
  destruct (Z.ltb_spec (stock_num cfg) 0); [lia|]. rewrite bind_Done.
  destruct (split_order_ids_spec cfg dk data (replicate (Z.to_nat (stock_num cfg))
    (replicate (Z.to_nat (stock_orders cfg)) (mkSortStruct 0 0)))) as (rows & -> & Hrows).
  { rewrite Hlen. unfold block_size, plane. cbn [foldr]. lia. }
  { by apply placed_init. }
  rewrite bind_Done. rewrite sort_rows_spec by (lia || apply Hrows).
  eexists. split; [done|]. rewrite length_map. split; [apply Hrows|].
  intros t Ht. by rewrite list_lookup_fmap, (placed_row cfg dk data rows t Hrows Ht).
Qed.
End order_ids.

(** ** Hooks *)

(** Field [j] of hook [y] of stock [x]. *)
Definition hook_field (data : list Z) (x y j : Z) : Z := default 0 (data !! Z.to_nat (x * (100 * 4) + y * 4 + j)).

Definition hook_target (data : list Z) (x y : Z) : HookTarget :=
  mkHookTarget (hook_field data x y 1) (hook_field data x y 2) (hook_field data x y 3).

(** After the first [n] hooks, [100 * x + y] being the number of a hook. *)
Record hooks_added (cfg : Config) (data : list Z) (n : Z) (st : hook_maps) : Prop := {
  ha_hook : Z.of_nat (length st.1) = stock_num cfg;
  ha_trades : Z.of_nat (length st.2) = stock_num cfg;
  ha_targets t h oid ht : st.1 !! t = Some h -> h !! oid = Some ht ->
    1 <= target_stk_code ht <= stock_num cfg /\
    exists m, st.2 !! Z.to_nat (target_stk_code ht - 1) = Some m /\ m !! target_trade_idx ht = Some (-1);
  ha_last x y : 0 <= x < 10 -> 0 <= y < 100 -> 100 * x + y < n ->
    (forall y', y < y' < 100 -> 100 * x + y' < n -> hook_field data x y' 0 <> hook_field data x y 0) ->
    exists h, st.1 !! Z.to_nat x = Some h /\ h !! hook_field data x y 0 = Some (hook_target data x y);
  ha_fresh i m k v : st.2 !! i = Some m -> m !! k = Some v -> v = -1;
}.

Lemma hook_field_get data x y j :
  Z.of_nat (length data) = 4000 -> 0 <= x < 10 -> 0 <= y < 100 -> 0 <= j < 4 ->
  array_get data (x * (100 * 4) + y * 4 + j) = Done (hook_field data x y j).
Proof.
  intros Hlen Hx Hy Hj. unfold hook_field.
  destruct (array_get_total data (x * (100 * 4) + y * 4 + j)) as (v & E & ->); [lia|]. by rewrite E.
Qed.

Lemma add_hook_step cfg data x y st :
  Z.of_nat (length data) = 4000 -> 10 <= stock_num cfg <= INT_MAX -> 0 <= x < 10 -> 0 <= y < 100 ->
  1 <= hook_field data x y 1 <= stock_num cfg -> hooks_added cfg data (100 * x + y) st ->
  exists st', add_hook data x y st = Done st' /\ hooks_added cfg data (100 * x + y + 1) st'.
Proof.
  intros Hlen Hs Hx Hy Hcode [H1 H2 Htg Hlast Hfresh]. destruct st as [hook trades]. cbn [fst snd] in *.
  unfold add_hook. rewrite int_mod_ok, bind_Done, (Z.mod_small x) by lia. cbv zeta.
  pose proof (hook_field_get data x y 0 Hlen Hx Hy ltac:(lia)) as E0. rewrite Z.add_0_r in E0.
  rewrite E0, bind_Done, !hook_field_get, !bind_Done by lia.
  destruct (lookup_lt_is_Some_2 hook (Z.to_nat x)) as [h Hh]; [lia|].
  erewrite (array_update_ok hook x _ h); [|lia|exact Hh|reflexivity]. rewrite bind_Done.
  rewrite int_sub_ok, bind_Done by (unfold INT_MIN, INT_MAX in *; lia).
  destruct (lookup_lt_is_Some_2 trades (Z.to_nat (hook_field data x y 1 - 1))) as [m Hm]; [lia|].
  erewrite (array_update_ok trades (hook_field data x y 1 - 1) _ m); [|lia|exact Hm|reflexivity].
  rewrite bind_Done.
  eexists. split; [done|]. split; cbn [fst snd].
  - by rewrite length_insert.
  - by rewrite length_insert.
  - intros t h' oid ht Hh' Hht.
    assert (Hold : forall code idx m0, trades !! Z.to_nat (code - 1) = Some m0 -> m0 !! idx = Some (-1) ->
      exists m1, <[Z.to_nat (hook_field data x y 1 - 1):=<[hook_field data x y 2:=-1]> m]> trades
        !! Z.to_nat (code - 1) = Some m1 /\ m1 !! idx = Some (-1)).
    { intros code idx m0 Hm0 Hidx.
      destruct (decide (Z.to_nat (code - 1) = Z.to_nat (hook_field data x y 1 - 1))) as [Eq|Hne].
      - rewrite Eq in *. rewrite Hm in Hm0. injection Hm0 as <-.
        rewrite list_lookup_insert_eq by (by eapply lookup_lt_Some). eexists. split; [done|].
        rewrite lookup_insert. by case_decide.
      - rewrite list_lookup_insert_ne by done. eauto. }
    destruct (decide (t = Z.to_nat x)) as [->|Hne].
    + rewrite list_lookup_insert_eq in Hh' by lia. injection Hh' as <-.
      rewrite lookup_insert in Hht. case_decide as Eid.
      * injection Hht as <-. cbn [target_stk_code target_trade_idx]. split; [lia|].
        rewrite list_lookup_insert_eq by (by eapply lookup_lt_Some). eexists. split; [done|].
        by rewrite lookup_insert_eq.
      * destruct (Htg _ _ _ _ Hh Hht) as [? (m0 & Hm0 & Hidx)]. split; [done|]. by eapply Hold.
    + rewrite list_lookup_insert_ne in Hh' by done.
      destruct (Htg _ _ _ _ Hh' Hht) as [? (m0 & Hm0 & Hidx)]. split; [done|]. by eapply Hold.
  - intros x' y' Hx' Hy' Hn Hno.
    destruct (decide (x' = x)) as [->|Hnx].
    + rewrite list_lookup_insert_eq by lia. eexists. split; [done|].
      destruct (decide (y' = y)) as [->|Hny]; [by rewrite lookup_insert_eq|].
      rewrite lookup_insert_ne by (apply Hno; lia).
      destruct (Hlast x y') as (h0 & Hh0 & E); [done|done|lia|intros; apply Hno; lia|].
      rewrite Hh in Hh0. by injection Hh0 as <-.
    + rewrite list_lookup_insert_ne by lia. apply Hlast; [done|done|lia|]. intros. apply Hno; lia.
  - intros i m' k v [(_ & <- & _)|[_ Hm']]%list_lookup_insert_Some Hv; [|by eapply Hfresh].
    apply lookup_insert_Some in Hv as [[_ <-]|[_ Hv]]; [done|by eapply Hfresh].
Qed.

Section hooks.
Context `{HH : HDF5} (laws : HDF5Laws HH) (cfg : Config).

Lemma load_hook_spec L data :
  loader_inited L = true -> h5_rank (hook_fname L) HOOK_DATASET = Some 3 ->
  h5_read_int (hook_fname L) HOOK_DATASET [10; 100; 4] [0; 0; 0] = Some data ->
  10 <= stock_num cfg <= INT_MAX ->
  (forall x y, 0 <= x < 10 -> 0 <= y < 100 -> 1 <= hook_field data x y 1 <= stock_num cfg) ->
  exists st, load_hook cfg L = Done st /\ hooks_added cfg data 1000 st.
Proof.
  intros HL Hrank Hread Hs Hcodes.
  pose proof (h5_read_int_size _ _ _ _ _ Hread) as Hlen.
  unfold load_hook. rewrite (load_matrix_ok h5_read_int L _ _ 10 100 4 data), bind_Done
    by (done || unfold INT_MAX; lia).
  unfold vec_new. destruct (Z.ltb_spec (stock_num cfg) 0); [lia|]. rewrite !bind_Done.
  change (block_size [10; 100; 4]) with 4000 in Hlen.
  destruct (for_lt_inv (fun x => hooks_added cfg data (100 * x)) 10
    (fun x => for_lt 100 (fun y => add_hook data x y))
    (replicate (Z.to_nat (stock_num cfg)) ∅, replicate (Z.to_nat (stock_num cfg)) ∅)) as (st & -> & Hst);
    [lia| | |eauto].
  - split; cbn [fst snd]; rewrite ?length_replicate; [lia|lia| |lia|].
    + intros t h oid ht Hh Hht. apply lookup_replicate in Hh as [-> _]. by rewrite lookup_empty in Hht.
    + intros i m k v Hm Hv. apply lookup_replicate in Hm as [-> _]. by rewrite lookup_empty in Hv.
  - intros x st Hx Hst.
    destruct (for_lt_inv (fun y => hooks_added cfg data (100 * x + y)) 100 (fun y => add_hook data x y) st)
      as (st' & -> & Hst'); [lia|by rewrite Z.add_0_r| |].
    + intros y st' Hy Hst'. rewrite Z.add_assoc. apply add_hook_step; auto.
    + exists st'. split; [done|]. by replace (100 * (x + 1)) with (100 * x + 100) by lia.
Qed.
End hooks.

(** ** Price limits *)
Definition lower_limit (d : double) : double := dsub d (dmul d double_0_1).
Definition upper_limit (d : double) : double := dadd d (dmul d double_0_1).

(** The limits of the first [n] stocks are set. *)
Record limits_set (close : list double) (n : Z) (limits : list (list double)) : Prop := {
  ls_shape : exists lo hi, limits = [lo; hi] /\ length lo = 10%nat /\ length hi = 10%nat;
  ls_limits t d : 0 <= t < n -> close !! Z.to_nat t = Some d ->
    (l ← array_get limits 0; array_get l t) = Done (lower_limit d) /\
    (l ← array_get limits 1; array_get l t) = Done (upper_limit d);
}.

Lemma pair_get_0 {A B} (a b : A) (f : A -> outcome B) : (l ← array_get [a; b] 0; f l) = f a.
Proof. done. Qed.

Lemma pair_get_1 {A B} (a b : A) (f : A -> outcome B) : (l ← array_get [a; b] 1; f l) = f b.
Proof. done. Qed.

Lemma set_price_limit_step close t limits :
  0 <= t < 10 -> t < Z.of_nat (length close) -> limits_set close t limits ->
  exists limits', set_price_limit close t limits = Done limits' /\ limits_set close (t + 1) limits'.
Proof.
  intros Ht Hlen [(lo & hi & -> & Hlo & Hhi) Hlim]. unfold set_price_limit.
  destruct (array_get_total close t) as (d & Hd & ->); [lia|]. rewrite bind_Done.
  erewrite (array_update_ok _ 0 _ lo); [|lia|done|by apply array_set_ok; lia].
  rewrite bind_Done. erewrite (array_update_ok _ 1 _ hi); [|lia|done|by apply array_set_ok; lia].
  exists [<[Z.to_nat t:=lower_limit d]> lo; <[Z.to_nat t:=upper_limit d]> hi].
  split; [reflexivity|]. split.
  { exists (<[Z.to_nat t:=lower_limit d]> lo), (<[Z.to_nat t:=upper_limit d]> hi).
    by rewrite !length_insert. }
  intros t' d' Ht' Hd'. destruct (decide (t' = t)) as [->|Hne].
  - rewrite Hd in Hd'. injection Hd' as <-. rewrite pair_get_0, pair_get_1.
    split; (apply array_get_ok; [lia|apply list_lookup_insert_eq; lia]).
  - destruct (Hlim t' d') as [E1 E2]; [lia|done|]. rewrite pair_get_0 in *. rewrite pair_get_1 in *.
    apply array_get_inv in E1 as [_ E1], E2 as [_ E2].
    split; (apply array_get_ok; [lia|]); by rewrite list_lookup_insert_ne by lia.
Qed.

(** ** What the loader reads *)
Record inputs := mkInputs {
  in_order_id : list Z;
  in_matrix : OrderInfoMatrix;
  in_hook : list Z;
  in_close : list double;
}.

Definition input_fname (cfg : Config) (idx : Z) : string :=
  match get_input_fname (init_loader cfg) (partition_idx cfg) idx with
  | Done name => name
  | Fault _ => ""
  end.

Section load.
Context `{HH : HDF5} (laws : HDF5Laws HH).

Definition dims (cfg : Config) : list Z := [loader_nx_matrix cfg; loader_ny_matrix cfg; loader_nz_matrix cfg].

(** The library finds the data sets of the partition and reads them. *)
Record inputs_ok (cfg : Config) (ins : inputs) : Prop := {
  io_part : partition_idx cfg = 0 \/ partition_idx cfg = 1;
  io_rank idx name : (idx, name) ∈ [(0, "order_id"); (1, "direction"); (2, "type"); (3, "price"); (4, "volume")]%string ->
    h5_rank (input_fname cfg idx) name = Some 3;
  io_order_id : h5_read_int (input_fname cfg 0) "order_id" (dims cfg) [0; 0; 0] = Some (in_order_id ins);
  io_direction : h5_read_int (input_fname cfg 1) "direction" (dims cfg) [0; 0; 0] = Some (direction_matrix (in_matrix ins));
  io_type : h5_read_int (input_fname cfg 2) "type" (dims cfg) [0; 0; 0] = Some (type_matrix (in_matrix ins));
  io_price : h5_read_double (input_fname cfg 3) "price" (dims cfg) [0; 0; 0] = Some (price_matrix (in_matrix ins));
  io_volume : h5_read_int (input_fname cfg 4) "volume" (dims cfg) [0; 0; 0] = Some (volume_matrix (in_matrix ins));
  io_hook_rank : h5_rank (hook_fname (init_loader cfg)) HOOK_DATASET = Some 3;
  io_hook : h5_read_int (hook_fname (init_loader cfg)) HOOK_DATASET [10; 100; 4] [0; 0; 0] = Some (in_hook ins);
  io_hook_codes x y : 0 <= x < 10 -> 0 <= y < 100 -> 1 <= hook_field (in_hook ins) x y 1 <= stock_num cfg;
  io_close_rank : h5_rank (input_fname cfg 3) PREV_CLOSE_DATASET = Some 1;
  io_close : h5_read_double (input_fname cfg 3) PREV_CLOSE_DATASET [stock_num cfg] [0] = Some (in_close ins);
}.

Context (cfg : Config) (ins : inputs) (dk : dims_ok cfg) (io : inputs_ok cfg ins).

Lemma input_fname_ok idx : 0 <= idx < 5 ->
  get_input_fname (init_loader cfg) (partition_idx cfg) idx = Done (input_fname cfg idx).
Proof.
  intros Hi. unfold input_fname.
  assert (exists name, get_input_fname (init_loader cfg) (partition_idx cfg) idx = Done name) as [name ->]; [|done].
  unfold get_input_fname. cbn [INPUT_FILE_NAME init_loader].
  destruct (io_part _ _ io) as [-> | ->].
  all: erewrite (array_get_ok _ _); [|lia|reflexivity]; rewrite bind_Done.
  all: match goal with |- exists _, array_get ?l _ = _ =>
    destruct (array_get_total l idx) as (name & _ & ->); [cbn [length]; lia|eauto] end.
Qed.

Lemma load_input_ok {T} (read : string -> string -> list Z -> list Z -> option (list T)) idx name data :
  (idx, name) ∈ [(0, "order_id"); (1, "direction"); (2, "type"); (3, "price"); (4, "volume")]%string ->
  read (input_fname cfg idx) name (dims cfg) [0; 0; 0] = Some data ->
  Z.of_nat (length data) = block_size (dims cfg) ->
  load_input read cfg (init_loader cfg) idx = Done data.
Proof.
  intros Hin Hread Hlen. unfold load_input.
  pose proof (io_rank _ _ io _ _ Hin) as Hrank. destruct dk.
  assert (array_get DATASET_NAME idx = Done name /\ 0 <= idx < 5) as [En Hi].
  { clear -Hin. set_unfold in Hin. destruct_or!; simplify_eq; (split; [done|lia]). }
  rewrite input_fname_ok, bind_Done by lia. rewrite En, bind_Done.
  apply load_matrix_ok; done || lia.
Qed.

Lemma load_matrices_ok : load_matrices cfg (init_loader cfg) = Done (in_matrix ins).
Proof.
  unfold load_matrices.
  rewrite (load_input_ok h5_read_int direction_idx "direction" _ ltac:(set_solver) (io_direction _ _ io)), bind_Done
    by (by eapply h5_read_int_size, io_direction).
  rewrite (load_input_ok h5_read_int type_idx "type" _ ltac:(set_solver) (io_type _ _ io)), bind_Done
    by (by eapply h5_read_int_size, io_type).
  rewrite (load_input_ok h5_read_double price_idx "price" _ ltac:(set_solver) (io_price _ _ io)), bind_Done
    by (by eapply h5_read_double_size, io_price).
  rewrite (load_input_ok h5_read_int volume_idx "volume" _ ltac:(set_solver) (io_volume _ _ io)), bind_Done
    by (by eapply h5_read_int_size, io_volume).
  by destruct (in_matrix ins).
Qed.

Lemma load_matrices_shape : matrix_ok cfg (in_matrix ins).
Proof.
  pose proof dk as [Dx Dy Dz Hs _ Hf].
  pose proof (h5_read_int_size _ _ _ _ _ (io_direction _ _ io)) as E1.
  pose proof (h5_read_int_size _ _ _ _ _ (io_type _ _ io)) as E2.
  pose proof (h5_read_double_size _ _ _ _ _ (io_price _ _ io)) as E3.
  pose proof (h5_read_int_size _ _ _ _ _ (io_volume _ _ io)) as E4.
  unfold block_size, dims in *. cbn [foldr] in *. split; lia.
Qed.

Lemma load_prev_close_ok :
  stock_num cfg <= 10 ->
  exists limits, load_prev_close cfg (init_loader cfg) (partition_idx cfg) = Done limits /\
    limits_set (in_close ins) (stock_num cfg) limits.
Proof.
  intros Hs. pose proof dk as [_ _ _ Hpos _ _]. unfold load_prev_close.
  change price_idx with 3. rewrite input_fname_ok, bind_Done by lia.
  pose proof (h5_read_double_size _ _ _ _ _ (io_close _ _ io)) as Hlen.
  unfold block_size in Hlen. cbn [foldr] in Hlen.
  unfold load_matrix_from_file. cbn [loader_inited init_loader cassert]. rewrite bind_Done.
  change (Z.to_nat 1) with 1%nat. cbn [take]. unfold num_data_of. cbn [foldl].
  rewrite num_data_step by (unfold INT_MAX; lia). cbv zeta.
  destruct (Z.ltb_spec (1 * stock_num cfg) 0); [lia|]. rewrite bind_Done.
  rewrite (io_close_rank _ _ io). cbn [or_throw]. rewrite bind_Done. cbn [Z.eqb Pos.eqb cassert forallb andb].
  rewrite !bind_Done, (io_close _ _ io). cbn [or_throw]. rewrite bind_Done, Hlen.
  rewrite (proj2 (Z.leb_le _ _)), bind_Done by lia.
  apply for_lt_inv; [lia| |].
  - split; [by eexists _, _|]. lia.
  - intros t limits Ht. apply set_price_limit_step; lia.
Qed.

(** What both loading modes start with. *)
Lemma load_common :
  stock_num cfg = 10 ->
  exists limits hooks, load_prev_close cfg (init_loader cfg) (partition_idx cfg) = Done limits /\
    load_hook cfg (init_loader cfg) = Done hooks /\
    limits_set (in_close ins) 10 limits /\ hooks_added cfg (in_hook ins) 1000 hooks.
Proof.
  intros Hs. destruct load_prev_close_ok as (limits & El & Hl); [lia|].
  destruct (load_hook_spec laws cfg (init_loader cfg) (in_hook ins)) as (hooks & Eh & Hh);
    [done|apply io|apply io|unfold INT_MAX; lia|apply io|].
  rewrite Hs in Hl. by exists limits, hooks.
Qed.

Lemma load_order_id_ok :
  exists rows, load_order_id_from_file cfg (init_loader cfg) (partition_idx cfg) = Done rows /\
    Z.of_nat (length rows) = stock_num cfg /\
    forall t, 0 <= t < stock_num cfg -> rows !! Z.to_nat t = Some (sort_structs (stock_cells cfg (in_order_id ins) t)).
Proof.
  apply (load_order_id_spec laws cfg dk (init_loader cfg) (partition_idx cfg) (input_fname cfg 0)); [done| | |apply io].
  - by apply input_fname_ok.
  - apply (io_rank _ _ io). set_solver.
Qed.
End load.

(** ** The shared information while the trader runs *)

(** A call of another thread. *)
Inductive info_step (s s' : SharedTradeInfo) : Prop :=
  | step_start code start : update_sliding_window_start s code start = Done s' -> info_step s s'
  | step_hooked code idx volume : update_if_hooked s code idx volume = Done s' -> info_step s s'.

(** Hooked trades stay registered. *)
Lemma info_step_registered s s' k m idx :
  info_step s s' -> hooked_trade s !! k = Some m -> is_Some (m !! idx) ->
  exists m', hooked_trade s' !! k = Some m' /\ is_Some (m' !! idx).
Proof.
  intros [code start E|code i volume E] Hm Hidx.
  - unfold update_sliding_window_start in E. inv_bind. eauto.
  - unfold update_if_hooked in E. inv_bind. destruct (_ !! i) as [v|] eqn:Ev; inv_bind; [|eauto].
    cbn [hooked_trade]. match goal with H : array_set _ ?j _ = Done ?l |- _ => rename H into Hset end.
    unfold array_set in Hset. case_if; [|done]. injection Hset as <-.
    match goal with H : array_get (hooked_trade s) _ = Done _ |- _ => apply array_get_inv in H as [? Hget] end.
    match goal with |- context [<[?j := _]> _] => destruct (decide (k = j)) as [->|Hne] end.
    + rewrite Hm in Hget. injection Hget as <-. rewrite list_lookup_insert_eq by (by eapply lookup_lt_Some).
      eexists. split; [done|]. rewrite lookup_insert. case_decide; [eauto|done].
    + rewrite list_lookup_insert_ne by done. eauto.
Qed.

Lemma info_steps_registered s s' k m idx :
  rtc info_step s s' -> hooked_trade s !! k = Some m -> is_Some (m !! idx) ->
  exists m', hooked_trade s' !! k = Some m' /\ is_Some (m' !! idx).
Proof.
  intros Hs. revert m. induction Hs as [|s1 s2 s3 H12 _ IH]; intros m Hm Hidx; [eauto|].
  destruct (info_step_registered _ _ _ _ _ H12 Hm Hidx) as (m' & Hm' & Hidx'). eauto.
Qed.

(** The constructor of the controller. *)
Lemma load_data_spec `{HH : HDF5} cfg ins fs :
  HDF5Laws HH -> dims_ok cfg -> inputs_ok cfg ins -> stock_num cfg = 10 -> load_mode cfg = 2 ->
  exists tc s, init_TraderController cfg fs = Done (tc, s, fs) /\
    oim tc = in_matrix ins /\ matrix_ok cfg (oim tc) /\
    length (hooked_trade s) = 10%nat /\
    (forall i m k v, hooked_trade s !! i = Some m -> m !! k = Some v -> v = -1) /\
    forall t, 0 <= t < 10 -> exists structs h d,
      array_get (sorted_order_structs tc) t = Done structs /\ Forall (struct_ok cfg t) structs /\
      structs ≡ₚ stock_cells cfg (in_order_id ins) t /\
      StronglySorted SortStruct_le structs /\
      array_get (next_sorted_struct_idx tc) t = Done 0 /\
      get_sliding_window_start s (t + 1) = Done 1 /\
      in_close ins !! Z.to_nat t = Some d /\
      forall info, rtc info_step s info -> check_env tc info t h (lower_limit d) (upper_limit d).
Proof.
  intros laws dk io Hs Hmode.
  destruct (load_common laws cfg ins dk io Hs) as (limits & [hk trades] & El & Eh & Hlim & Hhk).
  destruct (load_order_id_ok laws cfg ins dk io) as (rows & Er & Hrows & Hrow).
  unfold init_TraderController, new_TraderController, vec_new.
  rewrite Hs. cbn [Z.ltb Z.compare]. rewrite bind_Done. unfold load_data. cbv zeta.
  rewrite El, !bind_Done, Eh, bind_Done, Hmode. cbn [Z.eqb Pos.eqb].
  rewrite Er, bind_Done, (load_matrices_ok laws cfg ins dk io), !bind_Done.
  eexists _, _. split; [reflexivity|]. split; [done|]. split; [by apply load_matrices_shape|].
  split; [cbn [hooked_trade new_SharedTradeInfo]; pose proof (ha_trades _ _ _ _ Hhk) as Hl; simpl in Hl; lia|].
  split; [exact (ha_fresh _ _ _ _ Hhk)|].
  intros t Ht. rewrite Hs in Hrow. pose proof (Hrow t Ht) as Ht'.
  destruct Hhk as [Hl1 Hl2 Htg _ Hfresh]. cbn [fst snd] in *.
  destruct (lookup_lt_is_Some_2 hk (Z.to_nat t)) as [h Hh]; [lia|].
  pose proof (h5_read_double_size _ _ _ _ _ (io_close _ _ io)) as Hclose.
  unfold block_size in Hclose. cbn [foldr] in Hclose.
  destruct (lookup_lt_is_Some_2 (in_close ins) (Z.to_nat t)) as [d Hd]; [lia|].
  eexists _, h, d. cbn [sorted_order_structs next_sorted_struct_idx].
  split; [by apply array_get_ok; [lia|]|]. split.
  { rewrite sort_structs_perm. apply stock_cells_struct_ok; [done|lia]. }
  split; [apply sort_structs_perm|]. split; [apply sort_structs_sorted|].
  split; [by apply array_get_ok; [lia|apply lookup_replicate_2; lia]|]. split.
  { unfold get_sliding_window_start. rewrite int_sub_ok, bind_Done by (unfold INT_MIN, INT_MAX; lia).
    apply array_get_ok; [lia|]. cbn [sliding_window_start new_SharedTradeInfo]. apply lookup_replicate_2. lia. }
  split; [done|]. intros info Hinfo. destruct (ls_limits _ _ _ Hlim t d Ht Hd) as [Elo Ehi].
  split; cbn [hook]; [by apply array_get_ok; [lia|]|done|done|].
  intros oid ht Hht. destruct (Htg _ _ _ _ Hh Hht) as [Hcode (m & Hm & Hidx)].
  destruct (info_steps_registered _ info (Z.to_nat (target_stk_code ht - 1)) m (target_trade_idx ht) Hinfo Hm)
    as (m' & Hm' & v & Hv); [eauto|].
  exists v. unfold get_hooked_volume. rewrite int_sub_ok, bind_Done by (unfold INT_MIN, INT_MAX; lia).
  rewrite (array_get_ok _ _ m'), bind_Done by (done || lia). by rewrite Hv.
Qed.

(** ** A concrete library

    Every data set exists; the integers count up from 1 (the hooks are all
    ones), the prices are 100. *)
Definition demo_size (count : list Z) : option nat :=
  if (0 <=? block_size count) && (block_size count <=? 10000) then Some (Z.to_nat (block_size count)) else None.

#[local] Instance demo_hdf5 : HDF5 := {|
  h5_rank _ d := Some (if decide (d = PREV_CLOSE_DATASET) then 1 else 3);
  h5_read_int _ d count _ :=
    n ← demo_size count;
    Some (if decide (d = HOOK_DATASET) then replicate n 1 else map Z.of_nat (seq 1 n));
  h5_read_double _ _ count _ := n ← demo_size count; Some (replicate n (double_of_Z 100));
|}.

Lemma demo_size_spec count n :
  demo_size count = Some n -> Z.of_nat n = block_size count /\ Z.of_nat n <= 10000.
Proof. unfold demo_size. case_if; [|done]. to_prop. intros [= <-]. lia. Qed.

Lemma demo_hdf5_laws : HDF5Laws demo_hdf5.
Proof.
  split; cbn [h5_read_int h5_read_double demo_hdf5]; intros f d count offset l Hl;
    apply bind_Some in Hl as (n & Hn & [= <-]); apply demo_size_spec in Hn as [Hn Hle].
  - rewrite <- Hn. case_decide; [by rewrite length_replicate|]. by rewrite length_map, length_seq.
  - case_decide.
    + apply Forall_forall. intros z Hz. by apply elem_of_replicate in Hz as [-> _].
    + apply Forall_forall. intros z Hz. apply list_elem_of_fmap in Hz as (k & -> & Hk).
      apply elem_of_seq in Hk. apply is_int_spec. unfold INT_MIN, INT_MAX. lia.
  - rewrite <- Hn. by rewrite length_replicate.
  - apply Forall_forall. intros x Hx. by apply elem_of_replicate in Hx as [-> _].
Qed.

Definition demo_lcfg : Config := {|
  data_folder := "data/"; trade_output_folder := "out/"; network_config_file := "";
  partition_idx := 0; sliding_window_size := 3; stock_num := 10;
  trader_num := 2; exchange_num := 2;
  loader_nx_matrix := 10; loader_ny_matrix := 2; loader_nz_matrix := 2; load_mode := 2;
  traders_addr := []; exchanges_addr := []; trader_port2exchange_port := [] |}.

Definition demo_inputs : inputs :=
  mkInputs (map Z.of_nat (seq 1 40))
    (mkOrderInfoMatrix (map Z.of_nat (seq 1 40)) (map Z.of_nat (seq 1 40))
       (replicate 40 (double_of_Z 100)) (map Z.of_nat (seq 1 40)))
    (replicate 4000 1) (replicate 10 (double_of_Z 100)).

Lemma demo_dims : dims_ok demo_lcfg.
Proof. split; vm_compute; try split; congruence. Qed.

Lemma demo_inputs_ok : inputs_ok demo_lcfg demo_inputs.
Proof.
  split; try reflexivity.
  - by left.
  - intros idx name Hin. cbn [h5_rank demo_hdf5]. rewrite decide_False; [done|].
    intros ->. set_unfold in Hin. destruct_or!; simplify_eq.
  - intros x y Hx Hy. unfold hook_field. cbn [in_hook demo_inputs].
    rewrite lookup_replicate_2 by lia. cbn [from_option id]. change (stock_num demo_lcfg) with 10. lia.
Qed.

(** ** The properties *)

(** C13: The order ids read from the file are split by stock and sorted: with
    dimensions that fit ten-bit coordinates and an [int], and the number of
    stocks dividing the first dimension, the loader returns one row per
    stock; row [t] holds exactly the orders of the planes x with
    x mod stock_num = t, each once, with its packed coordinates, in ascending
    order of ids; no other arrangement of these orders is sorted; and every
    order of the matrix is in the row of its stock, under its id. *)
Theorem load_order_ids_split_and_sorted `{HH : HDF5} cfg L part fname data :
  HDF5Laws HH -> dims_ok cfg -> loader_inited L = true ->
  get_input_fname L part order_id_idx = Done fname -> h5_rank fname "order_id" = Some 3 ->
  h5_read_int fname "order_id" (dims cfg) [0; 0; 0] = Some data ->
  exists rows, load_order_id_from_file cfg L part = Done rows /\
    Z.of_nat (length rows) = stock_num cfg /\
    (forall t row, rows !! t = Some row ->
       row ≡ₚ stock_cells cfg data (Z.of_nat t) /\ StronglySorted SortStruct_le row /\
       (forall l, l ≡ₚ row -> StronglySorted SortStruct_le l -> l = row) /\
       Forall (struct_ok cfg (Z.of_nat t)) row) /\
    (forall x y z oid, 0 <= x < loader_nx_matrix cfg -> 0 <= y < loader_ny_matrix cfg ->
       0 <= z < loader_nz_matrix cfg ->
       data !! Z.to_nat (x * (loader_ny_matrix cfg * loader_nz_matrix cfg) + y * loader_nz_matrix cfg + z) = Some oid ->
       exists row, rows !! Z.to_nat (x mod stock_num cfg) = Some row /\
         mkSortStruct oid (set_coor x y z) ∈ row).
Proof.
  intros laws dk HL Hname Hrank Hread.
  destruct (load_order_id_spec laws cfg dk L part fname data HL Hname Hrank Hread) as (rows & E & Hlen & Hrows).
  exists rows. split; [done|]. split; [done|]. split.
  - intros t row Ht. pose proof (lookup_lt_Some _ _ _ Ht).
    pose proof (Hrows (Z.of_nat t) ltac:(lia)) as Hr. rewrite Nat2Z.id, Ht in Hr. injection Hr as ->.
    split_and!; [apply sort_structs_perm|apply sort_structs_sorted| |].
    + intros l Hp Hs. apply sort_structs_unique; [|done]. by rewrite Hp, sort_structs_perm.
    + rewrite sort_structs_perm. apply stock_cells_struct_ok; [done|lia].
  - intros x y z oid Hx Hy Hz Hoid. pose proof dk as [_ _ _ Hs _ _].
    pose proof (Z.mod_pos_bound x (stock_num cfg) Hs).
    rewrite Hrows by lia. eexists. split; [done|]. rewrite sort_structs_perm.
    by apply stock_cells_complete.
Qed.

Lemma load_order_ids_split_and_sorted_witness :
  exists rows, load_order_id_from_file demo_lcfg (init_loader demo_lcfg) 0 = Done rows /\
    Z.of_nat (length rows) = 10.
Proof.
  destruct (load_order_ids_split_and_sorted demo_lcfg (init_loader demo_lcfg) 0 "data/order_id1.h5"
    (map Z.of_nat (seq 1 40)) demo_hdf5_laws demo_dims eq_refl eq_refl eq_refl eq_refl)
    as (rows & E & Hlen & _).
  exists rows. split; [exact E|exact Hlen].
Defined.

(** C15: Loading into memory ([load_mode] 2, ten stocks) leaves the controller
    ready to run: the constructor returns; the matrices have the configured
    shape; each stock's sorted orders carry coordinates that
    [generate_order]'s assertions accept; its index starts at 0 and its window
    at 1; its price limits are the previous close -/+ a tenth of it; and
    whatever calls the receiver threads make on the shared information,
    every hook of the stock finds its target trade registered, so that the
    [assert(false)] of [get_hooked_volume] is not reached. *)
Theorem load_data_ready `{HH : HDF5} cfg ins fs :
  HDF5Laws HH -> dims_ok cfg -> inputs_ok cfg ins -> stock_num cfg = 10 -> load_mode cfg = 2 ->
  exists tc s, init_TraderController cfg fs = Done (tc, s, fs) /\
    oim tc = in_matrix ins /\ matrix_ok cfg (oim tc) /\
    forall t, 0 <= t < 10 -> exists structs h d,
      array_get (sorted_order_structs tc) t = Done structs /\ Forall (struct_ok cfg t) structs /\
      structs ≡ₚ stock_cells cfg (in_order_id ins) t /\
      array_get (next_sorted_struct_idx tc) t = Done 0 /\
      get_sliding_window_start s (t + 1) = Done 1 /\
      in_close ins !! Z.to_nat t = Some d /\
      forall info, rtc info_step s info -> check_env tc info t h (lower_limit d) (upper_limit d).
Proof.
  intros laws dk io Hs Hmode.
  destruct (load_data_spec cfg ins fs laws dk io Hs Hmode) as (tc & s & E & Eo & Hm & _ & _ & Hall).
  exists tc, s. split_and!; [done|done|done|]. intros t Ht.
  destruct (Hall t Ht) as (structs & h & d & ? & ? & ? & _ & ?). by exists structs, h, d.
Qed.

Lemma load_data_ready_witness :
  exists tc s, init_TraderController demo_lcfg ∅ = Done (tc, s, ∅) /\ oim tc = in_matrix demo_inputs.
Proof.
  destruct (load_data_ready demo_lcfg demo_inputs ∅ demo_hdf5_laws demo_dims demo_inputs_ok eq_refl eq_refl)
    as (tc & s & E & Eo & _).
  exists tc, s. split; [exact E|exact Eo].
Defined.

(** The hooks of the file: with target codes in range the load returns,
    and the hook of an order of stock [x + 1] is the last one the file lists
    for its id; every target of a hook is registered with volume -1 (not
    reported). *)
Theorem load_hook_keeps_last `{HH : HDF5} cfg L data :
  HDF5Laws HH -> loader_inited L = true -> h5_rank (hook_fname L) HOOK_DATASET = Some 3 ->
  h5_read_int (hook_fname L) HOOK_DATASET [10; 100; 4] [0; 0; 0] = Some data ->
  10 <= stock_num cfg <= INT_MAX ->
  (forall x y, 0 <= x < 10 -> 0 <= y < 100 -> 1 <= hook_field data x y 1 <= stock_num cfg) ->
  exists hook hooked_trade, load_hook cfg L = Done (hook, hooked_trade) /\
    (forall x y, 0 <= x < 10 -> 0 <= y < 100 ->
       (forall y', y < y' < 100 -> hook_field data x y' 0 <> hook_field data x y 0) ->
       exists h, hook !! Z.to_nat x = Some h /\ h !! hook_field data x y 0 = Some (hook_target data x y)) /\
    (forall t h oid ht, hook !! t = Some h -> h !! oid = Some ht ->
       exists m, hooked_trade !! Z.to_nat (target_stk_code ht - 1) = Some m /\
         m !! target_trade_idx ht = Some (-1)).
Proof.
  intros laws HL Hrank Hread Hs Hcodes.
  destruct (load_hook_spec laws cfg L data HL Hrank Hread Hs Hcodes) as ([hk trades] & E & [_ _ Htg Hlast]).
  exists hk, trades. split; [done|]. cbn [fst snd] in *. split.
  - intros x y Hx Hy Hno. apply Hlast; [done|done|lia|]. intros y' Hy' _. by apply Hno.
  - intros t h oid ht Hh Hht. by destruct (Htg t h oid ht Hh Hht).
Qed.

Lemma load_hook_keeps_last_witness :
  exists hook hooked_trade, load_hook demo_lcfg (init_loader demo_lcfg) = Done (hook, hooked_trade) /\
    exists h, hook !! 3%nat = Some h /\ h !! 1 = Some (mkHookTarget 1 1 1).
Proof.
  destruct (load_hook_keeps_last demo_lcfg (init_loader demo_lcfg) (replicate 4000 1) demo_hdf5_laws
    eq_refl eq_refl eq_refl) as (hk & trades & E & Hlast & _).
  - change (stock_num demo_lcfg) with 10. unfold INT_MAX. lia.
  - apply (io_hook_codes demo_lcfg demo_inputs demo_inputs_ok).
  - exists hk, trades. split; [exact E|]. apply (Hlast 3 99); [lia|lia|]. intros y' Hy'. lia.
Defined.
