(* ===== verification/WorldStart.v ===== *)
(** * From the constructors to the first state

    What the constructor of the trader controller leaves when it loads its data
    into memory is a trader the theorems about all processes start from
    ([WorldProps.trader_ready]), and its orders are those of the data. *)

From stdpp Require Import gmap.
From S2P Require Import Prelude Double Bytes Config Types StdHeap DeclBook StockExchange.
From S2P Require Import BlockQueue SlidingWindow Messages Exchange ExchangeProps Trader TraderProps.
From S2P Require Import TradeReceiver TradeReceiverProps Protocol StockFlow World WorldView WorldInv WorldProps.
From S2P Require Import Loader LoaderProps.
#[local] Open Scope Z_scope.

(** The members of a trader process after construction: [queues] are the queues
    of its order senders. *)
Definition new_trader_proc `{HDF5} `{FileIO} {Qo : Type} (cfg : Config) (fs : filesystem) (queues : list Qo)
    : outcome (trader_proc Qo) :=
  r ← new_TraderTradeReceiver cfg;
  '(tc, info, _) ← init_TraderController cfg fs;
  Done (mkTraderProc tc (Reading 0) [] info r queues).

Lemma SortStruct_le_ids a b : SortStruct_le a b -> ss_order_id a <= ss_order_id b.
Proof. unfold SortStruct_le, SortStruct_lt. destruct (Z.eqb_spec (ss_order_id b) (ss_order_id a)); simpl; lia. Qed.

Lemma sorted_ids l :
  StronglySorted SortStruct_le l -> StronglySorted (fun a b => ss_order_id a <= ss_order_id b) l.
Proof.
  induction 1 as [|a l _ IH Hall]; constructor; [done|]. eapply Forall_impl; [exact Hall|].
  intros b. apply SortStruct_le_ids.
Qed.

(** C14: A constructed trader can start.  With the loader's contract for the data
    of its partition and files that can be opened, constructing a trader
    succeeds; the trader is as [world_init] wants it, under the configuration
    that the processes share; and the orders of a stock that it is going to send
    are the orders in the cells of its matrices that belong to the stock. *)
Theorem constructed_trader_ready `{HH : HDF5} `{FileIO} {Qo : Type} `{Fifo Qo Order}
    cfg part ins fs (queues : list Qo) :
  let pcfg := set_partition_idx part cfg in
  HDF5Laws HH -> dims_ok pcfg -> inputs_ok pcfg ins -> stock_num cfg = 10 -> load_mode cfg = 2 ->
  trade_output_folder cfg <> ""%string ->
  (forall code, 1 <= code <= 10 -> sys_open code <> EMPTY_FD) ->
  (forall code code', 1 <= code <= 10 -> 1 <= code' <= 10 -> sys_open code = sys_open code' -> code = code') ->
  length queues = Z.to_nat (exchange_num cfg) -> Forall (fun q => fifo_ok q /\ fifo_contents q = []) queues ->
  exists p, new_trader_proc pcfg fs queues = Done p /\ trader_ready cfg p /\
    forall code, 1 <= code <= 10 ->
      upcoming cfg (tp_ctl p) code ≡ₚ omap (generated cfg (tp_ctl p) code) (stock_cells pcfg (in_order_id ins) (code - 1)).
Proof.
  intros pcfg laws dk io Hs Hmode Hfolder Hopen Hinj Hcount Hqs.
  destruct (load_data_spec pcfg ins fs laws dk io Hs Hmode) as (tc & s & E & _ & Hm & Hlen & Hfresh & Hall).
  destruct (new_receiver_ok 10 pcfg Hfolder Hs Hopen Hinj) as (r & Er & _).
  exists (mkTraderProc tc (Reading 0) [] s r queues).
  split; [unfold new_trader_proc; by rewrite Er, bind_Done, E|].
  assert (Hstock : forall code, 1 <= code <= 10 -> exists structs,
    sorted_order_structs tc !! Z.to_nat (code - 1) = Some structs /\
    next_sorted_struct_idx tc !! Z.to_nat (code - 1) = Some 0 /\
    structs ≡ₚ stock_cells pcfg (in_order_id ins) (code - 1)).
  { intros code Hc. destruct (Hall (code - 1) ltac:(lia)) as (structs & h & d & Hst & _ & Hp & _ & Hi & _).
    apply array_get_inv in Hst as [_ Hst]. apply array_get_inv in Hi as [_ Hi]. by exists structs. }
  split; [split|].
  - done.
  - done.
  - exact Er.
  - split; simpl; [lia|]. intros code m k v Hc Hmk Hv. rewrite (Hfresh _ _ _ _ Hmk Hv).
    unfold hook_value. by case_if.
  - intros code Hc. simpl. rewrite Hs in Hc. destruct (Hall (code - 1) ltac:(lia)) as (_ & _ & _ & _ & _ & _ & _ & _ & Hst & _).
    by rewrite (Z.sub_add 1 code) in Hst.
  - exact Hcount.
  - exact Hqs.
  - by destruct Hm.
  - intros code Hc. rewrite Hs in Hc. destruct (Hall (code - 1) ltac:(lia)) as (structs & h & d & Hst & Hok & _ & Hsort & Hi & _).
    apply array_get_inv in Hst as [_ Hst]. apply array_get_inv in Hi as [_ Hi]. exists structs. split_and!; [done| | |done].
    + eapply Forall_impl; [exact Hok|]. intros ss Hss. by destruct Hss.
    + by apply sorted_ids.
  - intros code Hc. rewrite Hs in Hc. destruct (Hall (code - 1) ltac:(lia)) as (_ & h & d & _ & _ & _ & _ & _ & _ & _ & Henv).
    exists h, (lower_limit d), (upper_limit d). by apply Henv.
  - intros code Hc. destruct (Hstock code Hc) as (structs & Hst & Hi & Hp).
    cbn [tp_ctl]. unfold upcoming, structs_at, idx_at. rewrite Hst, Hi. simpl. by rewrite drop_0, Hp.
Qed.

Lemma constructed_trader_ready_witness :
  exists p, new_trader_proc (H := demo_hdf5) (H0 := demo_io) demo_lcfg ∅ [demo_queue Order_init; demo_queue Order_init] = Done p /\
    trader_ready (H0 := demo_io) demo_lcfg p.
Proof.
  destruct (constructed_trader_ready (HH := demo_hdf5) (H := demo_io) demo_lcfg 0 demo_inputs ∅
    [demo_queue Order_init; demo_queue Order_init]) as (p & E & Hr & _);
    [exact demo_hdf5_laws|exact demo_dims|exact demo_inputs_ok|reflexivity|reflexivity|discriminate| | |reflexivity| |].
  - intros code Hc. simpl. unfold EMPTY_FD. lia.
  - intros code code' _ _ E. simpl in E. lia.
  - repeat (apply Forall_cons; split; [apply demo_queue_ok|]). apply Forall_nil_2.
  - exists p. split; [exact E|exact Hr].
Defined.
