(* ===== verification/WorldRounds.v ===== *)
(** * The steps of a controller make its rounds

    [Trader] models a round of [TraderController::run_all_in_memory] as one
    function ([collect_round]), [World] as single steps of the thread
    ([controller_next]).  Undisturbed, the steps collect what the function
    collects, and both send what is [due]: a description of one pass that
    says of every order whether it goes out, without the loop. *)

From stdpp Require Import gmap relations.
From S2P Require Import Prelude Double Bytes Config Types StdHeap DeclBook StockExchange.
From S2P Require Import BlockQueue SlidingWindow Messages Exchange Trader TraderProps.
From S2P Require Import TradeReceiver StockFlow EngineProps World WorldView WorldInv WorldProps.
#[local] Open Scope Z_scope.

Section rounds.
Context {Qo : Type} `{Fifo Qo Order} (cfg : Config).
Implicit Types (p : trader_proc Qo).

Definition controller_step p p' : Prop := controller_next cfg p = Ran (Done p').

(** The trader with another controller, another place and more orders. *)
Definition collected p (tc : TraderController) (pc : controller_pc) (orders : list Order) : trader_proc Qo :=
  mkTraderProc tc pc (order_to_send p ++ orders) (tp_info p) (tp_recv p) (tp_queues p).

Definition with_idx (tc : TraderController) (s i : Z) : TraderController :=
  mkTraderController (price_limits tc) (hook tc) (sorted_order_structs tc) (oim tc)
    (<[Z.to_nat s := i]> (next_sorted_struct_idx tc)).

Lemma collect_orders_ext tc tc' info s limit l i :
  hook tc' = hook tc -> price_limits tc' = price_limits tc -> oim tc' = oim tc ->
  collect_orders cfg tc' info s limit l i = collect_orders cfg tc info s limit l i.
Proof.
  intros Eh Ep Eo. revert i. induction l as [|ss l IH]; intros i; cbn [collect_orders]; [done|]. rewrite Eo.
  destruct (generate_order _ _ _ _ _ _ _) as [o|]; [|done]. rewrite !bind_Done.
  by rewrite (check_order_ext tc tc'), IH by done.
Qed.

(** The inner loop over the orders of the stock with index [s]. *)
Lemma scan_collects p s limit l i orders j :
  tp_pc p = Scanning s limit -> 0 <= s -> 0 <= i ->
  sorted_order_structs (tp_ctl p) !! Z.to_nat s = Some l -> next_sorted_struct_idx (tp_ctl p) !! Z.to_nat s = Some i ->
  collect_orders cfg (tp_ctl p) (fun _ => tp_info p) s limit (drop (Z.to_nat i) l) i = Done (orders, j) ->
  rtc controller_step p (collected p (with_idx (tp_ctl p) s j) (Reading (s + 1)) orders).
Proof.
  remember (drop (Z.to_nat i) l) as rest eqn:Er. revert p i orders j Er.
  induction rest as [|ss rest IH]; intros p i orders j Er Hpc Hs Hi Hl Hidx E; cbn [collect_orders] in E.
  - injection E as <- <-. apply rtc_once. unfold controller_step, controller_next. rewrite Hpc. unfold scan_next. cbv zeta.
    rewrite (array_get_ok _ s i), bind_Done, (array_get_ok _ s l), bind_Done by done.
    rewrite (proj2 (lookup_ge_None l _)) by (symmetry in Er; by apply drop_nil_inv in Er).
    do 2 f_equal. unfold set_pc, collected, with_idx. rewrite list_insert_id, app_nil_r by done. by destruct (tp_ctl p).
  - assert (Hss : l !! Z.to_nat i = Some ss) by (rewrite <- (Nat.add_0_r (Z.to_nat i)), <- lookup_drop, <- Er; done).
    apply bind_done in E as (o & Eo & E). apply bind_done in E as ([ok o'] & Eck & E).
    assert (Hnext : controller_next cfg p = Ran (scan_next cfg p s limit)) by (unfold controller_next; by rewrite Hpc).
    unfold scan_next in Hnext. cbv zeta in Hnext.
    rewrite (array_get_ok _ s i), bind_Done, (array_get_ok _ s l), bind_Done, Hss, Eo, bind_Done, Eck, bind_Done in Hnext by done.
    destruct ok; cbn [negb] in E, Hnext.
    + apply bind_done in E as ([orders' j'] & Erest & E). simplify_eq.
      rewrite array_set_ok, bind_Done in Hnext by (apply lookup_lt_Some in Hidx; lia).
      eapply rtc_l; [exact Hnext|].
      set (p1 := mkTraderProc _ _ _ _ _ _).
      assert (Hrtc : rtc controller_step p1 (collected p1 (with_idx (tp_ctl p1) s j) (Reading (s + 1)) orders')).
      { apply (IH p1 (i + 1)); try done; [|lia|apply list_lookup_insert_eq; by eapply lookup_lt_Some|].
        2:{ by rewrite <- Erest; apply collect_orders_ext. }
        replace (Z.to_nat (i + 1)) with (S (Z.to_nat i)) by lia.
        rewrite (drop_S l ss) in Er by done. by injection Er. }
      unfold p1, collected, with_idx in *. simpl in *.
      by rewrite list_insert_insert_eq, <- app_assoc in Hrtc.
    + simplify_eq. apply rtc_once. unfold controller_step. rewrite Hnext. do 2 f_equal.
      unfold set_pc, collected, with_idx. rewrite list_insert_id, app_nil_r by done. by destruct (tp_ctl p).
Qed.

Lemma collect_orders_idx tc info s limit l i orders j :
  collect_orders cfg tc info s limit l i = Done (orders, j) -> i <= j.
Proof.
  revert i orders. induction l as [|ss l IH]; intros i orders E; cbn [collect_orders] in E; [by simplify_eq|].
  apply bind_done in E as (o & _ & E). apply bind_done in E as ([[] o'] & _ & E); cbn [negb] in E; [|by simplify_eq].
  apply bind_done in E as ([orders' j'] & E' & E). simplify_eq. apply IH in E'. lia.
Qed.

Definition idxs_ok (tc : TraderController) : Prop := Forall (fun i => 0 <= i) (next_sorted_struct_idx tc).

(** The body of the loop over the stocks. *)
Lemma stock_collects p s orders tc :
  tp_pc p = Reading s -> 0 <= s < stock_num cfg -> idxs_ok (tp_ctl p) ->
  collect_stock cfg (tp_ctl p) (tp_info p) (fun _ => tp_info p) s = Done (orders, tc) ->
  rtc controller_step p (collected p tc (Reading (s + 1)) orders) /\ idxs_ok tc.
Proof.
  intros Hpc Hs Hok E. unfold collect_stock in E.
  apply bind_done in E as (start & Estart & E). apply bind_done in E as (limit & Elimit & E).
  apply bind_done in E as (i & Ei & E). apply bind_done in E as (l & El & E).
  apply bind_done in E as ([orders' j] & Ec & E). apply bind_done in E as (idxs & Eset & E). simplify_eq.
  apply array_get_inv in Ei as [_ Ei]. apply array_get_inv in El as [_ El].
  pose proof (proj1 (Forall_lookup _ _) Hok _ _ Ei) as Hi. cbn beta in Hi.
  rewrite array_set_ok in Eset by (apply lookup_lt_Some in Ei; lia). simplify_eq.
  pose proof (collect_orders_idx _ _ _ _ _ _ _ _ Ec) as Hij. split.
  - eapply rtc_l; [|exact (scan_collects (set_pc p (Scanning s limit)) s limit l i orders j eq_refl (proj1 Hs) Hi El Ei Ec)].
    unfold controller_step, controller_next. rewrite Hpc, (proj2 (Z.ltb_lt _ _)) by lia.
    by rewrite Estart, bind_Done, Elimit.
  - apply Forall_insert; [exact Hok|lia].
Qed.

Lemma stocks_collect n p s orders tc :
  tp_pc p = Reading s -> 0 <= s -> s + Z.of_nat n = stock_num cfg -> idxs_ok (tp_ctl p) ->
  collect_stocks cfg (tp_ctl p) (fun _ => (tp_info p, fun _ => tp_info p)) n s = Done (orders, tc) ->
  rtc controller_step p (collected p tc (Reading (stock_num cfg)) orders).
Proof.
  revert p s orders. induction n as [|n IH]; intros p s orders Hpc Hs Hn Hok E; cbn [collect_stocks] in E.
  - simplify_eq. replace (collected p (tp_ctl p) (Reading (stock_num cfg)) []) with p; [done|].
    unfold collected. rewrite app_nil_r. replace (stock_num cfg) with s by lia. rewrite <- Hpc. by destruct p.
  - apply bind_done in E as ([orders1 tc1] & E1 & E). apply bind_done in E as ([orders2 tc2] & E2 & E). simplify_eq.
    destruct (stock_collects p s orders1 tc1 Hpc ltac:(lia) Hok E1) as [Hr1 Hok1].
    etransitivity; [exact Hr1|].
    pose proof (IH (collected p tc1 (Reading (s + 1)) orders1) (s + 1) orders2 eq_refl ltac:(lia) ltac:(lia) Hok1 E2) as Hr2.
    unfold collected in *. simpl in Hr2. by rewrite <- app_assoc in Hr2.
Qed.

(** The loop that puts the orders into the queues. *)
Lemma orders_put orders p qs :
  tp_pc p = Reading (stock_num cfg) -> order_to_send p = orders ->
  put_orders cfg (tp_queues p) orders = Ran (Done qs) ->
  rtc controller_step p (mkTraderProc (tp_ctl p) (Reading 0) [] (tp_info p) (tp_recv p) qs).
Proof.
  revert p. induction orders as [|o orders IH]; intros p Hpc Hb E.
  - cbn [put_orders] in E. simplify_eq. apply rtc_once. unfold controller_step, controller_next.
    rewrite Hpc, Z.ltb_irrefl, Hb. do 2 f_equal. unfold set_pc. by rewrite Hb.
  - cbn [put_orders] in E. destruct (int_mod (o_stk_code o) (exchange_num cfg)) as [idx|] eqn:Eidx; [|done].
    destruct (array_get (tp_queues p) idx) as [q|] eqn:Eq; [|done].
    destruct (fifo_put q o) as [|[q'|]] eqn:Eput; [done| |done].
    destruct (array_set (tp_queues p) idx q') as [qs1|] eqn:Eset; [|done].
    eapply rtc_l; [|apply (IH (mkTraderProc (tp_ctl p) (tp_pc p) orders (tp_info p) (tp_recv p) qs1) Hpc eq_refl E)].
    unfold controller_step, controller_next. rewrite Hpc, Z.ltb_irrefl, Hb. cbn [put_orders].
    by rewrite Eidx, Eq, Eput, Eset.
Qed.
End rounds.

(** The single steps of a controller thread make the rounds of
    [TraderController::run_all_in_memory].  If the shared information does not
    change meanwhile and no queue is full, the steps of one iteration of the
    [while] loop collect, in the same order, exactly the orders that the
    functional model of the round collects, advance the indices of all stocks
    the same way, leave the orders in the queues as [put_orders] does, and end
    where the next iteration starts. *)
Lemma controller_steps_make_round {Qo : Type} `{Fifo Qo Order} cfg (p : trader_proc Qo) orders tc qs :
  0 <= stock_num cfg -> tp_pc p = Reading 0 -> order_to_send p = [] -> idxs_ok (tp_ctl p) ->
  collect_round cfg (tp_ctl p) (fun _ => (tp_info p, fun _ => tp_info p)) = Done (orders, tc) ->
  put_orders cfg (tp_queues p) orders = Ran (Done qs) ->
  rtc (controller_step cfg) p (mkTraderProc tc (Reading 0) [] (tp_info p) (tp_recv p) qs).
Proof.
  intros Hs Hpc Hb Hok Ec Eput.
  etransitivity; [apply (stocks_collect cfg (Z.to_nat (stock_num cfg)) p 0 orders tc Hpc); [lia|lia|done|exact Ec]|].
  apply (orders_put cfg orders (collected p tc (Reading (stock_num cfg)) orders) qs); [done| |done].
  unfold collected. simpl. by rewrite Hb.
Qed.

(** ** What a pass sends

    Independently of how the code goes about it: of every stock the orders
    from its index on, up to the first one that has to wait. *)

(** What a trader knows of a stock when the pass starts. *)
Record stock_view := mkStockView {
  sv_structs : list SortStruct;
  sv_idx : nat;
  sv_hooks : gmap Z HookTarget;
  sv_low : double;
  sv_high : double;
  sv_start : Z;
}.

Record view_ok (cfg : Config) (tc : TraderController) (info : SharedTradeInfo) (s : Z) (v : stock_view) : Prop := {
  vo_structs : sorted_order_structs tc !! Z.to_nat s = Some (sv_structs v);
  vo_idx : next_sorted_struct_idx tc !! Z.to_nat s = Some (Z.of_nat (sv_idx v));
  vo_coors : Forall (struct_ok cfg s) (sv_structs v);
  vo_env : check_env tc info s (sv_hooks v) (sv_low v) (sv_high v);
  vo_start : get_sliding_window_start info (s + 1) = Done (sv_start v);
  vo_int : INT_MIN <= sv_start v + sliding_window_size cfg <= INT_MAX;
}.

(** The order of the matrices at a place of the sorted list, and whether it is
    sent. *)
Definition order_at (cfg : Config) (m : OrderInfoMatrix) (s : Z) (ss : SortStruct) (o : Order) : Prop :=
  generate_order (stock_num cfg) m (s + 1) ss (loader_nx_matrix cfg) (loader_ny_matrix cfg) (loader_nz_matrix cfg) = Done o.

Definition verdict_on (cfg : Config) (info : SharedTradeInfo) (v : stock_view) (o : Order) : verdict :=
  order_verdict info (sv_hooks v) (sv_low v) (sv_high v) (sv_start v + sliding_window_size cfg) o.

(** These are the orders that are due: none of them waits, the one behind them
    does, and cancelled ones have the type -1. *)
Definition due (cfg : Config) (m : OrderInfoMatrix) (info : SharedTradeInfo) (s : Z) (v : stock_view)
    (orders : list Order) : Prop :=
  (forall k o, orders !! k = Some o -> exists ss o0,
     sv_structs v !! (sv_idx v + k)%nat = Some ss /\ order_at cfg m s ss o0 /\
     match verdict_on cfg info v o0 with
     | Wait => False
     | Cancel => o = set_o_type o0 (-1)
     | Send => o = o0
     end) /\
  (forall ss, sv_structs v !! (sv_idx v + length orders)%nat = Some ss -> exists o0,
     order_at cfg m s ss o0 /\ verdict_on cfg info v o0 = Wait).

Record pass_ready {Qo : Type} `{Fifo Qo Order} (cfg : Config) (p : trader_proc Qo) (views : Z -> stock_view) : Prop := {
  pr_pc : tp_pc p = Reading 0;
  pr_none : order_to_send p = [];
  pr_stocks : 0 <= stock_num cfg;
  pr_matrix : matrix_ok cfg (oim (tp_ctl p));
  pr_views s : 0 <= s < stock_num cfg -> view_ok cfg (tp_ctl p) (tp_info p) s (views s);
  pr_exchanges : 0 < exchange_num cfg;
  pr_queues : Z.of_nat (length (tp_queues p)) = exchange_num cfg;
  pr_fifo : Forall fifo_ok (tp_queues p);
}.

Section pass.
Context {Qo : Type} `{Fifo Qo Order} (cfg : Config).
Implicit Types (p : trader_proc Qo) (qs : list Qo).

(** The index of another stock does not matter. *)
Lemma view_ok_other tc info s s' i v :
  0 <= s -> 0 <= s' -> s <> s' -> view_ok cfg tc info s v -> view_ok cfg (with_idx tc s' i) info s v.
Proof.
  intros Hs Hs' Hne [H1 H2 H3 [He1 He2 He3 He4] H5 H6]. split; try done.
  cbn [with_idx next_sorted_struct_idx]. by rewrite list_lookup_insert_ne by lia.
Qed.

Lemma stock_due tc info s v :
  matrix_ok cfg (oim tc) -> view_ok cfg tc info s v -> exists orders,
    due cfg (oim tc) info s v orders /\
    collect_orders cfg tc (fun _ => info) s (sv_start v + sliding_window_size cfg) (drop (sv_idx v) (sv_structs v))
      (Z.of_nat (sv_idx v)) = Done (orders, Z.of_nat (sv_idx v + length orders)).
Proof.
  intros Hm [_ _ Hc He _ _].
  destruct (collect_orders_sendable cfg tc (fun _ => info) s (sv_start v + sliding_window_size cfg) (sv_hooks v) (sv_low v)
    (sv_high v) (drop (sv_idx v) (sv_structs v)) (Z.of_nat (sv_idx v)) Hm) as (gen & Hgen & E); [by apply Forall_drop|done|].
  cbv zeta in E. fold (verdict_on cfg info v) in E.
  pose proof (sendable_prefix (fun _ ss => verdict_on cfg info v (gen ss)) gen (drop (sv_idx v) (sv_structs v))
    (Z.of_nat (sv_idx v))) as (_ & Hpre & Hstop).
  eexists. split; [|rewrite E, Nat2Z.inj_add; reflexivity]. split.
  - intros k o Hk. destruct (Hpre k o Hk) as (ss & Hss & Hv & ->).
    destruct (Hgen ss (list_elem_of_lookup_2 _ _ _ Hss)) as (_ & _ & Eo). rewrite lookup_drop in Hss.
    exists ss, (gen ss). split; [done|]. split; [exact Eo|]. cbv beta in Hv |- *.
    by destruct (verdict_on cfg info v (gen ss)).
  - intros ss Hss. rewrite <- lookup_drop in Hss. exists (gen ss).
    split; [by apply (Hgen ss (list_elem_of_lookup_2 _ _ _ Hss))|by apply Hstop].
Qed.

(** The loop over the stocks from [s] on. *)
Lemma stocks_due n p s (views : Z -> stock_view) :
  tp_pc p = Reading s -> 0 <= s -> s + Z.of_nat n = stock_num cfg -> matrix_ok cfg (oim (tp_ctl p)) ->
  (forall u, s <= u < stock_num cfg -> view_ok cfg (tp_ctl p) (tp_info p) u (views u)) ->
  exists oss idxs, length oss = n /\
    rtc (controller_step cfg) p (collected p (mkTraderController (price_limits (tp_ctl p)) (hook (tp_ctl p))
      (sorted_order_structs (tp_ctl p)) (oim (tp_ctl p)) idxs) (Reading (stock_num cfg)) (concat oss)) /\
    (forall k orders, oss !! k = Some orders -> let u := s + Z.of_nat k in
       due cfg (oim (tp_ctl p)) (tp_info p) u (views u) orders /\
       idxs !! Z.to_nat u = Some (Z.of_nat (sv_idx (views u) + length orders))) /\
    (forall u, 0 <= u < s -> idxs !! Z.to_nat u = next_sorted_struct_idx (tp_ctl p) !! Z.to_nat u).
Proof.
  revert p s. induction n as [|n IH]; intros p s Hpc Hs Hn Hm Hv.
  - exists [], (next_sorted_struct_idx (tp_ctl p)). split_and!; [done| |done|done].
    unfold collected. rewrite app_nil_r. replace (stock_num cfg) with s by lia. rewrite <- Hpc.
    by destruct p as [[] ? ? ? ? ?].
  - pose proof (Hv s ltac:(lia)) as [H1 H2 _ _ H5 H6].
    destruct (stock_due (tp_ctl p) (tp_info p) s (views s) Hm (Hv s ltac:(lia))) as (orders & Hdue & Ec).
    set (i := Z.of_nat (sv_idx (views s) + length orders)) in *.
    set (limit := sv_start (views s) + sliding_window_size cfg) in *.
    set (p1 := collected p (with_idx (tp_ctl p) s i) (Reading (s + 1)) orders).
    assert (Hr : rtc (controller_step cfg) p p1).
    { apply (rtc_l _ _ (set_pc p (Scanning s limit))).
      - unfold controller_step, controller_next. rewrite Hpc, (proj2 (Z.ltb_lt _ _)) by lia.
        by rewrite H5, bind_Done, int_add_ok, bind_Done by done.
      - apply (scan_collects cfg (set_pc p (Scanning s limit)) s limit (sv_structs (views s)) (Z.of_nat (sv_idx (views s))) orders i);
          try done; [lia|]. by rewrite Nat2Z.id. }
    destruct (IH p1 (s + 1) eq_refl ltac:(lia) ltac:(lia) Hm) as (oss & idxs & Hl & Hr1 & Hoss & Hbelow).
    { intros u Hu. apply view_ok_other; [lia..|]. apply Hv. lia. }
    exists (orders :: oss), idxs. split; [simpl; lia|]. split; [|split].
    + etransitivity; [exact Hr|]. unfold p1, collected, with_idx in Hr1 |- *. simpl in Hr1 |- *. by rewrite <- app_assoc in Hr1.
    + intros [|k] os Hk; cbv zeta.
      * injection Hk as <-. rewrite Z.add_0_r. split; [done|]. rewrite Hbelow by lia.
        apply list_lookup_insert_eq. by eapply lookup_lt_Some.
      * replace (s + Z.of_nat (S k)) with (s + 1 + Z.of_nat k) by lia. by apply Hoss.
    + intros u Hu. rewrite Hbelow by lia. apply list_lookup_insert_ne. lia.
Qed.
(** The loop over the collected orders: it comes to its end, or the thread
    waits for room in the queue of the next order. *)
Lemma orders_sent orders p :
  tp_pc p = Reading (stock_num cfg) -> order_to_send p = orders -> 0 < exchange_num cfg ->
  Z.of_nat (length (tp_queues p)) = exchange_num cfg -> Forall fifo_ok (tp_queues p) ->
  Forall (fun o => 0 <= o_stk_code o) orders ->
  exists k qs, (k <= length orders)%nat /\
    (forall e q, tp_queues p !! e = Some q -> exists q', qs !! e = Some q' /\
       fifo_contents q' = fifo_contents q ++ filter (fun o => exch_no cfg (o_stk_code o) = e) (take k orders)) /\
    (k = length orders /\
       rtc (controller_step cfg) p (mkTraderProc (tp_ctl p) (Reading 0) [] (tp_info p) (tp_recv p) qs) \/
     exists o q, orders !! k = Some o /\ qs !! exch_no cfg (o_stk_code o) = Some q /\ fifo_full q = true /\
       let p' := mkTraderProc (tp_ctl p) (Reading (stock_num cfg)) (drop k orders) (tp_info p) (tp_recv p) qs in
       rtc (controller_step cfg) p p' /\ controller_next cfg p' = Blocked).
Proof.
  revert p. induction orders as [|o orders IH]; intros p Hpc Hb He Hl Hok Hc.
  - exists 0%nat, (tp_queues p). split; [done|]. split; [intros e q Hq; exists q; by rewrite app_nil_r|].
    left. split; [done|]. apply rtc_once. unfold controller_step, controller_next.
    rewrite Hpc, Z.ltb_irrefl, Hb. unfold set_pc. by rewrite Hb.
  - apply Forall_cons in Hc as [Ho Hc]. set (e0 := exch_no cfg (o_stk_code o)).
    pose proof (Z.mod_pos_bound (o_stk_code o) (exchange_num cfg) He) as Hmod.
    destruct (lookup_lt_is_Some_2 (tp_queues p) e0) as [q0 Hq0]; [unfold e0, exch_no; lia|].
    pose proof (proj1 (Forall_lookup _ _) Hok _ _ Hq0) as Hok0. cbv beta in Hok0.
    pose proof (BlockQueue.put_law q0 o Hok0) as Hput.
    assert (Enext : controller_next cfg p = attempt_map (fun qs => mkTraderProc (tp_ctl p) (tp_pc p) orders (tp_info p) (tp_recv p) qs)
        match fifo_put q0 o with
        | Blocked => Blocked | Ran (Fault f) => Ran (Fault f) | Ran (Done q) => Ran (Done (<[e0 := q]> (tp_queues p)))
        end).
    { unfold controller_next. rewrite Hpc, Z.ltb_irrefl, Hb. f_equal. cbn [put_orders].
      rewrite int_mod_ok, (array_get_ok _ _ q0) by (done || lia). destruct (fifo_put q0 o) as [|[q|f]]; [done| |done].
      by rewrite array_set_ok by lia. }
    destruct (fifo_full q0) eqn:Efull.
    + exists 0%nat, (tp_queues p). split; [lia|]. split; [intros e q Hq; exists q; by rewrite app_nil_r|].
      right. exists o, q0. split_and!; [done..|]. cbv zeta. cbn [drop]. rewrite <- Hpc, <- Hb.
      replace (mkTraderProc _ _ _ _ _ _) with p by (by destruct p). split; [done|]. by rewrite Enext, Hput.
    + destruct Hput as (q' & Eput & Hok' & Hcont). rewrite Eput in Enext. cbn [attempt_map] in Enext.
      set (p1 := mkTraderProc (tp_ctl p) (tp_pc p) orders (tp_info p) (tp_recv p) (<[e0 := q']> (tp_queues p))) in *.
      assert (Hstep : rtc (controller_step cfg) p p1) by (apply rtc_once; exact Enext).
      destruct (IH p1) as (k & qs & Hk & Hqs & Hend); try done.
      { cbn [p1 tp_queues]. by rewrite length_insert. }
      { by apply Forall_insert. }
      exists (S k), qs. split; [simpl; lia|]. split.
      * intros e q Hq. cbn [take]. destruct (decide (e0 = e)) as [<-|Hne].
        -- destruct (Hqs e0 q') as (q2 & Hq2 & E2); [apply list_lookup_insert_eq; by eapply lookup_lt_Some|].
           exists q2. split; [done|]. rewrite filter_cons_True by done. rewrite E2, Hcont, <- app_assoc. by simplify_eq.
        -- destruct (Hqs e q) as (q2 & Hq2 & E2); [cbn [p1 tp_queues]; by rewrite list_lookup_insert_ne|].
           exists q2. split; [done|]. by rewrite filter_cons_False by done.
      * destruct Hend as [[-> Hr]|(o' & q2 & H1 & H2 & H3 & Hr & Hbl)]; [left|right].
        -- split; [done|]. by etransitivity.
        -- exists o', q2. split_and!; [done..|]. split; [by etransitivity|done].
Qed.

(** Orders carry the code of their stock. *)
Lemma due_codes tc info s v orders :
  0 <= s -> matrix_ok cfg (oim tc) -> view_ok cfg tc info s v -> due cfg (oim tc) info s v orders ->
  Forall (fun o => 0 <= o_stk_code o) orders.
Proof.
  intros Hs Hm [_ _ Hc _ _ _] [Hd _]. apply Forall_lookup. intros k o Ho.
  destruct (Hd k o Ho) as (ss & o0 & Hss & Eo & Hv). rewrite Forall_lookup in Hc.
  destruct (generate_order_ok cfg (oim tc) s ss Hm (Hc _ _ Hss)) as (d & ty & x & vol & E & _).
  unfold order_at in Eo. rewrite E in Eo. injection Eo as <-.
  destruct (verdict_on cfg info v _); [done|subst o; simpl; lia..].
Qed.
End pass.

(** C19: One pass of the controller thread sends exactly the orders that are
    due.  From the start of the [while] loop, while the other threads do not
    touch the shared information and the queues, the steps of the thread
    collect of every stock the orders of its sorted list from its index on, up
    to the first one that has to wait (its id is beyond the window, or its hook
    has no trade yet), those of the earlier stock first, with the type -1 for
    the cancelled ones; they move the index of every stock past exactly these;
    and they append them, in this order, each to the queue of the exchange of
    its stock.  The thread comes back to the start of the loop with nothing
    left to send, or it waits for room in the queue of the first order it has
    not put yet, having put all before. *)
Theorem controller_pass_sends {Qo : Type} `{Fifo Qo Order} cfg (p : trader_proc Qo) views :
  pass_ready cfg p views ->
  exists oss idxs k qs, length oss = Z.to_nat (stock_num cfg) /\
    (forall s orders, oss !! s = Some orders ->
       due cfg (oim (tp_ctl p)) (tp_info p) (Z.of_nat s) (views (Z.of_nat s)) orders /\
       idxs !! s = Some (Z.of_nat (sv_idx (views (Z.of_nat s)) + length orders))) /\
    (forall e q, tp_queues p !! e = Some q -> exists q', qs !! e = Some q' /\
       fifo_contents q' = fifo_contents q ++ filter (fun o => exch_no cfg (o_stk_code o) = e) (take k (concat oss))) /\
    let tc := mkTraderController (price_limits (tp_ctl p)) (hook (tp_ctl p)) (sorted_order_structs (tp_ctl p))
                (oim (tp_ctl p)) idxs in
    (k = length (concat oss) /\
       rtc (controller_step cfg) p (mkTraderProc tc (Reading 0) [] (tp_info p) (tp_recv p) qs) \/
     exists o q, concat oss !! k = Some o /\ qs !! exch_no cfg (o_stk_code o) = Some q /\ fifo_full q = true /\
       let p' := mkTraderProc tc (Reading (stock_num cfg)) (drop k (concat oss)) (tp_info p) (tp_recv p) qs in
       rtc (controller_step cfg) p p' /\ controller_next cfg p' = Blocked).
Proof.
  intros [Hpc Hb Hs Hm Hv He Hl Hok].
  destruct (stocks_due cfg (Z.to_nat (stock_num cfg)) p 0 views) as (oss & idxs & Hn & Hr & Hoss & _);
    [done|lia|lia|done|exact Hv|].
  set (tc := mkTraderController _ _ _ _ idxs) in *.
  destruct (orders_sent cfg (concat oss) (collected p tc (Reading (stock_num cfg)) (concat oss)))
    as (k & qs & _ & Hqs & Hend); try done.
  - unfold collected. simpl. by rewrite Hb.
  - apply Forall_concat, Forall_lookup. intros s orders Hlk. destruct (Hoss s orders Hlk) as [Hd _].
    apply lookup_lt_Some in Hlk. eapply due_codes; [| |apply Hv|exact Hd]; [lia|exact Hm|lia].
  - exists oss, idxs, k, qs. split; [done|]. split; [|split; [exact Hqs|]].
    + intros s orders Hlk. destruct (Hoss s orders Hlk) as [Hd Hi]. by rewrite Z.add_0_l, Nat2Z.id in Hi.
    + destruct Hend as [[-> Hr']|(o & q & H1 & H2 & H3 & Hr' & Hbl)]; [left|right].
      * split; [done|]. by etransitivity.
      * exists o, q. split_and!; [done..|]. split; [by etransitivity|done].
Qed.

(** The first trader of the demo: of stock 1 the order 1 is due, the other one
    is beyond the window; of stock 2 the first order waits for its hook. *)
Definition demo_view (s : Z) : stock_view :=
  if s =? 0 then mkStockView [mkSortStruct 1 (set_coor 0 0 0); mkSortStruct 3 (set_coor 0 0 1)] 0 ∅ price_9 price_11 1
  else mkStockView [mkSortStruct 1 (set_coor 1 0 0); mkSortStruct 2 (set_coor 1 0 1)] 0 demo_whook price_9 price_11 1.

Lemma demo_pass_ready : pass_ready demo_wcfg (demo_wtrader demo_wctl1) demo_view.
Proof.
  split; [reflexivity|reflexivity|vm_compute; congruence| | |reflexivity|reflexivity|].
  - split; vm_compute; congruence.
  - intros s Hs. change (stock_num demo_wcfg) with 2 in Hs. assert (s = 0 \/ s = 1) as [-> | ->] by lia;
      (split; [reflexivity|reflexivity|repeat constructor; vm_compute; congruence| |reflexivity|vm_compute; split; congruence]);
      (split; [reflexivity|reflexivity|reflexivity|]); intros id ht Hid; cbn [demo_view sv_hooks Z.eqb] in Hid.
    + rewrite lookup_empty in Hid. discriminate.
    + unfold demo_whook in Hid. rewrite lookup_insert_Some, lookup_singleton_Some in Hid.
      destruct Hid as [[_ <-]|[_ [_ <-]]]; eexists; reflexivity.
  - constructor; [apply demo_queue_ok|]. constructor; [apply demo_queue_ok|constructor].
Qed.

Lemma controller_pass_sends_witness :
  exists orders1 orders2 k (qs : list (Ring.BlockQueue Order)),
    due demo_wcfg demo_matrix (tp_info (demo_wtrader demo_wctl1)) 0 (demo_view 0) orders1 /\
    due demo_wcfg demo_matrix (tp_info (demo_wtrader demo_wctl1)) 1 (demo_view 1) orders2 /\
    forall e q, tp_queues (demo_wtrader demo_wctl1) !! e = Some q -> exists q', qs !! e = Some q' /\
      fifo_contents q' = fifo_contents q ++
        filter (fun o => exch_no demo_wcfg (o_stk_code o) = e) (take k (orders1 ++ orders2)).
Proof.
  destruct (controller_pass_sends demo_wcfg (demo_wtrader demo_wctl1) demo_view demo_pass_ready)
    as (oss & idxs & k & qs & Hn & Hdue & Hqs & _).
  destruct oss as [|orders1 [|orders2 [|]]]; try discriminate Hn. exists orders1, orders2, k, qs.
  split; [exact (proj1 (Hdue 0%nat orders1 eq_refl))|]. split; [exact (proj1 (Hdue 1%nat orders2 eq_refl))|].
  cbn [concat] in Hqs. rewrite app_nil_r in Hqs. exact Hqs.
Defined.

(** What is due, evaluated: order 1 of stock 1, and nothing of stock 2. *)
Example demo_due :
  due demo_wcfg demo_matrix (tp_info (demo_wtrader demo_wctl1)) 0 (demo_view 0) [mkOrder 1 1 1 0 price_10 100] /\
  due demo_wcfg demo_matrix (tp_info (demo_wtrader demo_wctl1)) 1 (demo_view 1) [].
Proof.
  split; split.
  - intros [|k] o [= <-]. eexists _, _. split; [reflexivity|]. split; [reflexivity|]. vm_compute. reflexivity.
  - intros ss [= <-]. eexists. split; [reflexivity|]. vm_compute. reflexivity.
  - intros k o Ho. done.
  - intros ss [= <-]. eexists. split; [reflexivity|]. vm_compute. reflexivity.
Qed.
