(* ===== verification/OrderGen.v ===== *)
(** * Orders from the cache files ([OrderGenerator] of [src/common/loader.hpp],
    [TraderController::run])

    In the loading modes 0 and 1 the trader does not keep the matrices in
    memory.  It reads the orders of every stock, already sorted, from the five
    cache files of the stock, a tenth at a time. *)

From stdpp Require Import gmap pretty.
From S2P Require Import Prelude Double Bytes Config Types BlockQueue Trader Loader.
#[local] Open Scope Z_scope.

(** ** [std::ifstream], opened for binary input *)
Record ifstream := mkIfstream {
  if_good : bool;
  if_rest : bytes;
}.

Definition open_ifstream (fs : filesystem) (name : string) : ifstream :=
  match fs !! name with
  | Some contents => mkIfstream true contents
  | None => mkIfstream false []
  end.

(** [read(buf, n)]: what is read, and the stream.  A short read takes what is
    left and sets the failure bit; a failed stream reads nothing. *)
Definition ifstream_read (f : ifstream) (n : nat) : bytes * ifstream :=
  if negb (if_good f) then ([], f)
  else if decide (n <= length (if_rest f))%nat
  then (take n (if_rest f), mkIfstream true (drop n (if_rest f)))
  else (if_rest f, mkIfstream false []).

(** ** The generator

    A buffer [new T[length]] is not initialised; the model keeps the bytes
    that have been written, a prefix, and takes a read beyond them as a
    fault. *)
Record OrderGenerator := mkOrderGenerator {
  g_ifs : list (list ifstream);
  g_order_id_matrix : list bytes;
  g_direction_matrix : list bytes;
  g_type_matrix : list bytes;
  g_price_matrix : list bytes;
  g_volume_matrix : list bytes;
  g_start_idx : list Z;
  g_length : Z;
  g_cur_partition : list Z;
}.

Definition num_partition : Z := 10.

(** [ifs[stk][idx].read(matrix[stk].get(), n)]. *)
Definition read_column (ifs : list (list ifstream)) (matrix : list bytes) (stk idx : Z) (n : nat)
    : outcome (list (list ifstream) * list bytes) :=
  streams ← array_get ifs stk;
  f ← array_get streams idx;
  buf ← array_get matrix stk;
  let '(read, f) := ifstream_read f n in
  streams ← array_set streams idx f;
  ifs ← array_set ifs stk streams;
  matrix ← array_set matrix stk (read ++ drop (length read) buf);
  Done (ifs, matrix).

Definition load_partition (g : OrderGenerator) (stk_code_minus_one : Z) : outcome (bool * OrderGenerator) :=
  c ← array_get (g_cur_partition g) stk_code_minus_one;
  if c >=? num_partition then Done (false, g)
  else
    c ← int_add c 1;
    cur_partition ← array_set (g_cur_partition g) stk_code_minus_one c;
    let n := Z.to_nat (g_length g) in
    '(ifs, m0) ← read_column (g_ifs g) (g_order_id_matrix g) stk_code_minus_one order_id_idx (4 * n);
    '(ifs, m1) ← read_column ifs (g_direction_matrix g) stk_code_minus_one direction_idx (4 * n);
    '(ifs, m2) ← read_column ifs (g_type_matrix g) stk_code_minus_one type_idx (4 * n);
    '(ifs, m3) ← read_column ifs (g_price_matrix g) stk_code_minus_one price_idx (8 * n);
    '(ifs, m4) ← read_column ifs (g_volume_matrix g) stk_code_minus_one volume_idx (4 * n);
    start_idx ← array_set (g_start_idx g) stk_code_minus_one 0;
    Done (true, mkOrderGenerator ifs m0 m1 m2 m3 m4 start_idx (g_length g) cur_partition).

(** [matrix[stk][idx]]. *)
Definition column_get {T} (pod : Pod T) (matrix : list bytes) (stk idx : Z) : outcome T :=
  buf ← array_get matrix stk;
  if idx <? 0 then Fault OutOfBounds
  else
    '(x, _) ← get_elem_from_buf pod buf (pod_size pod * Z.to_nat idx);
    Done x.

(** The order that tells the end: only its type is initialised, and only its
    type is read. *)
Definition no_more_orders : Order := mkOrder 0 0 0 (-1) dzero 0.

Definition gen_generate_order (g : OrderGenerator) (stk_code : Z) : outcome (Order * OrderGenerator) :=
  stk_code ← int_sub stk_code 1;
  i ← array_get (g_start_idx g) stk_code;
  '(more, g) ← (if i >=? g_length g then load_partition g stk_code else Done (true, g));
  if negb more then Done (no_more_orders, g)
  else
    idx ← array_get (g_start_idx g) stk_code;
    code ← int_add stk_code 1;
    id ← column_get pod_int (g_order_id_matrix g) stk_code idx;
    d ← column_get pod_int (g_direction_matrix g) stk_code idx;
    t ← column_get pod_int (g_type_matrix g) stk_code idx;
    p ← column_get pod_double (g_price_matrix g) stk_code idx;
    v ← column_get pod_int (g_volume_matrix g) stk_code idx;
    Done (mkOrder code id d t p v, g).

(** [commit(stk_code)]. *)
Definition gen_commit (g : OrderGenerator) (stk_code : Z) : outcome OrderGenerator :=
  stk_code ← int_sub stk_code 1;
  start_idx ← array_update (g_start_idx g) stk_code (fun i => int_add i 1);
  Done (mkOrderGenerator (g_ifs g) (g_order_id_matrix g) (g_direction_matrix g) (g_type_matrix g)
          (g_price_matrix g) (g_volume_matrix g) start_idx (g_length g) (g_cur_partition g)).

(** The streams of stock [t]. *)
Definition open_streams (cfg : Config) (L : LoaderNames) (fs : filesystem) (t : Z) : outcome (list ifstream) :=
  for_lt num_matrix (fun i streams =>
    name ← stock_cache_fname L (partition_idx cfg) i t;
    Done (streams ++ [open_ifstream fs name])) [].

(** The constructor. *)
Definition new_OrderGenerator (cfg : Config) (L : LoaderNames) (fs : filesystem) : outcome OrderGenerator :=
  ifs ← for_lt (stock_num cfg) (fun t ifs =>
          streams ← open_streams cfg L fs t; Done (ifs ++ [streams])) [];
  n ← orders_per_stock cfg;
  length ← int_div n num_partition;
  _ ← (if length <? 0 then Fault Thrown else Done tt);
  start_idx ← vec_new (stock_num cfg) 0;
  cur_partition ← vec_new (stock_num cfg) 0;
  buffers ← vec_new (stock_num cfg) [];
  for_lt (stock_num cfg) (fun t g => '(_, g) ← load_partition g t; Done g)
    (mkOrderGenerator ifs buffers buffers buffers buffers buffers start_idx length cur_partition).

(** ** [TraderController::run] *)

(** The inner loop of [run] for stock [t]; [info i] is the shared information
    that the test of the [i]-th order of the stock sees.  [fuel] bounds the
    number of iterations. *)
Fixpoint gen_collect (fuel : nat) (tc : TraderController) (info : Z -> SharedTradeInfo)
    (t order_id_limits : Z) (i : Z) (g : OrderGenerator) : outcome (list Order * OrderGenerator) :=
  match fuel with
  | O => Fault OutOfFuel
  | S fuel =>
      '(order, g) ← gen_generate_order g (t + 1);
      if o_type order =? -1 then Done ([], g)
      else
        '(ok, order) ← check_order tc (info i) order order_id_limits t;
        if negb ok then Done ([], g)
        else
          g ← gen_commit g (t + 1);
          '(orders, g) ← gen_collect fuel tc info t order_id_limits (i + 1) g;
          Done (order :: orders, g)
  end.

(** The body of the loop over the stocks. *)
Definition gen_collect_stock (cfg : Config) (fuel : nat) (tc : TraderController)
    (start_info : SharedTradeInfo) (info : Z -> SharedTradeInfo) (t i : Z) (g : OrderGenerator)
    : outcome (list Order * OrderGenerator) :=
  start ← get_sliding_window_start start_info (t + 1);
  order_id_limits ← int_add start (sliding_window_size cfg);
  gen_collect fuel tc info t order_id_limits i g.

(** One round of the [while (work_flag)] loop up to the sends; [obs t] is what
    the iteration for stock [t] sees: the shared information when it reads the
    window start, and at each test, numbered from [first t] on. *)
Fixpoint gen_collect_stocks (cfg : Config) (fuel : nat) (tc : TraderController)
    (obs : Z -> SharedTradeInfo * (Z -> SharedTradeInfo)) (first : Z -> Z) (n : nat) (t : Z)
    (g : OrderGenerator) : outcome (list Order * OrderGenerator) :=
  match n with
  | O => Done ([], g)
  | S n =>
      '(orders, g) ← gen_collect_stock cfg fuel tc (obs t).1 (obs t).2 t (first t) g;
      '(rest, g) ← gen_collect_stocks cfg fuel tc obs first n (t + 1) g;
      Done (orders ++ rest, g)
  end.

(** ** The thread of the controller

    What one round of a [while (work_flag)] loop meets of the other threads:
    the shared information that the iteration for a stock sees when it reads
    the window start and at each of its tests, numbered from 0 on, and what
    the senders make of the queues before each of the sends. *)
Record round_view (Q : Type) := mkView {
  view_info : Z -> SharedTradeInfo * (Z -> SharedTradeInfo);
  view_queues : nat -> list Q -> list Q;
}.
Arguments mkView {Q} view_info view_queues.
Arguments view_info {Q} r.
Arguments view_queues {Q} r.

Section loops.
Context {Q : Type} `{Fifo Q Order} (cfg : Config).

(** The loop over [order_to_send], with the other threads between the sends;
    [Blocked] when the thread waits for room for ever. *)
Fixpoint send_orders (served : nat -> list Q -> list Q) (k : nat) (queues : list Q) (orders : list Order)
    : attempt (list Q) :=
  match orders with
  | [] => Ran (Done queues)
  | order :: orders =>
      match put_orders cfg (served k queues) [order] with
      | Ran (Done queues) => send_orders served (S k) queues orders
      | r => r
      end
  end.

(** [collect_orders] numbers the tests of a stock by the indices of its
    orders. *)
Definition from_index (tc : TraderController) (info : Z -> SharedTradeInfo * (Z -> SharedTradeInfo))
    (t : Z) : SharedTradeInfo * (Z -> SharedTradeInfo) :=
  ((info t).1, fun i => (info t).2 (i - nth (Z.to_nat t) (next_sorted_struct_idx tc) 0)).

(** [run_all_in_memory]; the work flag is taken away after the rounds of the
    list. *)
Fixpoint run_all_in_memory (views : list (round_view Q)) (tc : TraderController) (queues : list Q)
    : attempt (list Q) :=
  match views with
  | [] => Ran (Done queues)
  | v :: views =>
      match collect_round cfg tc (from_index tc (view_info v)) with
      | Fault f => Ran (Fault f)
      | Done (order_to_send, tc) =>
          match send_orders (view_queues v) 0 queues order_to_send with
          | Ran (Done queues) => run_all_in_memory views tc queues
          | r => r
          end
      end
  end.

(** The loop of [run]. *)
Fixpoint run_generator (fuel : nat) (views : list (round_view Q)) (tc : TraderController) (g : OrderGenerator)
    (queues : list Q) : attempt (list Q) :=
  match views with
  | [] => Ran (Done queues)
  | v :: views =>
      match gen_collect_stocks cfg fuel tc (view_info v) (fun _ => 0) (Z.to_nat (stock_num cfg)) 0 g with
      | Fault f => Ran (Fault f)
      | Done (order_to_send, g) =>
          match send_orders (view_queues v) 0 queues order_to_send with
          | Ran (Done queues) => run_generator fuel views tc g queues
          | r => r
          end
      end
  end.

(** [run] *)
Definition controller_run (L : LoaderNames) (fuel : nat) (fs : filesystem) (views : list (round_view Q))
    (tc : TraderController) (queues : list Q) : attempt (list Q) :=
  if load_mode cfg =? 2 then run_all_in_memory views tc queues
  else
    match new_OrderGenerator cfg L fs with
    | Fault f => Ran (Fault f)
    | Done orderGen => run_generator fuel views tc orderGen queues
    end.
End loops.
