(* ===== verification/OrderGenProps.v ===== *)
(** * Properties of the order generator

    What the cache files hold after a load in mode 0 comes back, order by
    order, from the generator; so the trader sends the same orders whether it
    keeps the matrices in memory or reads the cache. *)

From stdpp Require Import gmap pretty.
From S2P Require Import Prelude Double Bytes Config Types Trader TraderProps Loader LoaderProps.
From S2P Require Import OrderGen.
#[local] Open Scope Z_scope.

(** ** A file of values *)
Section values.
Context {T : Type} (pod : Pod T) (nopad : pod_pad pod = 0%nat).
Implicit Types (vals : list T).

Definition enc vals : bytes := concat (map (store pod []) vals).

Lemma enc_app vals vals' : enc (vals ++ vals') = enc vals ++ enc vals'.
Proof. unfold enc. by rewrite map_app, concat_app. Qed.

Lemma enc_length vals : length (enc vals) = (pod_size pod * length vals)%nat.
Proof.
  unfold enc. induction vals as [|x vals IH]; simpl; [lia|].
  rewrite length_app, IH, store_length by (by rewrite nopad). lia.
Qed.

Lemma enc_take n vals : take (pod_size pod * n) (enc vals) = enc (take n vals).
Proof.
  destruct (decide (n <= length vals)%nat) as [Hn|Hn].
  - rewrite <- (take_drop n vals) at 1. rewrite enc_app, take_app_length'; [done|].
    rewrite enc_length, length_take. f_equal. lia.
  - rewrite !take_ge; [done|lia|]. rewrite enc_length. nia.
Qed.

Lemma enc_drop n vals : drop (pod_size pod * n) (enc vals) = enc (drop n vals).
Proof.
  destruct (decide (n <= length vals)%nat) as [Hn|Hn].
  - rewrite <- (take_drop n vals) at 1. rewrite enc_app, drop_app_length'; [done|].
    rewrite enc_length, length_take. f_equal. lia.
  - rewrite !drop_ge; [done|lia|]. rewrite enc_length. nia.
Qed.

Lemma enc_get vals i x :
  Forall (pod_valid pod) vals -> vals !! i = Some x ->
  get_elem_from_buf pod (enc vals) (pod_size pod * i) = Done (x, (pod_size pod * i + pod_size pod)%nat).
Proof.
  intros Hv Hi. assert (Hx : pod_valid pod x) by (rewrite Forall_lookup in Hv; eauto).
  pose proof (lookup_lt_Some _ _ _ Hi).
  pose proof (get_elem_app pod (enc (take i vals)) [] x (enc (drop (S i) vals))) as E.
  rewrite enc_length, length_take, Nat.min_l in E by lia. rewrite <- E by (done || by rewrite nopad).
  do 2 f_equal. rewrite <- (take_drop_middle vals i x Hi) at 1. rewrite enc_app. f_equal.
Qed.

(** ** One column of one stock

    After [c] partitions of [len] values the stream holds what is left and
    the buffer the last partition. *)
Record column_at vals (len c : nat) (buf : bytes) (f : ifstream) : Prop := {
  ca_good : if_good f = true;
  ca_rest : if_rest f = enc (drop (c * len) vals);
  ca_fresh : c = 0%nat -> buf = [];
  ca_buf : (0 < c)%nat -> buf = enc (take len (drop ((c - 1) * len) vals));
}.

Lemma column_read vals len c buf f :
  ((c + 1) * len <= length vals)%nat -> column_at vals len c buf f ->
  exists r f', ifstream_read f (pod_size pod * len) = (r, f') /\
    column_at vals len (c + 1) (r ++ drop (length r) buf) f'.
Proof.
  intros Hlen [Hg Hr H0 H1].
  assert (Er : length (enc (take len (drop (c * len) vals))) = (pod_size pod * len)%nat).
  { rewrite enc_length, length_take, length_drop. f_equal. lia. }
  unfold ifstream_read. rewrite Hg. cbn [negb]. rewrite decide_True.
  2:{ rewrite Hr, enc_length, length_drop. apply Nat.mul_le_mono_l. lia. }
  eexists _, _. split; [done|]. rewrite Hr, enc_take, enc_drop, drop_drop.
  assert (Ebuf : drop (length (enc (take len (drop (c * len) vals)))) buf = []).
  { apply drop_ge. rewrite Er. destruct c as [|c]; [rewrite H0 by done; simpl; lia|].
    rewrite H1 by lia. rewrite enc_length, length_take. apply Nat.mul_le_mono_l. lia. }
  rewrite Ebuf, app_nil_r. split; cbn [if_good if_rest]; [done| |lia|].
  - f_equal. f_equal. lia.
  - intros _. do 3 f_equal. lia.
Qed.

Lemma column_get_at vals len c i matrix t buf f x :
  Forall (pod_valid pod) vals -> (0 < c)%nat -> (i < len)%nat -> 0 <= t -> matrix !! Z.to_nat t = Some buf ->
  column_at vals len c buf f -> vals !! ((c - 1) * len + i)%nat = Some x ->
  column_get pod matrix t (Z.of_nat i) = Done x.
Proof.
  intros Hv Hc Hi Ht Hm [_ _ _ Hbuf] Hx. unfold column_get.
  rewrite (array_get_ok _ _ buf), bind_Done by done.
  destruct (Z.ltb_spec (Z.of_nat i) 0); [lia|]. rewrite Nat2Z.id, Hbuf by done.
  rewrite (enc_get _ _ x); [done| |].
  - by apply Forall_take, Forall_drop.
  - by rewrite lookup_take_lt, lookup_drop by done.
Qed.
End values.

Lemma read_column_ok ifs matrix t idx n streams f buf r f' :
  0 <= t -> 0 <= idx -> ifs !! Z.to_nat t = Some streams -> streams !! Z.to_nat idx = Some f ->
  matrix !! Z.to_nat t = Some buf -> ifstream_read f n = (r, f') ->
  read_column ifs matrix t idx n =
    Done (<[Z.to_nat t := <[Z.to_nat idx := f']> streams]> ifs,
          <[Z.to_nat t := r ++ drop (length r) buf]> matrix).
Proof.
  intros Ht Hi Hs Hf Hb Hr. unfold read_column.
  pose proof (lookup_lt_Some _ _ _ Hs). pose proof (lookup_lt_Some _ _ _ Hf). pose proof (lookup_lt_Some _ _ _ Hb).
  rewrite (array_get_ok _ _ streams), bind_Done by done.
  rewrite (array_get_ok _ _ f), bind_Done by done. rewrite (array_get_ok _ _ buf), bind_Done by done.
  rewrite Hr. rewrite !array_set_ok, !bind_Done by lia. rewrite array_set_ok by lia. done.
Qed.

(** ** A stock of the generator

    [O] are the orders of stock [t]; [c] partitions have been read, and [i]
    orders of the current one are committed. *)
Record gen_at (g : OrderGenerator) (t : Z) (O : list Order) (c i : nat) : Prop := {
  ga_t : 0 <= t;
  ga_length : 0 <= g_length g;
  ga_start : g_start_idx g !! Z.to_nat t = Some (Z.of_nat i);
  ga_cur : g_cur_partition g !! Z.to_nat t = Some (Z.of_nat c);
  ga_columns : exists f0 f1 f2 f3 f4 b0 b1 b2 b3 b4,
    g_ifs g !! Z.to_nat t = Some [f0; f1; f2; f3; f4] /\
    g_order_id_matrix g !! Z.to_nat t = Some b0 /\ g_direction_matrix g !! Z.to_nat t = Some b1 /\
    g_type_matrix g !! Z.to_nat t = Some b2 /\ g_price_matrix g !! Z.to_nat t = Some b3 /\
    g_volume_matrix g !! Z.to_nat t = Some b4 /\
    column_at pod_int (map o_order_id O) (Z.to_nat (g_length g)) c b0 f0 /\
    column_at pod_int (map o_direction O) (Z.to_nat (g_length g)) c b1 f1 /\
    column_at pod_int (map o_type O) (Z.to_nat (g_length g)) c b2 f2 /\
    column_at pod_double (map o_price O) (Z.to_nat (g_length g)) c b3 f3 /\
    column_at pod_int (map o_volume O) (Z.to_nat (g_length g)) c b4 f4;
}.

(** The generators agree but for stock [t]. *)
Record same_except (t : Z) (g g' : OrderGenerator) : Prop := {
  se_length : g_length g' = g_length g;
  se_lookup k : k <> Z.to_nat t ->
    g_start_idx g' !! k = g_start_idx g !! k /\ g_cur_partition g' !! k = g_cur_partition g !! k /\
    g_ifs g' !! k = g_ifs g !! k /\ g_order_id_matrix g' !! k = g_order_id_matrix g !! k /\
    g_direction_matrix g' !! k = g_direction_matrix g !! k /\ g_type_matrix g' !! k = g_type_matrix g !! k /\
    g_price_matrix g' !! k = g_price_matrix g !! k /\ g_volume_matrix g' !! k = g_volume_matrix g !! k;
}.

Lemma same_except_refl t g : same_except t g g.
Proof. by split. Qed.

Lemma same_except_trans t g1 g2 g3 : same_except t g1 g2 -> same_except t g2 g3 -> same_except t g1 g3.
Proof.
  intros [L1 H1] [L2 H2]. split; [congruence|]. intros k Hk.
  destruct (H1 k Hk) as (<-&<-&<-&<-&<-&<-&<-&<-). by apply H2.
Qed.

Lemma gen_at_same t t' g g' O c i :
  same_except t g g' -> t' <> t -> 0 <= t -> gen_at g t' O c i -> gen_at g' t' O c i.
Proof.
  intros [HL Hk] Hne Ht [Ht' Hl Hs Hc Hcol].
  destruct (Hk (Z.to_nat t')) as (E1&E2&E3&E4&E5&E6&E7&E8); [lia|].
  split; [done|by rewrite HL|by rewrite E1|by rewrite E2|].
  by rewrite HL, E3, E4, E5, E6, E7, E8.
Qed.

(** Reading the next partition. *)
Lemma load_partition_ok g t O c i :
  gen_at g t O c i -> (c < 10)%nat -> (10 * Z.to_nat (g_length g) <= length O)%nat ->
  exists g', load_partition g t = Done (true, g') /\ gen_at g' t O (c + 1) 0 /\ same_except t g g'.
Proof.
  intros [Ht HL Hs Hc (f0&f1&f2&f3&f4&b0&b1&b2&b3&b4&Hf&B0&B1&B2&B3&B4&C0&C1&C2&C3&C4)] Hlt Hlen.
  set (len := Z.to_nat (g_length g)) in *.
  assert (Hle : ((c + 1) * len <= length O)%nat) by nia.
  apply column_read in C0 as (r0&f0'&R0&C0), C1 as (r1&f1'&R1&C1), C2 as (r2&f2'&R2&C2),
    C3 as (r3&f3'&R3&C3), C4 as (r4&f4'&R4&C4); rewrite ?length_map; try done.
  pose proof (lookup_lt_Some _ _ _ Hf). pose proof (lookup_lt_Some _ _ _ Hs). pose proof (lookup_lt_Some _ _ _ Hc).
  unfold load_partition. rewrite (array_get_ok _ _ (Z.of_nat c)), bind_Done by done.
  unfold num_partition. rewrite Z.geb_leb, (proj2 (Z.leb_gt _ _)) by lia.
  rewrite int_add_ok, bind_Done by (unfold INT_MIN, INT_MAX; lia).
  rewrite (array_set_ok (g_cur_partition g)), bind_Done by lia. cbv zeta. fold len.
  rewrite (read_column_ok _ _ t order_id_idx _ _ f0 b0 r0 f0') by (done || exact R0). rewrite bind_Done.
  rewrite (read_column_ok _ _ t direction_idx _ [f0'; f1; f2; f3; f4] f1 b1 r1 f1')
    by (try done; try exact R1; by rewrite list_lookup_insert_eq). rewrite bind_Done.
  rewrite (read_column_ok _ _ t type_idx _ [f0'; f1'; f2; f3; f4] f2 b2 r2 f2')
    by (try done; try exact R2; by rewrite list_lookup_insert_eq by (by rewrite !length_insert)). rewrite bind_Done.
  rewrite (read_column_ok _ _ t price_idx _ [f0'; f1'; f2'; f3; f4] f3 b3 r3 f3')
    by (try done; try exact R3; by rewrite list_lookup_insert_eq by (by rewrite !length_insert)). rewrite bind_Done.
  rewrite (read_column_ok _ _ t volume_idx _ [f0'; f1'; f2'; f3'; f4] f4 b4 r4 f4')
    by (try done; try exact R4; by rewrite list_lookup_insert_eq by (by rewrite !length_insert)). rewrite bind_Done.
  rewrite array_set_ok, bind_Done by lia. eexists. split; [reflexivity|]. split.
  - split; cbn [g_length g_start_idx g_cur_partition g_ifs g_order_id_matrix g_direction_matrix g_type_matrix g_price_matrix g_volume_matrix].
    + done.
    + done.
    + by rewrite list_lookup_insert_eq by lia.
    + rewrite list_lookup_insert_eq by lia. do 2 f_equal. lia.
    + fold len. eexists f0', f1', f2', f3', f4', _, _, _, _, _.
      split; [by rewrite list_lookup_insert_eq by (by rewrite !length_insert)|].
      split; [apply list_lookup_insert_eq; by eapply lookup_lt_Some|].
      split; [apply list_lookup_insert_eq; by eapply lookup_lt_Some|].
      split; [apply list_lookup_insert_eq; by eapply lookup_lt_Some|].
      split; [apply list_lookup_insert_eq; by eapply lookup_lt_Some|].
      split; [apply list_lookup_insert_eq; by eapply lookup_lt_Some|]. done.
  - split; [done|]. intros k Hk.
    cbn [g_length g_start_idx g_cur_partition g_ifs g_order_id_matrix g_direction_matrix g_type_matrix g_price_matrix g_volume_matrix].
    by rewrite !list_lookup_insert_ne by done.
Qed.

(** The generator is at order [k] of stock [t]. *)
Definition gen_pos (g : OrderGenerator) (t : Z) (O : list Order) (k : nat) : Prop :=
  exists c i, gen_at g t O c i /\ (1 <= c <= 10)%nat /\ (i <= Z.to_nat (g_length g))%nat /\
    k = ((c - 1) * Z.to_nat (g_length g) + i)%nat.

(** The next order is in the buffer. *)
Definition gen_ready (g : OrderGenerator) (t : Z) (O : list Order) (k : nat) : Prop :=
  exists c i, gen_at g t O c i /\ (1 <= c <= 10)%nat /\ (i < Z.to_nat (g_length g))%nat /\
    k = ((c - 1) * Z.to_nat (g_length g) + i)%nat.

Lemma gen_pos_same t t' g g' O k :
  same_except t g g' -> t' <> t -> 0 <= t -> gen_pos g t' O k -> gen_pos g' t' O k.
Proof.
  intros Hs Hne Ht (c & i & Hg & Hc & Hi & ->). exists c, i. rewrite (se_length _ _ _ Hs).
  split; [by eapply gen_at_same|done].
Qed.

Lemma valid_Order_columns O :
  Forall (fun o => valid_Order o = true) O ->
  Forall (pod_valid pod_int) (map o_order_id O) /\ Forall (pod_valid pod_int) (map o_direction O) /\
  Forall (pod_valid pod_int) (map o_type O) /\ Forall (pod_valid pod_double) (map o_price O) /\
  Forall (pod_valid pod_int) (map o_volume O).
Proof.
  intros HO. rewrite !Forall_map. split_and!; (eapply Forall_impl; [exact HO|]);
    intros o Ho; unfold valid_Order in Ho; to_prop; assumption.
Qed.

(** The reads of [generate_order] when the order is in the buffer. *)
Lemma gen_ready_reads g t O k o :
  gen_ready g t O k -> Forall (fun o => valid_Order o = true) O -> O !! k = Some o ->
  exists i, g_start_idx g !! Z.to_nat t = Some (Z.of_nat i) /\
    column_get pod_int (g_order_id_matrix g) t (Z.of_nat i) = Done (o_order_id o) /\
    column_get pod_int (g_direction_matrix g) t (Z.of_nat i) = Done (o_direction o) /\
    column_get pod_int (g_type_matrix g) t (Z.of_nat i) = Done (o_type o) /\
    column_get pod_double (g_price_matrix g) t (Z.of_nat i) = Done (o_price o) /\
    column_get pod_int (g_volume_matrix g) t (Z.of_nat i) = Done (o_volume o).
Proof.
  intros (c & i & [Ht HL Hs Hc (f0&f1&f2&f3&f4&b0&b1&b2&b3&b4&Hf&B0&B1&B2&B3&B4&C0&C1&C2&C3&C4)] & Hc1 & Hi & ->) HO Ho.
  destruct (valid_Order_columns O HO) as (V0 & V1 & V2 & V3 & V4).
  assert (Hcol : forall {T} (f : Order -> T), map f O !! ((c - 1) * Z.to_nat (g_length g) + i)%nat = Some (f o))
    by (intros T f; by rewrite list_lookup_fmap, Ho).
  exists i. split; [done|]. set (len := Z.to_nat (g_length g)) in *.
  split_and!;
    [apply (column_get_at pod_int eq_refl (map o_order_id O) len c i _ t b0 f0)
    |apply (column_get_at pod_int eq_refl (map o_direction O) len c i _ t b1 f1)
    |apply (column_get_at pod_int eq_refl (map o_type O) len c i _ t b2 f2)
    |apply (column_get_at pod_double eq_refl (map o_price O) len c i _ t b3 f3)
    |apply (column_get_at pod_int eq_refl (map o_volume O) len c i _ t b4 f4)];
    (lia || assumption || apply Hcol).
Qed.

Lemma gen_generate_order_more g t O k o :
  gen_pos g t O k -> (0 < Z.to_nat (g_length g))%nat -> (10 * Z.to_nat (g_length g) <= length O)%nat ->
  Forall (fun o => valid_Order o = true) O -> (k < 10 * Z.to_nat (g_length g))%nat -> O !! k = Some o ->
  o_stk_code o = t + 1 -> t + 1 <= INT_MAX ->
  exists g', gen_generate_order g (t + 1) = Done (o, g') /\ gen_ready g' t O k /\ same_except t g g'.
Proof.
  intros (c & i & Hg & Hc & Hi & ->) Hpos Hlen HO Hk Ho Hcode Ht1.
  pose proof Hg as [Ht HL Hs _ _]. unfold gen_generate_order, INT_MAX in *.
  rewrite int_sub_ok, bind_Done by (unfold INT_MIN, INT_MAX; lia). rewrite Z.add_simpl_r.
  rewrite (array_get_ok _ _ (Z.of_nat i)), bind_Done by done.
  assert (exists g', (if Z.of_nat i >=? g_length g then load_partition g t else Done (true, g)) = Done (true, g') /\
    gen_ready g' t O ((c - 1) * Z.to_nat (g_length g) + i)%nat /\ same_except t g g')
    as (g' & -> & Hready & Hsame).
  { destruct (Z.geb_spec (Z.of_nat i) (g_length g)).
    - destruct (load_partition_ok g t O c i Hg) as (g' & E & Hg' & Hsame); [nia|done|].
      exists g'. split; [done|]. split; [|done]. exists (c + 1)%nat, 0%nat. rewrite (se_length _ _ _ Hsame).
      split; [done|]. split; [nia|]. split; [lia|]. replace i with (Z.to_nat (g_length g)) by lia. nia.
    - exists g. split; [done|]. split; [|apply same_except_refl]. exists c, i. split_and!; lia || done. }
  rewrite bind_Done. cbn [negb].
  destruct (gen_ready_reads _ _ _ _ _ Hready HO Ho) as (j & Hj & R0 & R1 & R2 & R3 & R4).
  rewrite (array_get_ok _ _ (Z.of_nat j)), bind_Done by done.
  rewrite int_add_ok, bind_Done by (unfold INT_MIN, INT_MAX; lia).
  rewrite R0, bind_Done, R1, bind_Done, R2, bind_Done, R3, bind_Done, R4, bind_Done.
  exists g'. split; [|done]. rewrite <- Hcode. by destruct o.
Qed.

(** After ten partitions the stock is at its end. *)
Lemma gen_generate_order_end g t O :
  gen_pos g t O (10 * Z.to_nat (g_length g)) -> (0 < Z.to_nat (g_length g))%nat -> t + 1 <= INT_MAX ->
  gen_generate_order g (t + 1) = Done (no_more_orders, g).
Proof.
  intros (c & i & [Ht HL Hs Hc _] & Hc1 & Hi & E) Hpos Ht1. unfold gen_generate_order, INT_MAX in *.
  assert (c = 10%nat /\ i = Z.to_nat (g_length g)) as [-> ->] by nia.
  rewrite int_sub_ok, bind_Done by (unfold INT_MIN, INT_MAX; lia). rewrite Z.add_simpl_r.
  rewrite (array_get_ok _ _ (Z.of_nat (Z.to_nat (g_length g)))), bind_Done by done.
  rewrite Z.geb_leb, (proj2 (Z.leb_le _ _)) by lia. unfold load_partition.
  rewrite (array_get_ok _ _ 10), bind_Done by done. done.
Qed.

Lemma gen_commit_ok g t O k :
  gen_ready g t O k -> t + 1 <= INT_MAX -> g_length g <= INT_MAX ->
  exists g', gen_commit g (t + 1) = Done g' /\ gen_pos g' t O (k + 1) /\ same_except t g g'.
Proof.
  intros (c & i & Hg & Hc & Hi & ->) Ht1 HLm. destruct Hg as [Ht HL Hs Hcur Hcol]. unfold gen_commit, INT_MAX in *.
  rewrite int_sub_ok, bind_Done by (unfold INT_MIN, INT_MAX; lia). rewrite Z.add_simpl_r.
  erewrite (array_update_ok _ t _ (Z.of_nat i)); [|done|done|apply int_add_ok; unfold INT_MIN, INT_MAX; lia].
  pose proof (lookup_lt_Some _ _ _ Hs). rewrite bind_Done. eexists. split; [reflexivity|]. split.
  - exists c, (i + 1)%nat. cbn [g_length]. split; [|lia]. split; cbn [g_length g_start_idx g_cur_partition]; try done.
    rewrite list_lookup_insert_eq by lia. do 2 f_equal. lia.
  - split; [done|]. intros k Hk.
    cbn [g_length g_start_idx g_cur_partition g_ifs g_order_id_matrix g_direction_matrix g_type_matrix g_price_matrix g_volume_matrix].
    by rewrite !list_lookup_insert_ne by done.
Qed.

(** ** The loop of [run] is the loop of [run_all_in_memory] *)
(** What the sorted structs of a stock stand for. *)
Definition generates (cfg : Config) (m : OrderInfoMatrix) (t : Z) (ss : SortStruct) (o : Order) : Prop :=
  generate_order (stock_num cfg) m (t + 1) ss
    (loader_nx_matrix cfg) (loader_ny_matrix cfg) (loader_nz_matrix cfg) = Done o.

Lemma gen_collect_refines cfg tc tc' info t limit structs O fuel k g :
  hook tc' = hook tc -> price_limits tc' = price_limits tc ->
  Forall2 (generates cfg (oim tc) t) structs O ->
  Forall (fun o => valid_Order o = true /\ o_stk_code o = t + 1 /\ o_type o <> -1) O ->
  gen_pos g t O k -> (0 < Z.to_nat (g_length g))%nat -> g_length g <= INT_MAX ->
  (10 * Z.to_nat (g_length g) <= length O)%nat ->
  t + 1 <= INT_MAX -> (k <= 10 * Z.to_nat (g_length g))%nat ->
  (10 * Z.to_nat (g_length g) - k < fuel)%nat ->
  match collect_orders cfg tc info t limit (drop k (take (10 * Z.to_nat (g_length g)) structs)) (Z.of_nat k) with
  | Done (orders, i) =>
      exists g', gen_collect fuel tc' info t limit (Z.of_nat k) g = Done (orders, g') /\
        gen_pos g' t O (Z.to_nat i) /\ same_except t g g'
  | Fault f => gen_collect fuel tc' info t limit (Z.of_nat k) g = Fault f
  end.
Proof.
  intros Ehook Eprice HF HO Hg Hpos HLm Hlen Ht1 Hk Hfuel.
  remember (10 * Z.to_nat (g_length g))%nat as N eqn:EN.
  assert (HV : Forall (fun o => valid_Order o = true) O) by (eapply Forall_impl; [exact HO|]; by intros o []).
  revert k g fuel EN Hg Hpos HLm Hk Hfuel.
  assert (forall n k g fuel, n = (N - k)%nat -> N = (10 * Z.to_nat (g_length g))%nat -> gen_pos g t O k ->
    (0 < Z.to_nat (g_length g))%nat -> g_length g <= INT_MAX -> (k <= N)%nat -> (N - k < fuel)%nat ->
    match collect_orders cfg tc info t limit (drop k (take N structs)) (Z.of_nat k) with
    | Done (orders, i) =>
        exists g', gen_collect fuel tc' info t limit (Z.of_nat k) g = Done (orders, g') /\
          gen_pos g' t O (Z.to_nat i) /\ same_except t g g'
    | Fault f => gen_collect fuel tc' info t limit (Z.of_nat k) g = Fault f
    end) as Hind; [|intros k g fuel EN Hg Hpos HLm Hk Hfuel; by apply (Hind (N - k)%nat)].
  pose proof (Forall2_length _ _ _ HF) as Hl.
  induction n as [|n IH]; intros k g fuel En EN Hg Hpos HLm Hk Hfuel;
    destruct fuel as [|fuel]; try lia; cbn [gen_collect].
  - assert (k = N) as -> by lia. rewrite drop_ge by (rewrite length_take; lia). cbn [collect_orders].
    rewrite EN in Hg. rewrite (gen_generate_order_end g t O) by done. rewrite bind_Done.
    cbn [o_type no_more_orders Z.eqb Pos.eqb]. exists g. rewrite Nat2Z.id, EN.
    split; [done|]. split; [done|apply same_except_refl].
  - destruct (lookup_lt_is_Some_2 O k) as [o Ho]; [lia|].
    destruct (lookup_lt_is_Some_2 structs k) as [ss Hss]; [lia|].
    pose proof (Forall2_lookup_lr _ _ _ _ _ _ HF Hss Ho) as Hgen. unfold generates in Hgen.
    destruct (proj1 (Forall_lookup _ _) HO _ _ Ho) as (_ & Hcode & Htype).
    destruct (gen_generate_order_more g t O k o) as (g1 & -> & Hready & Hsame);
      [done|done|lia|done|lia|done|done|done|].
    rewrite bind_Done. rewrite (proj2 (Z.eqb_neq _ _)) by done.
    erewrite (drop_S (take N structs) ss k) by (by rewrite lookup_take_lt by lia).
    cbn [collect_orders]. rewrite Hgen, bind_Done, (check_order_ext tc tc') by done.
    destruct (check_order tc (info (Z.of_nat k)) o limit t) as [[ok o']|f]; [rewrite !bind_Done|done].
    assert (Hpos1 : gen_pos g1 t O k) by (destruct Hready as (c & i & ?&?&?&?); exists c, i; split_and!; done || lia).
    destruct ok; cbn [negb]; [|exists g1; rewrite Nat2Z.id; done].
    pose proof (se_length _ _ _ Hsame) as EL.
    destruct (gen_commit_ok g1 t O k Hready Ht1) as (g2 & -> & Hpos2 & Hsame2); [by rewrite EL|].
    rewrite bind_Done. pose proof (se_length _ _ _ Hsame2) as EL2.
    specialize (IH (k + 1)%nat g2 fuel). replace (S k) with (k + 1)%nat by lia.
    replace (Z.of_nat (k + 1)) with (Z.of_nat k + 1) in IH by lia.
    ospecialize (IH _ _ _ _ _ _ _); [lia|by rewrite EL2, EL|done|by rewrite EL2, EL|by rewrite EL2, EL|lia|lia|].
    destruct (collect_orders cfg tc info t limit (drop (k + 1) (take N structs)) (Z.of_nat k + 1)) as [[orders i]|f].
    + destruct IH as (g3 & -> & Hpos3 & Hsame3). rewrite !bind_Done. exists g3. split; [done|]. split; [done|].
      eapply same_except_trans; [exact Hsame|]. by eapply same_except_trans.
    + rewrite IH. done.
Qed.
