(* ===== verification/CacheProps.v ===== *)
(** * The order cache

    Loading in mode 0 writes the orders of every stock to its cache files;
    the generator that opens them starts at the first order of every stock,
    and the rounds of [run] simulate those of [run_all_in_memory]
    ([RunModes]). *)

From stdpp Require Import gmap pretty strings.
From S2P Require Import Prelude Text Double Bytes Config Types Trader TraderProps Loader LoaderProps.
From S2P Require Import OrderGen OrderGenProps.
#[local] Open Scope Z_scope.

(** ** The names of the cache files *)
Definition cache_name (cfg : Config) (i t : Z) : string :=
  match stock_cache_fname (init_loader cfg) (partition_idx cfg) i t with
  | Done name => name
  | Fault _ => ""
  end.

Section names.
Context (cfg : Config) (part : partition_idx cfg = 0 \/ partition_idx cfg = 1).

Lemma five_cases (i : Z) : 0 <= i < 5 -> i = 0 \/ i = 1 \/ i = 2 \/ i = 3 \/ i = 4.
Proof. lia. Qed.

(** The part of a name behind the folder. *)
Definition cache_suffix (part i t : Z) : string :=
  nth (Z.to_nat i)
    (if part =? 0 then ["order_id1.mat"; "direction1.mat"; "type1.mat"; "price1.mat"; "volume1.mat"]%string
     else ["order_id2.mat"; "direction2.mat"; "type2.mat"; "price2.mat"; "volume2.mat"]%string) ""%string
  +:+ "-" +:+ pretty t.

Lemma cache_name_ok i t : 0 <= i < 5 ->
  stock_cache_fname (init_loader cfg) (partition_idx cfg) i t = Done (cache_name cfg i t).
Proof.
  intros Hi. unfold cache_name, stock_cache_fname, get_cache_fname. cbn [CACHE_FILE_NAME init_loader].
  destruct part as [-> | ->]; destruct (five_cases i Hi) as [-> | [-> | [-> | [-> | ->]]]]; done.
Qed.

Lemma cache_name_split i t : 0 <= i < 5 ->
  cache_name cfg i t = trade_output_folder cfg +:+ cache_suffix (partition_idx cfg) i t.
Proof.
  intros Hi. unfold cache_name, stock_cache_fname, get_cache_fname, cache_suffix.
  cbn [CACHE_FILE_NAME init_loader]. rewrite <- string_app_assoc.
  destruct part as [-> | ->]; destruct (five_cases i Hi) as [-> | [-> | [-> | [-> | ->]]]]; done.
Qed.

(** Different matrices or stocks have different files. *)
Lemma cache_name_inj i j t u :
  0 <= i < 5 -> 0 <= j < 5 -> cache_name cfg i t = cache_name cfg j u -> i = j /\ t = u.
Proof.
  intros Hi Hj. rewrite !cache_name_split by done. intros E. apply String.app_inj in E.
  destruct part as [Ep | Ep]; rewrite Ep in E;
    destruct (five_cases i Hi) as [-> | [-> | [-> | [-> | ->]]]];
    destruct (five_cases j Hj) as [-> | [-> | [-> | [-> | ->]]]];
    cbv -[pretty] in E; try discriminate E; (split; [done|]);
    injection E as E; by apply (inj pretty).
Qed.
End names.

(** ** What the files of a stock hold *)
Definition columns (O : list Order) : list bytes :=
  [enc pod_int (map o_order_id O); enc pod_int (map o_direction O); enc pod_int (map o_type O);
   enc pod_double (map o_price O); enc pod_int (map o_volume O)].

Lemma enc_snoc {T} (pod : Pod T) l x : enc pod (l ++ [x]) = enc pod l ++ store pod [] x.
Proof. rewrite enc_app. f_equal. unfold enc. simpl. by rewrite app_nil_r. Qed.

(** The order a struct stands for. *)
Definition order_of (cfg : Config) (m : OrderInfoMatrix) (t : Z) (ss : SortStruct) : Order :=
  match generate_order (stock_num cfg) m (t + 1) ss
          (loader_nx_matrix cfg) (loader_ny_matrix cfg) (loader_nz_matrix cfg) with
  | Done o => o
  | Fault _ => no_more_orders
  end.

Section dump.
Context (cfg : Config) (m : OrderInfoMatrix) (mok : matrix_ok cfg m).

Lemma order_of_generates t ss : struct_ok cfg t ss -> generates cfg m t ss (order_of cfg m t ss).
Proof.
  intros Hss. destruct (generate_order_ok cfg m t ss mok Hss) as (d & ty & p & v & E & _).
  unfold generates, order_of. by rewrite E.
Qed.

Lemma orders_of_generates t structs :
  Forall (struct_ok cfg t) structs -> Forall2 (generates cfg m t) structs (map (order_of cfg m t) structs).
Proof.
  intros Hs. apply Forall2_fmap_r. induction Hs as [|ss structs Hss Hs IH]; constructor; [|done].
  by apply order_of_generates.
Qed.

(** One iteration appends the next order to the five files of the stock. *)
Lemma dump_order_step rows t i structs ss ofs :
  rows !! Z.to_nat t = Some structs -> 0 <= t -> 0 <= i -> structs !! Z.to_nat i = Some ss ->
  struct_ok cfg t ss ->
  ofs !! Z.to_nat t = Some (columns (map (order_of cfg m t) (take (Z.to_nat i) structs))) ->
  dump_order cfg rows m t i ofs =
    Done (<[Z.to_nat t := columns (map (order_of cfg m t) (take (Z.to_nat (i + 1)) structs))]> ofs).
Proof.
  intros Hrow Ht Hi Hss Hok Hofs.
  pose proof (order_of_generates t ss Hok) as Hgen. unfold generates in Hgen.
  destruct (generate_order_ok cfg m t ss mok Hok) as (d & ty & p & v & E & Hd & Hty & Hp & Hv).
  rewrite E in Hgen. injection Hgen as Ho. destruct Hok as [Hx Hy Hz Hst]. destruct mok.
  pose proof (coor_nonneg (ss_coor ss)) as (Nx & Ny & Nz).
  destruct (matrix_index_ok (get_x (ss_coor ss)) (get_y (ss_coor ss)) (get_z (ss_coor ss))
    (loader_nx_matrix cfg) (loader_ny_matrix cfg) (loader_nz_matrix cfg)) as [Ei Hidx]; [lia..|].
  unfold dump_order. rewrite (array_get_ok _ _ structs), bind_Done by done.
  rewrite (array_get_ok _ _ ss), bind_Done by done. cbv zeta.
  rewrite !in_range_true by lia. cbn [andb cassert]. rewrite bind_Done.
  rewrite int_mod_ok, bind_Done by lia. rewrite Hst, Z.eqb_refl. cbn [cassert]. rewrite bind_Done.
  rewrite Ei, bind_Done. unfold linear_index in *.
  rewrite (array_get_ok (direction_matrix m) _ d), bind_Done by (done || apply Hidx). rewrite (array_get_ok (type_matrix m) _ ty), bind_Done by (done || apply Hidx).
  rewrite (array_get_ok (price_matrix m) _ p), bind_Done by (done || apply Hidx). rewrite (array_get_ok (volume_matrix m) _ v), bind_Done by (done || apply Hidx).
  eapply array_update_ok; [done|exact Hofs|].
  replace (Z.to_nat (i + 1)) with (S (Z.to_nat i)) by lia. rewrite (take_S_r _ _ _ Hss), map_app.
  cbn [map]. rewrite <- Ho. unfold columns. rewrite !map_app. cbn [map o_order_id o_direction o_type o_price o_volume].
  rewrite !enc_snoc. done.
Qed.

(** The two loops. *)
Lemma dump_orders_ok (dk : dims_ok cfg) rows (structs : Z -> list SortStruct) :
  (forall t, 0 <= t < stock_num cfg -> rows !! Z.to_nat t = Some (structs t) /\
     Z.of_nat (length (structs t)) = stock_orders cfg /\ Forall (struct_ok cfg t) (structs t)) ->
  exists ofs, dump_orders cfg rows m = Done ofs /\
    forall t, 0 <= t < stock_num cfg ->
      ofs !! Z.to_nat t = Some (columns (map (order_of cfg m t) (structs t))).
Proof.
  intros Hrows. pose proof (dims_facts cfg dk) as (HM & _ & _ & _ & Hn & _). pose proof dk as [_ _ _ Hs _ _].
  unfold dump_orders. rewrite orders_per_stock_ok, bind_Done by done.
  unfold vec_new. destruct (Z.ltb_spec (stock_num cfg) 0); [lia|]. rewrite bind_Done.
  destruct (for_lt_inv (fun t ofs => Z.of_nat (length ofs) = stock_num cfg /\
      forall u, 0 <= u < stock_num cfg ->
        ofs !! Z.to_nat u = Some (if decide (u < t) then columns (map (order_of cfg m u) (structs u)) else columns []))
    (stock_num cfg) (fun t => for_lt (stock_orders cfg) (fun i => dump_order cfg rows m t i))
    (replicate (Z.to_nat (stock_num cfg)) (replicate (Z.to_nat num_matrix) []))) as (ofs & E & _ & Hofs); [lia| | |].
  - rewrite length_replicate. split; [lia|]. intros u Hu. rewrite decide_False by lia.
    apply lookup_replicate_2. lia.
  - intros t ofs Ht [Hlen Hofs]. destruct (Hrows t Ht) as (Hrow & Hlen' & Hok).
    destruct (for_lt_inv (fun i ofs' => Z.of_nat (length ofs') = stock_num cfg /\
        ofs' !! Z.to_nat t = Some (columns (map (order_of cfg m t) (take (Z.to_nat i) (structs t)))) /\
        forall u, u <> Z.to_nat t -> ofs' !! u = ofs !! u)
      (stock_orders cfg) (fun i => dump_order cfg rows m t i) ofs) as (ofs' & -> & Hl & Hrow' & Hrest); [lia| | |].
    + split; [done|]. split; [|done]. rewrite Hofs by done. by rewrite decide_False by lia.
    + intros i ofs' Hi (Hl & Hrow' & Hrest).
      destruct (lookup_lt_is_Some_2 (structs t) (Z.to_nat i)) as [ss Hss]; [lia|].
      assert (Hssok : struct_ok cfg t ss) by (rewrite Forall_lookup in Hok; eauto).
      rewrite (dump_order_step rows t i (structs t) ss ofs') by (done || lia).
      eexists. split; [done|].
      rewrite length_insert. split; [done|]. split; [by rewrite list_lookup_insert_eq by lia|].
      intros u Hu. rewrite list_lookup_insert_ne by done. by apply Hrest.
    + exists ofs'. split; [done|]. split; [done|]. intros u Hu.
      destruct (decide (u = t)) as [->|Hne].
      * rewrite Hrow', take_ge by lia. by rewrite decide_True by lia.
      * rewrite Hrest, Hofs by lia. repeat case_decide; done || lia.
  - exists ofs. split; [done|]. intros t Ht. rewrite Hofs by done. by rewrite decide_True by lia.
Qed.

(** The files after the streams are closed. *)
Lemma save_streams_ok (part : partition_idx cfg = 0 \/ partition_idx cfg = 1) ofs (O : Z -> list Order) fs :
  (forall t, 0 <= t < stock_num cfg -> ofs !! Z.to_nat t = Some (columns (O t))) ->
  exists fs', save_streams cfg (init_loader cfg) ofs fs = Done fs' /\
    forall t i, 0 <= t < stock_num cfg -> 0 <= i < 5 -> fs' !! cache_name cfg i t = columns (O t) !! Z.to_nat i.
Proof.
  intros Hofs. destruct mok as [_ _ _ Hs _ _ _ _ _]. unfold save_streams.
  destruct (for_lt_inv (fun t (fs : filesystem) => forall u i, 0 <= u < t -> 0 <= i < 5 ->
      fs !! cache_name cfg i u = columns (O u) !! Z.to_nat i)
    (stock_num cfg) (fun t => for_lt num_matrix (fun i fs =>
      name ← stock_cache_fname (init_loader cfg) (partition_idx cfg) i t;
      row ← array_get ofs t; contents ← array_get row i; Done (<[name := contents]> fs))) fs)
    as (fs' & E & Hfs'); [lia|lia| |eauto].
  intros t fs1 Ht Hfs1.
  destruct (for_lt_inv (fun i (fs : filesystem) => forall u j, 0 <= j < 5 -> 0 <= u < t \/ u = t /\ j < i ->
      fs !! cache_name cfg j u = columns (O u) !! Z.to_nat j)
    num_matrix (fun i fs =>
      name ← stock_cache_fname (init_loader cfg) (partition_idx cfg) i t;
      row ← array_get ofs t; contents ← array_get row i; Done (<[name := contents]> fs)) fs1)
    as (fs2 & E & Hfs2); unfold num_matrix in *; [lia| | |].
  - intros u j Hj Hu. apply Hfs1; lia.
  - intros i fs2 Hi Hfs2. rewrite cache_name_ok, bind_Done by done.
    rewrite (array_get_ok _ _ (columns (O t))), bind_Done by (lia || by apply Hofs).
    destruct (array_get_total (columns (O t)) i) as (c & Hc & ->); [cbn [length columns]; lia|].
    rewrite bind_Done. eexists. split; [done|]. intros u j Hj Hu.
    destruct (decide (cache_name cfg j u = cache_name cfg i t)) as [En|Hne].
    + destruct (cache_name_inj cfg part _ _ _ _ Hj Hi En) as [-> ->]. by rewrite lookup_insert_eq.
    + rewrite lookup_insert_ne by done. apply Hfs2; [done|].
      destruct Hu as [?|[-> ?]]; [by left|]. right. split; [done|].
      destruct (decide (j = i)) as [->|]; [done|lia].
  - exists fs2. split; [done|]. intros u j Hu Hj. apply Hfs2; [done|]. lia.
Qed.

(** Opening them. *)
Lemma open_streams_ok (part : partition_idx cfg = 0 \/ partition_idx cfg = 1) (O : list Order) fs t :
  (forall i, 0 <= i < 5 -> fs !! cache_name cfg i t = columns O !! Z.to_nat i) ->
  open_streams cfg (init_loader cfg) fs t = Done (map (mkIfstream true) (columns O)).
Proof.
  intros Hfs. unfold open_streams, for_lt, num_matrix. change (Z.to_nat 5) with 5%nat. cbn [for_loop].
  assert (Hopen : forall i c, 0 <= i < 5 -> columns O !! Z.to_nat i = Some c ->
    open_ifstream fs (cache_name cfg i t) = mkIfstream true c).
  { intros i c Hi Hc. unfold open_ifstream. by rewrite Hfs, Hc. }
  change (0 + 1) with 1. change (1 + 1) with 2. change (2 + 1) with 3. change (3 + 1) with 4.
  rewrite !cache_name_ok, !bind_Done by (done || lia).
  rewrite (Hopen 0 _ ltac:(lia) eq_refl), (Hopen 1 _ ltac:(lia) eq_refl), (Hopen 2 _ ltac:(lia) eq_refl),
    (Hopen 3 _ ltac:(lia) eq_refl), (Hopen 4 _ ltac:(lia) eq_refl). done.
Qed.
End dump.

(** ** The constructor of the generator *)
Lemma column_at_init {T} (pod : Pod T) (vals : list T) len : column_at pod vals len 0 [] (mkIfstream true (enc pod vals)).
Proof. by split; [| |done|lia]. Qed.

Lemma new_OrderGenerator_ok cfg fs (O : Z -> list Order) :
  dims_ok cfg -> (partition_idx cfg = 0 \/ partition_idx cfg = 1) -> 10 <= stock_orders cfg ->
  (forall t i, 0 <= t < stock_num cfg -> 0 <= i < 5 -> fs !! cache_name cfg i t = columns (O t) !! Z.to_nat i) ->
  (forall t, 0 <= t < stock_num cfg -> Z.of_nat (length (O t)) = stock_orders cfg) ->
  exists g, new_OrderGenerator cfg (init_loader cfg) fs = Done g /\ g_length g = stock_orders cfg / 10 /\
    forall t, 0 <= t < stock_num cfg -> gen_pos g t (O t) 0.
Proof.
  intros dk part Hten Hfs HO. pose proof (dims_facts cfg dk) as (HM & _ & _ & Hf & Hn & _).
  pose proof dk as [_ _ _ Hs _ _]. unfold new_OrderGenerator.
  destruct (for_lt_inv (fun t (ifs : list (list ifstream)) =>
      ifs = map (fun k => map (mkIfstream true) (columns (O (Z.of_nat k)))) (seq 0 (Z.to_nat t)))
    (stock_num cfg) (fun t ifs => streams ← open_streams cfg (init_loader cfg) fs t; Done (ifs ++ [streams])) [])
    as (ifs & -> & Eifs); [lia|done| |].
  { intros t ifs Ht ->. rewrite (open_streams_ok cfg part (O t)), bind_Done by auto.
    eexists. split; [done|]. replace (Z.to_nat (t + 1)) with (S (Z.to_nat t)) by lia.
    rewrite seq_S, map_app. cbn [map]. by rewrite Nat.add_0_l, Z2Nat.id by lia. }
  rewrite bind_Done, orders_per_stock_ok, bind_Done by done.
  unfold num_partition. rewrite int_div_ok, bind_Done by lia.
  assert (Hlen : 0 < stock_orders cfg / 10) by (apply Z.div_str_pos; lia).
  assert (Hten' : stock_orders cfg / 10 * 10 <= stock_orders cfg)
    by (rewrite Z.mul_comm; apply Z.mul_div_le; lia).
  destruct (Z.ltb_spec (stock_orders cfg / 10) 0); [lia|]. rewrite bind_Done.
  unfold vec_new. destruct (Z.ltb_spec (stock_num cfg) 0); [lia|]. rewrite !bind_Done.
  set (g0 := mkOrderGenerator _ _ _ _ _ _ _ _ _).
  destruct (for_lt_inv (fun t g => g_length g = stock_orders cfg / 10 /\
      (forall u, 0 <= u < t -> gen_pos g u (O u) 0) /\ forall u, t <= u < stock_num cfg -> gen_at g u (O u) 0 0)
    (stock_num cfg) (fun t g => '(_, g) ← load_partition g t; Done g) g0) as (g & E & EL & Hg & _); [lia| | |].
  - split; [done|]. split; [lia|]. intros u Hu. subst g0.
    split; cbn [g_length g_start_idx g_cur_partition]; [lia|lia|by apply lookup_replicate_2; lia|by apply lookup_replicate_2; lia|].
    cbn [g_ifs g_order_id_matrix g_direction_matrix g_type_matrix g_price_matrix g_volume_matrix g_length].
    eexists _, _, _, _, _, [], [], [], [], []. split.
    { rewrite Eifs, list_lookup_fmap, lookup_seq_lt by lia. cbn [fmap option_fmap option_map].
      rewrite Nat.add_0_l, Z2Nat.id by lia. reflexivity. }
    split_and!; try (apply lookup_replicate_2; lia); apply column_at_init.
  - intros t g Ht (EL & Hdone & Htodo). pose proof (Htodo t ltac:(lia)) as Hat.
    destruct (load_partition_ok g t (O t) 0 0 Hat) as (g' & -> & Hg' & Hsame); [lia|rewrite EL; specialize (HO t Ht); lia|].
    rewrite bind_Done. pose proof (se_length _ _ _ Hsame) as EL'. exists g'. split; [done|]. split; [by rewrite EL'|]. split.
    + intros u Hu. destruct (decide (u = t)) as [->|Hne].
      * exists 1%nat, 0%nat. split; [done|]. lia.
      * eapply gen_pos_same; [exact Hsame|done|lia|]. apply Hdone. lia.
    + intros u Hu. eapply gen_at_same; [exact Hsame|lia|lia|]. apply Htodo. lia.
  - rewrite E. eauto.
Qed.

(** ** The simulation

    The controller [tc] keeps the matrices and the sorted orders in memory,
    the controller [tc'] has the generator [g]: both are at the same order of
    every stock. *)
Record cache_sim (cfg : Config) (tc : TraderController) (g : OrderGenerator) (tc' : TraderController) : Prop := {
  cs_hook : hook tc' = hook tc;
  cs_price : price_limits tc' = price_limits tc;
  cs_stocks : stock_num cfg <= INT_MAX;
  cs_length : 0 < g_length g <= INT_MAX;
  cs_stock t : 0 <= t < stock_num cfg -> exists structs O k,
    sorted_order_structs tc !! Z.to_nat t = Some (take (10 * Z.to_nat (g_length g)) structs) /\
    next_sorted_struct_idx tc !! Z.to_nat t = Some (Z.of_nat k) /\
    Forall2 (generates cfg (oim tc) t) structs O /\
    Forall (fun o => valid_Order o = true /\ o_stk_code o = t + 1 /\ o_type o <> -1) O /\
    (10 * Z.to_nat (g_length g) <= length O)%nat /\ gen_pos g t O k;
}.

Lemma collect_orders_index cfg tc info t limit structs k orders i :
  collect_orders cfg tc info t limit structs k = Done (orders, i) -> i = k + Z.of_nat (length orders).
Proof.
  revert k orders i. induction structs as [|ss structs IH]; intros k orders i; cbn [collect_orders].
  - intros [= <- <-]. simpl. lia.
  - intros E. apply bind_done in E as (o & _ & E). apply bind_done in E as ([ok o'] & _ & E).
    destruct ok; cbn [negb] in E; [|injection E as <- <-; simpl; lia].
    apply bind_done in E as ([os j] & E1 & E). injection E as <- <-. apply IH in E1. simpl. lia.
Qed.

Lemma collect_stock_sim cfg tc g tc' start_info info t k fuel :
  cache_sim cfg tc g tc' -> 0 <= t < stock_num cfg ->
  next_sorted_struct_idx tc !! Z.to_nat t = Some k ->
  (10 * Z.to_nat (g_length g) < fuel)%nat ->
  match collect_stock cfg tc start_info info t with
  | Done (orders, tc1) => exists g1,
      gen_collect_stock cfg fuel tc' start_info info t k g = Done (orders, g1) /\
      cache_sim cfg tc1 g1 tc' /\ g_length g1 = g_length g /\
      forall u, u <> Z.to_nat t -> next_sorted_struct_idx tc1 !! u = next_sorted_struct_idx tc !! u
  | Fault f => gen_collect_stock cfg fuel tc' start_info info t k g = Fault f
  end.
Proof.
  intros [Eh Ep Hst HL Hsim] Ht Hk Hfuel. destruct (Hsim t Ht) as (structs & Os & j & Hrow & Hj & HF & HO & HN & Hpos).
  rewrite Hk in Hj. injection Hj as ->. unfold collect_stock, gen_collect_stock.
  destruct (get_sliding_window_start start_info (t + 1)) as [start|f]; [rewrite !bind_Done|done].
  destruct (int_add start (sliding_window_size cfg)) as [limit|f]; [rewrite !bind_Done|done].
  pose proof (lookup_lt_Some _ _ _ Hk).
  rewrite (array_get_ok (next_sorted_struct_idx tc) t (Z.of_nat j) ltac:(lia) Hk), bind_Done.
  rewrite (array_get_ok (sorted_order_structs tc) t _ ltac:(lia) Hrow), bind_Done. rewrite Nat2Z.id.
  assert (Hjle : (j <= 10 * Z.to_nat (g_length g))%nat) by (destruct Hpos as (c & i & _ & ? & ? & ->); nia).
  unfold INT_MAX in *.
  pose proof (gen_collect_refines cfg tc tc' info t limit structs Os fuel j g Eh Ep HF HO Hpos
    ltac:(lia) ltac:(unfold INT_MAX; lia) HN ltac:(unfold INT_MAX; lia) Hjle ltac:(lia)) as Href.
  destruct (collect_orders cfg tc info t limit (drop j (take (10 * Z.to_nat (g_length g)) structs)) (Z.of_nat j))
    as [[orders i]|f] eqn:Ec; [|by rewrite Href].
  apply collect_orders_index in Ec. destruct Href as (g1 & Eg & Hpos1 & Hsame).
  rewrite bind_Done, array_set_ok, bind_Done by lia. pose proof (se_length _ _ _ Hsame) as EL1.
  exists g1. split; [done|]. split; [|split; [done|]].
  - split; cbn [hook price_limits sorted_order_structs next_sorted_struct_idx oim]; try done; [by rewrite EL1|].
    rewrite EL1. intros u Hu. destruct (decide (u = t)) as [->|Hne].
    + exists structs, Os, (Z.to_nat i). rewrite list_lookup_insert_eq by done. by rewrite Z2Nat.id by lia.
    + destruct (Hsim u Hu) as (structs' & Os' & k' & ? & ? & ? & ? & ? & Hpos').
      exists structs', Os', k'. rewrite list_lookup_insert_ne by lia. split_and!; try done.
      eapply gen_pos_same; [exact Hsame|done|lia|done].
  - intros u Hu. cbn [next_sorted_struct_idx]. by rewrite list_lookup_insert_ne by done.
Qed.

Lemma collect_stocks_sim cfg tc' obs first fuel n t tc g :
  cache_sim cfg tc g tc' -> 0 <= t -> t + Z.of_nat n <= stock_num cfg ->
  (forall u, t <= u < t + Z.of_nat n -> next_sorted_struct_idx tc !! Z.to_nat u = Some (first u)) ->
  (10 * Z.to_nat (g_length g) < fuel)%nat ->
  match collect_stocks cfg tc obs n t with
  | Done (orders, tc1) => exists g1,
      gen_collect_stocks cfg fuel tc' obs first n t g = Done (orders, g1) /\ cache_sim cfg tc1 g1 tc' /\
      g_length g1 = g_length g
  | Fault f => gen_collect_stocks cfg fuel tc' obs first n t g = Fault f
  end.
Proof.
  revert t tc g. induction n as [|n IH]; intros t tc g Hsim Ht Hn Hfirst Hfuel;
    cbn [collect_stocks gen_collect_stocks]; [eauto|].
  pose proof (collect_stock_sim cfg tc g tc' (obs t).1 (obs t).2 t (first t) fuel Hsim ltac:(lia)
    (Hfirst t ltac:(lia)) Hfuel) as Hone.
  destruct (collect_stock cfg tc (obs t).1 (obs t).2 t) as [[orders tc1]|f]; [|by rewrite Hone].
  destruct Hone as (g1 & -> & Hsim1 & EL & Hrest). rewrite !bind_Done.
  specialize (IH (t + 1) tc1 g1 Hsim1 ltac:(lia) ltac:(lia)).
  ospecialize (IH _ _); [|by rewrite EL|].
  { intros u Hu. rewrite Hrest by lia. apply Hfirst. lia. }
  destruct (collect_stocks cfg tc1 obs n (t + 1)) as [[rest tc2]|f]; [|by rewrite IH].
  destruct IH as (g2 & -> & Hsim2 & EL2). rewrite !bind_Done. exists g2. split_and!; [done..|]. by rewrite EL2.
Qed.

(** ** Both loading modes *)
Definition with_load_mode (cfg : Config) (mode : Z) : Config := {|
  data_folder := data_folder cfg; trade_output_folder := trade_output_folder cfg;
  network_config_file := network_config_file cfg; partition_idx := partition_idx cfg;
  sliding_window_size := sliding_window_size cfg; stock_num := stock_num cfg;
  trader_num := trader_num cfg; exchange_num := exchange_num cfg;
  loader_nx_matrix := loader_nx_matrix cfg; loader_ny_matrix := loader_ny_matrix cfg;
  loader_nz_matrix := loader_nz_matrix cfg; load_mode := mode;
  traders_addr := traders_addr cfg; exchanges_addr := exchanges_addr cfg;
  trader_port2exchange_port := trader_port2exchange_port cfg |}.

Section init.
Context `{HH : HDF5} (cfg : Config) (limits : list (list double)) (hk : list (gmap Z HookTarget))
  (trades : list (gmap Z Z)) (rows : list (list SortStruct)) (m : OrderInfoMatrix).
Context (Hs : stock_num cfg = 10)
  (El : load_prev_close cfg (init_loader cfg) (partition_idx cfg) = Done limits)
  (Eh : load_hook cfg (init_loader cfg) = Done (hk, trades))
  (Er : load_order_id_from_file cfg (init_loader cfg) (partition_idx cfg) = Done rows)
  (Em : load_matrices cfg (init_loader cfg) = Done m).

Lemma new_TraderController_10 :
  new_TraderController cfg = Done (mkTraderController [] [] [] (mkOrderInfoMatrix [] [] [] []) (replicate 10 0)).
Proof. unfold new_TraderController, vec_new. by rewrite Hs. Qed.

(** What the constructor does when it keeps the orders in memory, *)
Lemma init_memory fs :
  init_TraderController (with_load_mode cfg 2) fs =
    Done (mkTraderController limits hk rows m (replicate 10 0), new_SharedTradeInfo cfg trades, fs).
Proof.
  unfold init_TraderController.
  change (new_TraderController (with_load_mode cfg 2)) with (new_TraderController cfg). rewrite new_TraderController_10, bind_Done.
  unfold load_data. cbv zeta. change (init_loader (with_load_mode cfg 2)) with (init_loader cfg).
  change (load_prev_close (with_load_mode cfg 2)) with (load_prev_close cfg).
  change (load_hook (with_load_mode cfg 2)) with (load_hook cfg).
  change (load_order_id_from_file (with_load_mode cfg 2)) with (load_order_id_from_file cfg).
  change (load_matrices (with_load_mode cfg 2)) with (load_matrices cfg).
  cbn [partition_idx load_mode with_load_mode Z.eqb Pos.eqb].
  rewrite El, !bind_Done, Eh, bind_Done, Er, bind_Done, Em, !bind_Done. done.
Qed.

(** and when it writes the cache. *)
Lemma init_cache fs ofs fs' :
  dump_orders cfg rows m = Done ofs -> save_streams cfg (init_loader cfg) ofs fs = Done fs' ->
  init_TraderController (with_load_mode cfg 0) fs =
    Done (mkTraderController limits hk [] (mkOrderInfoMatrix [] [] [] []) (replicate 10 0),
          new_SharedTradeInfo cfg trades, fs').
Proof.
  intros Ed Es.
  unfold init_TraderController.
  change (new_TraderController (with_load_mode cfg 0)) with (new_TraderController cfg). rewrite new_TraderController_10, bind_Done.
  unfold load_data. cbv zeta. change (init_loader (with_load_mode cfg 0)) with (init_loader cfg).
  change (load_prev_close (with_load_mode cfg 0)) with (load_prev_close cfg).
  change (load_hook (with_load_mode cfg 0)) with (load_hook cfg).
  change (load_order_id_from_file (with_load_mode cfg 0)) with (load_order_id_from_file cfg).
  change (load_matrices (with_load_mode cfg 0)) with (load_matrices cfg).
  change (dump_orders (with_load_mode cfg 0)) with (dump_orders cfg).
  change (save_streams (with_load_mode cfg 0)) with (save_streams cfg).
  cbn [partition_idx load_mode with_load_mode Z.eqb Pos.eqb].
  rewrite El, !bind_Done, Eh, bind_Done, Er, bind_Done, Em, !bind_Done.
  rewrite Ed, bind_Done, Es, !bind_Done. done.
Qed.

(** A later start reads the cache as it is. *)
Lemma init_reload fs :
  init_TraderController (with_load_mode cfg 1) fs =
    Done (mkTraderController limits hk [] (mkOrderInfoMatrix [] [] [] []) (replicate 10 0),
          new_SharedTradeInfo cfg trades, fs).
Proof.
  unfold init_TraderController.
  change (new_TraderController (with_load_mode cfg 1)) with (new_TraderController cfg). rewrite new_TraderController_10, bind_Done.
  unfold load_data. cbv zeta. change (init_loader (with_load_mode cfg 1)) with (init_loader cfg).
  change (load_prev_close (with_load_mode cfg 1)) with (load_prev_close cfg).
  change (load_hook (with_load_mode cfg 1)) with (load_hook cfg).
  cbn [partition_idx load_mode with_load_mode Z.eqb Pos.eqb].
  by rewrite El, !bind_Done, Eh, !bind_Done.
Qed.
End init.

(** The controller with its sorted lists cut to the first [n] orders. *)
Definition truncate (n : nat) (tc : TraderController) : TraderController :=
  mkTraderController (price_limits tc) (hook tc) (map (take n) (sorted_order_structs tc)) (oim tc)
    (next_sorted_struct_idx tc).

Lemma stock_cells_length cfg data t : dims_ok cfg -> Z.of_nat (length (stock_cells cfg data t)) = stock_orders cfg.
Proof.
  intros dk. pose proof (dims_facts cfg dk) as (_ & _ & _ & _ & Hn & _).
  unfold stock_cells. rewrite length_map, length_seq. lia.
Qed.

(** The orders of a stock, as the matrices give them, are valid values. *)
Lemma orders_valid `{HH : HDF5} (laws : HDF5Laws HH) cfg ins t structs :
  dims_ok cfg -> inputs_ok cfg ins -> 0 <= t < stock_num cfg -> stock_num cfg <= INT_MAX ->
  structs ≡ₚ stock_cells cfg (in_order_id ins) t ->
  Forall (fun ty => ty <> -1) (type_matrix (in_matrix ins)) ->
  Forall (fun o => valid_Order o = true /\ o_stk_code o = t + 1 /\ o_type o <> -1)
    (map (order_of cfg (in_matrix ins) t) structs).
Proof.
  intros dk io Ht Hst Hperm Htypes. apply Forall_map, Forall_forall. intros ss Hin.
  rewrite Hperm in Hin. pose proof (stock_cells_struct_ok cfg dk (in_order_id ins) t Ht) as Hok.
  rewrite Forall_forall in Hok. pose proof (Hok ss Hin) as Hss.
  pose proof (load_matrices_shape laws cfg ins dk io) as Hm.
  destruct (generate_order_ok cfg (in_matrix ins) t ss Hm Hss) as (d & ty & p & v & E & Hd & Hty & Hp & Hv).
  unfold order_of. rewrite E. cbn [o_stk_code o_type].
  split; [|split; [done|rewrite Forall_lookup in Htypes; eauto]].
  assert (Hid : is_int (ss_order_id ss) = true).
  { apply list_elem_of_fmap in Hin as (k & -> & _). cbv zeta. unfold cell. cbn [ss_order_id].
    destruct (in_order_id ins !! _) as [x|] eqn:Ex; [|done]. cbn [from_option id].
    pose proof (h5_read_int_range _ _ _ _ _ (io_order_id _ _ io)) as Hr. rewrite Forall_lookup in Hr. eauto. }
  pose proof (h5_read_int_range _ _ _ _ _ (io_direction _ _ io)) as R1.
  pose proof (h5_read_int_range _ _ _ _ _ (io_type _ _ io)) as R2.
  pose proof (h5_read_double_range _ _ _ _ _ (io_price _ _ io)) as R3.
  pose proof (h5_read_int_range _ _ _ _ _ (io_volume _ _ io)) as R4.
  rewrite Forall_lookup in R1. rewrite Forall_lookup in R2. rewrite Forall_lookup in R3. rewrite Forall_lookup in R4.
  unfold valid_Order. cbn [o_stk_code o_order_id o_direction o_type o_price o_volume].
  rewrite Hid, (R1 _ _ Hd), (R2 _ _ Hty), (R3 _ _ Hp), (R4 _ _ Hv), !andb_true_r.
  apply is_int_spec. unfold INT_MIN, INT_MAX in *. lia.
Qed.

(** A larger matrix: ten orders per stock. *)
Definition demo_ccfg : Config := {|
  data_folder := "data/"; trade_output_folder := "out/"; network_config_file := "";
  partition_idx := 0; sliding_window_size := 3; stock_num := 10;
  trader_num := 2; exchange_num := 2;
  loader_nx_matrix := 10; loader_ny_matrix := 5; loader_nz_matrix := 2; load_mode := 0;
  traders_addr := []; exchanges_addr := []; trader_port2exchange_port := [] |}.

Definition demo_cinputs : inputs :=
  mkInputs (map Z.of_nat (seq 1 100))
    (mkOrderInfoMatrix (map Z.of_nat (seq 1 100)) (map Z.of_nat (seq 1 100))
       (replicate 100 (double_of_Z 100)) (map Z.of_nat (seq 1 100)))
    (replicate 4000 1) (replicate 10 (double_of_Z 100)).

Lemma demo_cdims : dims_ok demo_ccfg.
Proof. split; vm_compute; try split; congruence. Qed.

Lemma demo_cinputs_ok : inputs_ok (HH := demo_hdf5) demo_ccfg demo_cinputs.
Proof.
  split; try reflexivity.
  - by left.
  - intros idx name Hin. cbn [h5_rank demo_hdf5]. rewrite decide_False; [done|].
    intros ->. set_unfold in Hin. destruct_or!; simplify_eq.
  - intros x y Hx Hy. unfold hook_field. cbn [in_hook demo_cinputs].
    rewrite lookup_replicate_2 by lia. cbn [from_option id]. change (stock_num demo_ccfg) with 10. lia.
Qed.

(** What the three loading modes leave. *)
Lemma cache_loaded `{HH : HDF5} cfg ins fs :
  HDF5Laws HH -> dims_ok cfg -> inputs_ok cfg ins -> stock_num cfg = 10 -> 10 <= stock_orders cfg ->
  Forall (fun ty => ty <> -1) (type_matrix (in_matrix ins)) ->
  exists tc info tc' fs' g,
    init_TraderController (with_load_mode cfg 2) fs = Done (tc, info, fs) /\
    init_TraderController (with_load_mode cfg 0) fs = Done (tc', info, fs') /\
    init_TraderController (with_load_mode cfg 1) fs' = Done (tc', info, fs') /\
    new_OrderGenerator cfg (init_loader cfg) fs' = Done g /\
    g_length g = stock_orders cfg / 10 /\ next_sorted_struct_idx tc = replicate 10 0 /\
    Forall (fun structs => Z.of_nat (length structs) = stock_orders cfg) (sorted_order_structs tc) /\
    cache_sim cfg (truncate (10 * Z.to_nat (stock_orders cfg / 10)) tc) g tc'.
Proof.
  intros laws dk io Hs Hten Htypes.
  destruct (load_common laws cfg ins dk io Hs) as (limits & [hk trades] & El & Eh & _ & _).
  destruct (load_order_id_ok laws cfg ins dk io) as (rows & Er & Hrows & Hrow).
  pose proof (load_matrices_shape laws cfg ins dk io) as Hm.
  pose proof (dims_facts cfg dk) as (_ & _ & _ & Hf & Hn & _).
  set (structs t := sort_structs (stock_cells cfg (in_order_id ins) t)).
  set (O t := map (order_of cfg (in_matrix ins) t) (structs t)).
  assert (Hst : forall t, 0 <= t < stock_num cfg -> rows !! Z.to_nat t = Some (structs t) /\
     Z.of_nat (length (structs t)) = stock_orders cfg /\ Forall (struct_ok cfg t) (structs t)).
  { intros t Ht. split; [by apply Hrow|]. unfold structs. rewrite sort_structs_perm. split.
    - by apply stock_cells_length.
    - by apply stock_cells_struct_ok. }
  destruct (dump_orders_ok cfg (in_matrix ins) Hm dk rows structs Hst) as (ofs & Ed & Hofs).
  destruct (save_streams_ok cfg (in_matrix ins) Hm (io_part _ _ io) ofs O fs Hofs) as (fs' & Es & Hfs').
  destruct (new_OrderGenerator_ok cfg fs' O dk (io_part _ _ io) Hten Hfs') as (g & Eg & EL & Hpos).
  { intros t Ht. unfold O. rewrite length_map. by apply Hst. }
  pose proof (load_matrices_ok laws cfg ins dk io) as Em.
  exists (mkTraderController limits hk rows (in_matrix ins) (replicate 10 0)), (new_SharedTradeInfo cfg trades),
    (mkTraderController limits hk [] (mkOrderInfoMatrix [] [] [] []) (replicate 10 0)), fs', g.
  assert (Hdiv : 0 < stock_orders cfg / 10) by (apply Z.div_str_pos; lia).
  assert (Hmul : 10 * (stock_orders cfg / 10) <= stock_orders cfg) by (apply Z.mul_div_le; lia).
  split_and!; [| | |done|done|done| |].
  - by apply init_memory.
  - by eapply init_cache.
  - by apply init_reload.
  - cbn [sorted_order_structs]. apply Forall_lookup. intros t l Hl. apply lookup_lt_Some in Hl as Hlt.
    destruct (Hst (Z.of_nat t) ltac:(lia)) as (Hr & Hlen & _). rewrite Nat2Z.id, Hl in Hr. by injection Hr as ->.
  - split; cbn [hook price_limits sorted_order_structs next_sorted_struct_idx oim truncate]; try done;
      [unfold INT_MAX; lia|rewrite EL; unfold INT_MAX in *; lia|].
    intros t Ht. destruct (Hst t Ht) as (Hr & Hl & Hok). exists (structs t), (O t), 0%nat. rewrite EL.
    split; [by rewrite list_lookup_fmap, Hr|]. split; [apply lookup_replicate_2; lia|].
    split; [by apply orders_of_generates|]. split.
    { apply (orders_valid laws); try done; [unfold INT_MAX; lia|apply sort_structs_perm]. }
    split; [unfold O; rewrite length_map; lia|]. by apply Hpos.
Qed.

(** ** The properties *)

(** C16: The cache holds the orders.  Loading in mode 0 writes the cache, the
    generator opens it, and its state simulates the controller that loads the
    same input into memory (mode 2), cut to ten tenths of the orders of each
    stock: same hooks and price limits, and every stock at its first order
    with the same orders to come.  It needs ten orders per stock and no order
    of type -1 in the input. *)
Theorem cache_load_simulates `{HH : HDF5} cfg ins fs :
  HDF5Laws HH -> dims_ok cfg -> inputs_ok cfg ins -> stock_num cfg = 10 -> 10 <= stock_orders cfg ->
  Forall (fun ty => ty <> -1) (type_matrix (in_matrix ins)) ->
  exists tc info tc' fs' g,
    init_TraderController (with_load_mode cfg 2) fs = Done (tc, info, fs) /\
    init_TraderController (with_load_mode cfg 0) fs = Done (tc', info, fs') /\
    new_OrderGenerator cfg (init_loader cfg) fs' = Done g /\
    g_length g = stock_orders cfg / 10 /\ next_sorted_struct_idx tc = replicate 10 0 /\
    cache_sim cfg (truncate (10 * Z.to_nat (stock_orders cfg / 10)) tc) g tc'.
Proof.
  intros laws dk io Hs Hten Htypes.
  destruct (cache_loaded cfg ins fs laws dk io Hs Hten Htypes)
    as (tc & info & tc' & fs' & g & E2 & E0 & _ & Eg & EL & En & _ & Hsim).
  exists tc, info, tc', fs', g. by split_and!.
Qed.

Lemma cache_load_simulates_witness :
  exists fs' g, (exists tc' info, init_TraderController (H := demo_hdf5) (with_load_mode demo_ccfg 0) ∅ = Done (tc', info, fs')) /\
    new_OrderGenerator demo_ccfg (init_loader demo_ccfg) fs' = Done g /\ g_length g = 1.
Proof.
  destruct (cache_load_simulates (HH := demo_hdf5) demo_ccfg demo_cinputs ∅ demo_hdf5_laws demo_cdims demo_cinputs_ok
    eq_refl) as (tc & info & tc' & fs' & g & _ & E & Eg & EL & _ & _).
  - vm_compute. congruence.
  - apply (bool_decide_unpack _). vm_compute. reflexivity.
  - exists fs', g. split; [exists tc', info; exact E|]. split; [exact Eg|exact EL].
Defined.
