(* ===== verification/RunModes.v ===== *)
(** * The three loading modes of a trader

    Whatever the other threads do, the thread of the controller sends the same
    orders whether they are kept in memory (mode 2), come from a cache that
    was just written (mode 0), or from the cache of an earlier start (mode 1),
    for the inputs that the cache can hold. *)

From stdpp Require Import gmap.
From S2P Require Import Prelude Double Bytes Config Types BlockQueue Trader TraderProps Loader LoaderProps.
From S2P Require Import OrderGen OrderGenProps CacheProps.
#[local] Open Scope Z_scope.

(** From simulating states, one round of [run] collects what one round of
    [run_all_in_memory] collects, for any shared information the tests of the
    round see: the same orders in the same order, and the states simulate
    each other again; if the in-memory round stops at a fault, the other one
    stops at the same.  The fuel needed is one more than the orders of a
    stock. *)
Lemma cached_run_refines_memory cfg tc g tc' obs first fuel :
  cache_sim cfg tc g tc' ->
  (forall t, 0 <= t < stock_num cfg -> next_sorted_struct_idx tc !! Z.to_nat t = Some (first t)) ->
  (10 * Z.to_nat (g_length g) < fuel)%nat ->
  match collect_round cfg tc obs with
  | Done (orders, tc1) => exists g1,
      gen_collect_stocks cfg fuel tc' obs first (Z.to_nat (stock_num cfg)) 0 g = Done (orders, g1) /\
      cache_sim cfg tc1 g1 tc' /\ g_length g1 = g_length g
  | Fault f => gen_collect_stocks cfg fuel tc' obs first (Z.to_nat (stock_num cfg)) 0 g = Fault f
  end.
Proof.
  intros Hsim Hfirst Hfuel. unfold collect_round. destruct (decide (0 <= stock_num cfg)).
  - apply collect_stocks_sim; try done; lia || (intros u Hu; apply Hfirst; lia).
  - replace (Z.to_nat (stock_num cfg)) with 0%nat by lia. cbn [collect_stocks gen_collect_stocks]. eauto.
Qed.

(** Tests are numbered from the current index or from 0. *)
Lemma gen_collect_from fuel tc info t limit k j g :
  gen_collect fuel tc (fun i => info (i - k)) t limit (k + j) g = gen_collect fuel tc info t limit j g.
Proof.
  revert j g. induction fuel as [|fuel IH]; intros j g; cbn [gen_collect]; [done|].
  replace (k + j - k) with j by lia.
  destruct (gen_generate_order g (t + 1)) as [[order g1]|f]; [|done]. rewrite !bind_Done.
  destruct (o_type order =? -1); [done|].
  destruct (check_order tc (info j) order limit t) as [[ok order1]|f]; [|done]. rewrite !bind_Done.
  destruct ok; [cbn [negb]|done]. destruct (gen_commit g1 (t + 1)) as [g2|f]; [|done]. rewrite !bind_Done.
  replace (k + j + 1) with (k + (j + 1)) by lia. by rewrite IH.
Qed.

Lemma gen_collect_stocks_from cfg fuel tc' tc info n t g :
  gen_collect_stocks cfg fuel tc' (from_index tc info) (fun t => nth (Z.to_nat t) (next_sorted_struct_idx tc) 0) n t g =
  gen_collect_stocks cfg fuel tc' info (fun _ => 0) n t g.
Proof.
  revert t g. induction n as [|n IH]; intros t g; cbn [gen_collect_stocks]; [done|].
  set (k := nth (Z.to_nat t) (next_sorted_struct_idx tc) 0).
  replace (gen_collect_stock cfg fuel tc' (from_index tc info t).1 (from_index tc info t).2 t k g)
    with (gen_collect_stock cfg fuel tc' (info t).1 (info t).2 t 0 g).
  2: { unfold gen_collect_stock, from_index. cbn [fst snd].
    destruct (get_sliding_window_start (info t).1 (t + 1)) as [start|f]; [|done]. rewrite !bind_Done.
    destruct (int_add start (sliding_window_size cfg)) as [limit|f]; [|done]. rewrite !bind_Done.
    rewrite <- (gen_collect_from fuel tc' (info t).2 t limit k 0 g). by rewrite Z.add_0_r. }
  destruct (gen_collect_stock cfg fuel tc' (info t).1 (info t).2 t 0 g) as [[orders g1]|f]; [|done].
  rewrite !bind_Done. by rewrite IH.
Qed.

(** The loops agree from simulating states. *)
Lemma run_generator_sim `{Fifo Q Order} cfg fuel views tc g tc' (queues : list Q) :
  cache_sim cfg tc g tc' -> (10 * Z.to_nat (g_length g) < fuel)%nat ->
  run_generator cfg fuel views tc' g queues = run_all_in_memory cfg views tc queues.
Proof.
  revert tc g queues. induction views as [|v views IH]; intros tc g queues Hsim Hfuel;
    cbn [run_generator run_all_in_memory]; [done|].
  pose proof (cached_run_refines_memory cfg tc g tc' (from_index tc (view_info v))
    (fun t => nth (Z.to_nat t) (next_sorted_struct_idx tc) 0) fuel Hsim) as Hone.
  rewrite gen_collect_stocks_from in Hone. ospecialize (Hone _ Hfuel).
  { intros t Ht. destruct (cs_stock _ _ _ _ Hsim t Ht) as (_ & _ & k & _ & Hk & _).
    rewrite Hk. f_equal. symmetry. by apply nth_lookup_Some. }
  destruct (collect_round cfg tc (from_index tc (view_info v))) as [[orders tc1]|f]; [|by rewrite Hone].
  destruct Hone as (g1 & -> & Hsim1 & EL).
  destruct (send_orders cfg (view_queues v) 0 queues orders) as [|[qs|f]]; [done| |done].
  apply IH; [done|]. by rewrite EL.
Qed.

(** The loop does not look at the mode. *)
Lemma gen_collect_stocks_mode cfg mode fuel tc obs first n t g :
  gen_collect_stocks (with_load_mode cfg mode) fuel tc obs first n t g = gen_collect_stocks cfg fuel tc obs first n t g.
Proof.
  revert t g. induction n as [|n IH]; intros t g; [done|]. cbn [gen_collect_stocks].
  change (gen_collect_stock (with_load_mode cfg mode)) with (gen_collect_stock cfg).
  destruct (gen_collect_stock _ _ _ _ _ _ _ _) as [[orders g1]|f]; [|done]. rewrite !bind_Done. by rewrite IH.
Qed.

Lemma run_generator_mode `{Fifo Q Order} cfg mode fuel views tc g (queues : list Q) :
  run_generator (with_load_mode cfg mode) fuel views tc g queues = run_generator cfg fuel views tc g queues.
Proof.
  revert g queues. induction views as [|v views IH]; intros g queues; [done|]. cbn [run_generator].
  change (stock_num (with_load_mode cfg mode)) with (stock_num cfg). rewrite gen_collect_stocks_mode.
  destruct (gen_collect_stocks _ _ _ _ _ _ _ _) as [[orders g1]|f]; [|done].
  change (send_orders (with_load_mode cfg mode)) with (send_orders cfg).
  destruct (send_orders _ _ _ _ _) as [|[qs|f]]; [done|apply IH|done].
Qed.

Lemma truncate_all n tc :
  Forall (fun l => length l <= n)%nat (sorted_order_structs tc) -> truncate n tc = tc.
Proof.
  intros Hl. destruct tc as [pl hk rows m idx]. unfold truncate. cbn [sorted_order_structs] in *. f_equal.
  induction Hl as [|l rows Hl _ IH]; [done|]. cbn [map]. by rewrite take_ge, IH.
Qed.

(** C17: The loading modes agree.  With ten stocks, ten orders, twenty, ... per
    stock (the cache drops what is left over), and no order of type -1 in the
    input (the generator takes it as the end), a trader that writes the cache
    (mode 0), one that is started again on those files (mode 1) and one that
    keeps the matrices in memory (mode 2) start with the same hooks, price limits and shared information, and [run] does
    the same: for any number of rounds, whatever the other threads make of
    the shared information between two tests and of the queues between two
    sends, the queues end up equal, or the thread waits for room in both, or
    stops at the same fault.  The fuel needed is one more than the orders of
    a stock. *)
Theorem run_modes_agree `{HH : HDF5} `{Fifo Q Order} cfg ins fs :
  HDF5Laws HH -> dims_ok cfg -> inputs_ok cfg ins -> stock_num cfg = 10 ->
  0 < stock_orders cfg -> stock_orders cfg mod 10 = 0 ->
  Forall (fun ty => ty <> -1) (type_matrix (in_matrix ins)) ->
  exists tc info tc' fs',
    init_TraderController (with_load_mode cfg 2) fs = Done (tc, info, fs) /\
    init_TraderController (with_load_mode cfg 0) fs = Done (tc', info, fs') /\
    init_TraderController (with_load_mode cfg 1) fs' = Done (tc', info, fs') /\
    forall mode fuel views (queues : list Q), mode = 0 \/ mode = 1 -> stock_orders cfg < Z.of_nat fuel ->
      controller_run (with_load_mode cfg mode) (init_loader cfg) fuel fs' views tc' queues =
      controller_run (with_load_mode cfg 2) (init_loader cfg) fuel fs views tc queues.
Proof.
  intros laws dk io Hs Hpos Hmod Htypes. assert (Hdiv : stock_orders cfg = 10 * (stock_orders cfg / 10)) by (apply Z.div_exact; lia).
  destruct (cache_loaded cfg ins fs laws dk io Hs ltac:(lia) Htypes)
    as (tc & info & tc' & fs' & g & E2 & E0 & E1 & Eg & EL & _ & Hlen & Hsim).
  rewrite truncate_all in Hsim by (eapply Forall_impl; [exact Hlen|]; cbv beta; lia).
  exists tc, info, tc', fs'. split_and!; [done..|]. intros mode fuel views queues Hmode Hfuel.
  transitivity (run_generator cfg fuel views tc' g queues).
  - unfold controller_run. cbn [load_mode with_load_mode]. destruct (Z.eqb_spec mode 2); [lia|].
    change (new_OrderGenerator (with_load_mode cfg mode)) with (new_OrderGenerator cfg). rewrite Eg. apply run_generator_mode.
  - rewrite (run_generator_sim cfg fuel views tc g tc' queues Hsim) by (rewrite EL; lia). reflexivity.
Qed.

Lemma run_modes_agree_witness :
  exists tc info tc' fs',
    init_TraderController (H := demo_hdf5) (with_load_mode demo_ccfg 2) ∅ = Done (tc, info, ∅) /\
    init_TraderController (H := demo_hdf5) (with_load_mode demo_ccfg 0) ∅ = Done (tc', info, fs') /\
    forall views (queues : list (Ring.BlockQueue Order)),
      controller_run (with_load_mode demo_ccfg 0) (init_loader demo_ccfg) 11 fs' views tc' queues =
      controller_run (with_load_mode demo_ccfg 2) (init_loader demo_ccfg) 11 ∅ views tc queues.
Proof.
  destruct (run_modes_agree (HH := demo_hdf5) (Q := Ring.BlockQueue Order) demo_ccfg demo_cinputs ∅ demo_hdf5_laws demo_cdims
    demo_cinputs_ok eq_refl eq_refl eq_refl) as (tc & info & tc' & fs' & E2 & E0 & _ & Hrun).
  - apply (bool_decide_unpack _). vm_compute. reflexivity.
  - exists tc, info, tc', fs'. split; [exact E2|]. split; [exact E0|]. intros views queues.
    apply (Hrun 0 11%nat views queues); [by left|reflexivity].
Defined.
