(* ===== verification/Socket.v ===== *)
(** * The RPC socket client

    [src/network/status.hpp], [src/network/socket_client.h] and
    [src/network/socket_client.cpp]: statuses, the client's connection state,
    and the loops that send and receive a message over a stream socket.  The
    system calls are the interface [Posix]; [SocketProps.PosixLaws] says what it
    relies on: a call transfers a prefix of the data and reports its length,
    and transient failures do not go on for ever.  The results are those of a
    process that ignores SIGPIPE; the program does not, so that a [write] to a
    peer that has closed ends the process where the model has the error
    EPIPE. *)

From stdpp Require Import pretty strings.
From S2P Require Import Prelude Bytes Text.
From coqutil Require Import Byte Word.LittleEndianList.
#[local] Open Scope Z_scope.

(** ** [status.hpp] *)

(** [enum MSG_CODE : uint32_t]; a code read from the network need not be one
    of the two. *)
Definition INFO_RPC : Z := 0.
Definition EXIT_RPC : Z := 1.

Inductive StatusCode :=
  | kOK
  | kInvalid
  | kIOError
  | kAssertionFailed
  | kConnectionFailed
  | kConnectionError
  | kUnknownError.

#[export] Instance StatusCode_eq_dec : EqDecision StatusCode.
Proof. solve_decision. Defined.

(** The values of [enum StatusCode : unsigned char]. *)
Definition StatusCode_value (c : StatusCode) : Z :=
  match c with
  | kOK => 0 | kInvalid => 1 | kIOError => 2 | kAssertionFailed => 3
  | kConnectionFailed => 4 | kConnectionError => 5 | kUnknownError => 255
  end.

Record Status := mkStatus { code : StatusCode; msg : string }.

Definition Status_OK : Status := mkStatus kOK "".
Definition Status_Invalid (message : string) : Status := mkStatus kInvalid message.
Definition Status_IOError (message : string) : Status := mkStatus kIOError message.
Definition Status_AssertionFailed (condition : string) : Status := mkStatus kAssertionFailed condition.
Definition Status_ConnectionFailed (message : string) : Status :=
  mkStatus kConnectionFailed ("Failed to connect to exchange: " +:+ message).
Definition Status_ConnectionError (message : string) : Status := mkStatus kConnectionError message.

Definition ok (s : Status) : bool := bool_decide (code s = kOK).

(** ** System calls *)
Inductive sysret :=
  | Ret (n : Z)
  | Err (errno : Z).

Definition EINTR : Z := 4.
Definition EAGAIN : Z := 11.
Definition EWOULDBLOCK : Z := 11.

(** A failure after which both loops try again. *)
Definition transient (errno : Z) : bool :=
  (errno =? EAGAIN) || (errno =? EWOULDBLOCK) || (errno =? EINTR).

(** [W] is the state of the world outside the process. *)
Class Posix (W : Type) := {
  addrinfo : Type;
  sys_getaddrinfo : string -> string -> W -> option (list addrinfo) * W;
  sys_socket : addrinfo -> W -> Z * W;
  sys_connect : Z -> addrinfo -> W -> Z * W;
  sys_write : Z -> bytes -> W -> sysret * W;
  sys_read : Z -> nat -> W -> sysret * bytes * W;
  (** [recv(fd, NULL, 1, MSG_PEEK | MSG_DONTWAIT)] *)
  sys_peek : Z -> W -> sysret * W;
  sys_close : Z -> W -> W;
  sys_usleep : Z -> W -> W;
  strerror : Z -> string;
}.

(** The range of a buffer that starts at [offset]. *)
Definition slice (data : bytes) (offset count : Z) : bytes :=
  take (Z.to_nat count) (drop (Z.to_nat offset) data).

(** [chunk] written into [buf] at [offset]. *)
Definition write_at (buf : bytes) (offset : nat) (chunk : bytes) : bytes :=
  take offset buf ++ chunk ++ drop (offset + length chunk) buf.

Definition size_sub (a b : Z) : Z := to_size (a - b).

(** [std::string::resize] *)
Definition resize (s : bytes) (n : nat) : bytes :=
  take n s ++ replicate (n - length s) Init.Byte.x00.

Section client.
Context {W : Type} `{Posix W}.

(** ** Sending and receiving *)
Fixpoint send_loop (fuel : nat) (fd : Z) (data : bytes) (bytes_left offset : Z) (w : W)
    : outcome (Status * W) :=
  if negb (0 <? bytes_left) then Done (Status_OK, w)
  else match fuel with
  | O => Fault OutOfFuel
  | S fuel =>
      match sys_write fd (slice data offset bytes_left) w with
      | (Err errno, w) =>
          if transient errno then send_loop fuel fd data bytes_left offset w
          else Done (Status_IOError ("Send message failed: " +:+ strerror errno), w)
      | (Ret nbytes, w) =>
          if nbytes =? 0
          then Done (Status_IOError "Send message failed: encountered unexpected EOF", w)
          else send_loop fuel fd data (size_sub bytes_left nbytes) (size_add offset nbytes) w
      end
  end.

Definition send_bytes (fuel : nat) (fd : Z) (data : bytes) (length : Z) (w : W) : outcome (Status * W) :=
  send_loop fuel fd data length 0 w.

(** [RETURN_ON_ERROR(status); k] *)
Definition return_on_error (m : outcome (Status * W)) (k : W -> outcome (Status * W))
    : outcome (Status * W) :=
  '(status, w) ← m;
  if ok status then k w else Done (status, w).

Definition send_message (fuel : nat) (fd : Z) (msg_code : Z) (message : bytes) (w : W)
    : outcome (Status * W) :=
  let len := Z.of_nat (length message) mod 2 ^ 32 in
  return_on_error (send_bytes fuel fd (store_int len) 4 w) (fun w =>
  return_on_error (send_bytes fuel fd (store_int msg_code) 4 w) (fun w =>
  return_on_error (send_bytes fuel fd message len w) (fun w =>
  Done (Status_OK, w)))).

Fixpoint recv_loop (fuel : nat) (fd : Z) (buf : bytes) (bytes_left offset : Z) (w : W)
    : outcome (Status * bytes * W) :=
  if negb (0 <? bytes_left) then Done (Status_OK, buf, w)
  else match fuel with
  | O => Fault OutOfFuel
  | S fuel =>
      match sys_read fd (Z.to_nat bytes_left) w with
      | (Err errno, _, w) =>
          if transient errno then recv_loop fuel fd buf bytes_left offset w
          else Done (Status_IOError ("Receive message failed: " +:+ strerror errno), buf, w)
      | (Ret nbytes, chunk, w) =>
          if nbytes =? 0
          then Done (Status_IOError "Receive message failed: encountered unexpected EOF", buf, w)
          else recv_loop fuel fd (write_at buf (Z.to_nat offset) chunk)
                 (size_sub bytes_left nbytes) (size_add offset nbytes) w
      end
  end.

(** [data] is the memory the bytes are read into, with its old contents. *)
Definition recv_bytes (fuel : nat) (fd : Z) (data : bytes) (length : Z) (w : W)
    : outcome (Status * bytes * W) :=
  recv_loop fuel fd data length 0 w.

(** [junk] is what the uninitialised [uint32_t length] holds. *)
Definition recv_message (fuel : nat) (junk : bytes) (fd : Z) (message : bytes) (w : W)
    : outcome (Status * bytes * W) :=
  '(status, len, w) ← recv_bytes fuel fd junk 4 w;
  if negb (ok status) then Done (status, message, w)
  else
    let len := load_uint32 len in
    let message := resize message (Z.to_nat len) in
    recv_bytes fuel fd message len w.

(** ** Connecting *)
Record SocketClient := mkSocketClient {
  is_connected : bool;
  rpc_endpoint : string;
  socket_fd : Z;
}.

Definition kNumConnectAttempts : nat := 5.
Definition kConnectTimeoutMs : Z := 1000.

Definition new_SocketClient : SocketClient := mkSocketClient false "" 0.

(** The loop over the addresses: the descriptor of the last attempt, whether
    or not it was connected. *)
Fixpoint try_addrs (addrs : list addrinfo) (socket_fd : Z) (w : W) : Z * W :=
  match addrs with
  | [] => (socket_fd, w)
  | addr :: next =>
      let '(socket_fd, w) := sys_socket addr w in
      if socket_fd =? -1 then try_addrs next socket_fd w
      else
        let '(res, w) := sys_connect socket_fd addr w in
        if negb (res =? 0) then try_addrs next socket_fd w else (socket_fd, w)
  end.

Definition endpoint (host : string) (port : Z) : string := host +:+ ":" +:+ pretty port.

Definition connect_rpc_socket (host : string) (port : Z) (socket_fd : Z) (w : W) : Status * Z * W :=
  match sys_getaddrinfo host (pretty port) w with
  | (None, w) => (Status_IOError ("getaddrinfo() failed for endpoint " +:+ endpoint host port), socket_fd, w)
  | (Some addrs, w) =>
      let '(socket_fd, w) := try_addrs addrs (-1) w in
      if socket_fd =? -1
      then (Status_IOError ("socket/connect failed for endpoint " +:+ endpoint host port), socket_fd, w)
      else (Status_OK, socket_fd, w)
  end.

Fixpoint retry_loop (num_retries : nat) (host : string) (port : Z) (status : Status) (socket_fd : Z) (w : W)
    : Status * Z * W :=
  if ok status then (status, socket_fd, w)
  else match num_retries with
  | O => (status, socket_fd, w)
  | S num_retries =>
      let w := sys_usleep (kConnectTimeoutMs * 1000) w in
      let '(status, socket_fd, w) := connect_rpc_socket host port socket_fd w in
      retry_loop num_retries host port status socket_fd w
  end.

Definition connect_rpc_socket_retry (host : string) (port : Z) (socket_fd : Z) (w : W) : Status * Z * W :=
  let '(status, socket_fd, w) := connect_rpc_socket host port socket_fd w in
  let '(status, socket_fd, w) := retry_loop kNumConnectAttempts host port status socket_fd w in
  (if ok status then status else Status_ConnectionFailed "", socket_fd, w).

Definition connect_to_server (c : SocketClient) (host : string) (port : Z) (w : W)
    : outcome (Status * SocketClient * W) :=
  let connect_rpc_endpoint := endpoint host port in
  ASSERT (negb (is_connected c) || String.eqb connect_rpc_endpoint (rpc_endpoint c));;
  if is_connected c then Done (Status_OK, c, w)
  else
    let '(status, fd, w) := connect_rpc_socket_retry host port (socket_fd c) w in
    let c := mkSocketClient (is_connected c) connect_rpc_endpoint fd in
    if ok status then Done (Status_OK, mkSocketClient true connect_rpc_endpoint fd, w)
    else Done (status, c, w).

(** Anything but an error of [recv], data as well as end of file, counts as a
    lost connection. *)
Definition connected (c : SocketClient) (w : W) : bool * SocketClient * W :=
  if is_connected c then
    match sys_peek (socket_fd c) w with
    | (Err _, w) => (true, c, w)
    | (Ret _, w) => (false, mkSocketClient false (rpc_endpoint c) (socket_fd c), w)
    end
  else (false, c, w).

Definition disconnect (fuel : nat) (c : SocketClient) (w : W) : outcome (SocketClient * W) :=
  if negb (is_connected c) then Done (c, w)
  else
    '(_, w) ← send_message fuel (socket_fd c) EXIT_RPC [] w;
    let w := sys_close (socket_fd c) w in
    Done (mkSocketClient false (rpc_endpoint c) (socket_fd c), w).

(** The text [test]. *)
Definition info_request : bytes := String.list_byte_of_string "test".

(** The reply that is printed, when there is one. *)
Definition retrieve_cluster_info (fuel : nat) (junk : bytes) (c : SocketClient) (w : W)
    : outcome (Status * option bytes * W) :=
  '(status, w) ← send_message fuel (socket_fd c) INFO_RPC info_request w;
  if negb (ok status) then Done (status, None, w)
  else
    '(status, reply_msg, w) ← recv_message fuel junk (socket_fd c) [] w;
    if negb (ok status) then Done (status, None, w)
    else Done (Status_OK, Some reply_msg, w).

End client.
