(* ===== verification/SocketServer.v ===== *)
(** * The RPC socket server

    [src/network/socket_connection.{h,cpp}] and
    [src/network/socket_server.{h,cpp}]: the connections of a server and the
    completion handlers of their asynchronous reads and writes.  A handler
    runs to its end before the next one starts (one thread runs the
    [io_context]); what the library does between two handlers is an event. *)

From stdpp Require Import gmap.
From S2P Require Import Prelude Bytes Socket.
From coqutil Require Import Byte Word.LittleEndianList.
#[local] Open Scope Z_scope.

(** ** State *)

(** The asynchronous read a connection waits for. *)
Inductive pending_read :=
  | ReadHeader
  | ReadBody (code : Z).

Record SocketConnection := mkConnection {
  conn_id : Z;
  running : bool;
  is_open : bool;
  read_msg_header : Z;
  read_msg_body : bytes;
  reading : option pending_read;
  (** asynchronous writes under way: the address of the buffer *)
  writing : list nat;
}.

(** A server, all connection objects that are still referenced by their
    handlers, and the heap of the strings whose address was handed out. *)
Record SocketServer := mkSocketServer {
  port : Z;
  acceptor_open : bool;
  accepting : bool;
  connections : gmap Z nat;
  conns : list SocketConnection;
  strings : gmap nat bytes;
  next_addr : nat;
}.

(** [bound] says whether opening, binding and listening succeeded; a failure
    throws. *)
Definition new_SocketServer (bound : bool) : outcome SocketServer :=
  if bound then Done (mkSocketServer 11235 true false ∅ [] ∅ 0) else Fault Thrown.

Definition set_conns (s : SocketServer) (l : list SocketConnection) : SocketServer :=
  mkSocketServer (port s) (acceptor_open s) (accepting s) (connections s) l (strings s) (next_addr s).
Definition set_connections (s : SocketServer) (m : gmap Z nat) : SocketServer :=
  mkSocketServer (port s) (acceptor_open s) (accepting s) m (conns s) (strings s) (next_addr s).

(** [f] applied to the connection object at [c]. *)
Definition with_conn (s : SocketServer) (c : nat) (f : SocketConnection -> SocketConnection) : SocketServer :=
  set_conns s (alter f c (conns s)).

(** The error code a handler is called with. *)
Inductive error_code :=
  | no_error
  | eof
  | other_error.

(** ** [SocketServer] *)

(** The reply to a message, and whether the connection is to be closed.  A
    code that is no [MSG_CODE] falls through the switch. *)
Definition process_message (msg_code : Z) (message_in : bytes) : bool * bytes :=
  if msg_code =? EXIT_RPC then (true, []) else (false, []).

Definition exists_connection (s : SocketServer) (p : Z) : bool :=
  match connections s !! p with Some _ => true | None => false end.

Definition remove_connection (s : SocketServer) (p : Z) : SocketServer :=
  set_connections s (delete p (connections s)).

(** ** [SocketConnection] *)
Definition new_SocketConnection (id : Z) : SocketConnection :=
  mkConnection id false true 0 [] None [].

(** [socket.shutdown(..., ec); socket.close()] *)
Definition do_stop (c : SocketConnection) : SocketConnection :=
  mkConnection (conn_id c) (running c) false (read_msg_header c) (read_msg_body c) (reading c) (writing c).

Definition stop_connection (c : SocketConnection) : SocketConnection :=
  let c := do_stop c in
  mkConnection (conn_id c) false (is_open c) (read_msg_header c) (read_msg_body c) (reading c) (writing c).

Definition do_read_header (c : SocketConnection) : SocketConnection :=
  mkConnection (conn_id c) (running c) (is_open c) (read_msg_header c) (read_msg_body c) (Some ReadHeader) (writing c).

Definition start_connection (c : SocketConnection) : SocketConnection :=
  do_read_header
    (mkConnection (conn_id c) true (is_open c) (read_msg_header c) (read_msg_body c) (reading c) (writing c)).

(** [do_stop(); socket_server_ptr->remove_connection(conn_id);] *)
Definition stop_and_remove (s : SocketServer) (c : nat) (conn : SocketConnection) : SocketServer :=
  remove_connection (with_conn s c do_stop) (conn_id conn).

Definition msg_size (header : Z) : Z := Z.land header 0xffffffff.
Definition msg_code (header : Z) : Z := Z.shiftr header 32.
Definition max_msg_size : Z := 64 * 1024 * 1024.

Definition do_read_body (s : SocketServer) (c : nat) (conn : SocketConnection) : SocketServer :=
  let header := read_msg_header conn in
  if max_msg_size <? msg_size header then stop_and_remove s c conn
  else with_conn s c (fun conn =>
    mkConnection (conn_id conn) (running conn) (is_open conn) (read_msg_header conn)
      (resize (read_msg_body conn) (Z.to_nat (msg_size header)))
      (Some (ReadBody (msg_code header))) (writing conn)).

(** [memcpy(buf + offset, data, n)] into a string of its size. *)
Definition memcpy (buf : bytes) (offset : nat) (data : bytes) : outcome bytes :=
  if decide (offset + length data <= length buf)%nat then Done (write_at buf offset data)
  else Fault OutOfBounds.

(** The write is handed the address of the string. *)
Definition do_async_write (s : SocketServer) (c : nat) (addr : nat) : SocketServer :=
  with_conn s c (fun conn =>
    mkConnection (conn_id conn) (running conn) (is_open conn) (read_msg_header conn) (read_msg_body conn)
      (reading conn) (writing conn ++ [addr])).

(** [length] is a [size_t]: eight bytes are copied to the front; the body is
    copied behind the first four.  The string [to_send] is a local: it is
    destroyed when [do_write] returns. *)
Definition do_write (s : SocketServer) (c : nat) (buf : bytes) : outcome SocketServer :=
  let len := length buf in
  let to_send := resize [] (len + 4) in
  to_send ← memcpy to_send 0 (le_split 8 (Z.of_nat len));
  to_send ← memcpy to_send 4 buf;
  let addr := next_addr s in
  let s := mkSocketServer (port s) (acceptor_open s) (accepting s) (connections s) (conns s)
             (<[addr := to_send]> (strings s)) (S addr) in
  let s := do_async_write s c addr in
  Done (mkSocketServer (port s) (acceptor_open s) (accepting s) (connections s) (conns s)
          (delete addr (strings s)) (next_addr s)).

Definition conn_process_message (s : SocketServer) (c : nat) (mcode : Z) (message_in : bytes)
    : outcome (bool * SocketServer) :=
  let result := process_message mcode message_in in
  if negb result.1 then (s ← do_write s c result.2; Done (result.1, s))
  else Done (result.1, s).

(** ** Completion handlers *)

(** [async_read] of the header ends; [header] is what the eight bytes at
    [read_msg_header] hold now. *)
Definition on_header (s : SocketServer) (c : nat) (ec : error_code) (header : Z) : outcome SocketServer :=
  match conns s !! c with
  | None => Done s
  | Some conn =>
      let conn := mkConnection (conn_id conn) (running conn) (is_open conn) header (read_msg_body conn) None (writing conn) in
      let s := with_conn s c (fun _ => conn) in
      match ec with
      | no_error => if running conn then Done (do_read_body s c conn) else Done (stop_and_remove s c conn)
      | _ => Done (stop_and_remove s c conn)
      end
  end.

Definition is_eof (ec : error_code) : bool := match ec with eof => true | _ => false end.
Definition fine_or_eof (ec : error_code) : bool := match ec with other_error => false | _ => true end.

(** [async_read] of the body ends; [body] is what [read_msg_body] holds now. *)
Definition on_body (s : SocketServer) (c : nat) (mcode : Z) (ec : error_code) (body : bytes)
    : outcome SocketServer :=
  match conns s !! c with
  | None => Done s
  | Some conn =>
      let conn := mkConnection (conn_id conn) (running conn) (is_open conn) (read_msg_header conn) body None (writing conn) in
      let s := with_conn s c (fun _ => conn) in
      if fine_or_eof ec && running conn then
        '(exit, s) ← conn_process_message s c mcode body;
        if exit || is_eof ec then Done (stop_and_remove s c conn)
        else Done (with_conn s c do_read_header)
      else Done (stop_and_remove s c conn)
  end.

(** [async_write] of the string at [addr] transfers it and ends. *)
Definition on_write (s : SocketServer) (c : nat) (ec : error_code) (addr : nat)
    : outcome (option bytes * SocketServer) :=
  match conns s !! c with
  | None => Done (None, s)
  | Some conn =>
      let conn := mkConnection (conn_id conn) (running conn) (is_open conn) (read_msg_header conn) (read_msg_body conn)
                    (reading conn) (filter (fun a => a <> addr) (writing conn)) in
      let s := with_conn s c (fun _ => conn) in
      match ec with
      | no_error => match strings s !! addr with Some data => Done (Some data, s) | None => Fault OutOfBounds end
      | _ => Done (None, stop_and_remove s c conn)
      end
  end.

(** ** Accepting and stopping *)
Definition do_accept (s : SocketServer) : SocketServer :=
  if negb (acceptor_open s) then s
  else mkSocketServer (port s) (acceptor_open s) true (connections s) (conns s) (strings s) (next_addr s).

(** [emplace] keeps an entry that is there already. *)
Definition emplace (m : gmap Z nat) (k : Z) (c : nat) : gmap Z nat :=
  match m !! k with Some _ => m | None => <[k := c]> m end.

Definition on_accept (s : SocketServer) (ec : error_code) : SocketServer :=
  do_accept
    match ec with
    | no_error =>
        let conn := start_connection (new_SocketConnection (port s)) in
        let c := length (conns s) in
        let s := set_conns s (conns s ++ [conn]) in
        set_connections s (emplace (connections s) (port s) c)
    | _ => s
    end.

(** [connections.at(port)->stop()] under the lock, then [remove_connection],
    which locks the same non-recursive mutex again. *)
Definition close_connection (s : SocketServer) (p : Z) : attempt SocketServer :=
  match connections s !! p with
  | None => Ran (Fault Thrown)
  | Some c => Blocked
  end.

Definition stop_server (s : SocketServer) : SocketServer :=
  let s := set_conns s (foldr (fun pair l => alter stop_connection pair.2 l) (conns s) (map_to_list (connections s))) in
  set_connections s ∅.

Definition delete_SocketServer (s : SocketServer) : SocketServer :=
  let s := stop_server s in
  mkSocketServer (port s) false (accepting s) (connections s) (conns s) (strings s) (next_addr s).

(** ** The bytes of a peer

    An asynchronous read ends without error once all its bytes are there;
    what is left of [rx] is read later. *)
Fixpoint feed (fuel : nat) (s : SocketServer) (c : nat) (rx : bytes) : outcome (bytes * SocketServer) :=
  match fuel with
  | O => Fault OutOfFuel
  | S fuel =>
      match conns s !! c with
      | None => Done (rx, s)
      | Some conn =>
          if negb (is_open conn) then Done (rx, s)
          else match reading conn with
          | None => Done (rx, s)
          | Some ReadHeader =>
              if decide (8 <= length rx)%nat then
                s ← on_header s c no_error (le_combine (take 8 rx));
                feed fuel s c (drop 8 rx)
              else Done (rx, s)
          | Some (ReadBody mcode) =>
              let n := length (read_msg_body conn) in
              if decide (n <= length rx)%nat then
                s ← on_body s c mcode no_error (take n rx);
                feed fuel s c (drop n rx)
              else Done (rx, s)
          end
      end
  end.
