(* ===== verification/SocketProps.v ===== *)
(** * Properties of the RPC socket layer

    The client's loops transfer a message completely whatever the pieces the
    system calls work in, or report an I/O error; the server takes from the
    stream exactly the messages a client put there. *)

From stdpp Require Import gmap pretty strings.
From S2P Require Import Prelude Bytes Text Socket SocketServer.
From coqutil Require Import Byte Word.LittleEndianList.
#[local] Open Scope Z_scope.

(** What the loops rely on: a transfer moves a prefix of the data and returns
    its length; [outgoing] is what was accepted for a descriptor so far,
    [incoming] what the peer sends and was not read yet; [patience] bounds the
    transient failures to come. *)
Class PosixLaws (W : Type) `{Posix W} := {
  outgoing : Z -> W -> bytes;
  incoming : Z -> W -> bytes;
  patience : W -> nat;
  write_law fd data w : data <> [] ->
    match sys_write fd data w with
    | (Ret n, w') =>
        0 <= n <= Z.of_nat (length data) /\ outgoing fd w' = outgoing fd w ++ take (Z.to_nat n) data /\
        incoming fd w' = incoming fd w /\ (patience w' <= patience w)%nat
    | (Err e, w') =>
        outgoing fd w' = outgoing fd w /\ incoming fd w' = incoming fd w /\
        (transient e = true -> (patience w' < patience w)%nat)
    end;
  read_law fd n w : (0 < n)%nat ->
    match sys_read fd n w with
    | (Ret k, chunk, w') =>
        0 <= k <= Z.of_nat n /\ length chunk = Z.to_nat k /\
        incoming fd w = chunk ++ incoming fd w' /\ outgoing fd w' = outgoing fd w /\
        (patience w' <= patience w)%nat
    | (Err e, _, w') =>
        incoming fd w' = incoming fd w /\ outgoing fd w' = outgoing fd w /\
        (transient e = true -> (patience w' < patience w)%nat)
    end;
}.

(** ** The client *)

(** A message on the wire. *)
Definition frame (mcode : Z) (message : bytes) : bytes :=
  store_int (Z.of_nat (length message)) ++ store_int mcode ++ message.

(** A reply on the wire. *)
Definition reply_frame (message : bytes) : bytes :=
  store_int (Z.of_nat (length message)) ++ message.

Section client.
Context {W : Type} `{PosixLaws W}.

(** [sent] went out, and either it is all of [data], or it is a prefix and an
    I/O error is reported. *)
Record sends (fd : Z) (data : bytes) (w : W) (st : Status) (w' : W) : Prop := {
  sends_in : incoming fd w' = incoming fd w;
  sends_ok : ok st = true ->
    outgoing fd w' = outgoing fd w ++ data /\ (patience w' <= patience w)%nat;
  sends_err : ok st = false ->
    Socket.code st = kIOError /\ exists sent, sent `prefix_of` data /\ outgoing fd w' = outgoing fd w ++ sent;
}.

Lemma ok_OK : ok Status_OK = true.
Proof. done. Qed.

Lemma slice_rest (data : bytes) off left :
  0 <= off -> off + left = Z.of_nat (length data) -> slice data off left = drop (Z.to_nat off) data.
Proof. intros Ho Hl. unfold slice. apply take_ge. rewrite length_drop. lia. Qed.

Lemma send_loop_spec fuel fd data left off w :
  0 <= off -> 0 <= left -> off + left = Z.of_nat (length data) -> Z.of_nat (length data) < 2 ^ 64 ->
  (Z.to_nat left + patience w <= fuel)%nat ->
  exists st w', send_loop fuel fd data left off w = Done (st, w') /\
                sends fd (drop (Z.to_nat off) data) w st w'.
Proof.
  revert left off w. induction fuel as [|fuel IH]; intros left off w Ho Hl Hsum Hlen Hfuel;
    cbn [send_loop]; destruct (Z.ltb_spec 0 left) as [Hpos|Hz]; cbn [negb]; [lia| | |].
  1, 3: exists Status_OK, w; split; [done|]; split; [done| |done];
    intros _; rewrite drop_ge by lia; by rewrite app_nil_r.
  rewrite slice_rest by done.
  pose proof (write_law fd (drop (Z.to_nat off) data) w) as Hw.
  destruct (sys_write fd _ w) as [[n|e] w'].
  - destruct Hw as (Hn & Hout & Hin & Hp); [intros E; apply (f_equal length) in E; rewrite length_drop in E; cbn in E; lia|].
    rewrite length_drop in Hn. destruct (Z.eqb_spec n 0) as [->|Hn0].
    + eexists _, _. split; [done|]. split; [done|done|]. intros _. split; [done|].
      exists []. split; [apply prefix_nil|]. by rewrite Hout.
    + unfold size_sub, size_add. rewrite !to_size_small by lia.
      destruct (IH (left - n) (off + n) w') as (st & w2 & E & [Hin2 Hok Herr]); [lia..|].
      exists st, w2. split; [done|].
      assert (Hd : drop (Z.to_nat off) data
                   = take (Z.to_nat n) (drop (Z.to_nat off) data) ++ drop (Z.to_nat (off + n)) data).
      { rewrite Z2Nat.inj_add by lia. rewrite <- drop_drop. by rewrite take_drop. }
      split; [by rewrite Hin2, Hin| |].
      * intros Hst. destruct (Hok Hst) as [Hout2 Hp2]. split; [|lia].
        rewrite Hout2, Hout, <- app_assoc. by rewrite <- Hd.
      * intros Hst. destruct (Herr Hst) as (Hc & sent & Hpre & Hout2). split; [done|].
        exists (take (Z.to_nat n) (drop (Z.to_nat off) data) ++ sent). split.
        -- rewrite Hd at 2. by apply prefix_app.
        -- by rewrite Hout2, Hout, <- app_assoc.
  - destruct Hw as (Hout & Hin & Hp); [intros E; apply (f_equal length) in E; rewrite length_drop in E; cbn in E; lia|].
    destruct (transient e) eqn:Et.
    + specialize (Hp eq_refl). destruct (IH left off w') as (st & w2 & E & [Hin2 Hok Herr]); [lia..|].
      exists st, w2. split; [done|]. split; [by rewrite Hin2| |].
      * intros Hst. destruct (Hok Hst) as [-> ?]. split; [by rewrite Hout|lia].
      * intros Hst. destruct (Herr Hst) as (Hc & sent & Hpre & ->). split; [done|]. exists sent. by rewrite Hout.
    + eexists _, _. split; [done|]. split; [done|done|]. intros _. split; [done|].
      exists []. split; [apply prefix_nil|]. by rewrite Hout, app_nil_r.
Qed.

Lemma send_bytes_spec fuel fd data w :
  Z.of_nat (length data) < 2 ^ 64 -> (length data + patience w <= fuel)%nat ->
  exists st w', send_bytes fuel fd data (Z.of_nat (length data)) w = Done (st, w') /\ sends fd data w st w'.
Proof. intros Hlen Hfuel. destruct (send_loop_spec fuel fd data (Z.of_nat (length data)) 0 w) as (st & w' & E & Hs); [lia..|eauto]. Qed.

(** Sending [d1] and then, unless that failed, the rest. *)
Lemma sends_seq fd d1 d2 w st w1 (k : W -> outcome (Status * W)) :
  sends fd d1 w st w1 ->
  (ok st = true -> (patience w1 <= patience w)%nat -> exists st2 w2, k w1 = Done (st2, w2) /\ sends fd d2 w1 st2 w2) ->
  exists st2 w2, return_on_error (Done (st, w1)) k = Done (st2, w2) /\ sends fd (d1 ++ d2) w st2 w2.
Proof.
  intros [Hin Hok Herr] Hk. unfold return_on_error. rewrite bind_Done. destruct (ok st) eqn:Est.
  - destruct (Hok eq_refl) as [Hout Hp]. destruct (Hk eq_refl Hp) as (st2 & w2 & E & [Hin2 Hok2 Herr2]).
    exists st2, w2. split; [done|]. split; [by rewrite Hin2| |].
    + intros Hst. destruct (Hok2 Hst) as [-> ?]. rewrite Hout, app_assoc. split; [done|lia].
    + intros Hst. destruct (Herr2 Hst) as (Hc & sent & Hpre & ->). split; [done|].
      exists (d1 ++ sent). rewrite Hout, app_assoc. split; [by apply prefix_app|done].
  - exists st, w1. split; [done|]. split; [done|by rewrite Est|]. intros _.
    destruct (Herr eq_refl) as (Hc & sent & Hpre & ->). split; [done|]. exists sent.
    split; [by apply prefix_app_r|done].
Qed.

Lemma send_message_spec fuel fd mcode message w :
  Z.of_nat (length message) < 2 ^ 32 -> (8 + length message + patience w <= fuel)%nat ->
  exists st w', send_message fuel fd mcode message w = Done (st, w') /\ sends fd (frame mcode message) w st w'.
Proof.
  intros Hlen Hfuel. unfold send_message, frame. rewrite Z.mod_small by lia.
  destruct (send_bytes_spec fuel fd (store_int (Z.of_nat (length message))) w) as (st & w1 & E & Hs);
    rewrite ?store_int_length in *; [lia..|].
  change (Z.of_nat 4) with 4 in E. rewrite E. apply sends_seq; [done|]. intros _ Hp.
  destruct (send_bytes_spec fuel fd (store_int mcode) w1) as (st2 & w2 & E2 & Hs2);
    rewrite ?store_int_length in *; [lia..|].
  change (Z.of_nat 4) with 4 in E2. rewrite E2. apply sends_seq; [done|]. intros _ Hp2.
  destruct (send_bytes_spec fuel fd message w2) as (st3 & w3 & E3 & Hs3); [lia..|].
  rewrite E3. rewrite <- (app_nil_r message). apply sends_seq; [done|]. intros _ _.
  exists Status_OK, w3. split; [done|]. split; [done|intros _; by rewrite app_nil_r|done].
Qed.

(** [data] arrived in [buf'], or an I/O error is reported. *)
Record receives (fd : Z) (data : bytes) (w : W) (st : Status) (buf' : bytes) (w' : W) : Prop := {
  receives_out : outgoing fd w' = outgoing fd w;
  receives_ok : ok st = true ->
    buf' = data /\ incoming fd w = data ++ incoming fd w' /\ (patience w' <= patience w)%nat;
  receives_err : ok st = false -> Socket.code st = kIOError;
}.

Lemma recv_loop_spec fuel fd pre rest_buf todo rx w :
  length rest_buf = length todo -> incoming fd w = todo ++ rx ->
  Z.of_nat (length pre + length todo) < 2 ^ 64 -> (length todo + patience w <= fuel)%nat ->
  exists st buf' w',
    recv_loop fuel fd (pre ++ rest_buf) (Z.of_nat (length todo)) (Z.of_nat (length pre)) w = Done (st, buf', w') /\
    outgoing fd w' = outgoing fd w /\
    (ok st = true -> buf' = pre ++ todo /\ incoming fd w' = rx /\ (patience w' <= patience w)%nat) /\
    (ok st = false -> Socket.code st = kIOError).
Proof.
  revert pre rest_buf todo w. induction fuel as [|fuel IH]; intros pre rest_buf todo w Hlen Hin Hmax Hfuel;
    cbn [recv_loop]; destruct (Z.ltb_spec 0 (Z.of_nat (length todo))) as [Hpos|Hz]; cbn [negb]; [lia| | |].
  1, 3: destruct todo; [|cbn in Hz; lia]; destruct rest_buf; [|done];
    exists Status_OK, (pre ++ []), w; split; [done|]; split; [done|]; split; [|done];
    intros _; split; [done|]; split; [by rewrite Hin|done].
  rewrite Nat2Z.id. pose proof (read_law fd (length todo) w) as Hr.
  destruct (sys_read fd _ w) as [[[n|e] chunk] w'].
  - destruct Hr as (Hn & Hchunk & Hin' & Hout & Hp); [lia|].
    destruct (Z.eqb_spec n 0) as [->|Hn0].
    { eexists _, _, _. split; [done|]. split; [done|]. split; [done|]. by intros _. }
    assert (Hpre : chunk `prefix_of` todo).
    { rewrite Hin in Hin'. apply (prefix_weak_total _ _ (todo ++ rx)) in Hin' as Hx || idtac.
      exists (drop (length chunk) todo).
      rewrite <- (take_drop (length chunk) todo) at 1. f_equal.
      apply (f_equal (take (length chunk))) in Hin'.
      rewrite take_app_length in Hin'. rewrite take_app_le in Hin' by lia. done. }
    destruct Hpre as [todo' ->]. rewrite length_app in *.
    unfold size_sub, size_add. rewrite !to_size_small by lia.
    destruct (IH (pre ++ chunk) (drop (length chunk) rest_buf) todo' w') as (st & buf' & w2 & E & Hout2 & Hok & Herr).
    + rewrite length_drop. lia.
    + rewrite Hin, <- app_assoc in Hin'. by apply app_inv_head in Hin'.
    + rewrite length_app. lia.
    + lia.
    + exists st, buf', w2. split; [|split; [by rewrite Hout2|split; [|done]]].
      * rewrite <- E. f_equal; [|lia|rewrite length_app; lia].
        unfold write_at. rewrite Nat2Z.id, take_app_length, <- drop_drop, drop_app_length. by rewrite app_assoc.
      * intros Hst. destruct (Hok Hst) as (-> & -> & ?). rewrite app_assoc. repeat split; lia.
  - destruct Hr as (Hin' & Hout & Hp); [lia|]. destruct (transient e).
    + specialize (Hp eq_refl). destruct (IH pre rest_buf todo w') as (st & buf' & w2 & E & Hout2 & Hok & Herr);
        [done|by rewrite Hin'|lia|lia|].
      exists st, buf', w2. split; [done|]. split; [by rewrite Hout2|]. split; [|done].
      intros Hst. destruct (Hok Hst) as (-> & -> & ?). repeat split; lia.
    + eexists _, _, _. split; [done|]. split; [done|]. split; [done|]. by intros _.
Qed.

Lemma resize_exact (m : bytes) n : length (resize m n) = n.
Proof. unfold resize. rewrite length_app, length_take, length_replicate. lia. Qed.

Lemma recv_bytes_spec fuel fd buf todo rx w :
  length buf = length todo -> incoming fd w = todo ++ rx ->
  Z.of_nat (length todo) < 2 ^ 64 -> (length todo + patience w <= fuel)%nat ->
  exists st buf' w',
    recv_bytes fuel fd buf (Z.of_nat (length todo)) w = Done (st, buf', w') /\
    outgoing fd w' = outgoing fd w /\
    (ok st = true -> buf' = todo /\ incoming fd w' = rx /\ (patience w' <= patience w)%nat) /\
    (ok st = false -> Socket.code st = kIOError).
Proof. intros Hl Hin Hmax Hfuel. exact (recv_loop_spec fuel fd [] buf todo rx w Hl Hin Hmax Hfuel). Qed.

Lemma recv_message_spec fuel junk fd old reply rx w :
  length junk = 4%nat -> incoming fd w = reply_frame reply ++ rx ->
  Z.of_nat (length reply) < 2 ^ 32 -> (4 + length reply + patience w <= fuel)%nat ->
  exists st reply' w',
    recv_message fuel junk fd old w = Done (st, reply', w') /\
    outgoing fd w' = outgoing fd w /\
    (ok st = true -> reply' = reply /\ incoming fd w' = rx) /\
    (ok st = false -> Socket.code st = kIOError).
Proof.
  intros Hjunk Hin Hlen Hfuel. unfold recv_message, reply_frame in *. rewrite <- app_assoc in Hin.
  destruct (recv_bytes_spec fuel fd junk (store_int (Z.of_nat (length reply))) (reply ++ rx) w)
    as (st & len & w1 & E & Hout & Hok & Herr); rewrite ?store_int_length; [done|done|lia|lia|].
  rewrite store_int_length in E. change (Z.of_nat 4) with 4 in E. rewrite E, bind_Done.
  destruct (ok st) eqn:Est; cbn [negb]; [|exists st, old, w1; by rewrite Est].
  destruct (Hok eq_refl) as (-> & Hin1 & Hp).
  rewrite <- (app_nil_r (store_int _)), load_uint32_store by lia. rewrite Nat2Z.id.
  destruct (recv_bytes_spec fuel fd (resize old (length reply)) reply rx w1)
    as (st2 & r & w2 & E2 & Hout2 & Hok2 & Herr2); [apply resize_exact|done|lia|lia|].
  exists st2, r, w2. split; [done|]. split; [by rewrite Hout2|]. split; [|done].
  intros Hst. by destruct (Hok2 Hst) as (? & ? & ?).
Qed.

(** C36: [retrieve_cluster_info] returns whatever the pieces are in which the
    system transfers data and however often a call is interrupted: either the
    request went out complete and the reply that is printed is exactly the
    message the peer sent, or an I/O error is reported and nothing printed. *)
Theorem retrieve_cluster_info_exchange fuel junk c w reply rx
    (Hjunk : length junk = 4%nat)
    (Hpeer : incoming (socket_fd c) w = reply_frame reply ++ rx)
    (Hlen : Z.of_nat (length reply) < 2 ^ 32)
    (Hfuel : (12 + length reply + patience w <= fuel)%nat) :
  exists st printed w',
    retrieve_cluster_info fuel junk c w = Done (st, printed, w') /\
    (ok st = true ->
      printed = Some reply /\ incoming (socket_fd c) w' = rx /\
      outgoing (socket_fd c) w' = outgoing (socket_fd c) w ++ frame INFO_RPC info_request) /\
    (ok st = false -> Socket.code st = kIOError /\ printed = None).
Proof.
  unfold retrieve_cluster_info.
  destruct (send_message_spec fuel (socket_fd c) INFO_RPC info_request w) as (st & w1 & E & [Hin Hok Herr]);
    [by cbn|cbn [length info_request]; cbn; lia|].
  rewrite E, bind_Done. destruct (ok st) eqn:Est; cbn [negb].
  - destruct (Hok eq_refl) as [Hout Hp].
    destruct (recv_message_spec fuel junk (socket_fd c) [] reply rx w1) as (st2 & r & w2 & E2 & Hout2 & Hok2 & Herr2);
      [done|by rewrite Hin|done|lia|].
    rewrite E2, bind_Done. destruct (ok st2) eqn:Est2; cbn [negb].
    + destruct (Hok2 eq_refl) as [-> Hrx]. eexists _, _, _. split; [done|]. split; [|done].
      intros _. by rewrite Hout2, Hout.
    + eexists _, _, _. split; [done|]. rewrite Est2. split; [done|]. intros _. split; [by apply Herr2|done].
  - eexists _, _, _. split; [done|]. rewrite Est. split; [done|]. intros _. by destruct (Herr eq_refl).
Qed.
End client.

(** A system that works in pieces: an entry 0 of the script is an interrupted
    call, an entry k a transfer of at most k bytes. *)
Record pieces := mkPieces { script : list nat; outq : bytes; inq : bytes }.

Definition pieces_count (n : nat) (w : pieces) : sysret * nat * list nat :=
  match script w with
  | [] => (Ret (Z.of_nat n), n, [])
  | O :: rest => (Err EINTR, O, rest)
  | S k :: rest => (Ret (Z.of_nat (min (S k) n)), min (S k) n, rest)
  end.

#[export] Instance pieces_posix : Posix pieces := {|
  addrinfo := unit;
  sys_getaddrinfo _ _ w := (Some [tt], w);
  sys_socket _ w := (3, w);
  sys_connect _ _ w := (0, w);
  sys_write _ data w :=
    let '(r, n, rest) := pieces_count (length data) w in
    (r, mkPieces rest (outq w ++ take n data) (inq w));
  sys_read _ n w :=
    let '(r, k, rest) := pieces_count (min n (length (inq w))) w in
    (r, take k (inq w), mkPieces rest (outq w) (drop k (inq w)));
  sys_peek _ w := (Err EAGAIN, w);
  sys_close _ w := w;
  sys_usleep _ w := w;
  strerror _ := ""%string;
|}.

#[export] Program Instance pieces_laws : PosixLaws pieces := {|
  outgoing _ w := outq w;
  incoming _ w := inq w;
  patience w := length (script w);
|}.
Next Obligation.
  intros fd data [sc o i] _. cbn. unfold pieces_count. cbn [script].
  destruct sc as [|[|k] rest]; cbn [script outq inq length].
  - rewrite Nat2Z.id. repeat split; lia.
  - rewrite take_0, app_nil_r. repeat split. intros _. lia.
  - rewrite Nat2Z.id. repeat split; lia.
Qed.
Next Obligation.
  intros fd n [sc o i] _. cbn. unfold pieces_count. cbn [script].
  destruct sc as [|[|k] rest]; cbn [script outq inq length].
  - rewrite length_take, Nat2Z.id, take_drop. repeat split; lia.
  - rewrite drop_0. repeat split. intros _. lia.
  - rewrite length_take, Nat2Z.id, take_drop. repeat split; lia.
Qed.

Definition demo_reply : bytes := String.list_byte_of_string "exchange 0".
Definition demo_world : pieces := mkPieces [1; 0; 3; 0; 5; 2; 0; 1]%nat [] (reply_frame demo_reply).

Lemma retrieve_cluster_info_exchange_witness :
  exists st printed w',
    retrieve_cluster_info 40 (replicate 4 Init.Byte.x00) (mkSocketClient true "h:1" 3) demo_world = Done (st, printed, w') /\
    ok st = true /\ printed = Some demo_reply.
Proof.
  destruct (retrieve_cluster_info_exchange 40 (replicate 4 Init.Byte.x00) (mkSocketClient true "h:1" 3) demo_world
              demo_reply []) as (st & printed & w' & E & Hok & _);
    [done|by vm_compute|by vm_compute|vm_compute; lia|].
  exists st, printed, w'. split; [exact E|]. assert (ok st = true) as Hst.
  { vm_compute in E. injection E as <- _ _. done. }
  split; [done|]. by apply Hok.
Defined.

(** ** The server *)

(** The header that the server reads is the length and the code, in one
    64-bit number. *)
Lemma header_fields len mcode :
  0 <= len < 2 ^ 32 -> 0 <= mcode < 2 ^ 32 ->
  msg_size (le_combine (store_int len ++ store_int mcode)) = len /\
  msg_code (le_combine (store_int len ++ store_int mcode)) = mcode.
Proof.
  intros Hl Hm. unfold store_int. rewrite le_combine_app, length_le_split, !le_combine_split.
  change (Z.of_nat 4 * 8) with 32. rewrite !Z.mod_small by lia.
  unfold msg_size, msg_code. change 0xffffffff with (Z.ones 32). split.
  - rewrite Z.land_lor_distr_l, (Z.land_ones len) by lia.
    rewrite Z.land_ones, Z.shiftl_mul_pow2, Z.mod_mul by lia. rewrite Z.lor_0_r. by apply Z.mod_small.
  - rewrite Z.shiftr_lor, Z.shiftr_shiftl_l by lia. rewrite Z.shiftr_div_pow2 by lia.
    rewrite Z.div_small by lia. by rewrite Z.shiftl_0_r.
Qed.

(** A reply of at least four bytes is framed the way the client reads it; a
    shorter one is overrun by the eight bytes of its length. *)
Lemma do_write_overruns s c buf : (length buf < 4)%nat -> do_write s c buf = Fault OutOfBounds.
Proof.
  intros Hb. unfold do_write, memcpy. rewrite resize_exact, length_le_split.
  by rewrite decide_False by lia.
Qed.

Lemma with_conn_lookup s c f conn :
  conns s !! c = Some conn -> conns (with_conn s c f) !! c = Some (f conn).
Proof. intros E. unfold with_conn. cbn. by rewrite list_lookup_alter_eq, E. Qed.

(** A connection that waits for the next message. *)
Record waiting (s : SocketServer) (c : nat) (conn : SocketConnection) : Prop := {
  waiting_at : conns s !! c = Some conn;
  waiting_running : running conn = true;
  waiting_open : is_open conn = true;
  waiting_reading : reading conn = Some ReadHeader;
}.

(** The connection [c] is closed and out of the pool, its last message was
    [body]; the other connections are as they were. *)
Record closed_with (s s' : SocketServer) (c : nat) (conn : SocketConnection) (body : bytes) : Prop := {
  closed_conn : exists conn', conns s' !! c = Some conn' /\ is_open conn' = false /\
                  conn_id conn' = conn_id conn /\ read_msg_body conn' = body;
  closed_pool : connections s' = delete (conn_id conn) (connections s);
  closed_others c' : c' <> c -> conns s' !! c' = conns s !! c';
}.

(** [s'] is [s] but for the connection object [c]. *)
Definition same_but (c : nat) (s s' : SocketServer) : Prop :=
  connections s' = connections s /\ forall c', c' <> c -> conns s' !! c' = conns s !! c'.

Lemma same_but_refl c s : same_but c s s.
Proof. done. Qed.

Lemma same_but_with c s s' f : same_but c s s' -> same_but c s (with_conn s' c f).
Proof.
  intros [Hp Ho]. split; [done|]. intros c' Hc. rewrite <- Ho by done. by apply list_lookup_alter_ne.
Qed.
#[local] Hint Resolve same_but_refl same_but_with : cxx.

Lemma stop_and_remove_closed s0 s c conn conn1 :
  same_but c s0 s -> conns s !! c = Some conn1 -> conn_id conn1 = conn_id conn ->
  closed_with s0 (stop_and_remove s c conn1) c conn (read_msg_body conn1) /\
  forall n rx, feed (S n) (stop_and_remove s c conn1) c rx = Done (rx, stop_and_remove s c conn1).
Proof.
  intros [Hpool Hothers] E Hid.
  assert (E' : conns (stop_and_remove s c conn1) !! c = Some (do_stop conn1)) by (by apply with_conn_lookup).
  split; [split|].
  - by exists (do_stop conn1).
  - cbn. by rewrite Hpool, Hid.
  - intros c' Hc. rewrite <- Hothers by done. by apply list_lookup_alter_ne.
  - intros n rx. cbn [feed]. by rewrite E'.
Qed.

(** The connection object after its header was read. *)
Definition with_header (conn : SocketConnection) (h : bytes) : SocketConnection :=
  mkConnection (conn_id conn) true true (le_combine h) (read_msg_body conn) None (writing conn).

Lemma feed_header n s c conn h rx :
  waiting s c conn -> length h = 8%nat ->
  feed (S n) s c (h ++ rx) =
    feed n (do_read_body (with_conn s c (fun _ => with_header conn h)) c (with_header conn h)) c rx.
Proof.
  intros [E Hr Ho Hp] Hh. cbn [feed]. rewrite E, Ho, Hp. cbn [negb].
  rewrite decide_True by (rewrite length_app; lia).
  rewrite take_app_length', drop_app_length' by done.
  unfold on_header. by rewrite E, Hr, Ho.
Qed.

(** The connection object after its body was read. *)
Definition with_body (conn : SocketConnection) (body : bytes) : SocketConnection :=
  mkConnection (conn_id conn) true true (read_msg_header conn) body None (writing conn).

Lemma feed_body n s c conn mcode body rx :
  conns s !! c = Some conn -> is_open conn = true -> running conn = true ->
  reading conn = Some (ReadBody mcode) -> length (read_msg_body conn) = length body ->
  let s1 := with_conn s c (fun _ => with_body conn body) in
  feed (S n) s c (body ++ rx) =
    if mcode =? EXIT_RPC then feed n (stop_and_remove s1 c (with_body conn body)) c rx
    else Fault OutOfBounds.
Proof.
  intros E Ho Hr Hp Hlen s1. cbn [feed]. rewrite E, Ho, Hp, Hlen. cbn [negb].
  rewrite decide_True by (rewrite length_app; lia). rewrite take_app_length, drop_app_length.
  unfold on_body. rewrite E, Hr, Ho. cbn [fine_or_eof andb]. fold (with_body conn body) s1.
  unfold conn_process_message, process_message. destruct (mcode =? EXIT_RPC); [done|].
  cbn [fst snd negb]. by rewrite do_write_overruns by (cbn; lia).
Qed.

(** C37: A server that waits for a request on a connection takes from the
    stream exactly the message that a client's [send_message] put there, and
    leaves what follows: a message of more than 64 MB closes the connection
    unread; [EXIT_RPC] closes it and takes it out of the pool; every other
    request, [INFO_RPC] included, has the empty reply, and the eight bytes
    copied to the front of its four-byte string overrun it. *)
Theorem rpc_request_cases s c conn mcode message rx fuel
    (Hwait : waiting s c conn)
    (Hcode : 0 <= mcode < 2 ^ 32)
    (Hlen : Z.of_nat (length message) < 2 ^ 32) :
  if max_msg_size <? Z.of_nat (length message) then
    exists s', feed (S (S fuel)) s c (frame mcode message ++ rx) = Done (message ++ rx, s') /\
               closed_with s s' c conn (read_msg_body conn)
  else if mcode =? EXIT_RPC then
    exists s', feed (S (S (S fuel))) s c (frame mcode message ++ rx) = Done (rx, s') /\
               closed_with s s' c conn message
  else feed (S (S fuel)) s c (frame mcode message ++ rx) = Fault OutOfBounds.
Proof.
  destruct (header_fields (Z.of_nat (length message)) mcode) as [Hsize Hmc]; [lia..|].
  replace (frame mcode message ++ rx)
    with ((store_int (Z.of_nat (length message)) ++ store_int mcode) ++ (message ++ rx))
    by (unfold frame; by rewrite <- !app_assoc).
  set (h := store_int _ ++ store_int _) in *.
  assert (Hh : length h = 8%nat) by (unfold h; by rewrite length_app, !store_int_length).
  rewrite !(feed_header _ s c conn h) by done.
  assert (E1 := with_conn_lookup s c (fun _ => with_header conn h) conn (waiting_at _ _ _ Hwait)).
  unfold do_read_body. cbn [read_msg_header with_header]. rewrite Hsize, Hmc, Nat2Z.id.
  destruct (max_msg_size <? Z.of_nat (length message)).
  - destruct (stop_and_remove_closed s _ c conn _ (same_but_with _ _ _ _ (same_but_refl c s)) E1) as [Hc Hf]; [done|].
    eexists. split; [apply Hf|exact Hc].
  - set (s2 := with_conn (with_conn s c _) c _). set (conn2 := mkConnection (conn_id conn) true true (le_combine h)
      (resize (read_msg_body conn) (length message)) (Some (ReadBody mcode)) (writing conn)).
    assert (E2 : conns s2 !! c = Some conn2) by (unfold s2; by rewrite (with_conn_lookup _ _ _ _ E1)).
    rewrite !(feed_body _ s2 c conn2 mcode message) by (done || apply resize_exact).
    destruct (mcode =? EXIT_RPC); [|done].
    destruct (stop_and_remove_closed s (with_conn s2 c (fun _ => with_body conn2 message)) c conn (with_body conn2 message))
      as [Hc Hf]; [by repeat apply same_but_with|by rewrite (with_conn_lookup _ _ _ _ E2)|done|].
    eexists. split; [apply Hf|exact Hc].
Qed.

(** A server with one connection, and a client that disconnects from it. *)
Definition demo_server : SocketServer :=
  on_accept (do_accept (mkSocketServer 11235 true false ∅ [] ∅ 0)) no_error.

Lemma rpc_request_cases_witness :
  exists s', feed 3 demo_server 0 (frame EXIT_RPC []) = Done ([], s') /\
    closed_with demo_server s' 0 (start_connection (new_SocketConnection 11235)) [].
Proof.
  exact (rpc_request_cases demo_server 0 (start_connection (new_SocketConnection 11235)) EXIT_RPC [] [] 0
           ltac:(by split) ltac:(vm_compute; done) ltac:(vm_compute; done)).
Defined.

(** ** The pool

    Every connection is registered under the port of the server, so only the
    first of those open at the same time is in the pool, and closing a
    connection by its port waits for a lock its own thread holds. *)
Lemma second_accept_unregistered s c :
  connections s !! port s = Some c ->
  connections (on_accept s no_error) = connections s.
Proof. intros E. unfold on_accept, do_accept. cbn. destruct (acceptor_open s); cbn; unfold emplace; by rewrite E. Qed.

Lemma close_connection_deadlocks s p c : connections s !! p = Some c -> close_connection s p = Blocked.
Proof. intros E. unfold close_connection. by rewrite E. Qed.

(** The descriptor of a failed [connect] counts as a connection. *)
Lemma failed_connect_reported_ok {W} `{Posix W} host port fd (w w1 w2 w3 : W) addr fd' res :
  sys_getaddrinfo host (pretty port) w = (Some [addr], w1) ->
  sys_socket addr w1 = (fd', w2) -> fd' <> -1 -> sys_connect fd' addr w2 = (res, w3) ->
  connect_rpc_socket host port fd w = (Status_OK, fd', w3).
Proof.
  intros Hinfo Hsock Hfd Hconn. unfold connect_rpc_socket. rewrite Hinfo. cbn [try_addrs].
  rewrite Hsock. destruct (Z.eqb_spec fd' (-1)) as [|_]; [done|]. rewrite Hconn.
  destruct (res =? 0); cbn [negb]; by destruct (Z.eqb_spec fd' (-1)).
Qed.
