(* ===== verification/Logger.v ===== *)
(** * The logger ([src/utils/logger2.hpp])

    [file_logger] collects the pieces of a log line in a buffer of the thread
    that writes it, and prints the line to the log file and the console when
    it is complete.  One logger is modelled, with the buffers of all threads;
    its mutex only orders the writes of different threads, each of which is
    one step here. *)

From stdpp Require Import gmap pretty strings.
From S2P Require Import Prelude Text.
From Stdlib Require Import Ascii.
#[local] Open Scope Z_scope.

(** ** Levels *)
Definition LOG_NONE : Z := 7.
Definition LOG_FATAL : Z := 6.
Definition LOG_ERROR : Z := 5.
Definition LOG_WARNING : Z := 4.
Definition LOG_EMPH : Z := 3.
Definition LOG_INFO : Z := 2.
Definition LOG_DEBUG : Z := 1.
Definition LOG_EVERYTHING : Z := 0.

Definition levelname : list string :=
  ["EVERYTHING"; "DEBUG"; "INFO"; "EMPH"; "WARNING"; "ERROR"; "FATAL"; "NONE"]%string.

Definition prefixes : list string :=
  ["DEBUG:    "; "DEBUG:    "; "INFO:     "; "INFO:     "; "WARNING:  "; "ERROR:    "; "FATAL:    "; ""]%string.

Definition OUTPUTLEVEL : Z := LOG_DEBUG.

(** ** Colours of the terminal *)
Definition BRIGHT : Z := 1.
Definition RED : Z := 1.
Definition GREEN : Z := 2.
Definition YELLOW : Z := 3.
Definition MAGENTA : Z := 5.

Definition esc : string := String (ascii_of_nat 27) "".

(** The control sequence goes through a buffer of 13 characters. *)
Definition textcolor (attr fg : Z) : outcome string :=
  let command := esc +:+ "[" +:+ pretty attr +:+ ";" +:+ pretty (fg + 30) +:+ "m" in
  if (String.length command <? 13)%nat then Done command else Fault OutOfBounds.

Definition reset_color : string := esc +:+ "[0m".

(** ** An [std::ofstream]

    [f_open] is the name of the open file; [f_good] is [good()], true for a
    stream that was never opened; [f_files] what was written to every file. *)
Record ofstream := mkOfstream {
  f_open : option string;
  f_good : bool;
  f_files : gmap string string;
}.

(** Closing a stream with no open file fails. *)
Definition ofs_close (f : ofstream) : ofstream :=
  match f_open f with
  | Some _ => mkOfstream None (f_good f) (f_files f)
  | None => mkOfstream None false (f_files f)
  end.

(** [can_open] says whether the system opens the file; a success clears the
    error state and truncates the file. *)
Definition ofs_open (can_open : string -> bool) (f : ofstream) (name : string) : ofstream :=
  match f_open f with
  | None => if can_open name then mkOfstream (Some name) true (<[name := ""%string]> (f_files f))
            else mkOfstream None false (f_files f)
  | Some _ => mkOfstream (f_open f) false (f_files f)
  end.

Definition ofs_write (f : ofstream) (s : string) : ofstream :=
  if negb (f_good f) then f
  else match f_open f with
  | None => mkOfstream None false (f_files f)
  | Some name => mkOfstream (f_open f) (f_good f) (<[name := from_option id ""%string (f_files f !! name) +:+ s]> (f_files f))
  end.

(** ** State *)
Record streambuf_entry := mkEntry {
  streambuffer : string;
  streamactive : bool;
}.

Record file_logger := mkFileLogger {
  fout : ofstream;
  log_file : string;
  (** [streambufkey]: the buffer of every thread *)
  streambufs : gmap Z streambuf_entry;
  streamloglevel : Z;
  log_to_console : bool;
  log_level : Z;
  (** what was written to the standard output *)
  console : string;
}.

Definition new_file_logger : file_logger :=
  mkFileLogger (mkOfstream None true ∅) "" ∅ 0 true LOG_INFO "".

Definition set_fout (f : ofstream) (l : file_logger) : file_logger :=
  mkFileLogger f (log_file l) (streambufs l) (streamloglevel l) (log_to_console l) (log_level l) (console l).
Definition set_streambuf (t : Z) (e : streambuf_entry) (l : file_logger) : file_logger :=
  mkFileLogger (fout l) (log_file l) (<[t := e]> (streambufs l)) (streamloglevel l) (log_to_console l) (log_level l) (console l).
Definition write_console (s : string) (l : file_logger) : file_logger :=
  mkFileLogger (fout l) (log_file l) (streambufs l) (streamloglevel l) (log_to_console l) (log_level l) (console l +:+ s).
Definition set_name (s : string) (l : file_logger) : file_logger :=
  mkFileLogger (fout l) s (streambufs l) (streamloglevel l) (log_to_console l) (log_level l) (console l).
Definition set_log_to_console (b : bool) (l : file_logger) : file_logger :=
  mkFileLogger (fout l) (log_file l) (streambufs l) (streamloglevel l) b (log_level l) (console l).
Definition set_log_level (n : Z) (l : file_logger) : file_logger :=
  mkFileLogger (fout l) (log_file l) (streambufs l) (streamloglevel l) (log_to_console l) n (console l).
Definition set_streamloglevel (n : Z) (l : file_logger) : file_logger :=
  mkFileLogger (fout l) (log_file l) (streambufs l) n (log_to_console l) (log_level l) (console l).

Definition get_log_level (l : file_logger) : Z := log_level l.

(** ** Operations *)
Definition delete_file_logger (l : file_logger) : file_logger :=
  if f_good (fout l) then set_fout (ofs_close (fout l)) l else l.

Definition set_log_file (can_open : string -> bool) (file : string) (l : file_logger) : bool * file_logger :=
  let l := if f_good (fout l) then set_name "" (set_fout (ofs_close (fout l)) l) else l in
  if (0 <? String.length file)%nat then
    let l := set_fout (ofs_open can_open (fout l) file) l in
    if negb (f_good (fout l)) then (false, l) else (true, set_name file l)
  else (true, l).

(** The colour of a level. *)
Definition level_color (loglevel : Z) : outcome string :=
  if loglevel =? LOG_FATAL then textcolor BRIGHT RED
  else if loglevel =? LOG_ERROR then textcolor BRIGHT RED
  else if loglevel =? LOG_WARNING then textcolor BRIGHT MAGENTA
  else if loglevel =? LOG_DEBUG then textcolor BRIGHT YELLOW
  else if loglevel =? LOG_EMPH then textcolor BRIGHT GREEN
  else Done ""%string.

Definition print2FC (loglevel : Z) (buf : string) (l : file_logger) : outcome file_logger :=
  let l := if f_good (fout l) then set_fout (ofs_write (fout l) buf) l else l in
  if log_to_console l then
    color ← level_color loglevel;
    Done (write_console (color +:+ buf +:+ reset_color) l)
  else Done l.

Definition stream_flush (t : Z) (l : file_logger) : outcome file_logger :=
  match streambufs l !! t with
  | None => Done l
  | Some e =>
      l ← print2FC (streamloglevel l) (streambuffer e) l;
      Done (set_streambuf t (mkEntry "" (streamactive e)) l)
  end.

(** [operator<<] of a value, whose text is [a]. *)
Definition log_value (t : Z) (a : string) (l : file_logger) : file_logger :=
  match streambufs l !! t with
  | None => l
  | Some e =>
      if streamactive e then set_streambuf t (mkEntry (streambuffer e +:+ a) (streamactive e)) l else l
  end.

(** [operator<<] of [std::endl]. *)
Definition log_endl (t : Z) (l : file_logger) : outcome file_logger :=
  match streambufs l !! t with
  | None => Done l
  | Some e =>
      if streamactive e then
        stream_flush t (set_streambuf t (mkEntry (streambuffer e +:+ String newline "") (streamactive e)) l)
      else Done l
  end.

(** [a[strlen(a) - 1]] *)
Fixpoint last_char (a : string) : outcome ascii :=
  match a with
  | EmptyString => Fault OutOfBounds
  | String c EmptyString => Done c
  | String _ a => last_char a
  end.

(** [operator<<] of a C string: a newline at its end completes the line. *)
Definition log_cstr (t : Z) (a : string) (l : file_logger) : outcome file_logger :=
  match streambufs l !! t with
  | None => Done l
  | Some e =>
      if streamactive e then
        let l := set_streambuf t (mkEntry (streambuffer e +:+ a) (streamactive e)) l in
        c ← last_char a;
        if Ascii.eqb c newline then stream_flush t l else Done l
      else Done l
  end.

(** Behind the last slash. *)
Fixpoint basename (file : string) : string :=
  match file with
  | EmptyString => EmptyString
  | String c rest =>
      let b := basename rest in
      if Ascii.eqb c "/" then b
      else if String.eqb b rest then String c rest else b
  end.

(** Behind the first slash. *)
Fixpoint after_slash (file : string) : option string :=
  match file with
  | EmptyString => None
  | String c rest => if Ascii.eqb c "/" then Some rest else after_slash rest
  end.

Definition location (file function : string) (line : Z) : string :=
  file +:+ "(" +:+ function +:+ ":" +:+ pretty line.

(** [new streambuf_entry] leaves [streamactive] without a value; both branches
    below set it. *)
Definition start_stream (t lineloglevel : Z) (file function : string) (line : Z) (do_start : bool)
    (l : file_logger) : outcome file_logger :=
  let e := from_option id (mkEntry "" false) (streambufs l !! t) in
  if lineloglevel >=? log_level l then
    if negb do_start then Done (set_streambuf t (mkEntry (streambuffer e) false) l)
    else
      header ← (if String.eqb (streambuffer e) "" then
                  prefix ← array_get prefixes lineloglevel;
                  Done (prefix +:+ (if lineloglevel =? LOG_DEBUG
                                    then location (basename file) function line +:+ "):" else ""))
                else Done ""%string);
      Done (set_streamloglevel lineloglevel (set_streambuf t (mkEntry (streambuffer e +:+ header) true) l))
  else Done (set_streambuf t (mkEntry (streambuffer e) false) l).

(** [logstream(lvl)]: levels below [OUTPUTLEVEL] generate no code. *)
Definition logstream (t lvl : Z) (file function : string) (line : Z) (l : file_logger) : outcome file_logger :=
  if lvl >=? OUTPUTLEVEL then start_stream t lvl file function line true l else Done l.

(** [_log]: [message] is the text [vsnprintf] formats from [fmt] and its
    arguments.  The line goes through a buffer of 1024 characters; both
    [snprintf] calls return the length of the whole text, and the newline and
    the terminating NUL are written behind that length. *)
Definition log_line (loglevel : Z) (file function : string) (line : Z) (message : string) : outcome string :=
  prefix ← array_get prefixes loglevel;
  let file := from_option id file (after_slash file) in
  let header := prefix +:+ (if loglevel =? LOG_DEBUG then location file function line +:+ "): " else "") in
  let byteswritten := Z.of_nat (String.length header) in
  if 1024 - byteswritten <? 0 then Fault OutOfBounds
  else
    let byteswritten := byteswritten + Z.of_nat (String.length message) in
    if byteswritten + 1 <? 1024 then Done (header +:+ message +:+ String newline "") else Fault OutOfBounds.

Definition log (loglevel : Z) (file function : string) (line : Z) (message : string) (l : file_logger)
    : outcome file_logger :=
  if loglevel >=? log_level l then
    str ← log_line loglevel file function line message;
    let l := if f_good (fout l) then set_fout (ofs_write (fout l) str) l else l in
    if log_to_console l then
      color ← level_color loglevel;
      Done (write_console (color +:+ str +:+ reset_color) l)
    else Done l
  else Done l.

Definition logger (lvl : Z) (file function : string) (line : Z) (message : string) (l : file_logger)
    : outcome file_logger :=
  if lvl >=? OUTPUTLEVEL then log lvl file function line message l else Done l.

(** ** Properties *)

(** A line at a level below the logger's is dropped, with all its pieces. *)
Lemma quiet_line t lvl file function line pieces l l' :
  0 <= lvl < log_level l -> logstream t lvl file function line l = Done l' ->
  (lvl >=? OUTPUTLEVEL) = true ->
  console (foldl (fun l a => log_value t a l) l' pieces) = console l /\
  fout (foldl (fun l a => log_value t a l) l' pieces) = fout l.
Proof.
  intros Hlvl E Hout. unfold logstream, start_stream in E. rewrite Hout in E.
  destruct (lvl >=? log_level l) eqn:Eg; [apply Z.geb_le in Eg; lia|]. injection E as <-.
  set (l1 := set_streambuf _ _ l). assert (Hq : exists e, streambufs l1 !! t = Some e /\ streamactive e = false).
  { eexists. split; [apply lookup_insert_eq|done]. }
  change (console l) with (console l1). change (fout l) with (fout l1). clearbody l1.
  induction pieces as [|a pieces IH]; [done|]. cbn [foldl]. destruct Hq as (e & He & Ha).
  unfold log_value at 2 4. rewrite He, Ha. apply IH.
Qed.

(** A formatted line that does not fit the buffer is written past its end. *)
Lemma log_line_overflow loglevel file function line message prefix :
  array_get prefixes loglevel = Done prefix -> (1023 <= String.length message)%nat ->
  log_line loglevel file function line message = Fault OutOfBounds.
Proof.
  intros Ep Hlen. unfold log_line. rewrite Ep, bind_Done. case_if; [done|].
  match goal with |- context [?a + 1 <? 1024] => destruct (Z.ltb_spec (a + 1) 1024); [lia|done] end.
Qed.
