(* ===== verification/Monitor.v ===== *)
(** * Monitoring ([src/common/monitor.hpp], [src/utils/timer.hpp],
    [src/common/global.hpp])

    [LogBuffer] keeps the last lines that were reported, in a ring that is
    printed by the console; [Monitor] counts requests and reports their
    number per second to it; [Breakdown_Timer] collects samples of the cycle
    counter.  The clock is an argument of the operations that read it. *)

From stdpp Require Import pretty strings.
From S2P Require Import Prelude Text.
#[local] Open Scope Z_scope.

(** ** [Global<T>]: a pointer that is null until [New] *)
Module Global.
Section global.
Context {T : Type}.

(** [del] runs the destructor. *)
Definition Delete (del : T -> outcome unit) (ptr : option T) : outcome (option T) :=
  match ptr with
  | Some x => _ ← del x; Done None
  | None => Done None
  end.

Definition New (del : T -> outcome unit) (ctor : outcome T) (ptr : option T) : outcome (option T) :=
  ptr ← (match ptr with Some _ => Delete del ptr | None => Done ptr end);
  ASSERT (match ptr with None => true | Some _ => false end);;
  x ← ctor;
  Done (Some x).

(** [Get()->...] *)
Definition Get (ptr : option T) : outcome T :=
  match ptr with Some x => Done x | None => Fault NullDeref end.

Lemma New_replaces del ctor ptr x :
  (forall y, ptr = Some y -> del y = Done tt) -> ctor = Done x -> New del ctor ptr = Done (Some x).
Proof.
  intros Hdel Hctor. unfold New, Delete. destruct ptr as [y|]; [rewrite (Hdel y) by done|]; by rewrite Hctor.
Qed.
End global.
End Global.

(** ** [LogBuffer] *)
Definition max_length : Z := 10.

Record LogBuffer := mkLogBuffer {
  buf : list string;
  start_idx : Z;
  cur_size : Z;
}.

Definition new_LogBuffer : LogBuffer := mkLogBuffer (replicate (Z.to_nat max_length) ""%string) 0 0.

Definition add_log (l : LogBuffer) (log : string) : outcome LogBuffer :=
  if cur_size l =? max_length then
    b ← array_set (buf l) (start_idx l) log;
    i ← int_add (start_idx l) 1;
    i ← int_mod i max_length;
    Done (mkLogBuffer b i (cur_size l))
  else
    i ← int_add (start_idx l) (cur_size l);
    i ← int_mod i max_length;
    b ← array_set (buf l) i log;
    n ← int_add (cur_size l) 1;
    Done (mkLogBuffer b (start_idx l) n).

(** The text that is printed. *)
Definition print_log (l : LogBuffer) : outcome string :=
  '(log, _) ← for_lt max_length (fun _ '(log, idx) =>
    s ← array_get (buf l) idx;
    i ← int_add idx 1;
    i ← int_mod i max_length;
    Done (log +:+ s, i)) (""%string, start_idx l);
  Done log.

(** ** [Monitor] *)
Definition interval : Z := 1 * 1000 * 1000.

Record Monitor := mkMonitor {
  isrunning : bool;
  cnt : Z;
  start_time : Z;
  end_time : Z;
  last_separator : Z;
  last_time : Z;
  last_cnt : Z;
}.

Definition new_Monitor : Monitor := mkMonitor false 0 0 0 0 0 0.

(** [uint64_t] subtraction. *)
Definition sub64 (a b : Z) : Z := to_size (a - b).

(** [timer::get_usec] from the fields of a [timespec]. *)
Definition get_usec (tv_sec tv_nsec : Z) : Z := to_size (tv_sec * 1000 * 1000 + tv_nsec / 1000).

Definition start_thpt (now : Z) (m : Monitor) : Monitor :=
  mkMonitor true (cnt m) now (end_time m) now now (last_cnt m).

Definition end_thpt (now : Z) (m : Monitor) : Monitor :=
  mkMonitor false (cnt m) (start_time m) now (last_separator m) (last_time m) (last_cnt m).

Definition add_cnt (m : Monitor) : outcome Monitor :=
  cassert (isrunning m);;
  Done (mkMonitor (isrunning m) (to_size (cnt m + 1)) (start_time m) (end_time m) (last_separator m)
          (last_time m) (last_cnt m)).

(** [show n t] is the text of the [float] [1000000.0 * n / t]. *)
Definition print_timely_thpt (show : Z -> Z -> string) (prefix : string) (now : Z) (m : Monitor) (l : LogBuffer)
    : outcome (Monitor * LogBuffer) :=
  '(m, l) ←
    (if sub64 now (last_separator m) >? interval then
       l ← add_log l (prefix +:+ " [" +:+ pretty (sub64 now (start_time m) / 1000000) +:+ "sec]" +:+ String newline "");
       Done (mkMonitor (isrunning m) (cnt m) (start_time m) (end_time m) now (last_time m) (last_cnt m), l)
     else Done (m, l));
  if sub64 now (last_time m) >? interval then
    let cur_thpt := show (sub64 (cnt m) (last_cnt m)) (sub64 now (last_time m)) in
    l ← add_log l (prefix +:+ " Throughput: " +:+ cur_thpt +:+ " requests/sec" +:+ String newline "");
    Done (mkMonitor (isrunning m) (cnt m) (start_time m) (end_time m) (last_separator m) now (cnt m), l)
  else Done (m, l).

(** ** [Breakdown_Timer] *)
Definition max_elems_ : Z := 1000000.

Record Breakdown_Timer := mkTimer {
  sum : Z;
  count : Z;
  temp : Z;
  buffer : list Z;
}.

(** [temp] has no value before [start]. *)
Definition new_Breakdown_Timer (junk : Z) : Breakdown_Timer := mkTimer 0 0 junk [].

Definition timer_start (rdtsc : Z) (t : Breakdown_Timer) : Breakdown_Timer :=
  mkTimer (sum t) (count t) rdtsc (buffer t).

Definition timer_emplace (res : Z) (t : Breakdown_Timer) : Breakdown_Timer :=
  let sum := to_size (sum t + res) in
  let count := to_size (count t + 1) in
  if Z.of_nat (length (buffer t)) >=? max_elems_ then mkTimer sum count (temp t) (buffer t)
  else mkTimer sum count (temp t) (buffer t ++ [res]).

Definition timer_end (rdtsc : Z) (t : Breakdown_Timer) : Breakdown_Timer :=
  timer_emplace (sub64 rdtsc (temp t)) t.

(** [report]: the mean as numerator and denominator; it clears the counters
    but keeps the samples. *)
Definition timer_report (t : Breakdown_Timer) : option (Z * Z) * Breakdown_Timer :=
  if count t =? 0 then (None, t)
  else (Some (sum t, count t), mkTimer 0 0 (temp t) (buffer t)).

Definition timer_size (t : Breakdown_Timer) : Z := Z.of_nat (length (buffer t)).

Fixpoint insert_sample (x : Z) (l : list Z) : list Z :=
  match l with
  | y :: rest => if x <=? y then x :: l else y :: insert_sample x rest
  | [] => [x]
  end.

Definition sort_samples (l : list Z) : list Z := foldr insert_sample [] l.

(** Drop the first samples, sort the others and drop the largest: [front n] is
    [std::floor(n * 0.1 / 100.0)] and [back n] is
    [std::floor(n * 0.01 / 100.0)], computed in doubles. *)
Definition calculate_detailed (front back : Z -> Z) (t : Breakdown_Timer) : Breakdown_Timer :=
  let n := Z.of_nat (length (buffer t)) in
  if n =? 0 then t
  else
    let b := drop (Z.to_nat (front n + 1)) (buffer t) in
    let b := sort_samples b in
    let num := back (Z.of_nat (length b)) in
    mkTimer (sum t) (count t) (temp t) (take (length b - Z.to_nat num) b).

(** [n * p] is computed in integers; dividing by [100.0] and rounding down is
    then exact. *)
Definition report_percent (p : Z) (t : Breakdown_Timer) : outcome Z :=
  let n := Z.of_nat (length (buffer t)) in
  if n =? 0 then Done 0 else array_get (buffer t) (n * p / 100).

Definition report_medium (t : Breakdown_Timer) : outcome Z :=
  let n := Z.of_nat (length (buffer t)) in
  if n =? 0 then Done 0 else array_get (buffer t) (n / 2).
Definition report_90 : Breakdown_Timer -> outcome Z := report_percent 90.
Definition report_99 : Breakdown_Timer -> outcome Z := report_percent 99.

(** ** Properties *)

(** The printed lines, oldest first: a list of at most [max_length]. *)
Record log_ring (l : LogBuffer) (lines : list string) : Prop := {
  ring_length : length (buf l) = 10%nat;
  ring_start : 0 <= start_idx l < 10;
  ring_size : cur_size l = Z.of_nat (length lines);
  ring_bound : (length lines <= 10)%nat;
  ring_first : (length lines < 10)%nat -> start_idx l = 0;
  ring_at k : (k < 10)%nat ->
    buf l !! ((Z.to_nat (start_idx l) + k) mod 10)%nat = Some (from_option id ""%string (lines !! k));
}.

Lemma new_log_ring : log_ring new_LogBuffer [].
Proof.
  split; [done|cbn; lia|done|cbn; lia|done|].
  intros k Hk. cbn. do 10 (destruct k as [|k]; [done|]). lia.
Qed.

(** Advancing around the ring. *)
Lemma ring_shift s k : 0 <= s < 10 -> ((Z.to_nat ((s + 1) mod 10) + k) mod 10 = (Z.to_nat s + S k) mod 10)%nat.
Proof.
  intros Hs. rewrite Z2Nat.inj_mod, Z2Nat.inj_add by lia.
  change (Z.to_nat 10) with 10%nat. change (Z.to_nat 1) with 1%nat.
  rewrite Nat.Div0.add_mod_idemp_l. f_equal. lia.
Qed.

(** Different slots of the ring are different entries. *)
Lemma ring_slot_inj (s i j : nat) : (i < 10)%nat -> (j < 10)%nat -> ((s + i) mod 10 = (s + j) mod 10)%nat -> i = j.
Proof.
  intros Hi Hj E. pose proof (Nat.div_mod_eq (s + i) 10). pose proof (Nat.div_mod_eq (s + j) 10).
  pose proof (Nat.mod_upper_bound (s + i) 10 ltac:(lia)). lia.
Qed.

Lemma ring_slot_bound (s i : nat) (b : list string) : length b = 10%nat -> ((s + i) mod 10 < length b)%nat.
Proof. intros ->. apply Nat.mod_upper_bound. lia. Qed.

Lemma add_log_ring l lines log :
  log_ring l lines ->
  exists l', add_log l log = Done l' /\ log_ring l' (drop (length lines - 9) lines ++ [log]).
Proof.
  intros [Hlen Hs Hsize Hb Hfirst Hat]. unfold add_log. rewrite Hsize. unfold max_length.
  destruct (Z.eqb_spec (Z.of_nat (length lines)) 10) as [Hfull|Hfree].
  - rewrite array_set_ok by lia. rewrite bind_Done, int_add_ok by (unfold INT_MIN, INT_MAX; lia).
    rewrite bind_Done, int_mod_ok, bind_Done by lia. eexists. split; [done|].
    assert (Hn : length lines = 10%nat) by lia. rewrite Hn. destruct lines as [|x lines]; [done|].
    change (drop (10 - 9) (x :: lines)) with lines.
    injection Hn as Hn. assert (Hn' : length (lines ++ [log]) = 10%nat) by (rewrite length_app, Hn; done).
    split; cbn [buf start_idx cur_size];
      [by rewrite length_insert|apply Z.mod_pos_bound; lia|by rewrite Hn'|lia|lia|].
    intros k Hk. rewrite ring_shift by done. destruct (decide (k = 9%nat)) as [->|Hk9].
    + replace ((Z.to_nat (start_idx l) + 10) mod 10)%nat with (Z.to_nat (start_idx l))
        by (rewrite Nat.Div0.add_mod, Nat.Div0.mod_same, Nat.add_0_r, Nat.Div0.mod_mod, Nat.mod_small by lia; done).
      rewrite list_lookup_insert_eq by lia. by rewrite lookup_app_r, Hn by lia.
    + rewrite list_lookup_insert_ne.
      2: { intros E. assert (0 = S k)%nat; [|lia]. apply (ring_slot_inj (Z.to_nat (start_idx l))); [lia..|].
           by rewrite Nat.add_0_r, Nat.mod_small by lia. }
      rewrite (Hat (S k)) by lia. by rewrite lookup_app_l by lia.
  - assert (Hlt : (length lines < 10)%nat) by lia. rewrite (Hfirst Hlt) in *.
    rewrite (int_add_ok 0), bind_Done by (unfold INT_MIN, INT_MAX; lia). rewrite Z.add_0_l.
    rewrite int_mod_ok, bind_Done by lia. rewrite Z.mod_small by lia.
    rewrite array_set_ok, bind_Done by lia. rewrite int_add_ok, bind_Done by (unfold INT_MIN, INT_MAX; lia).
    eexists. split; [done|]. replace (length lines - 9)%nat with O by lia. rewrite drop_0, Nat2Z.id.
    split; cbn [buf start_idx cur_size];
      [by rewrite length_insert|lia|rewrite length_app; cbn; lia|rewrite length_app; cbn; lia|done|].
    intros k Hk. change (Z.to_nat 0) with O in *. rewrite Nat.add_0_l, Nat.mod_small by lia.
    specialize (Hat k Hk). rewrite Nat.add_0_l, Nat.mod_small in Hat by lia.
    destruct (decide (k = length lines)) as [->|Hne].
    + rewrite list_lookup_insert_eq by lia. by rewrite lookup_app_r, Nat.sub_diag by lia.
    + rewrite list_lookup_insert_ne, Hat by done. destruct (decide (k < length lines)%nat).
      * by rewrite lookup_app_l.
      * rewrite !lookup_ge_None_2 by (rewrite ?length_app; cbn; lia). done.
Qed.

Definition cat (l : list string) : string := foldr String.append ""%string l.

Lemma cat_snoc l s : cat (l ++ [s]) = cat l +:+ s.
Proof.
  induction l as [|x l IH]; cbn [app cat foldr]; [by rewrite string_app_nil_r|].
  fold (cat (l ++ [s])) (cat l). by rewrite IH, string_app_assoc.
Qed.

(** The first [i] entries read around the ring. *)
Lemma take_entry (lines : list string) i : (length lines <= 10)%nat ->
  cat (take i lines) +:+ from_option id ""%string (lines !! i) = cat (take (S i) lines).
Proof.
  intros Hb. destruct (lines !! i) as [s|] eqn:E; cbn [from_option id].
  - by rewrite (take_S_r _ _ _ E), cat_snoc.
  - apply lookup_ge_None in E. rewrite string_app_nil_r. by rewrite !take_ge by lia.
Qed.

Lemma print_log_ring l lines : log_ring l lines -> print_log l = Done (cat lines).
Proof.
  intros [Hlen Hs Hsize Hb Hfirst Hat]. unfold print_log.
  destruct (for_lt_inv (fun i '(log, idx) => log = cat (take (Z.to_nat i) lines) /\
      idx = (start_idx l + i) mod 10) max_length
    (fun _ '(log, idx) => s ← array_get (buf l) idx; i ← int_add idx 1; i ← int_mod i max_length; Done (log +:+ s, i))
    (""%string, start_idx l)) as ([log idx] & E & Hlog & _).
  - unfold max_length. lia.
  - rewrite Z.add_0_r, Z.mod_small by lia. done.
  - intros i [log idx] Hi [-> ->]. unfold max_length in *.
    assert (Hmod := Z.mod_pos_bound (start_idx l + i) 10 ltac:(lia)).
    pose proof (Hat (Z.to_nat i) ltac:(lia)) as Hget.
    replace ((Z.to_nat (start_idx l) + Z.to_nat i) mod 10)%nat with (Z.to_nat ((start_idx l + i) mod 10)) in Hget
      by (rewrite Z2Nat.inj_mod, Z2Nat.inj_add by lia; done).
    rewrite (array_get_ok (buf l) _ _ (proj1 Hmod) Hget), bind_Done.
    rewrite int_add_ok, bind_Done by (unfold INT_MIN, INT_MAX; lia). rewrite int_mod_ok, bind_Done by lia.
    eexists. split; [done|]. split; [rewrite take_entry by done; f_equal; f_equal; lia|].
    rewrite Z.add_assoc. by rewrite Zplus_mod_idemp_l.
  - rewrite E, bind_Done, Hlog. by rewrite take_ge by (unfold max_length; lia).
Qed.

(** Adding lines one after the other. *)
Fixpoint add_logs (l : LogBuffer) (logs : list string) : outcome LogBuffer :=
  match logs with
  | [] => Done l
  | log :: logs => l ← add_log l log; add_logs l logs
  end.

Lemma add_logs_ring l lines logs :
  log_ring l lines ->
  exists l' lines', add_logs l logs = Done l' /\ log_ring l' lines' /\
    lines' = drop (length (lines ++ logs) - 10) (lines ++ logs).
Proof.
  revert l lines. induction logs as [|log logs IH]; intros l lines Hl; cbn [add_logs].
  - exists l, lines. split; [done|]. split; [done|]. rewrite app_nil_r.
    pose proof (ring_bound _ _ Hl). by replace (length lines - 10)%nat with O by lia.
  - destruct (add_log_ring l lines log Hl) as (l1 & -> & Hl1). rewrite bind_Done.
    destruct (IH l1 _ Hl1) as (l2 & lines2 & E & Hl2 & ->). do 2 eexists. split; [exact E|]. split; [exact Hl2|].
    pose proof (ring_bound _ _ Hl) as Hb. rewrite <- app_assoc. cbn [app].
    rewrite <- drop_app_le, drop_drop by lia. f_equal. rewrite length_drop, length_app. cbn [length]. lia.
Qed.

(** C40: The log buffer holds the most recent lines: after any number of
    reports, printing it shows exactly the last ten of them, oldest first
    (all of them when there were fewer). *)
Theorem log_buffer_keeps_last logs :
  exists l, add_logs new_LogBuffer logs = Done l /\ print_log l = Done (cat (drop (length logs - 10) logs)).
Proof.
  destruct (add_logs_ring new_LogBuffer [] logs new_log_ring) as (l & lines & E & Hl & ->).
  exists l. split; [done|]. by apply print_log_ring.
Qed.
