(* ===== verification/Util.v ===== *)
(** * Threads, errors and helpers

    [src/common/thread.h], [src/common/thread.cpp], [src/utils/errors.hpp],
    [src/utils/arch.h], [src/utils/util.h] and [src/utils/util.cpp], and the
    signal handlers of [src/trader.cpp] and [src/exchange.cpp]. *)

From stdpp Require Import strings.
From S2P Require Import Prelude Text Double.
From Stdlib Require Import Ascii.
#[local] Open Scope Z_scope.

(** ** Errors *)
Definition SUCCESS : Z := 0.
Definition UNKNOWN_ERROR : Z := 1.
Definition ERROR_LAST : Z := 14.

Definition err_msgs : list string :=
  ["Everythong is ok";
   "Something wrong happened";
   "Something wrong in the query syntax, fail to parse!";
   "Unsupported triple pattern.";
   "MUST enable attribute support!";
   "NO required variables!";
   "Unsupport UNION on attribute results";
   "Object should not be an index";
   "Subject or object is not valid";
   "Tripple pattern should not start from unknown subject.";
   "You may change SETTING files to avoid this error. (e.g. global.hpp/config/...)";
   "Const_X_X or index_X_X must be the first pattern.";
   "Unsupported filter type.";
   "Query file not found."]%string.

Record UbiquantException := mkException { status_code : Z; message : option string }.

Definition exception_of_code (status_code : Z) : UbiquantException := mkException status_code None.
Definition exception_of_message (message : string) : UbiquantException := mkException UNKNOWN_ERROR (Some message).

(** The message the exception was made with is never shown. *)
Definition what (e : UbiquantException) : outcome string := array_get err_msgs (status_code e).
Definition exception_code (e : UbiquantException) : Z := status_code e.

(** ** [ubi_thread]

    [pthread_attr_init], [pthread_attr_setdetachstate], [pthread_create],
    [pthread_attr_destroy] and [pthread_join] return an error number; the
    record holds the results of one call of each. *)
Record pthread_results := mkPthread {
  attr_init_res : Z;
  setdetachstate_res : Z;
  create_res : Z;
  attr_destroy_res : Z;
  join_res : Z;
}.

Section thread.
Context {St : Type}.

(** [body] is null for a class that overrides [run]. *)
Record ubi_thread := mkThread {
  body : option (St -> outcome St);
  daemon : bool;
  name : string;
}.

Definition new_ubi_thread (daemon : bool) (name : string) : ubi_thread := mkThread None daemon name.

Definition ALWAYS_ASSERT (b : bool) : outcome unit := cassert b.

Definition thread_start (r : pthread_results) (t : ubi_thread) : outcome unit :=
  ALWAYS_ASSERT (attr_init_res r =? 0);;
  (if daemon t then ALWAYS_ASSERT (setdetachstate_res r =? 0) else Done tt);;
  ALWAYS_ASSERT (create_res r =? 0);;
  ALWAYS_ASSERT (attr_destroy_res r =? 0).

Definition thread_join (r : pthread_results) (t : ubi_thread) : outcome unit :=
  ALWAYS_ASSERT (negb (daemon t));;
  ALWAYS_ASSERT (join_res r =? 0).

Definition thread_run (t : ubi_thread) (s : St) : outcome St :=
  match body t with
  | None => Fault AssertFailed
  | Some f => f s
  end.

(** [register_completion_callback] appends to the static vector. *)
Definition register_completion_callback {C} (callback : C) (callbacks : list C) : list C :=
  callbacks ++ [callback].

(** [on_complete]: every callback in the order of registration. *)
Fixpoint on_complete (callbacks : list (St -> outcome St)) (s : St) : outcome St :=
  match callbacks with
  | [] => Done s
  | f :: rest => s ← f s; on_complete rest s
  end.

(** [pthread_bootstrap]: an exception that [run] lets escape runs the
    callbacks and is thrown on, which ends the process. *)
Definition pthread_bootstrap (run : St -> outcome St) (callbacks : list (St -> outcome St)) (s : St) : outcome St :=
  match run s with
  | Done s => on_complete callbacks s
  | Fault Thrown => _ ← on_complete callbacks s; Fault Thrown
  | Fault f => Fault f
  end.
End thread.

(** ** The machine *)
Definition PER_SOCKET_CORES : Z := 12.
Definition NUM_SOCKETS : Z := 2.
Definition SOCKET_0 : list Z := [0; 2; 4; 6; 8; 10; 12; 14; 16; 18; 20; 22].
Definition SOCKET_1 : list Z := [1; 3; 5; 7; 9; 11; 13; 15; 17; 19; 21; 23].
Definition CPUS : list (list Z) := [SOCKET_0; SOCKET_1].
Definition CHOOSE_NIC (core_id : Z) : Z := if core_id >? PER_SOCKET_CORES then 0 else 1.

Definition CorePerSocket : Z := PER_SOCKET_CORES.
Definition TotalCores : outcome Z := int_mul PER_SOCKET_CORES NUM_SOCKETS.
Definition choose_nic (thread_id : Z) : Z := CHOOSE_NIC thread_id.

(** The core a thread is bound to. *)
Definition BindToCore (t_id : Z) : outcome Z :=
  total ← TotalCores;
  cassert (t_id <? total);;
  i ← int_div t_id PER_SOCKET_CORES;
  j ← int_mod t_id PER_SOCKET_CORES;
  row ← array_get CPUS i;
  array_get row j.

(** The last cores are kept for these threads. *)
Definition getCpuListener : outcome Z := total ← TotalCores; int_sub total 1.
Definition getCpuGC : outcome Z := total ← TotalCores; int_sub total 1.
Definition getCpuLogList : outcome Z := total ← TotalCores; int_sub total 1.
Definition getCpuClientTxn : outcome Z := total ← TotalCores; int_sub total 2.
Definition getCpuClientQry : outcome Z := total ← TotalCores; int_sub total 2.
Definition getCpuTxn : Z := 0.
Definition getCpuQry : outcome Z := total ← TotalCores; int_sub total 3.

(** [binding]: the core the thread is bound to, with the result of
    [pthread_setaffinity_np]. *)
Definition binding (setaffinity_res id : Z) : outcome Z :=
  core ← int_mul 2 id;
  cassert (setaffinity_res =? 0);;
  Done core.

(** What [sysinfo] tells, in units of [mem_unit] bytes; the free and the total
    bytes. *)
Record sys_info := mkSysinfo { mem_unit : Z; freeram : Z; totalram : Z }.

Definition get_system_memory_info (inf : sys_info) : Z * Z :=
  (to_size (mem_unit inf * freeram inf), to_size (mem_unit inf * totalram inf)).

(** Bytes as [double] gigabytes. *)
Definition get_memory_size_g (bytes : Z) : double :=
  let G := dmul (dmul (double_of_Z 1024) (double_of_Z 1024)) (double_of_Z 1024) in
  SFdiv 53 1024 (double_of_Z bytes) G.

(** [Round<int>] *)
Definition Round (a b : Z) : outcome Z :=
  s ← int_add a b;
  r ← int_mod a b;
  int_sub s r.

(** Fields of a [struct timespec]; the differences are [long]s, converted to
    [int] when they are added to [diff]. *)
Record timespec := mkTimespec { tv_sec : Z; tv_nsec : Z }.

(** A [long] converted to an [int]. *)
Definition long_to_int (z : Z) : Z := (z + 2 ^ 31) mod 2 ^ 32 - 2 ^ 31.

Definition DiffTimespec (fin start : timespec) : outcome Z :=
  let diff := long_to_int (if tv_sec fin >? tv_sec start then (tv_sec fin - tv_sec start) * 1000 else 0) in
  cassert (negb (diff =? 0) || (tv_sec fin =? tv_sec start));;
  Done (long_to_int
    (if tv_nsec fin >? tv_nsec start then diff + Z.quot (tv_nsec fin - tv_nsec start) 1000000
     else diff - Z.quot (tv_nsec start - tv_nsec fin) 1000000)).

Definition TimeToMs (t : timespec) : Z := to_size (tv_sec t * 1000 + Z.quot (tv_nsec t) 1000000).

(** Atomic operations on a cell. *)
Definition CAS (cell oldval newval : Z) : bool * Z :=
  if cell =? oldval then (true, newval) else (false, cell).
Definition FAA (cell add_val : Z) : Z * Z := (cell, to_size (cell + add_val)).

(** [while (!CAS(lock_ptr, 0, 1));] spins until the lock is free. *)
Definition lock32 (cell : Z) : attempt Z :=
  let '(success, cell) := CAS cell 0 1 in
  if success : bool then Ran (Done cell) else Blocked.
Definition unlock32 (cell : Z) : Z := 0.

(** ** Symbols of a stack trace

    The scan of [print_stacktrace] over [module(function+offset) [address]]:
    the positions of the last opening parenthesis and plus sign before the
    first closing parenthesis behind a plus sign. *)
Record marks := mkMarks { begin_name : option nat; begin_offset : option nat; end_offset : option nat }.

Fixpoint scan_symbol (s : string) (pos : nat) (m : marks) : marks :=
  match s with
  | EmptyString => m
  | String c s =>
      if Ascii.eqb c "(" then scan_symbol s (S pos) (mkMarks (Some pos) (begin_offset m) (end_offset m))
      else if Ascii.eqb c "+" then scan_symbol s (S pos) (mkMarks (begin_name m) (Some pos) (end_offset m))
      else if Ascii.eqb c ")" then
        match begin_offset m with
        | Some _ => mkMarks (begin_name m) (begin_offset m) (Some pos)
        | None => scan_symbol s (S pos) m
        end
      else scan_symbol s (S pos) m
  end.

(** Module, mangled name and offset of a symbol, when it has the form. *)
Definition split_symbol (s : string) : option (string * string * string) :=
  let m := scan_symbol s 0 (mkMarks None None None) in
  match begin_name m, begin_offset m, end_offset m with
  | Some b, Some o, Some e =>
      if (b <? o)%nat
      then Some (String.substring 0 b s, String.substring (S b) (o - S b) s, String.substring (S o) (e - S o) s)
      else None
  | _, _, _ => None
  end.

(** What the C library and the C++ ABI know of the program at run time: the
    symbols of the frames, the innermost first, and the names behind mangled
    names. *)
Class Backtrace := {
  frame_symbols : list string;
  cxa_demangle : string -> option string;
}.

(** The text of one frame. *)
Definition print_frame `{Backtrace} (symbol : string) : string :=
  match split_symbol symbol with
  | Some (file, mangled, offset) =>
      match cxa_demangle mangled with
      | Some funcname => "  " +:+ file +:+ " : " +:+ funcname +:+ "+" +:+ offset
      | None => "  " +:+ file +:+ " : " +:+ mangled +:+ "()+" +:+ offset
      end
  | None => "  " +:+ symbol
  end +:+ String newline EmptyString.

(** [print_stacktrace(out, max_frames)]: the frames but the first one, which is
    the function itself. *)
Definition print_stacktrace `{Backtrace} (max_frames : nat) : string :=
  "stack trace:" +:+ String newline EmptyString +:+
  match take (max_frames + 1) frame_symbols with
  | [] => "  <empty, possibly corrupt>" +:+ String newline EmptyString
  | _ :: frames => fold_right String.append EmptyString (map print_frame frames)
  end.

(** ** Signals

    A handler prints, under the lock against a second signal, and ends the
    process; that a process was aborted does not clear [work_flag]. *)
Inductive signal := SIGSEGV | SIGINT | SIGABRT.
Record process_end := mkEnd { end_stderr : string; end_work_flag : bool; exit_status : Z }.

Definition handle_signal `{Backtrace} (who : string) (exit_lock work_flag : bool) (sig : signal) : attempt process_end :=
  let meet what := "[" +:+ who +:+ "] Meet " +:+ what +:+ "!" +:+ String newline EmptyString in
  wait_until (negb exit_lock) (Done
    match sig with
    | SIGSEGV => mkEnd (meet "a segmentation fault") false (-1)
    | SIGINT => mkEnd (meet "an interrupt") false (-1)
    | SIGABRT => mkEnd (meet "an assertion failure" +:+ print_stacktrace 63) work_flag (-1)
    end).

(** ** Properties *)

(** No character of [cs] is in [s]. *)
Fixpoint without (cs : list ascii) (s : string) : bool :=
  match s with
  | EmptyString => true
  | String c s => forallb (fun c' => negb (Ascii.eqb c c')) cs && without cs s
  end.

Lemma append_cons c (s rest : string) : String c s +:+ rest = String c (s +:+ rest).
Proof. reflexivity. Qed.
Lemma append_nil (rest : string) : "" +:+ rest = rest.
Proof. reflexivity. Qed.

Lemma scan_other s rest pos m :
  without ["("; "+"; ")"]%char s = true ->
  scan_symbol (s +:+ rest) pos m = scan_symbol rest (pos + String.length s) m.
Proof.
  revert pos. induction s as [|c s IH]; intros pos; cbn [without forallb]; [by rewrite Nat.add_0_r|].
  intros [Hc Hs]%andb_true_iff. rewrite append_cons. cbn [scan_symbol String.length].
  revert Hc. destruct (Ascii.eqb c "("), (Ascii.eqb c "+"), (Ascii.eqb c ")"); try done. intros _.
  rewrite IH by done. f_equal. lia.
Qed.

(** In the name of the file only a closing parenthesis can mislead the scan. *)
Lemma scan_file s rest pos m :
  without [")"]%char s = true -> end_offset m = None ->
  exists b o, scan_symbol (s +:+ rest) pos m = scan_symbol rest (pos + String.length s) (mkMarks b o None).
Proof.
  destruct m as [b o e]. cbn [end_offset]. intros Hs ->. revert pos b o Hs.
  induction s as [|c s IH]; intros pos b o; cbn [without forallb]; [exists b, o; by rewrite Nat.add_0_r|].
  intros [Hc Hs]%andb_true_iff. rewrite append_cons. cbn [scan_symbol String.length begin_name begin_offset end_offset].
  replace (pos + S (String.length s))%nat with (S pos + String.length s)%nat by lia.
  destruct (Ascii.eqb c "("); [by apply IH|]. destruct (Ascii.eqb c "+"); [by apply IH|].
  revert Hc. destruct (Ascii.eqb c ")"); [done|]. intros _. by apply IH.
Qed.

Lemma substring_after a k n s : String.substring (String.length a + k) n (a +:+ s) = String.substring k n s.
Proof. induction a as [|x a IH]; [done|]. rewrite append_cons. cbn [String.length Nat.add String.substring]. exact IH. Qed.

Lemma substring_prefix b c : String.substring 0 (String.length b) (b +:+ c) = b.
Proof.
  induction b as [|y b IH]; [rewrite append_nil; by destruct c|].
  rewrite append_cons. cbn [String.length String.substring]. by rewrite IH.
Qed.

Lemma scan_open s pos m : scan_symbol ("(" +:+ s) pos m = scan_symbol s (S pos) (mkMarks (Some pos) (begin_offset m) (end_offset m)).
Proof. reflexivity. Qed.
Lemma scan_plus s pos m : scan_symbol ("+" +:+ s) pos m = scan_symbol s (S pos) (mkMarks (begin_name m) (Some pos) (end_offset m)).
Proof. reflexivity. Qed.
Lemma scan_close s pos b o e : scan_symbol (")" +:+ s) pos (mkMarks b (Some o) e) = mkMarks b (Some o) (Some pos).
Proof. reflexivity. Qed.

(** A symbol of the usual form is taken apart as it was put together. *)
Lemma split_symbol_ok file name offset rest :
  without [")"]%char file = true -> without ["("; "+"; ")"]%char name = true -> without ["("; "+"; ")"]%char offset = true ->
  split_symbol (file +:+ "(" +:+ name +:+ "+" +:+ offset +:+ ")" +:+ rest) = Some (file, name, offset).
Proof.
  intros Hf Hn Ho. set (s := file +:+ _). unfold split_symbol.
  set (b := String.length file). set (o := (S b + String.length name)%nat). set (e := (S o + String.length offset)%nat).
  assert (E : scan_symbol s 0 (mkMarks None None None) = mkMarks (Some b) (Some o) (Some e)).
  { unfold s. destruct (scan_file file ("(" +:+ name +:+ "+" +:+ offset +:+ ")" +:+ rest) 0 (mkMarks None None None) Hf eq_refl)
      as (b0 & o0 & ->).
    rewrite Nat.add_0_l, scan_open, scan_other, scan_plus, scan_other by done.
    cbn [begin_name begin_offset end_offset]. apply scan_close. }
  rewrite E. cbn [begin_name begin_offset end_offset]. rewrite (proj2 (Nat.ltb_lt b o)) by (unfold o; lia).
  replace (o - S b)%nat with (String.length name) by (unfold o; lia).
  replace (e - S o)%nat with (String.length offset) by (unfold e; lia).
  replace (S b) with (String.length file + 1)%nat by (unfold b; lia).
  replace (S o) with (String.length file + (1 + (String.length name + 1)))%nat by (unfold o, b; lia).
  unfold s, b. rewrite substring_prefix, !substring_after. cbn [Nat.add].
  rewrite !(append_cons "("), !append_nil. cbn [String.substring].
  rewrite substring_prefix, substring_after, (append_cons "+"), append_nil. cbn [String.substring].
  by rewrite substring_prefix.
Qed.

(** The signal ends the process with the same status whatever happened; while
    one is being handled another waits for ever. *)
Lemma handle_signal_cases `{Backtrace} who work_flag sig :
  (exists fin, handle_signal who false work_flag sig = Ran (Done fin) /\ exit_status fin mod 256 = 255) /\
  handle_signal who true work_flag sig = Blocked.
Proof. split; [|done]. by destruct sig; eexists. Qed.

Example split_symbol_example : split_symbol "./exchange(_ZN1a+0x15c) [0x8048a6d]" = Some ("./exchange", "_ZN1a", "0x15c")%string.
Proof. reflexivity. Qed.

(** Different threads are bound to different cores. *)
Lemma BindToCore_ok t : 0 <= t < 24 ->
  BindToCore t = Done (if t <? 12 then 2 * t else 2 * (t - 12) + 1).
Proof.
  intros Ht. unfold BindToCore, TotalCores. rewrite int_mul_ok, bind_Done by done.
  change (PER_SOCKET_CORES * NUM_SOCKETS) with 24. rewrite (proj2 (Z.ltb_lt t 24)) by lia.
  cbn [cassert]. rewrite bind_Done.
  rewrite int_div_ok, bind_Done, int_mod_ok, bind_Done by (unfold INT_MAX, PER_SOCKET_CORES; lia).
  assert (Hn : exists n, t = Z.of_nat n /\ (n < 24)%nat) by (exists (Z.to_nat t); lia).
  destruct Hn as (n & -> & Hn). clear Ht. do 24 (destruct n as [|n]; [done|]). lia.
Qed.

(** The fixed threads have cores of their own, apart from those that share a
    role. *)
Lemma fixed_cores :
  getCpuListener = Done 23 /\ getCpuClientTxn = Done 22 /\ getCpuQry = Done 21 /\
  getCpuGC = getCpuListener /\ getCpuLogList = getCpuListener /\ getCpuClientQry = getCpuClientTxn.
Proof. by vm_compute. Qed.

Example get_memory_size_g_example : get_memory_size_g (3 * 2 ^ 29) = SFdiv 53 1024 (double_of_Z 3) (double_of_Z 2).
Proof. vm_compute. reflexivity. Qed.

Lemma lock32_free cell : lock32 cell = if cell =? 0 then Ran (Done 1) else Blocked.
Proof. unfold lock32, CAS. by destruct (cell =? 0). Qed.

(** No exception escapes unnoticed: the process ends. *)
Lemma bootstrap_rethrows {St} (run : St -> outcome St) callbacks s :
  run s = Fault Thrown -> (forall f s, f ∈ callbacks -> exists s', f s = Done s') ->
  pthread_bootstrap run callbacks s = Fault Thrown.
Proof.
  intros E Hc. unfold pthread_bootstrap. rewrite E.
  assert (Hdone : exists s', on_complete callbacks s = Done s').
  { clear E. revert s Hc. induction callbacks as [|f rest IH]; intros s Hc; [by eexists|]. cbn [on_complete].
    destruct (Hc f s) as [s' ->]; [apply elem_of_cons; by left|]. rewrite bind_Done.
    apply IH. intros g s0 Hg. apply Hc, elem_of_cons. by right. }
  by destruct Hdone as [s' ->].
Qed.
