(* ===== verification/Assertion.v ===== *)
(** * The assertion macros ([src/utils/assertion.hpp])

    A failed assertion throws: the result is the exception or nothing.  The
    other components use [Prelude.ASSERT], which forgets the exception. *)

From stdpp Require Import strings.
From S2P Require Import Prelude Text Util.
#[local] Open Scope Z_scope.

Abbreviation checked A := (UbiquantException + A)%type.

(** [UBIQUANT_LOGGER_FAIL_METHOD]: throw. *)
Definition FAIL_METHOD {A} (e : UbiquantException) : checked A := inl e.

Definition ASSERT_ERROR_CODE (condition : bool) (error_code : Z) : checked unit :=
  if condition then inr tt else FAIL_METHOD (exception_of_code error_code).

Definition CHECK (condition : bool) : checked unit :=
  if condition then inr tt else FAIL_METHOD (exception_of_code UNKNOWN_ERROR).

Definition ASSERT_MSG (condition : bool) (fmt : string) : checked unit :=
  if condition then inr tt else FAIL_METHOD (exception_of_message fmt).

(** The second value is converted to the type of the first one ([cast]). *)
Definition CHECK_OP {A B} (op : A -> A -> bool) (cast : B -> A) (val1 : A) (val2 : B) : checked unit :=
  if op val1 (cast val2) then inr tt else FAIL_METHOD (exception_of_code UNKNOWN_ERROR).

Section integers.
(** [cast] is the conversion to the integer type of the first argument. *)
Context (cast : Z -> Z).
Definition CHECK_EQ := CHECK_OP Z.eqb cast.
Definition CHECK_NE := CHECK_OP (fun a b => negb (a =? b)) cast.
Definition CHECK_LE := CHECK_OP Z.leb cast.
Definition CHECK_LT := CHECK_OP Z.ltb cast.
Definition CHECK_GE := CHECK_OP Z.geb cast.
Definition CHECK_GT := CHECK_OP Z.gtb cast.
End integers.

Definition ASSERT_TRUE (cond : bool) : checked unit := CHECK cond.
Definition ASSERT_FALSE (cond : bool) : checked unit := CHECK (negb cond).
Definition ASSERT_STREQ (a b : string) : checked unit := CHECK (String.eqb a b).

(** ** Lemmas *)

(** What the other components see of an assertion. *)
Definition forget {A} (m : checked A) : outcome A :=
  match m with inl _ => Fault Thrown | inr a => Done a end.

Lemma ASSERT_forget b : ASSERT b = forget (CHECK b).
Proof. by destruct b. Qed.

(** No failed assertion shows its own message: all but those with an error
    code show the one of [UNKNOWN_ERROR]. *)
Lemma failed_message (m : checked unit) e :
  m = CHECK false \/ (exists fmt, m = ASSERT_MSG false fmt) \/
  (exists A B (op : A -> A -> bool) (cast : B -> A) v1 v2, m = CHECK_OP op cast v1 v2) ->
  m = inl e -> what e = Done "Something wrong happened"%string.
Proof.
  intros [->|[[fmt ->]|(A & B & op & cast & v1 & v2 & ->)]]; [intros [= <-]..|]; try done.
  unfold CHECK_OP. destruct (op v1 (cast v2)); [done|]. by intros [= <-].
Qed.

(** The conversion can make different numbers pass: -1 as an unsigned number. *)
Example check_eq_unsigned : CHECK_EQ to_size (2 ^ 64 - 1) (-1) = inr tt.
Proof. reflexivity. Qed.
