(* ===== verification/Channel.v ===== *)
(** * Message channels

    [src/network/msg_sender.h] and [src/network/msg_receiver.h], and the parts
    of the order sender, trade sender, order receiver and trade receiver that
    set their channels up from the configuration, pause them and move them to
    new ports ([trader/order_sender.cpp], [exchange/trade_sender.cpp],
    [exchange/order_receiver.cpp], [trader/trade_receiver.cpp],
    [trader/trader_controller.cpp]).

    The sockets of ZeroMQ are the interface [Zmq]: a call that binds, unbinds,
    connects or disconnects may throw, and a successful one changes the sets
    of bound and connected addresses the way the library documents.  A
    non-blocking [send] or [recv] that cannot go on returns false; they throw
    only on a socket or context that was closed, which no caller does, and
    when a signal interrupts them, and every signal the program handles ends
    the process. *)

From stdpp Require Import pretty strings.
From S2P Require Import Prelude Text Bytes Config Types.
From S2P Require Import BlockQueue Messages.
#[local] Open Scope Z_scope.

Class Zmq (S : Type) := {
  zmq_socket : S;
  zmq_bind : S -> string -> outcome S;
  zmq_unbind : S -> string -> outcome S;
  zmq_connect : S -> string -> outcome S;
  zmq_disconnect : S -> string -> outcome S;
  (** [send(msg, ZMQ_DONTWAIT)] *)
  zmq_send : S -> bytes -> bool * S;
  (** [recv(&msg, ZMQ_NOBLOCK)] *)
  zmq_recv : S -> option bytes * S;
}.

Class ZmqLaws (S : Type) `{Zmq S} := {
  bound : S -> list string;
  linked : S -> list string;
  (** what arrived and was not received yet *)
  inbox : S -> list bytes;
  new_law : bound zmq_socket = [] /\ linked zmq_socket = [];
  bind_law s a s' : zmq_bind s a = Done s' -> bound s' = a :: bound s /\ linked s' = linked s;
  unbind_law s a s' : zmq_unbind s a = Done s' -> bound s ≡ₚ a :: bound s' /\ linked s' = linked s;
  connect_law s a s' : zmq_connect s a = Done s' -> linked s' = a :: linked s /\ bound s' = bound s;
  disconnect_law s a s' : zmq_disconnect s a = Done s' -> linked s ≡ₚ a :: linked s' /\ bound s' = bound s;
  send_law s m : bound (zmq_send s m).2 = bound s /\ linked (zmq_send s m).2 = linked s;
  recv_law s :
    match inbox s with
    | [] => zmq_recv s = (None, s)
    | m :: rest => exists s', zmq_recv s = (Some m, s') /\ inbox s' = rest
    end;
  recv_addrs s : bound (zmq_recv s).2 = bound s /\ linked (zmq_recv s).2 = linked s;
}.

(** [snprintf(buf, size, ...)] of the text [s]. *)
Definition snprintf (size : nat) (s : string) : string := String.substring 0 (size - 1) s.

(** ** [MessageSender] *)
Record MessageSender (S : Type) := mkMessageSender {
  src_addr : string;
  dst_addr : string;
  channel : Z * Z;
  sender : S;
  connected : bool;
}.
Arguments mkMessageSender {S} src_addr dst_addr channel sender connected.
Arguments src_addr {S} m.
Arguments dst_addr {S} m.
Arguments channel {S} m.
Arguments sender {S} m.
Arguments connected {S} m.

(** [tcp://source:port;destination:port] *)
Definition sender_address (src dst : string) (channel : Z * Z) : string :=
  snprintf 64 ("tcp://" +:+ src +:+ ":" +:+ pretty channel.1 +:+ ";" +:+ dst +:+ ":" +:+ pretty channel.2).

Definition receiver_address (src : string) (port : Z) : string :=
  snprintf 32 ("tcp://" +:+ src +:+ ":" +:+ pretty port).

Section sender.
Context {S : Type} `{Zmq S}.

Definition new_MessageSender (my_addr receiver_addr : string) (port_pair : Z * Z) : MessageSender S :=
  mkMessageSender my_addr receiver_addr port_pair zmq_socket false.

Definition sender_reset_port (m : MessageSender S) (port_pair : Z * Z) : outcome (MessageSender S) :=
  s ← zmq_disconnect (sender m) (sender_address (src_addr m) (dst_addr m) (channel m));
  Done (mkMessageSender (src_addr m) (dst_addr m) port_pair s false).

Definition connect_on_demand (m : MessageSender S) : outcome (MessageSender S) :=
  if connected m then Done m
  else
    s ← zmq_connect (sender m) (sender_address (src_addr m) (dst_addr m) (channel m));
    Done (mkMessageSender (src_addr m) (dst_addr m) (channel m) s true).

Definition send (m : MessageSender S) (str : bytes) : outcome (bool * MessageSender S) :=
  m ← connect_on_demand m;
  let '(result, s) := zmq_send (sender m) str in
  Done (result, mkMessageSender (src_addr m) (dst_addr m) (channel m) s (connected m)).
End sender.

(** ** [MessageReceiver] *)
Record MessageReceiver (S : Type) := mkMessageReceiver {
  recv_addr : string;
  ports : list Z;
  receivers : list S;
  offset : Z;
}.
Arguments mkMessageReceiver {S} recv_addr ports receivers offset.
Arguments recv_addr {S} m.
Arguments ports {S} m.
Arguments receivers {S} m.
Arguments offset {S} m.

Section receiver.
Context {S : Type} `{Zmq S}.

Fixpoint bind_all (my_addr : string) (receiver_ports : list Z) : outcome (list S) :=
  match receiver_ports with
  | [] => Done []
  | port :: rest =>
      s ← zmq_bind zmq_socket (receiver_address my_addr port);
      ss ← bind_all my_addr rest;
      Done (s :: ss)
  end.

Definition new_MessageReceiver (my_addr : string) (receiver_ports : list Z) : outcome (MessageReceiver S) :=
  ss ← bind_all my_addr receiver_ports;
  Done (mkMessageReceiver my_addr receiver_ports ss 0).

(** The two loops of [reset_port]: [receivers[idx]] for every port. *)
Definition unbind_ports (addr : string) (old_ports : list Z) (ss : list S) : outcome (list S) :=
  for_lt (Z.of_nat (length old_ports)) (fun idx ss =>
    port ← array_get old_ports idx;
    array_update ss idx (fun s => zmq_unbind s (receiver_address addr port))) ss.

Definition bind_ports (addr : string) (new_ports : list Z) (ss : list S) : outcome (list S) :=
  for_lt (Z.of_nat (length new_ports)) (fun idx ss =>
    port ← array_get new_ports idx;
    array_update ss idx (fun s => zmq_bind s (receiver_address addr port))) ss.

Definition receiver_reset_port (m : MessageReceiver S) (new_ports : list Z) : outcome (MessageReceiver S) :=
  cassert (bool_decide (length new_ports = length (ports m)));;
  ss ← unbind_ports (recv_addr m) (ports m) (receivers m);
  ss ← bind_ports (recv_addr m) new_ports ss;
  Done (mkMessageReceiver (recv_addr m) new_ports ss (offset m)).

(** [tryrecv(idx, str)]: the message, if there is one. *)
Definition tryrecv_at (m : MessageReceiver S) (idx : Z) : outcome (option bytes * MessageReceiver S) :=
  s ← array_get (receivers m) idx;
  let '(res, s) := zmq_recv s in
  ss ← array_set (receivers m) idx s;
  Done (res, mkMessageReceiver (recv_addr m) (ports m) ss (offset m)).

(** [ports.size()] is a [size_t], so the sum is computed unsigned. *)
Definition port_idx (m : MessageReceiver S) (i : Z) : outcome Z :=
  size_mod (to_size i) (to_size (Z.of_nat (length (ports m)))).

Definition next_offset (m : MessageReceiver S) : outcome (MessageReceiver S) :=
  i ← int_add (offset m) 1;
  o ← port_idx m i;
  Done (mkMessageReceiver (recv_addr m) (ports m) (receivers m) o).

(** The loop of [tryrecv(str)] from [idx] on, [n] iterations left. *)
Fixpoint poll_ports (n : nat) (idx : Z) (m : MessageReceiver S) : outcome (option bytes * MessageReceiver S) :=
  match n with
  | O => m ← next_offset m; Done (None, m)
  | Datatypes.S n =>
      i ← int_add idx (offset m);
      i ← port_idx m i;
      '(res, m) ← tryrecv_at m i;
      match res with
      | Some str => Done (Some str, m)
      | None => poll_ports n (idx + 1) m
      end
  end.

Definition tryrecv (m : MessageReceiver S) : outcome (option bytes * MessageReceiver S) :=
  poll_ports (length (ports m)) 0 m.

(** [recv]: polls until a message arrives. *)
Fixpoint recv (fuel : nat) (m : MessageReceiver S) : outcome (bytes * MessageReceiver S) :=
  match fuel with
  | O => Fault OutOfFuel
  | Datatypes.S fuel =>
      '(res, m) ← tryrecv_at m (offset m);
      match res with
      | Some str => Done (str, m)
      | None => m ← next_offset m; recv fuel m
      end
  end.
End receiver.

(** ** The channels of the configuration *)

(** [Config::trader_port2exchange_port[trader][exchange][c]] *)
Definition port_pair (cfg : Config) (trader exchange c : Z) : outcome (Z * Z) :=
  row ← array_get (trader_port2exchange_port cfg) trader;
  channels ← array_get row exchange;
  array_get channels c.

(** A loop that pushes [f i] for [i] below [n]. *)
Fixpoint collect {A} (n : nat) (i : Z) (f : Z -> outcome (list A)) : outcome (list A) :=
  match n with
  | O => Done []
  | S n => x ← f i; xs ← collect n (i + 1) f; Done (x ++ xs)
  end.

(** *** [TraderOrderSender] *)
Record TraderOrderSender (S Q : Type) := mkTraderOrderSender {
  exchange_idx_ : Z;
  msg_sender_ : MessageSender S;
  order_queue_ : Q;
  send_lock : bool;
}.
Arguments mkTraderOrderSender {S Q} exchange_idx_ msg_sender_ order_queue_ send_lock.
Arguments exchange_idx_ {S Q} t.
Arguments msg_sender_ {S Q} t.
Arguments order_queue_ {S Q} t.
Arguments send_lock {S Q} t.

Section order_sender.
Context {S Q : Type} `{Zmq S} `{Fifo Q Order}.

(** [mkq] is the constructor of the queue. *)
Definition new_TraderOrderSender (mkq : Z -> outcome Q) (cfg : Config) (exchange_idx : Z)
    : outcome (TraderOrderSender S Q) :=
  cap ← int_mul (sliding_window_size cfg) (stock_num cfg);
  cap ← int_div cap (exchange_num cfg);
  q ← mkq cap;
  pair ← port_pair cfg (partition_idx cfg) exchange_idx 0;
  src ← array_get (traders_addr cfg) (partition_idx cfg);
  dst ← array_get (exchanges_addr cfg) exchange_idx;
  Done (mkTraderOrderSender exchange_idx (new_MessageSender src dst pair) q false).

(** [pthread_spin_lock]: spins while the lock is held. *)
Definition stop_order_sender (t : TraderOrderSender S Q) : attempt (TraderOrderSender S Q) :=
  wait_until (negb (send_lock t))
    (Done (mkTraderOrderSender (exchange_idx_ t) (msg_sender_ t) (order_queue_ t) true)).

Definition restart_order_sender (t : TraderOrderSender S Q) : TraderOrderSender S Q :=
  mkTraderOrderSender (exchange_idx_ t) (msg_sender_ t) (order_queue_ t) false.

Definition reset_order_sender (cfg : Config) (t : TraderOrderSender S Q) : outcome (TraderOrderSender S Q) :=
  pair ← port_pair cfg (partition_idx cfg) (exchange_idx_ t) 0;
  m ← sender_reset_port (msg_sender_ t) pair;
  Done (mkTraderOrderSender (exchange_idx_ t) m (order_queue_ t) (send_lock t)).

(** One iteration of [while (!res)]: lock, send, unlock. *)
Definition try_send_order (t : TraderOrderSender S Q) (msg : bytes) : attempt (bool * TraderOrderSender S Q) :=
  wait_until (negb (send_lock t))
    ('(res, m) ← send (msg_sender_ t) msg;
     Done (res, mkTraderOrderSender (exchange_idx_ t) m (order_queue_ t) false)).

Definition sender_put_order (t : TraderOrderSender S Q) (order : Order) : attempt (TraderOrderSender S Q) :=
  match fifo_put (order_queue_ t) order with
  | Blocked => Blocked
  | Ran m => Ran (q ← m; Done (mkTraderOrderSender (exchange_idx_ t) (msg_sender_ t) q (send_lock t)))
  end.
End order_sender.

(** *** [ExchangeTradeSender] *)
Record ExchangeTradeSender (S Q : Type) := mkExchangeTradeSender {
  msg_senders_ : list (MessageSender S);
  msg_queue_ : Q;
  trade_send_lock : bool;
}.
Arguments mkExchangeTradeSender {S Q} msg_senders_ msg_queue_ trade_send_lock.
Arguments msg_senders_ {S Q} e.
Arguments msg_queue_ {S Q} e.
Arguments trade_send_lock {S Q} e.

(** The pair for the trades of a trader, exchange side first. *)
Definition trade_pair (cfg : Config) (i : Z) : outcome (Z * Z) :=
  pair ← port_pair cfg i (partition_idx cfg) 2;
  Done (pair.2, pair.1).

Section trade_sender.
Context {S Q : Type} `{Zmq S} `{Fifo Q bytes}.

Definition new_ExchangeTradeSender (mkq : Z -> outcome Q) (cfg : Config) : outcome (ExchangeTradeSender S Q) :=
  cap ← int_mul (sliding_window_size cfg) (stock_num cfg);
  cap ← int_div cap 2;
  q ← mkq cap;
  senders ← collect (Z.to_nat (trader_num cfg)) 0 (fun i =>
    pair ← trade_pair cfg i;
    src ← array_get (exchanges_addr cfg) (partition_idx cfg);
    dst ← array_get (traders_addr cfg) i;
    Done [new_MessageSender src dst pair]);
  Done (mkExchangeTradeSender senders q false).

Definition stop_trade_sender (t : ExchangeTradeSender S Q) : attempt (ExchangeTradeSender S Q) :=
  wait_until (negb (trade_send_lock t)) (Done (mkExchangeTradeSender (msg_senders_ t) (msg_queue_ t) true)).

Definition restart_trade_sender (t : ExchangeTradeSender S Q) : ExchangeTradeSender S Q :=
  mkExchangeTradeSender (msg_senders_ t) (msg_queue_ t) false.

Definition reset_trade_sender (cfg : Config) (t : ExchangeTradeSender S Q) : outcome (ExchangeTradeSender S Q) :=
  senders ← for_lt (trader_num cfg) (fun i senders =>
    pair ← trade_pair cfg i;
    array_update senders i (fun m => sender_reset_port m pair)) (msg_senders_ t);
  Done (mkExchangeTradeSender senders (msg_queue_ t) (trade_send_lock t)).

(** One iteration of [while (!res)] for the sender [idx]. *)
Definition try_send_trade (t : ExchangeTradeSender S Q) (idx : Z) (msg : bytes)
    : attempt (bool * ExchangeTradeSender S Q) :=
  wait_until (negb (trade_send_lock t))
    (m ← array_get (msg_senders_ t) idx;
     '(res, m) ← send m msg;
     senders ← array_set (msg_senders_ t) idx m;
     Done (res, mkExchangeTradeSender senders (msg_queue_ t) false)).
End trade_sender.

(** *** [ExchangeOrderReceiver] *)
Record ExchangeOrderReceiver (S : Type) := mkExchangeOrderReceiver {
  order_receiver_ : MessageReceiver S;
  order_recv_lock : bool;
}.
Arguments mkExchangeOrderReceiver {S} order_receiver_ order_recv_lock.
Arguments order_receiver_ {S} e.
Arguments order_recv_lock {S} e.

(** The two order channels of every trader. *)
Definition order_ports (cfg : Config) : outcome (list Z) :=
  collect (Z.to_nat (trader_num cfg)) 0 (fun i =>
    p0 ← port_pair cfg i (partition_idx cfg) 0;
    p1 ← port_pair cfg i (partition_idx cfg) 1;
    Done [p0.2; p1.2]).

(** The trade channel of every exchange. *)
Definition trade_ports (cfg : Config) : outcome (list Z) :=
  collect (Z.to_nat (exchange_num cfg)) 0 (fun i =>
    p ← port_pair cfg (partition_idx cfg) i 2;
    Done [p.1]).

Section receivers.
Context {S : Type} `{Zmq S}.

Definition new_ExchangeOrderReceiver (cfg : Config) : outcome (ExchangeOrderReceiver S) :=
  ports ← order_ports cfg;
  addr ← array_get (exchanges_addr cfg) (partition_idx cfg);
  m ← new_MessageReceiver addr ports;
  Done (mkExchangeOrderReceiver m false).

Definition stop_order_receiver (r : ExchangeOrderReceiver S) : attempt (ExchangeOrderReceiver S) :=
  wait_until (negb (order_recv_lock r)) (Done (mkExchangeOrderReceiver (order_receiver_ r) true)).

Definition restart_order_receiver (r : ExchangeOrderReceiver S) : ExchangeOrderReceiver S :=
  mkExchangeOrderReceiver (order_receiver_ r) false.

Definition reset_order_receiver (cfg : Config) (r : ExchangeOrderReceiver S) : outcome (ExchangeOrderReceiver S) :=
  ports ← order_ports cfg;
  m ← receiver_reset_port (order_receiver_ r) ports;
  Done (mkExchangeOrderReceiver m (order_recv_lock r)).

(** One iteration of [while (!res)] of [run]. *)
Definition poll_orders (r : ExchangeOrderReceiver S) : attempt (option bytes * ExchangeOrderReceiver S) :=
  wait_until (negb (order_recv_lock r))
    ('(res, m) ← tryrecv (order_receiver_ r);
     Done (res, mkExchangeOrderReceiver m false)).

(** *** The channel of [TraderTradeReceiver] *)
Record trade_channel := mkTradeChannel {
  trade_receiver_ : MessageReceiver S;
  trade_recv_lock : bool;
}.

Definition new_trade_channel (cfg : Config) : outcome trade_channel :=
  ports ← trade_ports cfg;
  addr ← array_get (traders_addr cfg) (partition_idx cfg);
  m ← new_MessageReceiver addr ports;
  Done (mkTradeChannel m false).

Definition stop_trade_receiver (r : trade_channel) : attempt trade_channel :=
  wait_until (negb (trade_recv_lock r)) (Done (mkTradeChannel (trade_receiver_ r) true)).

Definition restart_trade_receiver (r : trade_channel) : trade_channel :=
  mkTradeChannel (trade_receiver_ r) false.

Definition reset_trade_receiver (cfg : Config) (r : trade_channel) : outcome trade_channel :=
  ports ← trade_ports cfg;
  m ← receiver_reset_port (trade_receiver_ r) ports;
  Done (mkTradeChannel m (trade_recv_lock r)).

Definition poll_trades (r : trade_channel) : attempt (option bytes * trade_channel) :=
  wait_until (negb (trade_recv_lock r))
    ('(res, m) ← tryrecv (trade_receiver_ r);
     Done (res, mkTradeChannel m false)).
End receivers.
Arguments trade_channel S : clear implicits.

(** ** The network side of the trader process *)

(** [TraderController]'s senders and receiver, and the flag that [send] of
    the traders' process reads. *)
Record TraderNet (S Q : Type) := mkTraderNet {
  order_senders_ : list (TraderOrderSender S Q);
  net_trade_receiver_ : trade_channel S;
  trader_after_reset : bool;
}.
Arguments mkTraderNet {S Q} order_senders_ net_trade_receiver_ trader_after_reset.
Arguments order_senders_ {S Q} t.
Arguments net_trade_receiver_ {S Q} t.
Arguments trader_after_reset {S Q} t.

(** A loop over all senders, each of which may have to wait. *)
Fixpoint each_attempt {A} (f : A -> attempt A) (l : list A) : attempt (list A) :=
  match l with
  | [] => Ran (Done [])
  | x :: rest =>
      match f x with
      | Blocked => Blocked
      | Ran (Fault e) => Ran (Fault e)
      | Ran (Done x) =>
          match each_attempt f rest with
          | Blocked => Blocked
          | Ran m => Ran (rest ← m; Done (x :: rest))
          end
      end
  end.

Fixpoint each {A} (f : A -> outcome A) (l : list A) : outcome (list A) :=
  match l with
  | [] => Done []
  | x :: rest => x ← f x; rest ← each f rest; Done (x :: rest)
  end.

Section trader_net.
Context {S Q : Type} `{Zmq S} `{Fifo Q Order}.

(** The constructor of [TraderController] up to the loading of the data. *)
Definition new_TraderNet (mkq : Z -> outcome Q) (cfg : Config) : outcome (TraderNet S Q) :=
  r ← new_trade_channel cfg;
  senders ← collect (Z.to_nat (exchange_num cfg)) 0 (fun i =>
    t ← new_TraderOrderSender mkq cfg i; Done [t]);
  Done (mkTraderNet senders r false).

Definition trader_stop_sender (t : TraderNet S Q) : attempt (TraderNet S Q) :=
  attempt_map (fun l => mkTraderNet l (net_trade_receiver_ t) (trader_after_reset t))
    (each_attempt stop_order_sender (order_senders_ t)).

Definition trader_stop_receiver (t : TraderNet S Q) : attempt (TraderNet S Q) :=
  attempt_map (fun r => mkTraderNet (order_senders_ t) r (trader_after_reset t))
    (stop_trade_receiver (net_trade_receiver_ t)).

Definition trader_restart (t : TraderNet S Q) : TraderNet S Q :=
  mkTraderNet (map restart_order_sender (order_senders_ t))
    (restart_trade_receiver (net_trade_receiver_ t)) (trader_after_reset t).

Definition trader_reset_network (cfg : Config) (t : TraderNet S Q) : outcome (TraderNet S Q) :=
  r ← reset_trade_receiver cfg (net_trade_receiver_ t);
  senders ← each (reset_order_sender cfg) (order_senders_ t);
  Done (mkTraderNet senders r true).
End trader_net.

(** ** The network side of the exchange process ([src/exchange.cpp]) *)
Record ExchangeNet (S Q : Type) := mkExchangeNet {
  order_receiver : ExchangeOrderReceiver S;
  trade_sender : ExchangeTradeSender S Q;
  exchange_after_reset : bool;
}.
Arguments mkExchangeNet {S Q} order_receiver trade_sender exchange_after_reset.
Arguments order_receiver {S Q} e.
Arguments trade_sender {S Q} e.
Arguments exchange_after_reset {S Q} e.

Section exchange_net.
Context {S Q : Type} `{Zmq S} `{Fifo Q bytes}.

Definition exchange_stop_sender (e : ExchangeNet S Q) : attempt (ExchangeNet S Q) :=
  attempt_map (fun t => mkExchangeNet (order_receiver e) t (exchange_after_reset e))
    (stop_trade_sender (trade_sender e)).

Definition exchange_stop_receiver (e : ExchangeNet S Q) : attempt (ExchangeNet S Q) :=
  attempt_map (fun r => mkExchangeNet r (trade_sender e) (exchange_after_reset e))
    (stop_order_receiver (order_receiver e)).

Definition exchange_restart (e : ExchangeNet S Q) : ExchangeNet S Q :=
  mkExchangeNet (restart_order_receiver (order_receiver e)) (restart_trade_sender (trade_sender e))
    (exchange_after_reset e).

Definition exchange_reset_network (cfg : Config) (e : ExchangeNet S Q) : outcome (ExchangeNet S Q) :=
  r ← reset_order_receiver cfg (order_receiver e);
  t ← reset_trade_sender cfg (trade_sender e);
  Done (mkExchangeNet r t true).
End exchange_net.
