(* ===== verification/ChannelProps.v ===== *)
(** * Properties of the message channels

    The receiver polls its ports in a fixed rotation; the addresses the two
    processes compute from one network configuration meet, at the start and
    after the ports were reset. *)

From stdpp Require Import pretty strings.
From S2P Require Import Prelude Text Bytes Config Types BlockQueue Channel.
#[local] Open Scope Z_scope.

Section polling.
Context {S : Type} `{ZmqLaws S}.

(** A receiver with a socket for every port. *)
Record receiver_ready (m : MessageReceiver S) : Prop := {
  ready_sockets : length (receivers m) = length (ports m);
  ready_count : 0 < Z.of_nat (length (ports m)) < 2 ^ 30;
  ready_offset : 0 <= offset m < Z.of_nat (length (ports m));
}.

(** The socket polled at step [k]. *)
Definition polled (m : MessageReceiver S) (k : Z) : Z := (k + offset m) mod Z.of_nat (length (ports m)).

Definition set_receiver (m : MessageReceiver S) (i : Z) (s : S) : MessageReceiver S :=
  mkMessageReceiver (recv_addr m) (ports m) (<[Z.to_nat i := s]> (receivers m)) (offset m).

(** The socket at [i] has nothing to receive. *)
Definition silent (m : MessageReceiver S) (i : Z) : Prop :=
  exists s, receivers m !! Z.to_nat i = Some s /\ inbox s = [].

Lemma tryrecv_at_silent m i : 0 <= i -> silent m i -> tryrecv_at m i = Done (None, m).
Proof.
  intros Hi (s & E & Hs). unfold tryrecv_at. rewrite (array_get_ok (receivers m) i s Hi E), bind_Done.
  pose proof (recv_law s) as Hr. rewrite Hs in Hr. rewrite Hr.
  rewrite array_set_ok by (apply lookup_lt_Some in E; lia). rewrite bind_Done, list_insert_id by done.
  by destruct m.
Qed.

Lemma tryrecv_at_message m i s str rest :
  0 <= i -> receivers m !! Z.to_nat i = Some s -> inbox s = str :: rest ->
  exists s', tryrecv_at m i = Done (Some str, set_receiver m i s') /\ inbox s' = rest.
Proof.
  intros Hi E Hs. unfold tryrecv_at. rewrite (array_get_ok (receivers m) i s Hi E), bind_Done.
  pose proof (recv_law s) as Hr. rewrite Hs in Hr. destruct Hr as (s' & -> & Hin).
  rewrite array_set_ok by (apply lookup_lt_Some in E; lia). by exists s'.
Qed.

Lemma port_idx_ok m i : receiver_ready m -> 0 <= i < 2 ^ 31 ->
  port_idx m i = Done (i mod Z.of_nat (length (ports m))).
Proof.
  intros [_ Hn _] Hi. unfold port_idx. rewrite !to_size_small by lia.
  unfold size_mod. by destruct (Z.eqb_spec (Z.of_nat (length (ports m))) 0); [lia|].
Qed.

Lemma next_offset_ok m : receiver_ready m ->
  next_offset m = Done (mkMessageReceiver (recv_addr m) (ports m) (receivers m)
                          ((offset m + 1) mod Z.of_nat (length (ports m)))).
Proof.
  intros Hm. pose proof (ready_count _ Hm). pose proof (ready_offset _ Hm).
  unfold next_offset. rewrite int_add_ok by (unfold INT_MIN, INT_MAX; lia).
  by rewrite bind_Done, port_idx_ok by (done || lia).
Qed.

(** One step of the loop. *)
Lemma poll_ports_step n k m : receiver_ready m -> 0 <= k < Z.of_nat (length (ports m)) ->
  poll_ports (Datatypes.S n) k m =
    ('(res, m) ← tryrecv_at m (polled m k);
     match res with Some str => Done (Some str, m) | None => poll_ports n (k + 1) m end).
Proof.
  intros Hm Hk. pose proof (ready_count _ Hm). pose proof (ready_offset _ Hm).
  cbn [poll_ports]. rewrite int_add_ok by (unfold INT_MIN, INT_MAX; lia).
  by rewrite bind_Done, port_idx_ok, bind_Done by (done || lia).
Qed.

Lemma poll_ports_spec n k m : receiver_ready m ->
  k + Z.of_nat n = Z.of_nat (length (ports m)) -> 0 <= k ->
  (exists j s str rest s', k <= j < Z.of_nat (length (ports m)) /\
     (forall i, k <= i < j -> silent m (polled m i)) /\
     receivers m !! Z.to_nat (polled m j) = Some s /\ inbox s = str :: rest /\ inbox s' = rest /\
     poll_ports n k m = Done (Some str, set_receiver m (polled m j) s')) \/
  ((forall i, k <= i < Z.of_nat (length (ports m)) -> silent m (polled m i)) /\
   poll_ports n k m = Done (None, mkMessageReceiver (recv_addr m) (ports m) (receivers m)
                                    ((offset m + 1) mod Z.of_nat (length (ports m))))).
Proof.
  intros Hm. pose proof (ready_count _ Hm) as Hc. revert k. induction n as [|n IH]; intros k Hn Hk.
  - right. split; [lia|]. cbn [poll_ports]. by rewrite next_offset_ok.
  - assert (Hp : 0 <= polled m k < Z.of_nat (length (ports m))) by (apply Z.mod_pos_bound; lia).
    destruct (lookup_lt_is_Some_2 (receivers m) (Z.to_nat (polled m k))) as [s E];
      [rewrite (ready_sockets _ Hm); lia|].
    rewrite poll_ports_step by (done || lia). destruct (inbox s) as [|str rest] eqn:Hs.
    + assert (Hsil : silent m (polled m k)) by (by exists s).
      rewrite tryrecv_at_silent, bind_Done by (done || lia).
      assert (Hext : forall b, (forall i, k + 1 <= i < b -> silent m (polled m i)) ->
                forall i, k <= i < b -> silent m (polled m i)).
      { intros b Hb i Hi. destruct (decide (i = k)) as [->|]; [done|]. apply Hb. lia. }
      destruct (IH (k + 1)) as [(j & s1 & str & rest & s' & Hj & Hsil' & Hrest)|[Hsil' Hrest]]; [lia..| |].
      * left. exists j, s1, str, rest, s'. split; [lia|]. split; [by apply Hext|done].
      * right. split; [by apply Hext|done].
    + destruct (tryrecv_at_message m (polled m k) s str rest) as (s' & Et & Hin); [lia|done..|].
      left. exists k, s, str, rest, s'. split; [lia|]. split; [lia|]. rewrite Et. by repeat split.
Qed.

(** C39: [tryrecv] polls every port once, starting at the current offset: it
    returns the oldest message of the first port in that order that has one,
    and leaves all other ports and the offset alone; with no message at all it
    returns false and the offset moves on by one port.  (So the port at the
    offset is always served first again after a message.) *)
Theorem tryrecv_polls_in_order m (Hm : receiver_ready m) :
  (exists j s str rest s', 0 <= j < Z.of_nat (length (ports m)) /\
     (forall i, 0 <= i < j -> silent m (polled m i)) /\
     receivers m !! Z.to_nat (polled m j) = Some s /\ inbox s = str :: rest /\ inbox s' = rest /\
     tryrecv m = Done (Some str, set_receiver m (polled m j) s')) \/
  ((forall i, 0 <= i < Z.of_nat (length (ports m)) -> silent m (polled m i)) /\
   tryrecv m = Done (None, mkMessageReceiver (recv_addr m) (ports m) (receivers m)
                             ((offset m + 1) mod Z.of_nat (length (ports m))))).
Proof. unfold tryrecv. apply poll_ports_spec; [done|lia|lia]. Qed.
End polling.

(** ** A socket that keeps its addresses in lists *)
Record demo_socket := mkDemo { d_bound : list string; d_linked : list string; d_inbox : list bytes }.

Definition remove_one (a : string) (l : list string) : list string :=
  match list_find (eq a) l with Some (i, _) => delete i l | None => l end.

#[export] Instance demo_zmq : Zmq demo_socket := {|
  zmq_socket := mkDemo [] [] [];
  zmq_bind s a := if decide (a ∈ d_bound s) then Fault Thrown
                  else Done (mkDemo (a :: d_bound s) (d_linked s) (d_inbox s));
  zmq_unbind s a := if decide (a ∈ d_bound s)
                    then Done (mkDemo (remove_one a (d_bound s)) (d_linked s) (d_inbox s)) else Fault Thrown;
  zmq_connect s a := Done (mkDemo (d_bound s) (a :: d_linked s) (d_inbox s));
  zmq_disconnect s a := if decide (a ∈ d_linked s)
                        then Done (mkDemo (d_bound s) (remove_one a (d_linked s)) (d_inbox s)) else Fault Thrown;
  zmq_send s _ := (true, s);
  zmq_recv s := match d_inbox s with
                | [] => (None, s)
                | m :: rest => (Some m, mkDemo (d_bound s) (d_linked s) rest)
                end;
|}.

Lemma remove_one_perm a l : a ∈ l -> l ≡ₚ a :: remove_one a l.
Proof.
  intros Ha. unfold remove_one. destruct (list_find (eq a) l) as [[i b]|] eqn:E.
  - apply list_find_Some in E as (E & <- & _). by apply delete_Permutation.
  - exfalso. destruct (list_find_elem_of (eq a) l a Ha eq_refl) as [x Hx]. congruence.
Qed.

#[export] Program Instance demo_laws : ZmqLaws demo_socket := {|
  bound := d_bound; linked := d_linked; inbox := d_inbox |}.
Next Obligation. done. Qed.
Next Obligation. intros s a s'. cbn. case_decide; [done|]. by intros [= <-]. Qed.
Next Obligation. intros s a s'. cbn. case_decide; [|done]. intros [= <-]. split; [by apply remove_one_perm|done]. Qed.
Next Obligation. intros s a s'. cbn. by intros [= <-]. Qed.
Next Obligation. intros s a s'. cbn. case_decide; [|done]. intros [= <-]. split; [by apply remove_one_perm|done]. Qed.
Next Obligation. done. Qed.
Next Obligation. intros s. cbn. destruct (d_inbox s); [done|by eexists]. Qed.
Next Obligation. intros s. cbn. by destruct (d_inbox s). Qed.

(** Three ports, the second of which has two messages. *)
Definition demo_receiver : MessageReceiver demo_socket :=
  mkMessageReceiver "10.0.0.1" [5000; 5001; 5002]
    [mkDemo [] [] []; mkDemo [] [] [[Init.Byte.x01]; [Init.Byte.x02]]; mkDemo [] [] []] 2.

Lemma tryrecv_polls_in_order_witness :
  receiver_ready demo_receiver /\
  ((exists j s str rest s', 0 <= j < 3 /\
     (forall i, 0 <= i < j -> silent demo_receiver (polled demo_receiver i)) /\
     receivers demo_receiver !! Z.to_nat (polled demo_receiver j) = Some s /\ inbox s = str :: rest /\ inbox s' = rest /\
     tryrecv demo_receiver = Done (Some str, set_receiver demo_receiver (polled demo_receiver j) s')) \/
   ((forall i, 0 <= i < 3 -> silent demo_receiver (polled demo_receiver i)) /\
    tryrecv demo_receiver = Done (None, mkMessageReceiver "10.0.0.1" [5000; 5001; 5002] (receivers demo_receiver) 0))).
Proof.
  assert (Hm : receiver_ready demo_receiver) by (split; cbn; lia).
  split; [exact Hm|]. exact (tryrecv_polls_in_order demo_receiver Hm).
Defined.

(** ** Addresses *)
Lemma substring_short n s : (String.length s <= n)%nat -> String.substring 0 n s = s.
Proof.
  revert n. induction s as [|c s IH]; intros n Hn; [by destruct n|].
  destruct n as [|n]; cbn in Hn; [lia|]. cbn. by rewrite IH by lia.
Qed.

Lemma string_length_app (a b : string) : String.length (a +:+ b) = (String.length a + String.length b)%nat.
Proof. induction a as [|c a IH]; [done|]. exact (f_equal Datatypes.S IH). Qed.

(** An IPv4 address and a port number in decimal notation. *)
Definition host_ok (a : string) : Prop := (String.length a <= 15)%nat.
Definition port_ok (p : Z) : Prop := (String.length (pretty p) <= 5)%nat.

Definition tcp (host : string) (port : Z) : string := "tcp://" +:+ host +:+ ":" +:+ pretty port.

Lemma receiver_address_full host port :
  host_ok host -> port_ok port -> receiver_address host port = tcp host port.
Proof.
  unfold host_ok, port_ok. intros Hh Hp. unfold receiver_address, snprintf. apply substring_short.
  unfold tcp. rewrite !string_length_app. cbn [String.length]. lia.
Qed.

(** What a sender connects to: its own end point, then the receiver's. *)
Lemma sender_address_full src dst p1 p2 :
  host_ok src -> host_ok dst -> port_ok p1 -> port_ok p2 ->
  sender_address src dst (p1, p2) = tcp src p1 +:+ ";" +:+ dst +:+ ":" +:+ pretty p2.
Proof.
  unfold host_ok, port_ok. intros Hs Hd Hp1 Hp2. unfold sender_address, snprintf. cbn [fst snd].
  rewrite substring_short by (rewrite !string_length_app; cbn [String.length]; lia).
  unfold tcp. by rewrite !string_app_assoc.
Qed.

(** ** Senders and receivers keep their addresses *)
Section addresses.
Context {S : Type} `{ZmqLaws S}.

Definition address_of (m : MessageSender S) : string :=
  sender_address (src_addr m) (dst_addr m) (channel m).

(** A sender is connected to its current address or not at all. *)
Definition sender_ok (m : MessageSender S) : Prop :=
  linked (sender m) = if connected m then [address_of m] else [].

Definition at_addrs (m : MessageSender S) (src dst : string) (pair : Z * Z) : Prop :=
  src_addr m = src /\ dst_addr m = dst /\ channel m = pair.

Lemma new_sender_ok src dst pair :
  sender_ok (new_MessageSender src dst pair) /\ at_addrs (new_MessageSender src dst pair) src dst pair.
Proof. split; [apply new_law|done]. Qed.

Lemma send_keeps m str res m' src dst pair :
  sender_ok m -> at_addrs m src dst pair -> send m str = Done (res, m') ->
  sender_ok m' /\ at_addrs m' src dst pair /\ connected m' = true.
Proof.
  unfold sender_ok, at_addrs, send, connect_on_demand. intros Hok Hat E.
  destruct (connected m) eqn:Ec.
  - rewrite bind_Done in E. pose proof (proj2 (send_law (sender m) str)) as Hs.
    destruct (zmq_send (sender m) str) as [r s]. injection E as <- <-. cbn in *. by rewrite Ec, Hs.
  - apply bind_done in E as (m1 & E1 & E). apply bind_done in E1 as (s1 & E1 & [= <-]).
    apply connect_law in E1 as [Hl _]. cbn in E. pose proof (proj2 (send_law s1 str)) as Hs.
    destruct (zmq_send s1 str) as [r s]. injection E as <- <-. cbn in *. by rewrite Hs, Hl, Hok.
Qed.

Lemma reset_sender_keeps m pair m' src dst pair0 :
  sender_ok m -> at_addrs m src dst pair0 -> sender_reset_port m pair = Done m' ->
  sender_ok m' /\ at_addrs m' src dst pair.
Proof.
  unfold sender_ok, at_addrs. intros Hok (? & ? & ?) (s & E & [= <-])%bind_done. cbn.
  apply disconnect_law in E as [Hl _]. split; [|done]. rewrite Hok in Hl. destruct (connected m).
  - by apply (Permutation_cons_inv (l:=[])), Permutation_nil_l in Hl.
  - by apply Permutation_length in Hl.
Qed.

(** Resetting a sender that has not sent anything yet throws: it is not
    connected. *)
Lemma reset_unconnected_fails m pair m' :
  sender_ok m -> connected m = false -> sender_reset_port m pair <> Done m'.
Proof.
  unfold sender_ok. intros Hok Hc (s & E & _)%bind_done. rewrite Hc in Hok.
  apply disconnect_law in E as [Hl _]. rewrite Hok in Hl. by apply Permutation_length in Hl.
Qed.

(** Every socket is bound to the address of its port and nothing else. *)
Definition bound_to (addr : string) (ps : list Z) (ss : list S) : Prop :=
  forall i, bound <$> ss !! i = (fun p => [receiver_address addr p]) <$> ps !! i.

Lemma bind_all_bound addr ps ss : bind_all addr ps = Done ss -> bound_to addr ps ss.
Proof.
  revert ss. induction ps as [|p ps IH]; intros ss; cbn [bind_all].
  - intros [= <-] i. done.
  - intros (s & Es & (ss' & Ess & [= <-])%bind_done)%bind_done i.
    apply bind_law in Es as [Hb _]. rewrite (proj1 new_law) in Hb.
    destruct i as [|i]; cbn; [by rewrite Hb|]. by apply IH.
Qed.

Lemma bound_to_length addr ps ss : bound_to addr ps ss -> length ss = length ps.
Proof.
  intros Hb. apply Nat.le_antisymm; apply Nat.nlt_ge; intros Hlt.
  - apply lookup_lt_is_Some in Hlt as [s Hs]. specialize (Hb (length ps)).
    rewrite Hs, (lookup_ge_None_2 ps) in Hb by done. done.
  - apply lookup_lt_is_Some in Hlt as [x Hx]. specialize (Hb (length ss)).
    rewrite Hx, (lookup_ge_None_2 ss) in Hb by done. done.
Qed.

(** The state of the sockets after the ports below [j] were worked on. *)
Definition rebinding (before after : nat -> option (list string)) (ss : list S) (j : Z) : Prop :=
  forall i, bound <$> ss !! i = if decide (Z.of_nat i < j) then after i else before i.

Lemma rebind_loop (n : Z) (before after : nat -> option (list string)) (f : Z -> S -> outcome S)
    (body : Z -> list S -> outcome (list S)) ss ss' :
  0 <= n -> (forall i, bound <$> ss !! i = before i) ->
  (forall j ss ss', body j ss = Done ss' -> array_update ss j (f j) = Done ss') ->
  (forall j s s', 0 <= j < n -> before (Z.to_nat j) = Some (bound s) -> f j s = Done s' ->
     after (Z.to_nat j) = Some (bound s')) ->
  for_lt n body ss = Done ss' ->
  forall i, bound <$> ss' !! i = if decide (Z.of_nat i < n) then after i else before i.
Proof.
  intros Hn Hss Hbody Hf E.
  apply (for_lt_done (fun j ss => rebinding before after ss j) n body ss ss' Hn); [|done|].
  - intros i. rewrite Hss. by rewrite decide_False by lia.
  - intros j s0 s1 Hj Hinv Hb%Hbody. apply array_update_inv in Hb as (a & b & Hj0 & Ha & Hb & ->).
    pose proof (Hinv (Z.to_nat j)) as Hbefore. rewrite Ha in Hbefore.
    rewrite decide_False in Hbefore by lia. intros i. destruct (decide (i = Z.to_nat j)) as [->|Hi].
    + rewrite list_lookup_insert_eq by (by apply lookup_lt_Some in Ha). rewrite decide_True by lia.
      symmetry. by apply (Hf j a).
    + rewrite list_lookup_insert_ne by done. rewrite Hinv.
      destruct (decide (Z.of_nat i < j)), (decide (Z.of_nat i < j + 1)); lia || done.
Qed.

Lemma unbind_ports_bound addr ps ss ss' :
  bound_to addr ps ss -> unbind_ports addr ps ss = Done ss' ->
  forall i, bound <$> ss' !! i = (fun _ => []) <$> ps !! i.
Proof.
  intros Hb E i.
  erewrite (rebind_loop (Z.of_nat (length ps)) (fun i => (fun p => [receiver_address addr p]) <$> ps !! i)
    (fun i => (fun _ => []) <$> ps !! i)
    (fun j s => match ps !! Z.to_nat j with Some p => zmq_unbind s (receiver_address addr p) | None => Fault OutOfBounds end)
    _ ss ss' ltac:(lia) Hb); [| | |exact E].
  - case_decide; [done|]. by rewrite !(lookup_ge_None_2 ps) by lia.
  - intros j s0 s1 (p & Hp & Hu)%bind_done. apply array_get_inv in Hp as [_ Hp]. by rewrite Hp.
  - intros j s s' Hj Hs Hu. destruct (ps !! Z.to_nat j) as [p|]; [|done]. injection Hs as Hs.
    apply unbind_law in Hu as [Hu _]. rewrite <- Hs in Hu.
    apply (Permutation_cons_inv (l:=[])), Permutation_nil_l in Hu. cbn. by rewrite Hu.
Qed.

Lemma bind_ports_bound addr (ps ps' : list Z) ss ss' :
  length ps' = length ps ->
  (forall i, bound <$> ss !! i = (fun _ => []) <$> ps !! i) -> bind_ports addr ps' ss = Done ss' ->
  bound_to addr ps' ss'.
Proof.
  intros Hlen Hb E i.
  erewrite (rebind_loop (Z.of_nat (length ps')) (fun i => (fun _ => []) <$> ps !! i)
    (fun i => (fun p => [receiver_address addr p]) <$> ps' !! i)
    (fun j s => match ps' !! Z.to_nat j with Some p => zmq_bind s (receiver_address addr p) | None => Fault OutOfBounds end)
    _ ss ss' ltac:(lia) Hb); [| | |exact E].
  - case_decide; [done|]. by rewrite (lookup_ge_None_2 ps), (lookup_ge_None_2 ps') by lia.
  - intros j s0 s1 (p & Hp & Hu)%bind_done. apply array_get_inv in Hp as [_ Hp]. by rewrite Hp.
  - intros j s s' Hj Hs Hu. destruct (ps !! Z.to_nat j) as [p|]; [|done]. injection Hs as Hs.
    destruct (ps' !! Z.to_nat j) as [p'|]; [|done].
    apply bind_law in Hu as [Hu _]. rewrite <- Hs in Hu. cbn. by rewrite Hu.
Qed.

Lemma reset_receiver_bound r ps r' :
  bound_to (recv_addr r) (ports r) (receivers r) -> receiver_reset_port r ps = Done r' ->
  bound_to (recv_addr r) ps (receivers r') /\ recv_addr r' = recv_addr r /\ ports r' = ps.
Proof.
  intros Hb (u & Hc & (s1 & E1 & (s2 & E2 & [= <-])%bind_done)%bind_done)%bind_done. cbn. split; [|done].
  unfold cassert in Hc. case_bool_decide as Hlen; [|done].
  apply (bind_ports_bound _ (ports r) _ s1); [done| |done]. by apply (unbind_ports_bound (recv_addr r) _ (receivers r)).
Qed.
End addresses.

(** ** The two ends of a channel *)

(** Addresses and ports are IPv4 addresses and port numbers. *)
Record net_ok (cfg : Config) : Prop := {
  net_traders : Forall host_ok (traders_addr cfg);
  net_exchanges : Forall host_ok (exchanges_addr cfg);
  net_ports t e c pair : port_pair cfg t e c = Done pair -> port_ok pair.1 /\ port_ok pair.2;
}.

Section ends.
Context {S : Type} `{ZmqLaws S}.

(** The sender names, behind its own end point, exactly the end point that a
    socket of the receiver is bound to. *)
Definition meets (m : MessageSender S) (r : MessageReceiver S) : Prop :=
  exists i p s, ports r !! i = Some p /\ receivers r !! i = Some s /\ bound s = [tcp (recv_addr r) p] /\
    address_of m = tcp (src_addr m) (channel m).1 +:+ ";" +:+ recv_addr r +:+ ":" +:+ pretty p.

Lemma meets_intro m r src dst pair :
  at_addrs m src dst pair -> host_ok src -> host_ok dst -> port_ok pair.1 -> port_ok pair.2 ->
  bound_to (recv_addr r) (ports r) (receivers r) -> recv_addr r = dst -> pair.2 ∈ ports r ->
  meets m r.
Proof.
  intros (Hs & Hd & Hc) Hsrc Hdst Hp1 Hp2 Hb Hr Hin. apply list_elem_of_lookup in Hin as [i Hi].
  pose proof (Hb i) as Hbi. rewrite Hi in Hbi. destruct (receivers r !! i) as [s|] eqn:Es; [|done].
  injection Hbi as Hbi. exists i, pair.2, s. split; [done|]. split; [done|]. rewrite Hr in Hbi |- *. split.
  - by rewrite Hbi, receiver_address_full.
  - unfold address_of. rewrite Hs, Hd, Hc. destruct pair. by apply sender_address_full.
Qed.

Lemma collect_elem {A} n i (f : Z -> outcome (list A)) l k :
  collect n i f = Done l -> (k < n)%nat ->
  exists x, f (i + Z.of_nat k) = Done x /\ forall y, y ∈ x -> y ∈ l.
Proof.
  revert i l k. induction n as [|n IH]; intros i l k; cbn [collect]; [lia|].
  intros (x & Ex & (xs & Exs & [= <-])%bind_done)%bind_done Hk.
  destruct k as [|k].
  - exists x. rewrite Z.add_0_r. split; [done|]. intros y Hy. apply elem_of_app. by left.
  - destruct (IH (i + 1) xs k Exs) as (z & Ez & Hz); [lia|]. exists z.
    replace (i + Z.of_nat (Datatypes.S k)) with (i + 1 + Z.of_nat k) by lia.
    split; [done|]. intros y Hy. apply elem_of_app. right. by apply Hz.
Qed.

Lemma collect_single {A} n i (f : Z -> outcome (list A)) l k :
  (forall j x, f j = Done x -> length x = 1%nat) ->
  collect n i f = Done l -> (k < n)%nat ->
  exists y, f (i + Z.of_nat k) = Done [y] /\ l !! k = Some y.
Proof.
  intros Hf. revert i l k. induction n as [|n IH]; intros i l k; cbn [collect]; [lia|].
  intros (x & Ex & (xs & Exs & [= <-])%bind_done)%bind_done Hk.
  pose proof (Hf _ _ Ex) as Hlen. destruct x as [|y [|]]; [done| |done].
  destruct k as [|k].
  - exists y. by rewrite Z.add_0_r.
  - destruct (IH (i + 1) xs k Exs) as (z & Ez & Hz); [lia|]. exists z.
    by replace (i + Z.of_nat (Datatypes.S k)) with (i + 1 + Z.of_nat k) by lia.
Qed.

Lemma addr_ok (l : list string) i a : Forall host_ok l -> array_get l i = Done a -> host_ok a.
Proof. intros Hl [_ Ha]%array_get_inv. by rewrite Forall_lookup in Hl; apply (Hl _ _ Ha). Qed.

(** The order port of the exchange for a trader is one of those it listens
    on. *)
Lemma order_port_elem cfg p q ps pair :
  order_ports (set_partition_idx q cfg) = Done ps -> 0 <= p < trader_num cfg ->
  port_pair (set_partition_idx p cfg) p q 0 = Done pair -> pair.2 ∈ ps.
Proof.
  intros E Hp Epair. unfold order_ports in E.
  destruct (collect_elem _ _ _ _ (Z.to_nat p) E) as (x & Ex & Hx); [cbn; lia|].
  apply Hx. rewrite Z.add_0_l, Z2Nat.id in Ex by lia.
  apply bind_done in Ex as (p0 & E0 & Ex). apply bind_done in Ex as (p1 & _ & [= <-]).
  change (port_pair (set_partition_idx p cfg) p q 0 = Done p0) in E0.
  rewrite Epair in E0. injection E0 as <-. apply elem_of_cons. by left.
Qed.

Lemma trade_port_elem cfg p q ps pair :
  trade_ports (set_partition_idx p cfg) = Done ps -> 0 <= q < exchange_num cfg ->
  port_pair (set_partition_idx q cfg) p q 2 = Done pair -> pair.1 ∈ ps.
Proof.
  intros E Hq Epair. unfold trade_ports in E.
  destruct (collect_elem _ _ _ _ (Z.to_nat q) E) as (x & Ex & Hx); [cbn; lia|].
  apply Hx. rewrite Z.add_0_l, Z2Nat.id in Ex by lia.
  apply bind_done in Ex as (p0 & E0 & [= <-]).
  change (port_pair (set_partition_idx q cfg) p q 2 = Done p0) in E0.
  rewrite Epair in E0. injection E0 as <-. apply elem_of_cons. by left.
Qed.
End ends.

Section connect.
Context {S Qo Qt : Type} `{ZmqLaws S} `{Fifo Qo Order} `{Fifo Qt bytes}.
Context (mko : Z -> outcome Qo) (mkt : Z -> outcome Qt).

(** An order sender whose addresses come from the configuration [cfg]. *)
Record sends_to (cfg : Config) (p q : Z) (src dst : string) (t : TraderOrderSender S Qo) : Prop := {
  to_idx : exchange_idx_ t = q;
  to_ok : sender_ok (msg_sender_ t);
  to_pair : exists pair, port_pair cfg p q 0 = Done pair /\ at_addrs (msg_sender_ t) src dst pair;
}.

Lemma new_order_sender_to cfg p q t :
  new_TraderOrderSender mko (set_partition_idx p cfg) q = Done t ->
  exists src dst, array_get (traders_addr cfg) p = Done src /\ array_get (exchanges_addr cfg) q = Done dst /\
                  sends_to cfg p q src dst t.
Proof.
  unfold new_TraderOrderSender. intros E.
  apply bind_done in E as (c1 & _ & E). apply bind_done in E as (c2 & _ & E).
  apply bind_done in E as (qu & _ & E). apply bind_done in E as (pair & Ep & E).
  apply bind_done in E as (src & Es & E). apply bind_done in E as (dst & Ed & [= <-]).
  exists src, dst. split; [exact Es|]. split; [exact Ed|].
  destruct (new_sender_ok (S:=S) src dst pair) as [Hok Hat]. split; [done|exact Hok|].
  exists pair. split; [exact Ep|exact Hat].
Qed.

Lemma try_send_order_to cfg p q src dst t msg res t' :
  sends_to cfg p q src dst t -> try_send_order t msg = Ran (Done (res, t')) -> sends_to cfg p q src dst t'.
Proof.
  intros [Hi Hok (pair & Hp & Hat)] E. unfold try_send_order, wait_until in E.
  destruct (send_lock t); [done|]. injection E as E.
  apply bind_done in E as ([r m] & E & [= <- <-]).
  destruct (send_keeps _ _ _ _ _ _ _ Hok Hat E) as (Hok' & Hat' & _).
  split; [done|exact Hok'|]. by exists pair.
Qed.

Lemma reset_order_sender_to cfg cfg2 p q src dst t t' :
  sends_to cfg p q src dst t -> reset_order_sender (set_partition_idx p cfg2) t = Done t' ->
  sends_to cfg2 p q src dst t'.
Proof.
  intros [Hi Hok (pair & Hp & Hat)] (pair2 & Hp2 & (m & Em & [= <-])%bind_done)%bind_done.
  rewrite Hi in Hp2. destruct (reset_sender_keeps _ _ _ _ _ _ Hok Hat Em) as [Hok' Hat'].
  split; [done|exact Hok'|]. by exists pair2.
Qed.

Lemma sends_to_meets cfg p q src dst t r ps :
  net_ok cfg -> host_ok src -> host_ok dst -> 0 <= p < trader_num cfg ->
  sends_to cfg p q src dst t -> order_ports (set_partition_idx q cfg) = Done ps ->
  ports r = ps -> recv_addr r = dst -> bound_to dst ps (receivers r) ->
  meets (msg_sender_ t) r.
Proof.
  intros Hcfg Hsrc Hdst Hp [_ _ (pair & Epair & Hat)] Eps Hps Hr Hb.
  destruct (net_ports cfg Hcfg _ _ _ _ Epair). rewrite <- Hps in Hb.
  apply (meets_intro _ _ src dst pair); try done; [by rewrite Hr|].
  rewrite Hps. by apply (order_port_elem cfg p q).
Qed.

(** C38: Two processes that load the same network configuration find each
    other: the order sender of trader [p] for exchange [q] connects to an end
    point the order receiver of exchange [q] is bound to, and so does its
    trade sender for trader [p] with the trade receiver there (no address is
    cut by the fixed-size buffers); and after both order channels were reset
    to the ports of a new configuration they meet again. *)
Theorem channels_connect cfg p q snd rcv tsnd trcv
    (Hcfg : net_ok cfg) (Hp : 0 <= p < trader_num cfg) (Hq : 0 <= q < exchange_num cfg)
    (Hsnd : new_TraderOrderSender mko (set_partition_idx p cfg) q = Done snd)
    (Hrcv : new_ExchangeOrderReceiver (S:=S) (set_partition_idx q cfg) = Done rcv)
    (Htsnd : new_ExchangeTradeSender (S:=S) mkt (set_partition_idx q cfg) = Done tsnd)
    (Htrcv : new_trade_channel (S:=S) (set_partition_idx p cfg) = Done trcv) :
  meets (msg_sender_ snd) (order_receiver_ rcv) /\
  (exists m, msg_senders_ tsnd !! Z.to_nat p = Some m /\ meets m (trade_receiver_ trcv)) /\
  (forall cfg2 msg res snd1 snd2 rcv2,
     net_ok cfg2 -> trader_num cfg2 = trader_num cfg ->
     try_send_order snd msg = Ran (Done (res, snd1)) ->
     reset_order_sender (set_partition_idx p cfg2) snd1 = Done snd2 ->
     reset_order_receiver (set_partition_idx q cfg2) rcv = Done rcv2 ->
     meets (msg_sender_ snd2) (order_receiver_ rcv2)).
Proof.
  destruct (new_order_sender_to _ _ _ _ Hsnd) as (src & dst & Es & Ed & Hto).
  pose proof (addr_ok _ _ _ (net_traders _ Hcfg) Es) as Hsrc.
  pose proof (addr_ok _ _ _ (net_exchanges _ Hcfg) Ed) as Hdst.
  apply bind_done in Hrcv as (ps & Eps & Hrcv). apply bind_done in Hrcv as (addr & Ea & Hrcv).
  cbn in Ea. rewrite Ed in Ea. injection Ea as <-.
  apply bind_done in Hrcv as (m & Hm & [= <-]). apply bind_done in Hm as (ss & Ess & [= <-]).
  apply bind_all_bound in Ess. split; [|split].
  - by apply (sends_to_meets cfg p q src dst _ _ ps).
  - clear Ess. apply bind_done in Htsnd as (c1 & _ & E). apply bind_done in E as (c2 & _ & E).
    apply bind_done in E as (qu & _ & E). apply bind_done in E as (senders & Esend & [= <-]).
    apply (collect_single _ _ _ _ (Z.to_nat p)) in Esend as (m & Em & Hmp); [|clear; intros j x E|cbn; lia].
    2: { by apply bind_done in E as (? & _ & (? & _ & (? & _ & [= <-])%bind_done)%bind_done). }
    exists m. split; [exact Hmp|]. rewrite Z.add_0_l, Z2Nat.id in Em by lia.
    apply bind_done in Em as (pair & Epair & Em). apply bind_done in Em as (s2 & Es2 & Em).
    apply bind_done in Em as (d2 & Ed2 & [= <-]). cbn in Es2, Ed2.
    rewrite Ed in Es2. rewrite Es in Ed2. injection Es2 as <-. injection Ed2 as <-.
    apply bind_done in Epair as (pr & Epr & [= <-]).
    apply bind_done in Htrcv as (tps & Etps & E). apply bind_done in E as (ta & Eta & E).
    cbn in Eta. rewrite Es in Eta. injection Eta as <-.
    apply bind_done in E as (tm & Etm & [= <-]). apply bind_done in Etm as (tss & Etss & [= <-]).
    apply bind_all_bound in Etss. destruct (net_ports cfg Hcfg _ _ _ _ Epr) as [Hp1 Hp2].
    apply (meets_intro _ _ dst src (pr.2, pr.1)); try done. by apply (trade_port_elem cfg p q).
  - intros cfg2 msg res snd1 snd2 rcv2 Hcfg2 Hnum Hsend Hreset Hrec.
    pose proof (reset_order_sender_to _ cfg2 _ _ _ _ _ _ (try_send_order_to _ _ _ _ _ _ _ _ _ Hto Hsend) Hreset).
    apply bind_done in Hrec as (ps2 & Eps2 & Hrec). apply bind_done in Hrec as (m2 & Hm2 & [= <-]).
    apply reset_receiver_bound in Hm2 as (Hb & Hr & Hps); [|done].
    apply (sends_to_meets cfg2 p q src dst _ _ ps2); try done. by rewrite Hnum.
Qed.
End connect.

(** Two traders and two exchanges with three channels each. *)
Definition demo_net : Config :=
  mkConfig "" "" "" 0 100 10 2 2 500 1000 1000 0 ["10.0.16.11"; "10.0.16.12"] ["10.0.16.21"; "10.0.16.22"]
    [[[(40010, 50010); (40011, 50011); (40012, 50012)]; [(40020, 50020); (40021, 50021); (40022, 50022)]];
     [[(41010, 51010); (41011, 51011); (41012, 51012)]; [(41020, 51020); (41021, 51021); (41022, 51022)]]].

Lemma demo_net_ok : net_ok demo_net.
Proof.
  split; [by repeat constructor; unfold host_ok; cbn; lia..|]. intros t e c pair (row & Hr & E)%bind_done.
  apply bind_done in E as (ch & Hc & Hp). apply array_get_inv in Hr as [_ Hr], Hc as [_ Hc], Hp as [_ Hp].
  assert (Hall : Forall (Forall (Forall (fun pair : Z * Z => port_ok pair.1 /\ port_ok pair.2)))
                   (trader_port2exchange_port demo_net)).
  { repeat constructor; unfold port_ok; vm_compute; lia. }
  rewrite Forall_lookup in Hall. specialize (Hall _ _ Hr).
  rewrite Forall_lookup in Hall. specialize (Hall _ _ Hc).
  rewrite Forall_lookup in Hall. exact (Hall _ _ Hp).
Qed.

Definition demo_mk {A} (cap : Z) : outcome (Stl.BlockQueueSTL A) := Done (Stl.new_BlockQueueSTL cap).

Lemma channels_connect_witness :
  exists snd rcv,
    new_TraderOrderSender (S:=demo_socket) (demo_mk (A:=Order)) (set_partition_idx 1 demo_net) 0 = Done snd /\
    new_ExchangeOrderReceiver (S:=demo_socket) (set_partition_idx 0 demo_net) = Done rcv /\
    meets (msg_sender_ snd) (order_receiver_ rcv).
Proof.
  destruct (new_TraderOrderSender (S:=demo_socket) (demo_mk (A:=Order)) (set_partition_idx 1 demo_net) 0) as [snd|f] eqn:E1; [|by vm_compute in E1].
  destruct (new_ExchangeOrderReceiver (S:=demo_socket) (set_partition_idx 0 demo_net)) as [rcv|f] eqn:E2; [|by vm_compute in E2].
  destruct (new_ExchangeTradeSender (S:=demo_socket) (demo_mk (A:=bytes)) (set_partition_idx 0 demo_net)) as [tsnd|f] eqn:E3; [|by vm_compute in E3].
  destruct (new_trade_channel (S:=demo_socket) (set_partition_idx 1 demo_net)) as [trcv|f] eqn:E4; [|by vm_compute in E4].
  exists snd, rcv. split; [done|]. split; [done|].
  exact (proj1 (channels_connect (demo_mk (A:=Order)) (demo_mk (A:=bytes)) demo_net 1 0 snd rcv tsnd trcv demo_net_ok
                  ltac:(cbn; lia) ltac:(cbn; lia) E1 E2 E3 E4)).
Defined.
