(* ===== verification/Console.v ===== *)
(** * The console ([src/common/console.hpp])

    Both processes read commands from the standard input.  What a command does
    to the process is the interface [Node]; its options are parsed by
    Boost.Program_options, the interface [ProgramOptions].  The text written
    to the standard output, also by the logger, is the field [console] of the
    logger's state. *)

From stdpp Require Import gmap pretty strings.
From S2P Require Import Prelude Text Bytes Config ConfigLoad Logger Monitor.
From Stdlib Require Import Ascii.
#[local] Open Scope Z_scope.

(** ** Effects of a command

    It finishes, throws, ends the process, or never returns. *)
Inductive exn :=
  | Ubiquant (code : Z)
  | Foreign.

Inductive effect (A : Type) :=
  | Finished (a : A)
  | Crashed (f : fault)
  | Throws (e : exn)
  | Terminated (code : Z)
  | Hangs.
Arguments Finished {A} a.
Arguments Crashed {A} f.
Arguments Throws {A} e.
Arguments Terminated {A} code.
Arguments Hangs {A}.

#[export] Instance effect_ret : MRet effect := fun A a => Finished a.
#[export] Instance effect_bind : MBind effect := fun A B k m =>
  match m with
  | Finished a => k a
  | Crashed f => Crashed f
  | Throws e => Throws e
  | Terminated code => Terminated code
  | Hangs => Hangs
  end.

(** The operations the console calls throw exceptions of the libraries only;
    a [UbiquantException] comes from an [ASSERT], and they have none. *)
Definition of_outcome {A} (m : outcome A) : effect A :=
  match m with Done a => Finished a | Fault Thrown => Throws Foreign | Fault f => Crashed f end.
Definition of_attempt {A} (m : attempt A) : effect A :=
  match m with Blocked => Hangs | Ran m => of_outcome m end.
Definition of_proc {A} (m : proc A) : effect A :=
  match m with Running m => of_outcome m | Exited code => Terminated code end.

(** ** What the console calls in the process ([exchange.cpp], [trader.cpp]) *)
Class Node (N : Type) := {
  stop_network_sender : N -> attempt N;
  stop_network_receiver : N -> attempt N;
  restart_network : N -> attempt N;
  reset_network : Config -> N -> attempt N;
  exit_system : N -> attempt N;
}.

(** ** Options *)
Inductive opt_kind :=
  | Flag
  | Str
  | Int (default : option Z).

(** The options under the names they are stored with. *)
Definition options_description : Type := list (string * opt_kind).

Definition config_desc : options_description := [("-v", Flag); ("-l", Str); ("-s", Str); ("help", Flag)]%string.
Definition logger_desc : options_description := [("-v", Flag); ("-s", Int None); ("help", Flag)]%string.
Definition check_desc : options_description := [("help", Flag)]%string.
Definition stops_desc : options_description := [("help", Flag)]%string.
Definition stopr_desc : options_description := [("help", Flag)]%string.
Definition restart_desc : options_description := [("help", Flag)]%string.
Definition reset_desc : options_description := [("help", Flag)]%string.
Definition sparql_desc : options_description :=
  [("-f", Str); ("-m", Int (Some 1)); ("-p", Str); ("-N", Int (Some 1)); ("-o", Str); ("help", Flag)]%string.

Inductive opt_value :=
  | VFlag
  | VString (s : string)
  | VInt (z : Z).

Abbreviation variables_map := (gmap string opt_value).

Definition count (vm : variables_map) (k : string) : bool :=
  match vm !! k with Some _ => true | None => false end.

(** [vm[k].as<T>()]: a missing or differently typed value throws
    [bad_any_cast]. *)
Definition as_string (vm : variables_map) (k : string) : effect string :=
  match vm !! k with Some (VString s) => Finished s | _ => Throws Foreign end.
Definition as_int (vm : variables_map) (k : string) : effect Z :=
  match vm !! k with Some (VInt z) => Finished z | _ => Throws Foreign end.

(** The values of the options that have a default. *)
Definition defaults (desc : options_description) : variables_map :=
  foldr (fun '(k, kind) vm => match kind with Int (Some z) => <[k := VInt z]> vm | _ => vm end) ∅ desc.

(** [parse_command_line] throws ([None]) or stores values for declared options
    only; without arguments it stores the defaults. *)
Class ProgramOptions := {
  parse_command_line : list string -> options_description -> option variables_map;
  show_desc : options_description -> string;
  show_all : string;
  parse_declared argv desc vm k v :
    parse_command_line argv desc = Some vm -> vm !! k = Some v -> exists kind, (k, kind) ∈ desc;
  parse_bare cmd desc : parse_command_line [cmd] desc = Some (defaults desc);
}.

(** ** State *)
Record console_state (N : Type) := mkConsole {
  cfg : Config;
  node : N;
  log_buffer : option LogBuffer;
  the_logger : file_logger;
}.
Arguments mkConsole {N} cfg node log_buffer the_logger.
Arguments cfg {N} c.
Arguments node {N} c.
Arguments log_buffer {N} c.
Arguments the_logger {N} c.

Section console.
Context {N : Type} `{Node N} `{ProgramOptions}.
(** the files of the system *)
Context (fs : gmap string bytes).

Abbreviation st := (console_state N).

Definition set_logger (l : file_logger) (s : st) : st := mkConsole (cfg s) (node s) (log_buffer s) l.
Definition set_node (n : N) (s : st) : st := mkConsole (cfg s) n (log_buffer s) (the_logger s).
Definition set_cfg (c : Config) (s : st) : st := mkConsole c (node s) (log_buffer s) (the_logger s).

(** [std::cout << text] *)
Definition say (text : string) (s : st) : st := set_logger (write_console text (the_logger s)) s.

(** [std::endl] and [LOG_endl] *)
Definition endl : string := String newline "".

(** The pieces of a log line: C strings and other values. *)
Inductive piece :=
  | C (text : string)
  | V (text : string)
  | Endl.

Fixpoint log_pieces (l : list piece) (g : file_logger) : outcome file_logger :=
  match l with
  | [] => Done g
  | C text :: l => g ← log_cstr 0 text g; log_pieces l g
  | V text :: l => log_pieces l (log_value 0 text g)
  | Endl :: l => g ← log_endl 0 g; log_pieces l g
  end.

(** [logstream(LOG_ERROR) << ...]; the place is printed for debug lines only. *)
Definition log_error (l : list piece) (s : st) : effect st :=
  g ← of_outcome (logstream 0 LOG_ERROR "console.hpp" "" 0 (the_logger s));
  g ← of_outcome (log_pieces l g);
  Finished (set_logger g s).

Definition fail_to_parse (argv : list string) (s : st) : effect st :=
  let cmd := foldl (fun cmd arg => cmd +:+ arg +:+ " ") ""%string argv in
  s ← log_error [C " Failed to run the command: "; V cmd; C endl] s;
  Finished (say (endl +:+ "Input 'help' command to get more information." +:+ endl) s).

(** ** From a line to arguments *)

(** [boost::split] at spaces, adjacent ones not merged. *)
Fixpoint split (s : string) : list string :=
  match s with
  | EmptyString => [""%string]
  | String c rest =>
      if Ascii.eqb c " " then ""%string :: split rest
      else match split rest with
           | f :: fields => String c f :: fields
           | [] => [String c ""]
           end
  end.

(** [strcpy] of [c_str()] stops at a NUL character. *)
Fixpoint c_string (s : string) : string :=
  match s with
  | EmptyString => EmptyString
  | String c s => if Ascii.eqb c (ascii_of_nat 0) then EmptyString else String c (c_string s)
  end.

Definition CMD2Args (s : string) : list string := map c_string (split s).

Definition file2str (fname str : string) (s : st) : effect (string * st) :=
  match text_file fs fname with
  | None => s ← log_error [V fname; C " does not exist."; C endl] s; Finished (str, s)
  | Some text => Finished (foldl (fun str line => str +:+ line +:+ " ") str (getlines text), s)
  end.

Fixpoint args2str (str : string) : string :=
  match str with
  | EmptyString => EmptyString
  | String c rest => String (if Ascii.eqb c "=" || Ascii.eqb c "&" then " "%char else c) (args2str rest)
  end.

(** ** Commands *)
Definition print_help (s : st) : st := say (show_all +:+ endl) s.

(** What all commands start with: parse the options, and print [help_desc] if
    help is asked for. *)
Definition with_options (desc help_desc : options_description) (argv : list string)
    (k : variables_map -> st -> effect st) (s : st) : effect st :=
  match parse_command_line argv desc with
  | None => fail_to_parse argv s
  | Some vm => if count vm "help" then Finished (say (show_desc help_desc) s) else k vm s
  end.

Definition print_lines (lines : list string) (s : st) : st := foldl (fun s line => say (line +:+ endl) s) s lines.

Definition run_config (argv : list string) : st -> effect st :=
  with_options config_desc config_desc argv (fun vm s =>
    if count vm "-v" then lines ← of_outcome (print_config (cfg s)); Finished (print_lines lines s)
    else if negb (xorb (count vm "-l") (count vm "-s")) then fail_to_parse argv s
    else
      '(fname, str, s) ←
        (if count vm "-l" then
           fname ← as_string vm "-l";
           '(str, s) ← file2str fname "" s;
           Finished (fname, str, s)
         else Finished (""%string, ""%string, s));
      str ← (if count vm "-s" then str ← as_string vm "-s"; Finished (args2str str) else Finished str);
      if negb (String.eqb str "") then
        c ← of_outcome (reload_config str (cfg s));
        Finished (set_cfg c s)
      else log_error [C "Failed to load config file: "; V fname; C endl] s).

(** [" (" << levelname[level] << ")"] *)
Definition level_text (level : Z) : effect string :=
  name ← of_outcome (array_get levelname level);
  Finished (" (" +:+ name +:+ ")").

Definition run_logger (argv : list string) : st -> effect st :=
  with_options logger_desc logger_desc argv (fun vm s =>
    if count vm "-v" then
      let level := get_log_level (the_logger s) in
      name ← level_text level;
      Finished (say ("loglevel: " +:+ pretty level +:+ name +:+ endl) s)
    else if count vm "-s" then
      level ← as_int vm "-s";
      if (level >=? LOG_EVERYTHING) && (level <=? LOG_NONE) then
        let s := set_logger (set_log_level level (the_logger s)) s in
        name ← level_text level;
        Finished (say ("set loglevel to " +:+ pretty level +:+ name +:+ endl) s)
      else
        name ← of_outcome (array_get levelname level);
        log_error [C "failed to set loglevel: "; V (pretty level); C " ("; C name; C ")"; Endl] s
    else Finished s).

Definition run_check (argv : list string) : st -> effect st :=
  with_options check_desc check_desc argv (fun _ s =>
    lb ← of_outcome (Global.Get (log_buffer s));
    text ← of_outcome (print_log lb);
    Finished (say (text +:+ endl) s)).

(** A command that only calls into the process. *)
Definition on_node (f : N -> attempt N) (s : st) : effect st :=
  n ← of_attempt (f (node s));
  Finished (set_node n s).

Definition run_stops (argv : list string) : st -> effect st :=
  with_options stops_desc stops_desc argv (fun _ => on_node stop_network_sender).
Definition run_stopr (argv : list string) : st -> effect st :=
  with_options stopr_desc stopr_desc argv (fun _ => on_node stop_network_receiver).
Definition run_restart (argv : list string) : st -> effect st :=
  with_options restart_desc restart_desc argv (fun _ => on_node restart_network).

(** It prints the description of [restart] when asked for help. *)
Definition run_reset (argv : list string) : st -> effect st :=
  with_options reset_desc restart_desc argv (fun _ s =>
    c ← of_proc (load_network_config fs (network_config_file (cfg s)) (cfg s));
    on_node (reset_network c) (set_cfg c s)).

Definition run_sparql (argv : list string) : st -> effect st :=
  with_options sparql_desc sparql_desc argv (fun vm s =>
    if negb (xorb (count vm "-f") (count vm "-b")) then
      s ← log_error [C "single mode (-f) and batch mode (-b) are exclusive!"; C endl] s;
      fail_to_parse argv s
    else if count vm "-f" then
      fname ← as_string vm "-f";
      match text_file fs fname with
      | None =>
          s ← log_error [C "The query file is not found: "; V fname; C endl] s;
          fail_to_parse argv s
      | Some _ =>
          _ ← as_int vm "-m";
          _ ← as_int vm "-n";
          _ ← as_int vm "-N";
          _ ← as_int vm "-v";
          (if count vm "-o" then _ ← as_string vm "-o"; Finished tt else Finished tt);;
          Finished s
      end
    else Finished s).

(** [exit_system(); exit(0);] *)
Definition run_quit (s : st) : effect st :=
  _ ← of_attempt (exit_system (node s));
  Terminated 0.

Definition dispatch (argv : list string) (s : st) : effect st :=
  let cmd_type := hd ""%string argv in
  let key (k : string) : bool := String.eqb cmd_type k in
  if key "help" || key "h" then Finished (print_help s)
  else if key "quit" || key "q" then run_quit s
  else if key "config" then run_config argv s
  else if key "logger" then run_logger argv s
  else if key "sparql" then run_sparql argv s
  else if key "ls" then run_check argv s
  else if key "stops" then run_stops argv s
  else if key "stopr" then run_stopr argv s
  else if key "restart" then run_restart argv s
  else if key "reset-net" then run_reset argv s
  else fail_to_parse argv s.

(** [catch (UbiquantException &ex)]; [text] is the message of the code. *)
Definition run_command (text : Z -> string) (argv : list string) (s : st) : effect st :=
  match dispatch argv s with
  | Throws (Ubiquant code) =>
      s ← log_error [C "ERRNO "; V (pretty code); C ": "; C (text code); C endl] s;
      fail_to_parse argv s
  | r => r
  end.

(** ** The loop *)
Definition blank (c : ascii) : bool := Ascii.eqb c " " || Ascii.eqb c "009".

Fixpoint trim_head (s : string) : string :=
  match s with
  | String c rest => if blank c then trim_head rest else s
  | EmptyString => s
  end.

Fixpoint trim_tail (s : string) : string :=
  match s with
  | EmptyString => EmptyString
  | String c rest =>
      match trim_tail rest with
      | EmptyString => if blank c then EmptyString else String c EmptyString
      | t => String c t
      end
  end.

Definition trim (s : string) : string := trim_tail (trim_head s).

(** [run_console] on the lines of the standard input.  A blank line only
    prints the prompt again; so does the end of the input, for ever. *)
Fixpoint run_lines (text : Z -> string) (prompt : string) (lines : list string) (s : st) : effect st :=
  let s := say (prompt +:+ "> ") s in
  match lines with
  | [] => Hangs
  | cmd :: lines =>
      if String.eqb (trim cmd) "" then run_lines text prompt lines s
      else s ← run_command text (CMD2Args (trim cmd)) s; run_lines text prompt lines s
  end.

Definition run_console (text : Z -> string) (console_name : string) (lines : list string) (s : st) : effect st :=
  run_lines text console_name lines
    (say (endl +:+ "Input 'help' command to get more information" +:+ endl +:+ endl) s).
End console.
