(* ===== verification/Node.v ===== *)
(** * The processes ([src/exchange.cpp], [src/trader.cpp],
    [src/query_order.cpp])

    The start of an exchange and of a trader from their command lines, what
    their consoles call, and the query tool. *)

From stdpp Require Import gmap strings.
From S2P Require Import Prelude Text Double Bytes Config ConfigLoad Types BlockQueue Util.
From S2P Require Import Exchange Trader TradeReceiver Loader Logger Monitor Channel Console.
#[local] Open Scope Z_scope.

(** [std::stoi]: it throws without digits and outside the range of [int]. *)
Definition stoi (s : string) : outcome Z :=
  let '(sign, r) := read_sign (skip_space s) in
  let '(v, n, _) := read_digits 0 r in
  if (n =? 0)%nat then Fault Thrown
  else if is_int (sign * v) then Done (sign * v) else Fault Thrown.

(** [argv[i]] *)
Definition arg (argv : list string) (i : nat) : string := nth i argv ""%string.

Definition check_partition (p : Z) : outcome unit := ASSERT ((p =? 0) || (p =? 1)).

(** ** Signals: the handlers of the two programs differ in the name they
    print. *)
Definition exchange_signal `{Backtrace} : bool -> bool -> signal -> attempt process_end := handle_signal "Exchange".
Definition trader_signal `{Backtrace} : bool -> bool -> signal -> attempt process_end := handle_signal "Trader".

(** ** The exchange *)
Record ExchangeNode (S Q : Type) := mkExchangeNode {
  exchange_net : ExchangeNet S Q;
  the_exchange : Exchange;
}.
Arguments mkExchangeNode {S Q} exchange_net the_exchange.
Arguments exchange_net {S Q} e.
Arguments the_exchange {S Q} e.

Section exchange.
Context {S Q : Type} `{Zmq S} `{Fifo Q bytes}.

Definition with_exchange_net (n : ExchangeNode S Q) (m : attempt (ExchangeNet S Q)) : attempt (ExchangeNode S Q) :=
  attempt_map (fun net => mkExchangeNode net (the_exchange n)) m.

(** [~Exchange] joins the threads of its stocks, which never return. *)
Definition delete_Exchange (e : Exchange) : attempt unit :=
  if bool_decide (stock_exchange e = ∅) then Ran (Done tt) else Blocked.

(** [exit_system]: the receiver and the sender are deleted, then the exchange. *)
Definition exchange_exit_system (n : ExchangeNode S Q) : attempt (ExchangeNode S Q) :=
  attempt_map (fun _ => n) (delete_Exchange (the_exchange n)).

Definition exchange_stop_network_sender (n : ExchangeNode S Q) : attempt (ExchangeNode S Q) :=
  with_exchange_net n (exchange_stop_sender (exchange_net n)).
Definition exchange_stop_network_receiver (n : ExchangeNode S Q) : attempt (ExchangeNode S Q) :=
  with_exchange_net n (exchange_stop_receiver (exchange_net n)).
Definition exchange_restart_network (n : ExchangeNode S Q) : attempt (ExchangeNode S Q) :=
  with_exchange_net n (Ran (Done (exchange_restart (exchange_net n)))).
Definition exchange_node_reset_network (c : Config) (n : ExchangeNode S Q) : attempt (ExchangeNode S Q) :=
  with_exchange_net n (Ran (exchange_reset_network c (exchange_net n))).

#[export] Instance exchange_node : Node (ExchangeNode S Q) := {|
  stop_network_sender := exchange_stop_network_sender;
  stop_network_receiver := exchange_stop_network_receiver;
  restart_network := exchange_restart_network;
  reset_network := exchange_node_reset_network;
  exit_system := exchange_exit_system;
|}.

(** [main] up to the console: the configuration from the command line and the
    files, then the global objects. *)
Definition exchange_main (mkq : Z -> outcome Q) (fs : gmap string bytes) (argv : list string)
    : proc (console_state (ExchangeNode S Q)) :=
  if negb (length argv =? 3)%nat then Exited 0
  else
    p ← lift (stoi (arg argv 1));
    let c := set_partition_idx p config_init in
    _ ← lift (check_partition (partition_idx c));
    c ← load_config fs (arg argv 2) c;
    _ ← lift (print_config c);
    let log_buffer := new_LogBuffer in
    r ← lift (new_ExchangeOrderReceiver c);
    t ← lift (new_ExchangeTradeSender mkq c);
    e ← lift (new_Exchange c);
    lift (Done (mkConsole c (mkExchangeNode (mkExchangeNet r t false) e) (Some log_buffer) new_file_logger)).
End exchange.

(** ** The trader *)
Record TraderNode (S Q : Type) := mkTraderNode {
  trader_net : TraderNet S Q;
  trader_files : TraderTradeReceiver;
  controller : TraderController;
  shared_info : SharedTradeInfo;
  trader_fs : gmap string bytes;
}.
Arguments mkTraderNode {S Q} trader_net trader_files controller shared_info trader_fs.
Arguments trader_net {S Q} t.
Arguments trader_files {S Q} t.
Arguments controller {S Q} t.
Arguments shared_info {S Q} t.
Arguments trader_fs {S Q} t.

Section trader.
Context {S Q : Type} `{Zmq S} `{Fifo Q Order} `{FileIO} `{HDF5}.

Definition with_trader_net (n : TraderNode S Q) (m : attempt (TraderNet S Q)) : attempt (TraderNode S Q) :=
  attempt_map (fun net => mkTraderNode net (trader_files n) (controller n) (shared_info n) (trader_fs n)) m.

(** [exit_system]: deleting the controller runs [~TraderTradeReceiver], which
    flushes all trades to their files. *)
Definition trader_exit_system (n : TraderNode S Q) : attempt (TraderNode S Q) :=
  Ran (r ← flush (trader_files n);
       Done (mkTraderNode (trader_net n) r (controller n) (shared_info n) (trader_fs n))).

Definition trader_stop_network_sender (n : TraderNode S Q) : attempt (TraderNode S Q) :=
  with_trader_net n (trader_stop_sender (trader_net n)).
Definition trader_stop_network_receiver (n : TraderNode S Q) : attempt (TraderNode S Q) :=
  with_trader_net n (trader_stop_receiver (trader_net n)).
Definition trader_restart_network (n : TraderNode S Q) : attempt (TraderNode S Q) :=
  with_trader_net n (Ran (Done (trader_restart (trader_net n)))).
Definition trader_node_reset_network (c : Config) (n : TraderNode S Q) : attempt (TraderNode S Q) :=
  with_trader_net n (Ran (trader_reset_network c (trader_net n))).

#[export] Instance trader_node : Node (TraderNode S Q) := {|
  stop_network_sender := trader_stop_network_sender;
  stop_network_receiver := trader_stop_network_receiver;
  restart_network := trader_restart_network;
  reset_network := trader_node_reset_network;
  exit_system := trader_exit_system;
|}.

(** The constructor of [TraderController]: the trade receiver with its files,
    the senders, then the data. *)
Definition new_trader (mkq : Z -> outcome Q) (c : Config) (fs : gmap string bytes) : outcome (TraderNode S Q) :=
  r ← new_TraderTradeReceiver c;
  net ← new_TraderNet mkq c;
  '(tc, info, fs) ← init_TraderController c fs;
  Done (mkTraderNode net r tc info fs).

Definition trader_main (mkq : Z -> outcome Q) (fs : gmap string bytes) (argv : list string)
    : proc (console_state (TraderNode S Q)) :=
  if negb (length argv =? 4)%nat then Exited 0
  else
    p ← lift (stoi (arg argv 1));
    m ← lift (stoi (arg argv 3));
    let c := set_load_mode m (set_partition_idx p config_init) in
    _ ← lift (check_partition (partition_idx c));
    c ← load_config fs (arg argv 2) c;
    _ ← lift (print_config c);
    n ← lift (new_trader mkq c fs);
    lift (Done (mkConsole c n (Some new_LogBuffer) new_file_logger)).
End trader.

(** ** The query tool *)
Section query.
Context `{HDF5}.

(** [std::sort] with the comparison of the order ids. *)
Context (std_sort : (Order -> Order -> bool) -> list Order -> list Order).

Definition order_id_lt (o1 o2 : Order) : bool := o_order_id o1 <? o_order_id o2.

(** The orders of one file, appended to the lists of their stocks. *)
Definition fetch_part (c : Config) (L : LoaderNames) (file_order_count : Z) (part_id : Z)
    (order_list : list (list Order)) : outcome (list (list Order)) :=
  sorted_order_id ← load_order_id_from_file c L part_id;
  m ← load_matrices (set_partition_idx part_id c) L;
  for_lt 10 (fun t => for_lt file_order_count (fun i order_list =>
    row ← array_get sorted_order_id t;
    ss ← array_get row i;
    order ← generate_order (stock_num c) m (t + 1) ss (loader_nx_matrix c) (loader_ny_matrix c) (loader_nz_matrix c);
    array_update order_list (t + 1) (fun l => Done (l ++ [order])))) order_list.

Definition fetch_order_by_config (c : Config) (L : LoaderNames) : outcome (list (list Order)) :=
  n ← orders_per_stock c;
  order_list ← fetch_part c L n 0 (replicate 11 []);
  order_list ← fetch_part c L n 1 order_list;
  Done (map (std_sort order_id_lt) order_list).

(** One query: the orders with the indices from [start] up to [fin]. *)
Definition query (order_list : list (list Order)) (stk_code start fin : Z) : outcome (list Order) :=
  row ← array_get order_list stk_code;
  for_loop (Z.to_nat (fin - start)) start (fun i out => o ← array_get row i; Done (out ++ [o])) [].

Definition query_main (fs : gmap string bytes) : proc (list (list Order)) :=
  c ← load_config fs "../config" config_init;
  lift (fetch_order_by_config c (init_loader c)).

(** The lists are sorted by order id and hold the orders of both files. *)
Lemma fetched_lists c L order_list :
  (forall l, std_sort order_id_lt l ≡ₚ l /\ StronglySorted (fun a b => o_order_id a <= o_order_id b) (std_sort order_id_lt l)) ->
  fetch_order_by_config c L = Done order_list ->
  Forall (StronglySorted (fun a b => o_order_id a <= o_order_id b)) order_list /\
  exists n l0 l1, fetch_part c L n 0 (replicate 11 []) = Done l0 /\ fetch_part c L n 1 l0 = Done l1 /\
                  Forall2 (≡ₚ) order_list l1.
Proof.
  intros Hsort (n & _ & (l0 & E0 & (l1 & E1 & [= <-])%bind_done)%bind_done)%bind_done. split.
  - apply Forall_forall. intros l Hl. apply list_elem_of_fmap in Hl as (l' & -> & _). apply Hsort.
  - exists n, l0, l1. split; [done|]. split; [done|]. clear -Hsort. apply Forall2_fmap_l.
    apply Forall_Forall2_diag, Forall_forall. intros l _. apply Hsort.
Qed.
End query.
