(* ===== verification/ConsoleProps.v ===== *)
(** * Properties of the console

    Pausing and restarting the channels of an exchange from its console, and
    commands that leave the process alone. *)

From stdpp Require Import gmap pretty strings.
From S2P Require Import Prelude Text Bytes Config ConfigLoad BlockQueue Logger Monitor Channel ChannelProps.
From S2P Require Import Exchange Console Node.
From Stdlib Require Import Ascii.
#[local] Open Scope Z_scope.

(** ** Lines to arguments *)
Lemma trim_tail_idem s : trim_tail (trim_tail s) = trim_tail s.
Proof.
  induction s as [|c s IH]; [done|]. cbn [trim_tail]. destruct (trim_tail s) as [|c' t] eqn:E.
  - destruct (blank c) eqn:Eb; [done|]. cbn [trim_tail]. by rewrite Eb.
  - cbn [trim_tail] in *. by rewrite IH.
Qed.

(** Fields are put back together with spaces. *)
Fixpoint unsplit (l : list string) : string :=
  match l with
  | [] => ""
  | [f] => f
  | f :: l => f +:+ String.String " "%char (unsplit l)
  end.

Lemma split_not_nil s : split s <> [].
Proof. destruct s as [|c s]; [done|]. cbn [split]. destruct (Ascii.eqb c " "); [done|]. by destruct (split s). Qed.

Lemma unsplit_split s : unsplit (split s) = s.
Proof.
  induction s as [|c s IH]; [done|]. cbn [split]. pose proof (split_not_nil s) as Hne.
  destruct (Ascii.eqb_spec c " ") as [->|Hc]; destruct (split s) as [|f l] eqn:E; [done| |done|].
  - cbn [unsplit]. destruct l; by rewrite <- IH.
  - cbn [unsplit] in *. destruct l as [|g l]; by rewrite <- IH.
Qed.

Section console.
Context {N : Type} `{Node N} `{ProgramOptions}.
Context (fs : gmap string bytes) (text : Z -> string).

(** Two states of the same process: only what was printed differs. *)
Definition same_process (s s' : console_state N) : Prop :=
  cfg s' = cfg s /\ node s' = node s /\ log_buffer s' = log_buffer s.

Lemma say_same t s : same_process s (say t s).
Proof. done. Qed.

Lemma log_error_same l s s' : log_error l s = Finished s' -> same_process s s'.
Proof.
  unfold log_error. destruct (of_outcome _) as [g| | | |]; [|done..]. cbn [mbind effect_bind].
  destruct (of_outcome (log_pieces l g)) as [g'| | | |]; [|done..]. by intros [= <-].
Qed.

Lemma fail_to_parse_same argv s s' : fail_to_parse argv s = Finished s' -> same_process s s'.
Proof.
  unfold fail_to_parse. destruct (log_error _ s) as [s1| | | |] eqn:E; [|done..]. cbn [mbind effect_bind].
  intros [= <-]. by apply log_error_same in E.
Qed.

(** A command whose only effect is on the process, typed without options. *)
Lemma bare_command desc help_desc cmd (f : N -> attempt N) s :
  defaults desc = ∅ ->
  with_options desc help_desc [cmd] (fun _ => on_node f) s = on_node f s.
Proof. intros Hd. unfold with_options. rewrite parse_bare, Hd. done. Qed.

Lemma on_node_throws (f : N -> attempt N) s code : on_node f s <> Throws (Ubiquant code).
Proof. unfold on_node. destruct (f (node s)) as [|[n|[]]]; done. Qed.

(** What the three commands do that pause and restart the channels. *)
Definition pause_action (cmd : string) : option (N -> attempt N) :=
  if String.eqb cmd "stops" then Some stop_network_sender
  else if String.eqb cmd "stopr" then Some stop_network_receiver
  else if String.eqb cmd "restart" then Some restart_network
  else None.

Lemma run_pause cmd f s : pause_action cmd = Some f -> run_command fs text [cmd] s = on_node f s.
Proof.
  unfold pause_action. intros Hf. assert (Hd : dispatch fs [cmd] s = on_node f s).
  { destruct (String.eqb_spec cmd "stops") as [->|_]; [injection Hf as <-; by apply bare_command|].
    destruct (String.eqb_spec cmd "stopr") as [->|_]; [injection Hf as <-; by apply bare_command|].
    destruct (String.eqb_spec cmd "restart") as [->|_]; [injection Hf as <-; by apply bare_command|done]. }
  unfold run_command. rewrite Hd. destruct (on_node f s) as [a|e|[c|]|c|] eqn:E; try done.
  by apply on_node_throws in E.
Qed.

(** A line with one of them: the action, or a wait without end. *)
Lemma run_pause_line prompt cmd f lines s :
  pause_action cmd = Some f -> CMD2Args (trim cmd) = [cmd] -> String.eqb (trim cmd) "" = false ->
  run_lines fs text prompt (cmd :: lines) s =
    match f (node s) with
    | Blocked => Hangs
    | Ran m => n ← of_outcome m; run_lines fs text prompt lines (set_node n (say (prompt +:+ "> ") s))
    end.
Proof.
  intros Hf Ha He. cbn [run_lines]. rewrite He, Ha, (run_pause _ f) by done. unfold on_node.
  change (node (say _ s)) with (node s). by destruct (f (node s)) as [|[n|[]]].
Qed.
End console.

Section exchange.
Context {S Q : Type} `{Zmq S} `{Fifo Q bytes} `{ProgramOptions}.
Context (fs : gmap string bytes) (text : Z -> string).

Definition locks (n : ExchangeNode S Q) : bool * bool :=
  (trade_send_lock (trade_sender (exchange_net n)), order_recv_lock (order_receiver (exchange_net n))).

(** No message is sent and none is received. *)
Definition paused (n : ExchangeNode S Q) : Prop :=
  (forall idx msg, try_send_trade (trade_sender (exchange_net n)) idx msg = Blocked) /\
  poll_orders (order_receiver (exchange_net n)) = Blocked.

Lemma locked_paused n : locks n = (true, true) -> paused n.
Proof.
  unfold locks, paused, try_send_trade, poll_orders. intros [= -> ->]. done.
Qed.

(** C35: Pausing an exchange from its console: after the lines [stops] and
    [stopr] neither the trade sender sends nor the order receiver polls, and
    the line [restart] puts the process back exactly as it was.  A second
    [stops] before [restart] never returns: the console waits for the lock it
    holds itself. *)
Theorem console_pause prompt (s : console_state (ExchangeNode S Q)) rest
    (Hfree : locks (node s) = (false, false)) :
  (exists s1, run_lines fs text prompt ("stops" :: "stopr" :: rest)%string s = run_lines fs text prompt rest s1 /\
              paused (node s1) /\ cfg s1 = cfg s) /\
  (exists s2, run_lines fs text prompt ("stops" :: "stopr" :: "restart" :: rest)%string s
                = run_lines fs text prompt rest s2 /\ same_process s s2) /\
  run_lines fs text prompt ("stops" :: "stops" :: rest)%string s = Hangs.
Proof.
  destruct s as [c [[[m rl] [ms q sl] r] e] lb g]. unfold locks in Hfree. cbn in Hfree. injection Hfree as -> ->.
  rewrite !(run_pause_line fs text prompt "stops" stop_network_sender) by reflexivity.
  split; [|split]; cbn -[run_lines pause_action].
  - rewrite (run_pause_line fs text prompt "stopr" stop_network_receiver) by reflexivity.
    eexists. split; [reflexivity|]. split; [by apply locked_paused|done].
  - rewrite (run_pause_line fs text prompt "stopr" stop_network_receiver) by reflexivity.
    cbn -[run_lines pause_action].
    rewrite (run_pause_line fs text prompt "restart" restart_network) by reflexivity.
    eexists. split; [reflexivity|]. done.
  - by rewrite (run_pause_line fs text prompt "stops" stop_network_sender).
Qed.
End exchange.

(** ** Options without any syntax *)
Lemma defaults_declared desc k v : defaults desc !! k = Some v -> exists kind, (k, kind) ∈ desc.
Proof.
  induction desc as [|[k' kind] desc IH]; [done|].
  change (defaults ((k', kind) :: desc))
    with (match kind with Int (Some z) => <[k' := VInt z]> (defaults desc) | _ => defaults desc end).
  intros E.
  assert (Hcase : k = k' \/ defaults desc !! k = Some v).
  { destruct (decide (k = k')) as [|Hne]; [by left|]. right.
    destruct kind as [| |[z|]]; try exact E. by rewrite lookup_insert_ne in E. }
  destruct Hcase as [->|Hd]; [exists kind; apply elem_of_cons; by left|].
  destruct (IH Hd) as [kd Hk]. exists kd. apply elem_of_cons. by right.
Qed.

Definition demo_parse (argv : list string) (desc : options_description) : option variables_map :=
  match argv with [_] => Some (defaults desc) | _ => None end.

#[export] Program Instance demo_options : ProgramOptions := {|
  parse_command_line := demo_parse;
  show_desc _ := ""%string;
  show_all := ""%string;
|}.
Next Obligation.
  intros argv desc vm k v E. destruct argv as [|cmd [|]]; [done| |done]. injection E as <-. apply defaults_declared.
Qed.
Next Obligation. done. Qed.

Definition demo_node : ExchangeNode demo_socket (Stl.BlockQueueSTL bytes) :=
  mkExchangeNode
    (mkExchangeNet (mkExchangeOrderReceiver demo_receiver false)
       (mkExchangeTradeSender [] (Stl.new_BlockQueueSTL 10) false) false)
    (mkExchange ∅ ∅).

Definition demo_console : console_state (ExchangeNode demo_socket (Stl.BlockQueueSTL bytes)) :=
  mkConsole demo_net demo_node (Some new_LogBuffer) new_file_logger.

Lemma console_pause_witness :
  run_lines ∅ (fun _ => ""%string) "Exchange[0]" ["stops"; "stops"]%string demo_console = Hangs /\
  exists s2, run_lines ∅ (fun _ => ""%string) "Exchange[0]" ["stops"; "stopr"; "restart"]%string demo_console
               = run_lines ∅ (fun _ => ""%string) "Exchange[0]" [] s2 /\ same_process demo_console s2.
Proof.
  destruct (console_pause ∅ (fun _ => ""%string) "Exchange[0]" demo_console [] eq_refl) as (_ & H2 & H3).
  split; [exact H3|exact H2].
Defined.

(** ** Commands as they are and as they are documented *)
Section commands.
Context {N : Type} `{Node N} `{ProgramOptions}.
Context (fs : gmap string bytes) (text : Z -> string).
Implicit Types (s : console_state N).

(** The help text names [check] and [reset-network]; the console knows [ls]
    and [reset-net] instead. *)
Lemma documented_names_unknown args s :
  dispatch fs ("check" :: args)%string s = fail_to_parse ("check" :: args)%string s /\
  dispatch fs ("reset-network" :: args)%string s = fail_to_parse ("reset-network" :: args)%string s.
Proof. done. Qed.

(** A level out of range ends the process with an access outside the table of
    names, on the way to reporting it. *)
Lemma run_logger_out_of_range argv s vm level :
  parse_command_line argv logger_desc = Some vm -> count vm "help" = false -> count vm "-v" = false ->
  vm !! "-s"%string = Some (VInt level) -> level < 0 \/ 7 < level ->
  run_logger argv s = Crashed OutOfBounds.
Proof.
  intros Hp Hh Hv Hs Hl. unfold run_logger, with_options. rewrite Hp, Hh, Hv. unfold count, as_int. rewrite Hs.
  cbn [mbind effect_bind]. unfold LOG_EVERYTHING, LOG_NONE.
  replace ((level >=? 0) && (level <=? 7)) with false by (symmetry; apply andb_false_iff; lia).
  unfold array_get. destruct (Z.ltb_spec level 0); [done|].
  by rewrite lookup_ge_None_2 by (cbn; lia).
Qed.

(** The options -b, -n, -v and -g are read but never declared: a query in
    single mode throws an exception nobody catches. *)
Lemma sparql_single_throws argv s vm fname contents :
  parse_command_line argv sparql_desc = Some vm -> count vm "help" = false ->
  vm !! "-f"%string = Some (VString fname) -> text_file fs fname = Some contents ->
  run_sparql fs argv s = Throws Foreign.
Proof.
  intros Hp Hh Hf Hfile. unfold run_sparql, with_options. rewrite Hp, Hh.
  assert (Hno : forall k, k ∉ map fst sparql_desc -> vm !! k = None).
  { intros k Hk. destruct (vm !! k) as [v|] eqn:E; [|done]. destruct (parse_declared _ _ _ _ _ Hp E) as [kind Hkind].
    exfalso. apply Hk, list_elem_of_fmap. by exists (k, kind). }
  assert (Hcf : count vm "-f" = true) by (unfold count; by rewrite Hf).
  assert (Hcb : count vm "-b" = false) by (unfold count; by rewrite Hno by (by apply (bool_decide_unpack _))).
  assert (Hsf : as_string vm "-f" = Finished fname) by (unfold as_string; by rewrite Hf).
  assert (Hin : as_int vm "-n" = Throws Foreign) by (unfold as_int; by rewrite Hno by (by apply (bool_decide_unpack _))).
  rewrite Hcf, Hcb, Hsf. cbn [xorb negb]. unfold mbind, effect_bind. rewrite Hfile.
  unfold as_int at 1. destruct (vm !! "-m"%string) as [[]|]; try done. by rewrite Hin.
Qed.
End commands.

(** Leaving an exchange that serves a stock does not end the process: the
    destructor waits for the threads of its stocks. *)
Lemma exchange_quit_hangs {S Q} `{Zmq S} `{Fifo Q bytes} `{ProgramOptions}
    (fs : gmap string bytes) (s : console_state (ExchangeNode S Q)) cmd args :
  stock_exchange (the_exchange (node s)) <> ∅ -> cmd = "quit"%string \/ cmd = "q"%string ->
  dispatch fs (cmd :: args) s = Hangs.
Proof.
  intros Hne Hcmd. assert (Hd : dispatch fs (cmd :: args) s = run_quit s) by (by destruct Hcmd as [-> | ->]).
  rewrite Hd. unfold run_quit. cbn. unfold exchange_exit_system, delete_Exchange. by rewrite bool_decide_false.
Qed.
