(* ===== verification/OutputDiff.v ===== *)
(** * Comparing the trades of two runs

    The tool [src/output_diff.cpp] over two trade files, and the printing and
    comparison of trade lists of [src/common/type.hpp] and
    [src/exchange/debug.hpp].  The text of a price ([%.2f]) is a parameter;
    the standard output is a string. *)

From stdpp Require Import pretty strings.
From S2P Require Import Prelude Text Double Bytes Types BlockQueue Messages Trader TradeReceiver TradeReceiverProps.
#[local] Open Scope Z_scope.

Definition tab : string := String (Ascii.ascii_of_nat 9) "".
Definition newline : string := String (Ascii.ascii_of_nat 10) "".

Section output.
Context (f2 : double -> string).

(** [Order::print], [Trade::print] and [CommTrade::print]. *)
Definition print_Order (o : Order) : string :=
  "[" +:+ pretty (o_stk_code o) +:+ "] order_id: " +:+ pretty (o_order_id o) +:+
  tab +:+ "direction: " +:+ pretty (o_direction o) +:+ tab +:+ "type: " +:+ pretty (o_type o) +:+
  tab +:+ "price: " +:+ f2 (o_price o) +:+ tab +:+ ", volume: " +:+ pretty (o_volume o) +:+ newline.

Definition print_bid_ask (stk_code bid_id ask_id : Z) (price : double) (volume : Z) : string :=
  "[" +:+ pretty stk_code +:+ "] bid_id: " +:+ pretty bid_id +:+
  tab +:+ "ask_id: " +:+ pretty ask_id +:+ tab +:+ "price: " +:+ f2 price +:+
  tab +:+ ", volume: " +:+ pretty volume +:+ newline.

Definition print_Trade (t : Trade) : string :=
  print_bid_ask (t_stk_code t) (t_bid_id t) (t_ask_id t) (t_price t) (t_volume t).

Definition print_CommTrade (t : CommTrade) : string :=
  "CommTrade " +:+ print_bid_ask (ct_stk_code t) (ct_bid_id t) (ct_ask_id t) (ct_price t) (ct_volume t).

(** [printTrade], [printTradeList]. *)
Definition printTrade (t : Trade) : string :=
  "[" +:+ pretty (t_stk_code t) +:+ "] " +:+ pretty (t_bid_id t) +:+ " <- " +:+ pretty (t_ask_id t) +:+
  tab +:+ f2 (t_price t) +:+ tab +:+ "* " +:+ pretty (t_volume t) +:+ newline.

Fixpoint print_trades_from (i : Z) (tv : list Trade) : string :=
  match tv with
  | [] => ""
  | t :: tv => pretty i +:+ ":" +:+ tab +:+ printTrade t +:+ print_trades_from (i + 1) tv
  end.

Definition printTradeList (tv : list Trade) : string := print_trades_from 0 tv.

(** [diffTradeList]: what it prints and returns. *)
Definition trade_valid (t1 t2 : Trade) : bool :=
  (t_stk_code t1 =? t_stk_code t2) && (t_bid_id t1 =? t_bid_id t2) && (t_ask_id t1 =? t_ask_id t2)
  && deq (t_price t1) (t_price t2) && (t_volume t1 =? t_volume t2).

Fixpoint diff_trades_from (i : Z) (v1 v2 : list Trade) : string * bool :=
  match v1, v2 with
  | t1 :: v1, t2 :: v2 =>
      if negb (trade_valid t1 t2)
      then ("Differ at [" +:+ pretty i +:+ "]" +:+ newline +:+ printTrade t1 +:+ printTrade t2, false)
      else diff_trades_from (i + 1) v1 v2
  | _, _ => ("", true)
  end.

Definition diffTradeList (v1 v2 : list Trade) : string * bool :=
  let size1 := Z.of_nat (length v1) in
  let size2 := Z.of_nat (length v2) in
  if negb (size1 =? size2)
  then ("size1=" +:+ pretty size1 +:+ ", size2=" +:+ pretty size2 +:+ newline, false)
  else diff_trades_from 0 v1 v2.

(** ** [src/output_diff.cpp] *)

(** A file that cannot be opened is reported and has no trades. *)
Definition read_trade_file (filename : string) (contents : option bytes) : string * list Trade :=
  match contents with
  | None => ("Error while open " +:+ filename +:+ newline, [])
  | Some contents => ("", read_trade_from_file contents)
  end.

(** The loop over [k] from [i - 10] to [i + 9]. *)
Definition print_around (answer output : list Trade) (i : Z) : outcome string :=
  for_lt 20 (fun j out =>
    a ← array_get answer (i - 10 + j);
    b ← array_get output (i - 10 + j);
    Done (out +:+ print_Trade a +:+ print_Trade b +:+ newline)) "".

Definition diff_report (answer output : list Trade) : outcome string :=
  match first_diff answer output 0 with
  | None => Done ""
  | Some i => around ← print_around answer output i;
      Done ("diff at [" +:+ pretty i +:+ "]" +:+ newline +:+ around)
  end.

(** [main], over the contents of the files. *)
Definition output_diff_main (open_file : string -> option bytes) (args : list string) : outcome string :=
  match args with
  | [name1; name2] =>
      let '(err1, answer) := read_trade_file name1 (open_file name1) in
      let '(err2, output) := read_trade_file name2 (open_file name2) in
      report ← diff_report answer output;
      Done (err1 +:+ err2 +:+ "answer size: " +:+ pretty (Z.of_nat (length answer)) +:+ newline +:+
            "output size: " +:+ pretty (Z.of_nat (length output)) +:+ newline +:+ report)
  | _ => Done ("usage: output_diff <answer> <our_output>" +:+ newline)
  end.

(** ** Properties *)

(** Two files agree on a trade when they have the same stock, ids and volume
    and the prices are the same number: equal, with one zero and no NaN. *)
Definition same_price (x y : double) : Prop :=
  x <> S754_nan /\ (x = y \/ exists s s', x = S754_zero s /\ y = S754_zero s').

Definition same_trade (t1 t2 : Trade) : Prop :=
  t_stk_code t1 = t_stk_code t2 /\ t_bid_id t1 = t_bid_id t2 /\ t_ask_id t1 = t_ask_id t2 /\
  same_price (t_price t1) (t_price t2) /\ t_volume t1 = t_volume t2.

Lemma deq_same x y : deq x y = true <-> same_price x y.
Proof.
  unfold same_price. split.
  - intros E. destruct (deq_ordered x y E) as [Hx Hy]. split; [intros ->; done|].
    apply deq_key in E; [|done..].
    destruct x as [s|[]| |[] mx ex], y as [s'|[]| |[] my ey]; simpl in E; try discriminate; eauto;
      injection E as ? ?; left; f_equal; lia.
  - intros (Hn & [<-|(s & s' & -> & ->)]); [|by destruct s, s']. apply deq_refl. by destruct x.
Qed.

Lemma trade_ne_same t1 t2 : trade_ne t1 t2 = false <-> same_trade t1 t2.
Proof.
  unfold trade_ne, same_trade, dne. pose proof (deq_same (t_price t1) (t_price t2)) as Hp. unfold deq in Hp.
  rewrite !orb_false_iff, !negb_false_iff, Hp, !Z.eqb_eq. tauto.
Qed.

(** The loop of [main] finds the first common index at which the comparison
    tells the trades apart. *)
Lemma first_diff_finds answer output i :
  match first_diff answer output i with
  | Some d => exists k t1 t2, d = i + Z.of_nat k /\ answer !! k = Some t1 /\ output !! k = Some t2 /\
      trade_ne t1 t2 = true /\
      (forall j u1 u2, (j < k)%nat -> answer !! j = Some u1 -> output !! j = Some u2 -> trade_ne u1 u2 = false)
  | None => forall j u1 u2, answer !! j = Some u1 -> output !! j = Some u2 -> trade_ne u1 u2 = false
  end.
Proof.
  revert output i. induction answer as [|t1 answer IH]; intros [|t2 output] i; simpl; try done.
  destruct (trade_ne t1 t2) eqn:Et.
  + exists 0%nat, t1, t2. split_and!; try done; lia.
  + specialize (IH output (i + 1)). destruct (first_diff answer output (i + 1)) as [d|].
    * destruct IH as (k & u1 & u2 & -> & H1 & H2 & Hne & Hbefore). exists (S k), u1, u2.
      split_and!; try done; [lia|]. intros [|j] v1 v2 Hj Hv1 Hv2; simpl in *; [congruence|].
      eapply (Hbefore j); eauto. lia.
    * intros [|j] u1 u2 H1 H2; simpl in *; [congruence|]. by eapply IH.
Qed.

Lemma trade_valid_ne t1 t2 : trade_valid t1 t2 = negb (trade_ne t1 t2).
Proof.
  unfold trade_valid, trade_ne, dne, deq. rewrite !negb_orb, !negb_involutive.
  by rewrite <- !andb_assoc, (andb_assoc (t_bid_id t1 =? _)), (andb_comm (t_bid_id t1 =? _)), <- !andb_assoc.
Qed.

Lemma diff_trades_first_diff i v1 v2 :
  (diff_trades_from i v1 v2).2 = true <-> first_diff v1 v2 i = None.
Proof.
  revert i v2. induction v1 as [|t1 v1 IH]; intros i [|t2 v2]; simpl; try done.
  rewrite trade_valid_ne, negb_involutive. by destruct (trade_ne t1 t2).
Qed.

(** [diffTradeList] accepts exactly the lists of one length that the tool
    finds no difference in. *)
Lemma diffTradeList_accepts v1 v2 :
  (diffTradeList v1 v2).2 = true <-> length v1 = length v2 /\ diff_report v1 v2 = Done "".
Proof.
  unfold diffTradeList, diff_report.
  destruct (Z.eqb_spec (Z.of_nat (length v1)) (Z.of_nat (length v2))) as [E|E]; cbn [negb].
  - rewrite diff_trades_first_diff. destruct (first_diff v1 v2 0) as [d|].
    + split; [done|]. intros [_ H]. by destruct (print_around v1 v2 d).
    + split; [|done]. intros _. split; [lia|done].
  - split; [done|]. intros [E' _]. lia.
Qed.

(** The records around a difference are printed exactly when all twenty of
    them exist in both files; otherwise an access is out of bounds. *)
Lemma print_around_bounds answer output i :
  is_done (print_around answer output i) = true <->
  10 <= i /\ i + 10 <= Z.of_nat (length answer) /\ i + 10 <= Z.of_nat (length output).
Proof.
  split.
  - unfold print_around, is_done. destruct (for_lt _ _ _) as [out|] eqn:E; [intros _|done].
    assert (Hk : 0 < 20 -> 10 <= i /\ i - 10 + 20 <= Z.of_nat (length answer) /\
      i - 10 + 20 <= Z.of_nat (length output)); [|lia].
    refine (for_lt_done (fun j _ => 0 < j -> 10 <= i /\ i - 10 + j <= Z.of_nat (length answer) /\
      i - 10 + j <= Z.of_nat (length output)) 20 _ "" out _ _ E _); [lia|simpl; lia|].
    intros j s s1 Hj IH.
    destruct (array_get answer (i - 10 + j)) as [a|] eqn:Ea; [|done].
    rewrite bind_Done. destruct (array_get output (i - 10 + j)) as [b|] eqn:Eb; [|done]. intros _ _.
    apply array_get_inv in Ea as [Ha Ea], Eb as [_ Eb].
    apply lookup_lt_Some in Ea, Eb. destruct (decide (j = 0)) as [->|]; [lia|].
    destruct IH as (? & _); lia.
  - intros (H1 & H2 & H3). unfold print_around.
    destruct (for_lt_inv (fun _ (_ : string) => True) 20 (fun j out =>
      a ← array_get answer (i - 10 + j); b ← array_get output (i - 10 + j);
      Done (out +:+ print_Trade a +:+ print_Trade b +:+ newline)) "") as (s' & -> & _); try done.
    intros j s Hj _.
    destruct (array_get_total answer (i - 10 + j)) as (a & _ & ->); [lia|].
    destruct (array_get_total output (i - 10 + j)) as (b & _ & ->); [lia|].
    rewrite !bind_Done. by eexists.
Qed.

(** A difference among the first ten records is never reported. *)
Lemma early_diff_out_of_bounds open_file n1 n2 c1 c2 i :
  open_file n1 = Some c1 -> open_file n2 = Some c2 ->
  first_diff (read_trade_from_file c1) (read_trade_from_file c2) 0 = Some i -> i < 10 ->
  is_done (output_diff_main open_file [n1; n2]) = false.
Proof.
  intros E1 E2 Ed Hi. unfold output_diff_main. rewrite E1, E2. cbn [read_trade_file].
  unfold diff_report. rewrite Ed.
  pose proof (print_around_bounds (read_trade_from_file c1) (read_trade_from_file c2) i) as H.
  destruct (print_around _ _ i); [|done]. destruct H as [H _]. specialize (H eq_refl). lia.
Qed.
(** The records of both files, one pair after the other. *)
Fixpoint side_by_side (l : list (Trade * Trade)) : string :=
  match l with
  | [] => ""
  | (a, b) :: l => print_Trade a +:+ print_Trade b +:+ newline +:+ side_by_side l
  end.

Lemma side_by_side_snoc l a b :
  side_by_side (l ++ [(a, b)]) = side_by_side l +:+ print_Trade a +:+ print_Trade b +:+ newline.
Proof.
  induction l as [|[a' b'] l IH]; [cbn [app side_by_side]; by rewrite string_app_nil_r|].
  cbn [app side_by_side]. by rewrite IH, !string_app_assoc.
Qed.

(** What is printed around a difference, *)
Lemma print_around_text answer output i :
  10 <= i -> i + 10 <= Z.of_nat (length answer) -> i + 10 <= Z.of_nat (length output) ->
  print_around answer output i = Done (side_by_side (take 20 (drop (Z.to_nat (i - 10)) (zip answer output)))).
Proof.
  intros Hi Ha Hb. unfold print_around. set (l := drop (Z.to_nat (i - 10)) (zip answer output)).
  destruct (for_lt_inv (fun j out => out = side_by_side (take (Z.to_nat j) l)) 20 (fun j out =>
    a ← array_get answer (i - 10 + j); b ← array_get output (i - 10 + j);
    Done (out +:+ print_Trade a +:+ print_Trade b +:+ newline)) "") as (s' & E & ->); [lia|done| |exact E].
  intros j s Hj ->.
  destruct (array_get_total answer (i - 10 + j)) as (a & La & ->); [lia|].
  destruct (array_get_total output (i - 10 + j)) as (b & Lb & ->); [lia|].
  rewrite !bind_Done. eexists. split; [done|].
  replace (Z.to_nat (j + 1)) with (S (Z.to_nat j)) by lia.
  rewrite (take_S_r l _ (a, b)); [by rewrite side_by_side_snoc|].
  unfold l. rewrite lookup_drop. apply lookup_zip_with_Some. exists a, b.
  by replace (Z.to_nat (i - 10) + Z.to_nat j)%nat with (Z.to_nat (i - 10 + j)) by lia.
Qed.

(** or the access that goes out of bounds. *)
Lemma print_around_fault answer output i :
  ~ (10 <= i /\ i + 10 <= Z.of_nat (length answer) /\ i + 10 <= Z.of_nat (length output)) ->
  print_around answer output i = Fault OutOfBounds.
Proof.
  intros Hn. rewrite <- print_around_bounds in Hn. destruct (print_around answer output i) as [out|f] eqn:E; [done|].
  f_equal. apply (for_lt_fault (fun f => f = OutOfBounds)) in E; [done|].
  assert (Hget : forall (l : list Trade) k f', array_get l k = Fault f' -> f' = OutOfBounds).
  { intros l k f'. unfold array_get. case_if; [congruence|]. destruct (l !! Z.to_nat k); congruence. }
  intros j s f' E'. destruct (array_get answer (i - 10 + j)) eqn:Ea; [rewrite bind_Done in E'|injection E' as <-; eauto].
  destruct (array_get output (i - 10 + j)) eqn:Eb; [done|]. injection E' as <-. eauto.
Qed.

(** The lines about the sizes of the files. *)
Definition sizes_text (answer output : list Trade) : string :=
  "answer size: " +:+ pretty (Z.of_nat (length answer)) +:+ newline +:+
  "output size: " +:+ pretty (Z.of_nat (length output)) +:+ newline.

Lemma output_diff_files open_file n1 n2 answer output :
  open_file n1 = Some (trades_data answer) -> open_file n2 = Some (trades_data output) ->
  Forall (fun t => valid_Trade t = true) answer -> Forall (fun t => valid_Trade t = true) output ->
  output_diff_main open_file [n1; n2] =
    (report ← diff_report answer output; Done (sizes_text answer output +:+ report)).
Proof.
  intros E1 E2 H1 H2. unfold output_diff_main. rewrite E1, E2. cbn [read_trade_file].
  unfold read_trade_from_file. rewrite !read_trades_data by (done || (rewrite trades_data_length; lia)).
  destruct (diff_report answer output) as [r|f]; [|done]. rewrite !bind_Done. unfold sizes_text.
  by rewrite !string_app_assoc.
Qed.

(** C34: The comparison of two trade files, from the files to the text.  When
    the common part of the files has the same trades, that is the same stocks,
    ids, volumes and prices, nothing but the sizes of the files is printed;
    trades that follow in the longer file are not reported.  Otherwise the
    tool reports the index of the first trade that is not the same, with the
    ten records of both files before it, it, and the nine after it; if one of
    these does not exist, the tool reads out of bounds. *)
Theorem output_diff_finds open_file n1 n2 answer output :
  open_file n1 = Some (trades_data answer) -> open_file n2 = Some (trades_data output) ->
  Forall (fun t => valid_Trade t = true) answer -> Forall (fun t => valid_Trade t = true) output ->
  ((forall j t1 t2, answer !! j = Some t1 -> output !! j = Some t2 -> same_trade t1 t2) ->
     output_diff_main open_file [n1; n2] = Done (sizes_text answer output)) /\
  (forall k t1 t2, answer !! k = Some t1 -> output !! k = Some t2 -> ~ same_trade t1 t2 ->
     (forall j u1 u2, (j < k)%nat -> answer !! j = Some u1 -> output !! j = Some u2 -> same_trade u1 u2) ->
     output_diff_main open_file [n1; n2] =
       if decide (10 <= k /\ k + 10 <= length answer /\ k + 10 <= length output)%nat
       then Done (sizes_text answer output +:+ "diff at [" +:+ pretty (Z.of_nat k) +:+ "]" +:+ newline +:+
                  side_by_side (take 20 (drop (k - 10) (zip answer output))))
       else Fault OutOfBounds).
Proof.
  intros E1 E2 H1 H2. rewrite (output_diff_files open_file n1 n2 answer output) by done. unfold diff_report.
  pose proof (first_diff_finds answer output 0) as Hd. split.
  - intros Hsame. destruct (first_diff answer output 0) as [d|].
    + destruct Hd as (k & t1 & t2 & _ & L1 & L2 & Hne & _). pose proof (Hsame k t1 t2 L1 L2) as Hs.
      apply trade_ne_same in Hs. congruence.
    + rewrite bind_Done. by rewrite string_app_nil_r.
  - intros k t1 t2 L1 L2 Hdiff Hbefore. rewrite <- trade_ne_same, not_false_iff_true in Hdiff.
    destruct (first_diff answer output 0) as [d|]; [|by rewrite (Hd k t1 t2 L1 L2) in Hdiff].
    destruct Hd as (m & u1 & u2 & -> & M1 & M2 & Hne & Hmin). assert (m = k) as ->.
    { destruct (lt_eq_lt_dec m k) as [[Hlt| ->]|Hlt]; [|done|by rewrite (Hmin k t1 t2 Hlt L1 L2) in Hdiff].
      pose proof (Hbefore m u1 u2 Hlt M1 M2) as Hs. apply trade_ne_same in Hs. congruence. }
    rewrite Z.add_0_l. case_decide as Hb.
    + rewrite print_around_text, !bind_Done by lia. by replace (Z.to_nat (Z.of_nat k - 10)) with (k - 10)%nat by lia.
    + by rewrite print_around_fault by lia.
Qed.
End output.

(** Twenty trades, of which the output has the eleventh with another volume. *)
Definition demo_answer : list Trade := replicate 20 (mkTrade 1 4 2 (double_of_Z 10) 100).
Definition demo_output : list Trade := <[10%nat := mkTrade 1 4 2 (double_of_Z 10) 99]> demo_answer.
Definition demo_files (name : string) : option bytes :=
  if String.eqb name "answer" then Some (trades_data demo_answer)
  else if String.eqb name "output" then Some (trades_data demo_output) else None.

Lemma output_diff_finds_witness :
  output_diff_main (fun _ => "10.00") demo_files ["answer"; "answer"] = Done (sizes_text demo_answer demo_answer) /\
  output_diff_main (fun _ => "10.00") demo_files ["answer"; "output"] =
    Done (sizes_text demo_answer demo_output +:+ "diff at [10]" +:+ newline +:+
          side_by_side (fun _ => "10.00") (zip demo_answer demo_output)).
Proof.
  assert (Ha : Forall (fun t => valid_Trade t = true) demo_answer) by (apply (bool_decide_unpack _); vm_compute; exact I).
  assert (Ho : Forall (fun t => valid_Trade t = true) demo_output) by (apply (bool_decide_unpack _); vm_compute; exact I).
  split.
  - apply (proj1 (output_diff_finds (fun _ => "10.00") demo_files "answer" "answer" demo_answer demo_answer eq_refl eq_refl Ha Ha)).
    intros j t1 t2 E1 E2. assert (t1 = t2) as -> by congruence. apply lookup_replicate in E1 as [-> _].
    repeat split; [discriminate|by left].
  - rewrite (proj2 (output_diff_finds (fun _ => "10.00") demo_files "answer" "output" demo_answer demo_output eq_refl eq_refl Ha Ho)
      10%nat (mkTrade 1 4 2 (double_of_Z 10) 100) (mkTrade 1 4 2 (double_of_Z 10) 99) eq_refl eq_refl).
    + vm_compute. reflexivity.
    + intros (_ & _ & _ & _ & E). discriminate E.
    + intros j u1 u2 Hj E1 E2. unfold demo_output in E2. rewrite list_lookup_insert_ne in E2 by lia.
      assert (u1 = u2) as -> by congruence. apply lookup_replicate in E1 as [-> _]. repeat split; [discriminate|by left].
Defined.
